(* ===== verification/_CoqProject ===== *)
-Q . S2P
Prelude.v
Pf.v
Checksum.v
Pkt.v
Pktq.v
Fib.v
Headers.v
Stats.v
Stack.v
Link.v
Arp.v
IpOut.v
Rfc.v
Icmp.v
Reass.v
Sock.v
Udp.v
Tcb.v
TcpOut.v
Tcp.v
TcpInput.v
TcpTimer.v
Deliver.v
Recover.v
TcpSock.v
Fwd.v
Input.v
Core.v
Text.v
Cli.v
Loop.v
Stream.v
Close.v
Own.v
Run.v
Apps.v
Services.v
Fuzz.v
Findings.v
