(* ===== verification/Prelude.v ===== *)
(** * PacketForge: a verification library

    PacketForge is a userspace TCP/IP stack and router in C. Frames enter at
    [eth_input], which hands them to ARP or IPv4; IPv4 validates a datagram and
    then forwards it, reassembles it, or delivers it to ICMP, UDP or TCP.
    Everything sent goes down through [ip_output], [arp_resolve] and
    [eth_output] to a device. A periodic [pf_tick] drives the timers, and
    applications use a socket API. All state is one [struct pf_stack]. This
    library translates the C functions under [src/src/] to Rocq functions and
    proves what makes them correct. Paths below are relative to [src/src/].

    ** How the code is represented

    - An unsigned C integer is a [Z]; every operation that can leave the range
      is wrapped explicitly with [u8], [u16], [u32] or [u64]. Bytes are [Z]
      values, a memory region is a list of them, and [byte_ok]/[bytes_ok] state
      that they are in range. Big-endian fields hold the value a native load
      gives, so the [pf_ntohs]/[pf_htons] calls of the source appear.
    - A struct is a record ([r <| f := v |>] updates a field), an enum an
      inductive type with the source's constructors. A pointer into one of
      the stack's arrays is an index, NULL is [None].
    - A handler is a function of the state monad [M world]. A [world] is the
      stack, the value [pf_now_ms] returns and the trace of frames handed to
      the drivers. A run ends normally ([Ok]) or in a [crash]: a failed
      [PF_ASSERT], an access outside an object, a division by zero, or the
      fuel of an unbounded loop used up. Because these are outcomes of the
      model, a theorem that says a handler returns [Ok] is a memory-safety and
      termination result. [wp m Q w] says that [m] returns from [w] and that
      [Q] holds of the result; the component lemmas are stated with it.
    - What a step leaves alone is stated by the erasures of [Link]:
      [erase_tx] forgets the counters and the wire, [erase_arp], [erase_ip],
      [erase_icmp], [erase_l4] and [erase_in] also the state of the layers
      above, and [erase_x w = erase_x w'] says that nothing else changed.

    ** Files

    - [Prelude]: integers, records, outcomes, the monad, shared automation.
    - [Pf]: byte order ([core/pf.h]). [Checksum]: the Internet checksum
      ([ipv4/checksum.c]).
    - [Pkt], [Pktq]: packet buffers and linked queues ([core/pkt.c]). The
      components above use the list a queue represents.
    - [Fib]: the routing trie ([route/fib.c]).
    - [Headers]: the packed wire structs. [Stats]: counters
      ([core/stats.c], [core/stats.h]).
    - [Stack]: [struct pf_stack] and the state of all modules, the monad's
      operations on it ([core/stack.h] and the module headers).
    - [Link]: [netdev_tx] and [eth_output]. [Arp]: [arp/arp.c].
    - [IpOut]: the output half of [ipv4/ipv4.c]. [Icmp]: [icmp/icmp.c].
      [Reass]: [ipv4/ip_reass.c]. [Fwd]: [fwd/fwd.c].
    - [Rfc]: the fields of a datagram as numbers at byte offsets and the address
      ranges, read off the RFCs; the specifications of [Icmp], [Fwd] and
      [Input] are stated with them, not with the code's own predicates.
    - [Sock]: the socket table of [udp/sock.c]. [Udp]: [udp/udp.c] and the
      datagram calls.
    - [Tcb], [TcpOut], [Tcp], [TcpInput], [TcpTimer], [TcpSock]: [tcp/]. [Tcb]
      has what works on one control block, [Tcp] connection management and
      received data, [TcpInput] the SEGMENT ARRIVES state machine cut at its
      stages. [Deliver] puts the two ends of a connection together, [Recover]
      adds the retransmission round between them.
    - [Input]: the input half of [ipv4/ipv4.c] and [eth_input].
    - [Core]: [core/stack.c] and the invariant of the whole stack.
    - [Own]: the references between sockets and control blocks, followed
      through every operation of the stack.
    - [Text]: [core/log.c]. [Cli]: [cli/cli.c], over a
      state that adds the command-line server and the bytes written to clients.
      [Loop]: [netdev/loop_linux.c], a round as a function of what the system
      calls report.
    - [Stream]: the stream calls of [TcpSock] and the invariant; waiting.
      [Close]: orderly release, from the closing end to end of file at the peer.
      [Run]: runs of the whole stack as a transition system.
    - [Apps]: the drivers [netdev/tap_linux.c] and [netdev/clock_linux.c],
      [apps/app_common.h] and [apps/pfstack.c]. [Services]:
      [apps/udp_echo.c], [apps/tcp_echo.c] and [apps/httpd.c] (these paths are
      relative to [src/]). [Fuzz]: [fuzz/parse_harness.c].
    - [Findings]: where the code does not do what it means to, each shown as a
      theorem about the model of the code as it is.

    ** What the theorems show

    - The whole: in every state reachable by configuring devices, receiving
      arbitrary frames, changing routes, ticking and using sockets, the
      invariants of all layers hold and the next event is handled without a
      fault ([Run.run_safe]; what it excludes is listed below); it rests on the same statement for one frame
      ([Input.eth_input_safe]), one segment ([TcpInput.tcp_input_safe]) and
      one timer sweep ([TcpTimer.tcp_tick_safe]). The invariants are
      [link_wf] (devices and ARP), [net_wf] (routes and addresses),
      [reass_wf], [socktab_wf], [tcp_wf] and their conjunction [stack_wf].
    - Data structures against abstract ones: the packet queue refines a list
      ([Pktq]), the trie a finite map with longest-prefix match ([Fib]), the
      range list of a reassembly context a set of received bytes
      ([Reass.ranges_insert_correct]), the out-of-order queue a sorted set of
      disjoint segments ([Tcb.ooo_insert_sorted]).
    - Data transfer: fragmentation followed by reassembly in any order is the
      identity ([Reass.frag_reass_roundtrip]); a UDP datagram arrives as sent
      ([Udp.udp_message_delivered]); TCP reassembles a byte stream from
      segments in any order ([TcpInput.tcp_rx_stream]), what [tcp_output]
      puts in flight becomes readable at the peer ([TcpOut.tcp_output_stream],
      [Deliver.tcp_segment_delivered], [Deliver.tcp_transfer]), an
      acknowledgement frees exactly what it covers ([Recover.tcp_ack_stream])
      and a lost segment or acknowledgement is made good by the timer
      ([Recover.tcp_loss_recovered], [Recover.tcp_lost_ack_recovered]) or the
      third duplicate ([Recover.tcp_fast_retransmit]), closing delivers the
      rest and then end of file ([Close.tcp_close_delivered]); [pf_send] and
      [pf_recv] are the two ends of that stream ([TcpSock]).
    - Protocol behaviour: ARP resolution, merge and ageing ([Arp]); what ICMP
      errors are never sent about, on the bytes of the datagram, and the rate
      limit ([Icmp.icmp_send_error_spec]); the forwarding decision table
      ([Fwd.ip_forward_spec]), which departs from RFC 1812 in dropping over-long
      datagrams that allow fragmentation, as [DECISIONS.md] D-017 has it; the
      exact set of datagrams IP accepts ([Input.ip_check_exact]); TCP's reset
      defence against the acceptability test of RFC 9293
      ([TcpInput.tcp_rst_defence]), passive open, windows, retransmission and
      timers.
    - Arithmetic: the checksum verifies what it wrote and its incremental
      update equals recomputation ([Checksum]); sequence comparison is an
      order on every window of 2^31 ([Tcb.seq_window_order]); round-trip
      estimates and the retransmission timeout are the values of RFC 6298
      ([Tcb.tcp_rtt_sample_bounds]).
    - The outside: addresses survive printing and parsing
      ([Text.ip4_text_roundtrip]); the route commands have the effect of the
      routing table's operations and no input harms the command line ([Cli]); a
      round of the event loop always completes ([Loop.pf_loop_once_safe]); the
      blocking calls return once their deadline passes
      ([Stream.blocking_calls_return]).
    - The programs: the router daemon ends with an exit code for every command
      line and every behaviour of the system, oversized ICMP aside
      ([Apps.pfstack_main_safe]); an
      interface specification means what it says ([Apps.app_add_iface_spec]);
      the services never fault and the echo servers echo ([Services]); the
      fuzz harness returns for every sequence of test cases, with the same
      exception ([Fuzz.fuzz_main_safe]). These theorems compose the ones above down to
      the wire and the stream.
    - Ownership: a socket's control block is live and names that socket, in
      every run and whatever is released ([Run.sockets_own_connections]); indices
      of devices, sockets and connections are in range ([Run.refs_in_range]).

    ** Fuel and bounds

    Loops that are not structural carry fuel, and the theorems about them show
    that the fuel given is enough: [fold_carries] gets 4 (two folds clear the
    carries of any 32-bit sum), [ip_frag_loop] one more than the payload length
    (each turn sends at least 8 bytes when the MTU is at least 28, which
    [net_wf] demands), [parse_mss_loop] one more than the option bytes,
    [tcp_output_loop] the usable window (each turn sends at least one byte),
    [tcb_free_rec] one level per control block (two are used: a listener's
    children are not listeners, by [tcp_wf]), [ephemeral_loop] the 16384 tries
    of the source. The blocking socket calls wait for events as often as their
    timeout allows: their fuel is a parameter, and so is the event loop [poll]
    they call; [Stream] shows how much fuel a timeout needs.

    Assumptions stated as hypotheses: an attached device has an MTU of at least
    28 that fits 16 bits and a 6-byte address, received buffers are well-formed
    packets. What handles received frames ([Input.eth_input_safe],
    [Run.run_safe], [Apps.pfstack_main_safe], [Fuzz.fuzz_main_safe]) excludes
    ICMP messages, and fragments of one, that end beyond byte 3968, the room in
    the reply buffer; longer echo requests abort the stack
    ([Icmp.icmp_echo_overflow]). [Run.run_safe] also takes [pf_send] only
    without an event loop and the waiting calls only with a loop that keeps the
    invariant and reaches their deadline, and excludes closing a socket whose
    connection is in SYN_RCVD ([Stream.closing_early]): the code then counts
    the unacknowledged SYN as data to send. [Run.sockets_own_connections] takes
    [pf_accept] only when the child it hands over is live
    ([Own.accept_fresh]): one reset while queued is not removed from the queue
    ([Findings.accept_queue_stale]).

    ** Not modelled

    - [pf_now_ms] is constant while one event is handled.
    - [malloc] and [calloc] succeed, and fresh memory is zero (the source's
      [pkt_alloc] asserts success).
    - The log lines of individual calls (the level macros of [core/pf.h]);
      [pf_logf] itself is in [Text], and a panic is the crash outcome. A
      driver's transmit hook is the field [nd_tx], an arbitrary function; what
      system calls report is an argument.
    - When signals arrive: the handlers are in [Apps], and the loops take the
      flags as they read them as arguments.
    - The clock of [fuzz/parse_harness.c], which moves on with every query; its
      readings are arguments.
    - The accept loops of the TCP services are translated, but the theorems
      cover a connection only up to its [pf_close], which [Run] excludes in
      SYN_RCVD. *)

From stdpp Require Export base numbers list gmap strings.
From Stdlib Require Export ZArith Lia.
#[global] Open Scope Z_scope.

(** ** Machine integers *)

(** Unsigned C integers are values of [Z] kept in range by an explicit
    wrap-around after every operation that may leave it. *)
Definition u8 (z : Z) : Z := z mod 2 ^ 8.
Definition u16 (z : Z) : Z := z mod 2 ^ 16.
Definition u32 (z : Z) : Z := z mod 2 ^ 32.
Definition u64 (z : Z) : Z := z mod 2 ^ 64.

(** Reinterpretation of a [uint32_t] as [int32_t]. *)
Definition s32 (z : Z) : Z := if u32 z <? 2 ^ 31 then u32 z else u32 z - 2 ^ 32.

(** A C [uint8_t] object and an array of them. *)
Definition byte_ok (b : Z) : Prop := 0 ≤ b < 256.
Abbreviation bytes := (list Z).
Abbreviation bytes_ok := (Forall byte_ok).

(** The length of an array, as the [size_t]/[uint16_t] value the code handles. *)
Abbreviation zlen l := (Z.of_nat (length l)).

(** ** Integer automation *)

Create HintDb ints.
#[export] Hint Unfold u8 u16 u32 u64 s32 byte_ok : ints.

(** [lia] on goals that mention wrap-around: unfold the widths, then let the
    Euclidean division equations drive it. *)
Ltac wrap_lia :=
  repeat autounfold with ints in *;
  change (2 ^ 8) with 256 in *; change (2 ^ 16) with 65536 in *;
  change (2 ^ 31) with 2147483648 in *;
  change (2 ^ 32) with 4294967296 in *;
  change (2 ^ 64) with 18446744073709551616 in *;
  Z.div_mod_to_equations; lia.

(** Equality of byte lists of known length, element by element. *)
Ltac bytes_eq :=
  repeat (apply (f_equal2 (@cons Z)); [try wrap_lia|]); try reflexivity.

(** [bytes_ok] of an explicit list. *)
Ltac solve_bytes_ok :=
  repeat (apply Forall_cons_2; [done || wrap_lia|]); try apply Forall_nil_2.

Lemma u8_range z : 0 ≤ u8 z < 256.
Proof. apply Z.mod_pos_bound. lia. Qed.

Lemma u16_range z : 0 ≤ u16 z < 65536.
Proof. apply Z.mod_pos_bound. lia. Qed.

Lemma u32_range z : 0 ≤ u32 z < 4294967296.
Proof. apply Z.mod_pos_bound. lia. Qed.

Lemma u8_small z : 0 ≤ z < 256 → u8 z = z.
Proof. apply Z.mod_small. Qed.

Lemma u16_small z : 0 ≤ z < 65536 → u16 z = z.
Proof. apply Z.mod_small. Qed.

Lemma u32_small z : 0 ≤ z < 4294967296 → u32 z = z.
Proof. apply Z.mod_small. Qed.

Lemma u64_small z : 0 ≤ z < 18446744073709551616 → u64 z = z.
Proof. apply Z.mod_small. Qed.

Lemma u32_u32_add_l a b : u32 (u32 a + b) = u32 (a + b).
Proof. apply Zplus_mod_idemp_l. Qed.

#[export] Hint Resolve u8_range u16_range u32_range : ints.

(** Bit operations as arithmetic. *)
Lemma shiftr_div z n : 0 ≤ n → Z.shiftr z n = z / 2 ^ n.
Proof. apply Z.shiftr_div_pow2. Qed.

Lemma shiftl_mul z n : 0 ≤ n → Z.shiftl z n = z * 2 ^ n.
Proof. apply Z.shiftl_mul_pow2. Qed.

Lemma land_ffff z : Z.land z 0xffff = z mod 65536.
Proof. exact (Z.land_ones z 16 ltac:(lia)). Qed.

Lemma land_ff z : Z.land z 0xff = z mod 256.
Proof. exact (Z.land_ones z 8 ltac:(lia)). Qed.

(** Or-ing a value into the free low bits of a shifted one is addition. *)
Lemma lor_shiftl_add a b n :
  0 ≤ n → 0 ≤ b < 2 ^ n → Z.lor (Z.shiftl a n) b = a * 2 ^ n + b.
Proof.
  intros Hn Hb. rewrite <- Z.shiftl_mul_pow2 by done.
  symmetry. rewrite Z.add_nocarry_lxor.
  - apply Z.bits_inj'. intros i Hi. rewrite Z.lxor_spec, Z.lor_spec.
    destruct (Z.ltb_spec i n).
    + rewrite Z.shiftl_spec_low by done. by destruct (Z.testbit b i).
    + rewrite <- (Z.mod_small b (2 ^ n)) by done.
      rewrite Z.mod_pow2_bits_high by lia. by destruct (Z.testbit _ i).
  - apply Z.bits_inj'. intros i Hi. rewrite Z.land_spec, Z.bits_0.
    destruct (Z.ltb_spec i n).
    + by rewrite Z.shiftl_spec_low.
    + rewrite <- (Z.mod_small b (2 ^ n)) by done.
      rewrite Z.mod_pow2_bits_high by lia. by rewrite andb_false_r.
Qed.

(** ** Functional record update

    A record type provides its eta-expansion; the setter of a field is then
    derived from the projection. *)
Class Eta (R : Type) := eta_expand : R → R.

Class Setter {R T : Type} (proj : R → T) := set_field : (T → T) → R → R.
Arguments set_field {R T} proj {_} _ _ : assert.

Ltac derive_setter :=
  lazymatch goal with
  | |- @Setter ?R ?T ?proj =>
      let inst := constr:(_ : Eta R) in
      let body := eval hnf in inst in
      match (eval pattern proj in body) with
      | ?abs _ =>
          let term := eval cbv beta in (fun (f : T → T) => abs (fun r => f (proj r))) in
          exact term
      end
  end.
#[export] Hint Extern 0 (Setter _) => derive_setter : typeclass_instances.

Declare Scope record_scope.
#[warnings="-postfix-notation-not-level-1"]
Notation "r <| proj := v |>" := (set_field proj (fun _ => v) r)
  (at level 12, left associativity, proj at next level) : record_scope.
#[warnings="-postfix-notation-not-level-1"]
Notation "r <| proj ::= f |>" := (set_field proj f r)
  (at level 12, left associativity, proj at next level) : record_scope.
#[global] Open Scope record_scope.

(** ** Outcomes and the stateful monad

    A run ends normally, in a failed [PF_ASSERT] ([pf_panic] logs and calls
    [abort]), in an access outside the object a pointer refers to, in a
    division by zero, or with the fuel of an unbounded loop used up. *)
Inductive crash :=
  | AssertFailed
  | OutOfBounds
  | DivByZero
  | OutOfFuel.

Inductive result (A : Type) :=
  | Ok (a : A)
  | Err (e : crash).
Arguments Ok {A} a.
Arguments Err {A} e.

#[global] Instance crash_eq_dec : EqDecision crash.
Proof. solve_decision. Defined.

#[global] Instance result_ret : MRet result := fun A a => Ok a.
#[global] Instance result_bind : MBind result := fun A B f m =>
  match m with Ok a => f a | Err e => Err e end.

(** [PF_ASSERT(cond)]. *)
Definition PF_ASSERT (cond : bool) : result () := if cond then Ok () else Err AssertFailed.

(** An array access through a pointer: outside the array it is undefined. *)
Definition in_bounds {A} (o : option A) : result A :=
  match o with Some a => Ok a | None => Err OutOfBounds end.

Definition M (W A : Type) : Type := W → result (A * W).

#[global] Instance M_ret {W} : MRet (M W) := fun A a w => Ok (a, w).
#[global] Instance M_bind {W} : MBind (M W) := fun A B f m w =>
  match m w with Ok (a, w') => f a w' | Err e => Err e end.

Section monad.
Context {W : Type}.

Definition lift {A} (r : result A) : M W A := fun w =>
  match r with Ok a => Ok (a, w) | Err e => Err e end.
Definition gets {A} (f : W → A) : M W A := fun w => Ok (f w, w).
Definition modify (f : W → W) : M W () := fun w => Ok ((), f w).
Definition when (b : bool) (m : M W ()) : M W () := if b then m else mret ().

(** [wp m Q w]: the run of [m] from [w] ends normally in a state where [Q]
    holds; every crash is excluded. *)
Definition wp {A} (m : M W A) (Q : A → W → Prop) (w : W) : Prop :=
  match m w with Ok (a, w') => Q a w' | Err _ => False end.

Lemma wp_ret {A} (a : A) Q w : Q a w → wp (mret a) Q w.
Proof. done. Qed.

Lemma wp_bind {A B} (m : M W A) (f : A → M W B) Q w :
  wp m (fun a w' => wp (f a) Q w') w → wp (m ≫= f) Q w.
Proof.
  unfold wp, mbind, M_bind. by destruct (m w) as [[a w']|e].
Qed.

Lemma wp_mono {A} (m : M W A) (P Q : A → W → Prop) w :
  wp m P w → (∀ a w', P a w' → Q a w') → wp m Q w.
Proof. unfold wp. destruct (m w) as [[a w']|e]; auto. Qed.

Lemma wp_lift {A} (r : result A) Q w a : r = Ok a → Q a w → wp (lift r) Q w.
Proof. by intros ->. Qed.

Lemma wp_gets {A} (f : W → A) Q w : Q (f w) w → wp (gets f) Q w.
Proof. done. Qed.

Lemma wp_modify f Q w : Q () (f w) → wp (modify f) Q w.
Proof. done. Qed.

Lemma wp_when b m Q w :
  (b = true → wp m Q w) → (b = false → Q () w) → wp (when b m) Q w.
Proof. intros Ht Hf. destruct b; [by apply Ht|by apply Hf]. Qed.

(** Concrete runs, one step at a time. *)
Lemma run_bind {A B} (m : M W A) (f : A → M W B) w a w' r :
  m w = Ok (a, w') → f a w' = r → (m ≫= f) w = r.
Proof. unfold mbind, M_bind. by intros ->. Qed.

Lemma run_bind_err {A B} (m : M W A) (f : A → M W B) w e :
  m w = Err e → (m ≫= f) w = Err e.
Proof. unfold mbind, M_bind. by intros ->. Qed.

Lemma run_lift {A} (r : result A) w a : r = Ok a → lift r w = Ok (a, w).
Proof. by intros ->. Qed.

Lemma run_lift_err {A} (r : result A) w e : r = Err e → lift r w = Err e.
Proof. by intros ->. Qed.

Lemma wp_run {A} (m : M W A) Q w : wp m Q w → ∃ a w', m w = Ok (a, w') ∧ Q a w'.
Proof. unfold wp. destruct (m w) as [[a w']|e]; [eauto|done]. Qed.
End monad.

(** [for (i in l) body(i);] *)
Fixpoint for_each {W A} (l : list A) (body : A → M W ()) : M W () :=
  match l with
  | [] => mret ()
  | x :: l => body x;; for_each l body
  end.

(** A loop preserves a relation to its start that every iteration preserves. *)
Lemma wp_for_each {W A} (I : W → Prop) (l : list A) (body : A → M W ()) w :
  I w → (∀ x w, x ∈ l → I w → wp (body x) (fun _ => I) w) →
  wp (for_each l body) (fun _ => I) w.
Proof.
  revert w. induction l as [|x l IH]; intros w Hw Hb; cbn; [done|].
  apply wp_bind. eapply wp_mono; [apply Hb; [left|done]|].
  intros [] w' Hw'. apply IH; [done|]. intros y w1 Hy. apply Hb. by right.
Qed.

(** Updating an element in place writes its new value. *)
Lemma alter_insert {A} (f : A → A) (l : list A) i x :
  l !! i = Some x → alter f i l = <[i:=f x]> l.
Proof.
  intros Hi. apply list_eq. intros j. destruct (decide (j = i)) as [->|Hne].
  - rewrite list_lookup_alter_eq, Hi, list_lookup_insert_eq; [done|by eapply lookup_lt_Some].
  - by rewrite list_lookup_alter_ne, list_lookup_insert_ne.
Qed.
