(* ===== verification/Pf.v ===== *)
(** * Core definitions: byte order

    Models the byte-order helpers of [core/pf.h] on a little-endian target
    (the [__ORDER_LITTLE_ENDIAN__] branches): [pf_htons], [pf_htonl], the
    unaligned big-endian accessors, and the native loads and stores that the
    packed wire structs compile to. *)

From S2P Require Import Prelude.

(** ** Host/network conversion *)

Definition pf_htons (x : Z) : Z :=
  u16 (Z.lor (u16 (Z.shiftl x 8)) (u16 (Z.shiftr x 8))).

Definition pf_ntohs (x : Z) : Z := pf_htons x.

(** [__builtin_bswap32]. *)
Definition bswap32 (x : Z) : Z :=
  Z.lor (Z.lor (Z.shiftl (Z.land x 0xff) 24) (Z.shiftl (Z.land (Z.shiftr x 8) 0xff) 16))
        (Z.lor (Z.shiftl (Z.land (Z.shiftr x 16) 0xff) 8) (Z.land (Z.shiftr x 24) 0xff)).

Definition pf_htonl (x : Z) : Z := bswap32 x.

Definition pf_ntohl (x : Z) : Z := pf_htonl x.

(** ** Unaligned big-endian access *)

Definition pf_get_be16 (b0 b1 : Z) : Z := u16 (Z.lor (u16 (Z.shiftl b0 8)) b1).

Definition pf_get_be32 (b0 b1 b2 b3 : Z) : Z :=
  Z.lor (Z.lor (Z.lor (u32 (Z.shiftl b0 24)) (u32 (Z.shiftl b1 16))) (u32 (Z.shiftl b2 8))) b3.

Definition pf_put_be16 (v : Z) : bytes := [u8 (Z.shiftr v 8); u8 v].

Definition pf_put_be32 (v : Z) : bytes :=
  [u8 (Z.shiftr v 24); u8 (Z.shiftr v 16); u8 (Z.shiftr v 8); u8 v].

(** ** Native (little-endian) loads and stores of struct fields *)

Definition load16 (b0 b1 : Z) : Z := b0 + 256 * b1.
Definition load32 (b0 b1 b2 b3 : Z) : Z := b0 + 256 * b1 + 65536 * b2 + 16777216 * b3.
Definition store16 (v : Z) : bytes := [v mod 256; v / 256 mod 256].
Definition store32 (v : Z) : bytes :=
  [v mod 256; v / 256 mod 256; v / 65536 mod 256; v / 16777216 mod 256].

(** ** Arithmetic reading of the definitions *)

Lemma pf_htons_eq x : 0 ≤ x < 65536 → pf_htons x = x mod 256 * 256 + x / 256.
Proof.
  intros Hx. unfold pf_htons.
  rewrite shiftl_mul, (shiftr_div x 8) by lia.
  assert (u16 (x * 2 ^ 8) = Z.shiftl (x mod 256) 8) as ->.
  { rewrite shiftl_mul by lia. wrap_lia. }
  assert (u16 (x / 2 ^ 8) = x / 256) as -> by wrap_lia.
  rewrite lor_shiftl_add by wrap_lia. wrap_lia.
Qed.

Lemma bswap32_eq x :
  0 ≤ x < 2 ^ 32 →
  bswap32 x = x mod 256 * 16777216 + x / 256 mod 256 * 65536
              + x / 65536 mod 256 * 256 + x / 16777216.
Proof.
  intros Hx. unfold bswap32. rewrite !land_ff, !shiftr_div by lia.
  rewrite (lor_shiftl_add (x / 2 ^ 16 mod 256)) by wrap_lia.
  assert (Z.shiftl (x mod 256) 24 = Z.shiftl (x mod 256 * 256) 16) as ->.
  { rewrite !shiftl_mul by lia. lia. }
  rewrite <- Z.shiftl_lor.
  assert (Z.lor (x mod 256 * 256) (x / 2 ^ 8 mod 256)
          = x mod 256 * 256 + x / 256 mod 256) as ->.
  { change 256 with (2 ^ 8) at 2. rewrite <- shiftl_mul by lia.
    rewrite lor_shiftl_add by wrap_lia. wrap_lia. }
  rewrite lor_shiftl_add by wrap_lia. wrap_lia.
Qed.

Lemma pf_get_be16_eq b0 b1 : byte_ok b0 → byte_ok b1 → pf_get_be16 b0 b1 = b0 * 256 + b1.
Proof.
  intros H0 H1. unfold pf_get_be16.
  rewrite (u16_small (Z.shiftl b0 8)) by (rewrite shiftl_mul by lia; wrap_lia).
  rewrite lor_shiftl_add by wrap_lia. wrap_lia.
Qed.

Lemma pf_get_be32_eq b0 b1 b2 b3 :
  byte_ok b0 → byte_ok b1 → byte_ok b2 → byte_ok b3 →
  pf_get_be32 b0 b1 b2 b3 = b0 * 16777216 + b1 * 65536 + b2 * 256 + b3.
Proof.
  intros H0 H1 H2 H3. unfold pf_get_be32.
  rewrite !u32_small by (rewrite shiftl_mul by lia; wrap_lia).
  assert (Z.shiftl b1 16 = Z.shiftl (Z.shiftl b1 8) 8) as -> by (by rewrite Z.shiftl_shiftl).
  assert (Z.shiftl b0 24 = Z.shiftl (Z.shiftl b0 16) 8) as -> by (by rewrite Z.shiftl_shiftl).
  rewrite <- !Z.shiftl_lor.
  assert (Z.shiftl b0 16 = Z.shiftl (Z.shiftl b0 8) 8) as -> by (by rewrite Z.shiftl_shiftl).
  rewrite <- !Z.shiftl_lor.
  rewrite (lor_shiftl_add b0 b1) by wrap_lia.
  rewrite (lor_shiftl_add _ b2) by wrap_lia.
  rewrite lor_shiftl_add by wrap_lia. lia.
Qed.

(** ** Wire order

    Loading a field natively and converting it reads the bytes big-endian;
    converting a number and storing it natively writes them big-endian. *)

Lemma ntohs_load16 b0 b1 :
  byte_ok b0 → byte_ok b1 → pf_ntohs (load16 b0 b1) = b0 * 256 + b1.
Proof.
  intros H0 H1. unfold pf_ntohs, load16. rewrite pf_htons_eq by wrap_lia. wrap_lia.
Qed.

Lemma ntohl_load32 b0 b1 b2 b3 :
  byte_ok b0 → byte_ok b1 → byte_ok b2 → byte_ok b3 →
  pf_ntohl (load32 b0 b1 b2 b3) = b0 * 16777216 + b1 * 65536 + b2 * 256 + b3.
Proof.
  intros H0 H1 H2 H3. unfold pf_ntohl, pf_htonl, load32.
  rewrite bswap32_eq by wrap_lia. wrap_lia.
Qed.

Lemma store16_htons v : 0 ≤ v < 65536 → store16 (pf_htons v) = [v / 256; v mod 256].
Proof.
  intros Hv. unfold store16. rewrite pf_htons_eq by done. bytes_eq.
Qed.

Lemma store32_htonl v :
  0 ≤ v < 2 ^ 32 →
  store32 (pf_htonl v) = [v / 16777216; v / 65536 mod 256; v / 256 mod 256; v mod 256].
Proof.
  intros Hv. unfold store32, pf_htonl. rewrite bswap32_eq by done.
  bytes_eq.
Qed.

Lemma htons_range x : 0 ≤ pf_htons x < 65536.
Proof. apply u16_range. Qed.

Lemma ntohs_htons x : 0 ≤ x < 65536 → pf_ntohs (pf_htons x) = x.
Proof. intros Hx. unfold pf_ntohs. rewrite !pf_htons_eq; rewrite ?pf_htons_eq; wrap_lia. Qed.

Lemma htonl_range x : 0 ≤ x < 2 ^ 32 → 0 ≤ pf_htonl x < 2 ^ 32.
Proof. intros Hx. unfold pf_htonl. rewrite bswap32_eq by done. wrap_lia. Qed.

Lemma load32_split x :
  0 ≤ x < 2 ^ 32 →
  x = load32 (x mod 256) (x / 256 mod 256) (x / 65536 mod 256) (x / 16777216).
Proof. intros Hx. unfold load32. wrap_lia. Qed.

Lemma htonl_load32 b0 b1 b2 b3 :
  byte_ok b0 → byte_ok b1 → byte_ok b2 → byte_ok b3 →
  pf_htonl (load32 b0 b1 b2 b3) = load32 b3 b2 b1 b0.
Proof.
  intros. change pf_htonl with pf_ntohl. rewrite ntohl_load32 by done. unfold load32. lia.
Qed.

Lemma ntohl_htonl x : 0 ≤ x < 2 ^ 32 → pf_ntohl (pf_htonl x) = x.
Proof.
  intros Hx. change pf_ntohl with pf_htonl. rewrite (load32_split x Hx).
  rewrite !htonl_load32 by wrap_lia. done.
Qed.

Lemma load16_range b0 b1 : byte_ok b0 → byte_ok b1 → 0 ≤ load16 b0 b1 < 65536.
Proof. unfold load16. wrap_lia. Qed.

Lemma load32_range b0 b1 b2 b3 :
  byte_ok b0 → byte_ok b1 → byte_ok b2 → byte_ok b3 → 0 ≤ load32 b0 b1 b2 b3 < 2 ^ 32.
Proof. unfold load32. wrap_lia. Qed.

Lemma store16_ok v : bytes_ok (store16 v).
Proof. repeat constructor; wrap_lia. Qed.

Lemma store32_ok v : bytes_ok (store32 v).
Proof. repeat constructor; wrap_lia. Qed.

Lemma put_be32_eq v :
  0 ≤ v < 2 ^ 32 →
  pf_put_be32 v = [v / 16777216; v / 65536 mod 256; v / 256 mod 256; v mod 256].
Proof.
  intros Hv. unfold pf_put_be32. rewrite !shiftr_div by lia. bytes_eq.
Qed.

Lemma get_put_be32 v :
  0 ≤ v < 2 ^ 32 →
  match pf_put_be32 v with [a; b; c; d] => pf_get_be32 a b c d = v | _ => False end.
Proof.
  intros Hv. rewrite put_be32_eq by done. cbv beta iota.
  rewrite pf_get_be32_eq; wrap_lia.
Qed.

#[export] Hint Resolve load16_range load32_range store16_ok store32_ok htons_range : ints.
