(* ===== verification/Checksum.v ===== *)
(** * The Internet checksum

    Models [ipv4/checksum.c] and [ipv4/checksum.h]: the running 32-bit sum,
    the carry fold, the UDP/TCP pseudo-header sum and the RFC 1624
    incremental update, and relates them to one's-complement arithmetic
    modulo 65535. *)

From S2P Require Import Prelude Pf.

Module Checksum.

(** ** The code *)

(** [csum_partial]: the byte list is [data[0..len)]. *)
Fixpoint csum_partial (data : bytes) (sum : Z) : Z :=
  match data with
  | p0 :: p1 :: rest =>
      csum_partial rest (u32 (sum + Z.lor (u32 (Z.shiftl p0 8)) p1))
  | [p0] => u32 (sum + u32 (Z.shiftl p0 8))
  | [] => sum
  end.

(** [while (sum >> 16) sum = (sum & 0xffff) + (sum >> 16);] with [fuel]
    iterations at most; [fold_carries_done] shows that two are enough. *)
Fixpoint fold_carries (fuel : nat) (sum : Z) : Z :=
  match fuel with
  | O => sum
  | S n =>
      if Z.shiftr sum 16 =? 0 then sum
      else fold_carries n (u32 (Z.land sum 0xffff + Z.shiftr sum 16))
  end.

Definition fold_fuel : nat := 4.

Definition csum_fold (sum : Z) : Z := u16 (Z.lnot (fold_carries fold_fuel sum)).

Definition inet_csum (data : bytes) : Z := csum_fold (csum_partial data 0).

Definition csum_pseudo (src dst proto l4len : Z) : Z :=
  let sum := 0 in
  let sum := u32 (sum + Z.shiftr src 16) in
  let sum := u32 (sum + Z.land src 0xffff) in
  let sum := u32 (sum + Z.shiftr dst 16) in
  let sum := u32 (sum + Z.land dst 0xffff) in
  let sum := u32 (sum + proto) in
  u32 (sum + l4len).

Definition csum_update16 (old_csum old_field new_field : Z) : Z :=
  let sum := u32 (u16 (Z.lnot old_csum) + u16 (Z.lnot old_field) + new_field) in
  u16 (Z.lnot (fold_carries fold_fuel sum)).

(** ** One's-complement reference *)

(** The sum of the big-endian 16-bit words of a byte string, unbounded, with
    an odd trailing byte padded on the right (RFC 1071). *)
Fixpoint word_sum (data : bytes) : Z :=
  match data with
  | p0 :: p1 :: rest => p0 * 256 + p1 + word_sum rest
  | [p0] => p0 * 256
  | [] => 0
  end.

(** The representative of [s] in [1..65535] modulo 65535, and 0 for 0: what
    the end-around carry computes. *)
Definition oc (s : Z) : Z := if s =? 0 then 0 else (s - 1) mod 65535 + 1.

Lemma oc_range s : 0 ≤ s → 0 ≤ oc s ≤ 65535.
Proof. intros Hs. unfold oc. case_match; Z.div_mod_to_equations; lia. Qed.

Lemma oc_small s : 0 ≤ s ≤ 65535 → oc s = s.
Proof.
  intros Hs. unfold oc. destruct (Z.eqb_spec s 0); [done|].
  rewrite Z.mod_small; lia.
Qed.

Lemma oc_unique s f :
  0 ≤ s → 0 ≤ f ≤ 65535 → (f = 0 ↔ s = 0) → (s - f) mod 65535 = 0 → oc s = f.
Proof.
  intros Hs Hf H0 Hm. unfold oc. destruct (Z.eqb_spec s 0); [lia|].
  Z.div_mod_to_equations. lia.
Qed.

Lemma oc_congr s : 0 ≤ s → (s - oc s) mod 65535 = 0.
Proof. intros Hs. unfold oc. case_match; Z.div_mod_to_equations; lia. Qed.

Lemma oc_zero s : 0 ≤ s → oc s = 0 ↔ s = 0.
Proof.
  intros Hs. unfold oc. destruct (Z.eqb_spec s 0); [tauto|].
  Z.div_mod_to_equations. lia.
Qed.

Lemma oc_eq_iff s t :
  0 ≤ s → 0 ≤ t → (s = 0 ↔ t = 0) → (s - t) mod 65535 = 0 → oc s = oc t.
Proof.
  intros Hs Ht H0 Hm. apply oc_unique; [done|by apply oc_range| |].
  - rewrite oc_zero by done. tauto.
  - pose proof (oc_congr t Ht). Z.div_mod_to_equations. lia.
Qed.

(** ** The loops compute the reference *)

Lemma fold_step_oc s :
  0 ≤ s < 2 ^ 32 → Z.shiftr s 16 ≠ 0 →
  let s' := u32 (Z.land s 0xffff + Z.shiftr s 16) in
  oc s' = oc s ∧ 0 < s' < s ∧ s' ≤ 131070.
Proof.
  intros Hs Hne. rewrite shiftr_div in * by lia. rewrite land_ffff.
  cbv zeta. rewrite u32_small by wrap_lia.
  assert (0 < s mod 65536 + s / 2 ^ 16 < s ∧ s mod 65536 + s / 2 ^ 16 ≤ 131070) by wrap_lia.
  split_and!; try lia. apply oc_eq_iff; try lia. wrap_lia.
Qed.

Lemma fold_exit_oc s : 0 ≤ s → Z.shiftr s 16 = 0 → s = oc s ∧ s ≤ 65535.
Proof.
  intros Hs Hz. rewrite shiftr_div in Hz by lia.
  assert (s ≤ 65535) by wrap_lia. by rewrite oc_small.
Qed.

(** The fold loop has left its [while] condition after two iterations. *)
Lemma fold_carries_done s n :
  0 ≤ s < 2 ^ 32 → fold_carries (2 + n) s = oc s.
Proof.
  intros Hs. cbn [fold_carries Nat.add].
  destruct (Z.eqb_spec (Z.shiftr s 16) 0) as [Hz|Hnz].
  { by apply fold_exit_oc in Hz as [? _]; [|lia]. }
  pose proof (fold_step_oc s Hs Hnz) as H1. cbv zeta in H1.
  revert H1. generalize (u32 (Z.land s 65535 + Z.shiftr s 16)).
  intros s1 (Hoc & Hlt & Hle).
  destruct (Z.eqb_spec (Z.shiftr s1 16) 0) as [Hz1|Hnz1].
  { rewrite <- Hoc. by apply fold_exit_oc in Hz1 as [? _]; [|lia]. }
  pose proof (fold_step_oc s1 ltac:(lia) Hnz1) as H2. cbv zeta in H2.
  assert (Z.shiftr s1 16 = 1) as E1.
  { rewrite shiftr_div in * by lia. wrap_lia. }
  assert (u32 (Z.land s1 0xffff + Z.shiftr s1 16) ≤ 65535) as Hle2.
  { rewrite E1, land_ffff, u32_small by wrap_lia.
    rewrite shiftr_div in E1 by lia. wrap_lia. }
  revert H2 Hle2. generalize (u32 (Z.land s1 65535 + Z.shiftr s1 16)).
  intros s2 (Hoc2 & Hlt2 & _) Hle2.
  assert (Z.shiftr s2 16 = 0) as Hz2 by (rewrite shiftr_div by lia; wrap_lia).
  assert (s2 = oc s) as E by (rewrite <- Hoc, <- Hoc2; symmetry; apply oc_small; lia).
  destruct n; cbn [fold_carries]; rewrite ?Hz2; done.
Qed.

Lemma csum_fold_eq s : 0 ≤ s < 2 ^ 32 → csum_fold s = 65535 - oc s.
Proof.
  intros Hs. unfold csum_fold. change fold_fuel with (2 + 2)%nat.
  rewrite fold_carries_done by done.
  pose proof (oc_range s ltac:(lia)). unfold Z.lnot. wrap_lia.
Qed.

Lemma word_be p0 p1 : byte_ok p0 → byte_ok p1 → Z.lor (u32 (Z.shiftl p0 8)) p1 = p0 * 256 + p1.
Proof.
  intros H0 H1. rewrite u32_small by (rewrite shiftl_mul by lia; wrap_lia).
  rewrite lor_shiftl_add by wrap_lia. lia.
Qed.

(** Two-at-a-time induction over byte strings. *)
Lemma pair_ind (P : bytes → Prop) :
  P [] → (∀ a, P [a]) → (∀ a b l, P l → P (a :: b :: l)) → ∀ l, P l.
Proof.
  intros Hn H1 H2. fix IH 1. intros [|a [|b l]]; [exact Hn|exact (H1 a)|exact (H2 a b l (IH l))].
Qed.

Lemma csum_partial_eq data sum :
  bytes_ok data → 0 ≤ sum < 2 ^ 32 → csum_partial data sum = u32 (sum + word_sum data).
Proof.
  revert sum. induction data as [|a|a b l IH] using pair_ind; intros sum Hok Hs; cbn.
  - rewrite Z.add_0_r. symmetry. by apply u32_small.
  - inversion_clear Hok. rewrite (u32_small (Z.shiftl a 8)); rewrite shiftl_mul by lia; [done|wrap_lia].
  - inversion_clear Hok as [|?? Ha Hok']. inversion_clear Hok' as [|?? Hb Hl].
    rewrite IH by (done || apply u32_range). rewrite word_be by done.
    rewrite u32_u32_add_l. f_equal. lia.
Qed.

Lemma word_sum_range data :
  bytes_ok data → 0 ≤ word_sum data ≤ 65535 * ((zlen data + 1) / 2).
Proof.
  induction data as [|a|a b l IH] using pair_ind; intros Hok; cbn [word_sum length].
  - Z.div_mod_to_equations; lia.
  - inversion_clear Hok. wrap_lia.
  - inversion_clear Hok as [|?? Ha Hok']. inversion_clear Hok' as [|?? Hb Hl].
    specialize (IH Hl).
    replace ((Z.of_nat (S (S (length l))) + 1) / 2) with ((zlen l + 1) / 2 + 1) by (Z.div_mod_to_equations; lia).
    wrap_lia.
Qed.

Lemma word_sum_app l1 l2 :
  Nat.Even (length l1) → word_sum (l1 ++ l2) = word_sum l1 + word_sum l2.
Proof.
  induction l1 as [|a|a b l IH] using pair_ind; intros Hev; cbn.
  - done.
  - destruct Hev as [k Hk]. cbn in Hk. lia.
  - rewrite IH by (destruct Hev as [k Hk]; exists (k - 1)%nat; cbn in Hk; lia). lia.
Qed.

(** No 32-bit overflow for anything that fits a packet buffer, with the
    pseudo-header sum on top. *)
Lemma csum_partial_exact data sum :
  bytes_ok data → zlen data ≤ 65536 → 0 ≤ sum < 2 ^ 20 →
  csum_partial data sum = sum + word_sum data.
Proof.
  intros Hok Hl Hs. rewrite csum_partial_eq by (done || wrap_lia).
  pose proof (word_sum_range data Hok). change (2 ^ 20) with 1048576 in Hs.
  apply u32_small. Z.div_mod_to_equations. lia.
Qed.

Lemma csum_fold_partial data sum :
  bytes_ok data → zlen data ≤ 65536 → 0 ≤ sum < 2 ^ 20 →
  csum_fold (csum_partial data sum) = 65535 - oc (sum + word_sum data).
Proof.
  intros Hok Hl Hs. rewrite csum_partial_exact by done. apply csum_fold_eq.
  pose proof (word_sum_range data Hok). change (2 ^ 20) with 1048576 in Hs.
  change (2 ^ 32) with 4294967296. Z.div_mod_to_equations. lia.
Qed.

Lemma csum_pseudo_eq src dst proto l4len :
  0 ≤ src < 2 ^ 32 → 0 ≤ dst < 2 ^ 32 → byte_ok proto → 0 ≤ l4len < 65536 →
  csum_pseudo src dst proto l4len =
    src / 65536 + src mod 65536 + dst / 65536 + dst mod 65536 + proto + l4len.
Proof.
  intros Hs Hd Hp Hl. unfold csum_pseudo. cbv zeta.
  rewrite !land_ffff, !shiftr_div by lia. change (2 ^ 16) with 65536.
  rewrite !u32_u32_add_l. rewrite u32_small; wrap_lia.
Qed.

Lemma csum_pseudo_range src dst proto l4len :
  0 ≤ src < 2 ^ 32 → 0 ≤ dst < 2 ^ 32 → byte_ok proto → 0 ≤ l4len < 65536 →
  0 ≤ csum_pseudo src dst proto l4len < 2 ^ 20.
Proof. intros. rewrite csum_pseudo_eq by done. change (2 ^ 20) with 1048576. wrap_lia. Qed.

(** The verification test of the receive paths, as arithmetic. *)
Lemma csum_verify_iff data sum :
  bytes_ok data → zlen data ≤ 65536 → 0 ≤ sum < 2 ^ 20 →
  csum_fold (csum_partial data sum) = 0 ↔
  0 < sum + word_sum data ∧ (sum + word_sum data) mod 65535 = 0.
Proof.
  intros Hok Hl Hs. rewrite csum_fold_partial by done.
  pose proof (word_sum_range data Hok).
  assert (0 ≤ sum + word_sum data) as Hn by (change (2 ^ 20) with 1048576 in Hs; lia).
  unfold oc. destruct (Z.eqb_spec (sum + word_sum data) 0); Z.div_mod_to_equations; lia.
Qed.

Lemma csum_fold_range s : 0 ≤ csum_fold s < 65536.
Proof. apply u16_range. Qed.

(** Pairing a checksum with the data it was computed over. *)
Lemma word_sum_fill pre c post :
  Nat.Even (length pre) →
  word_sum (pre ++ [c / 256; c mod 256] ++ post) = word_sum (pre ++ [0; 0] ++ post) + c.
Proof.
  intros Hev. rewrite !(word_sum_app pre) by done. cbn [word_sum app].
  Z.div_mod_to_equations. lia.
Qed.

(** Replacing a zeroed checksum field by the computed checksum (or, as UDP
    does, by 0xffff when the checksum is 0) makes the region verify. *)
Lemma csum_fill_verifies pre post sum c :
  Nat.Even (length pre) → bytes_ok pre → bytes_ok post →
  zlen pre + zlen post ≤ 65534 → 0 ≤ sum < 2 ^ 20 →
  c = csum_fold (csum_partial (pre ++ [0; 0] ++ post) sum) ∨
  (c = 65535 ∧ csum_fold (csum_partial (pre ++ [0; 0] ++ post) sum) = 0) →
  csum_fold (csum_partial (pre ++ [c / 256; c mod 256] ++ post) sum) = 0.
Proof.
  intros Hev Hp Hq Hl Hs Hc.
  assert (bytes_ok (pre ++ [0; 0] ++ post)) as Hz.
  { rewrite !Forall_app. repeat split; try done. repeat constructor; wrap_lia. }
  assert (zlen (pre ++ [0; 0] ++ post) ≤ 65536) as Hlz by (rewrite !length_app; cbn; lia).
  assert (0 ≤ c ≤ 65535) as Hcr.
  { pose proof (csum_fold_range (csum_partial (pre ++ [0; 0] ++ post) sum)). lia. }
  assert (bytes_ok (pre ++ [c / 256; c mod 256] ++ post)) as Hz'.
  { rewrite !Forall_app. repeat split; try done. repeat constructor; wrap_lia. }
  rewrite csum_verify_iff by (done || (rewrite !length_app; cbn; lia)).
  rewrite word_sum_fill by done. set (S := word_sum (pre ++ [0; 0] ++ post)) in *.
  pose proof (word_sum_range _ Hz) as HS. fold S in HS.
  rewrite csum_fold_partial in Hc by done. fold S in Hc.
  assert (0 ≤ sum + S) as Hn by (change (2 ^ 20) with 1048576 in Hs; lia).
  unfold oc in Hc. destruct (Z.eqb_spec (sum + S) 0); Z.div_mod_to_equations; lia.
Qed.

Lemma csum_update16_eq hc m m' :
  0 ≤ hc < 65536 → 0 ≤ m < 65536 → 0 ≤ m' < 65536 →
  csum_update16 hc m m' = 65535 - oc ((65535 - hc) + (65535 - m) + m').
Proof.
  intros Hh Hm Hm'. unfold csum_update16. cbv zeta.
  assert (∀ z, 0 ≤ z < 65536 → u16 (Z.lnot z) = 65535 - z) as Hln
    by (intros; unfold Z.lnot; wrap_lia).
  rewrite (Hln hc), (Hln m), u32_small by (done || wrap_lia).
  change fold_fuel with (2 + 2)%nat. rewrite fold_carries_done by wrap_lia.
  pose proof (oc_range (65535 - hc + (65535 - m) + m') ltac:(lia)). apply Hln. lia.
Qed.

(** ** Properties *)

(** Receive-side verification accepts exactly what the send side wrote:
    whatever the region (IP header, ICMP message, UDP or TCP segment with its
    pseudo-header sum), storing the checksum computed over the region with
    its checksum field zeroed makes the fold over the whole region zero. *)
Theorem csum_roundtrip pre post sum :
  Nat.Even (length pre) → bytes_ok pre → bytes_ok post →
  zlen pre + zlen post ≤ 65534 → 0 ≤ sum < 2 ^ 20 →
  csum_fold (csum_partial
    (pre ++ store16 (pf_htons (csum_fold (csum_partial (pre ++ [0; 0] ++ post) sum))) ++ post)
    sum) = 0.
Proof.
  intros. rewrite store16_htons by apply csum_fold_range.
  apply csum_fill_verifies; auto.
Qed.

Lemma csum_roundtrip_witness :
  csum_fold (csum_partial
    ([0x45; 0; 0; 20] ++ store16 (pf_htons (csum_fold (csum_partial
       ([0x45; 0; 0; 20] ++ [0; 0] ++ [10; 0; 0; 1; 7]) 1000))) ++ [10; 0; 0; 1; 7])
    1000) = 0.
Proof.
  apply (csum_roundtrip [0x45; 0; 0; 20] [10; 0; 0; 1; 7] 1000);
    [by exists 2%nat | repeat constructor; lia | repeat constructor; lia | cbn; lia | lia].
Defined.

(** C18. The RFC 1624 incremental update agrees with recomputing the checksum
    from scratch: for a region whose stored checksum was the computed one,
    changing one aligned 16-bit field [m] to [m'] and updating gives exactly
    the checksum of the changed region, unless the changed region is all
    zero (where one's complement has two zeros; an IP header never is). *)
Theorem csum_update16_correct pre post m m' :
  Nat.Even (length pre) → bytes_ok pre → bytes_ok post →
  zlen pre + zlen post ≤ 65534 → 0 ≤ m < 65536 → 0 ≤ m' < 65536 →
  0 < word_sum (pre ++ [m' / 256; m' mod 256] ++ post) →
  csum_update16 (inet_csum (pre ++ [m / 256; m mod 256] ++ post)) m m' =
  inet_csum (pre ++ [m' / 256; m' mod 256] ++ post).
Proof.
  intros Hev Hp Hq Hl Hm Hm' Hpos.
  assert (∀ v, 0 ≤ v < 65536 →
    inet_csum (pre ++ [v / 256; v mod 256] ++ post) =
    65535 - oc (word_sum pre + word_sum post + v)) as Hic.
  { intros v Hv. unfold inet_csum.
    rewrite csum_fold_partial; [|by rewrite !Forall_app; repeat constructor; try done; wrap_lia
      |by rewrite !length_app; cbn; lia|lia].
    rewrite !(word_sum_app pre) by done. cbn [word_sum app]. do 2 f_equal.
    Z.div_mod_to_equations; lia. }
  rewrite !(word_sum_app pre) in Hpos by done.
  assert (word_sum ([m' / 256; m' mod 256] ++ post) = m' + word_sum post) as E.
  { cbn. Z.div_mod_to_equations; lia. }
  rewrite E in Hpos.
  pose proof (word_sum_range pre Hp). pose proof (word_sum_range post Hq).
  rewrite !Hic by done. set (S := word_sum pre + word_sum post) in *.
  pose proof (oc_range (S + m) ltac:(lia)).
  rewrite csum_update16_eq by lia.
  f_equal. apply oc_eq_iff; [lia|lia| |].
  - pose proof (oc_zero (S + m) ltac:(lia)). lia.
  - pose proof (oc_congr (S + m) ltac:(lia)). Z.div_mod_to_equations. lia.
Qed.

Lemma csum_update16_correct_witness :
  csum_update16 (inet_csum ([0x45; 0] ++ [64; 17] ++ [10; 0; 0; 1])) 16401 16145 =
  inet_csum ([0x45; 0] ++ [63; 17] ++ [10; 0; 0; 1]).
Proof.
  apply (csum_update16_correct [0x45; 0] [10; 0; 0; 1] 16401 16145);
    [by exists 1%nat | repeat constructor; lia | repeat constructor; lia
    | cbn; lia | lia | lia | vm_compute; reflexivity].
Defined.

End Checksum.
