(* ===== verification/Pkt.v ===== *)
(** * Packet buffers and packet queues

    Models [core/pkt.h] and [core/pkt.c]. [Module Pkt] has the fixed-size
    buffer with its [data]/[len] window; every [PF_ASSERT] and every access
    through a pointer into [buf] is an outcome of the model. File [Pktq] has
    the intrusive linked queue over a heap of packets, and proves that it
    implements a first-in first-out list; the components that keep queues
    (ARP, sockets, TCP) use that list. *)

From S2P Require Import Prelude.

(** ** Overwriting a region of an array *)

Definition splice {A} (l : list A) (pos : nat) (h : list A) : list A :=
  take pos l ++ h ++ drop (pos + length h) l.

Lemma length_splice {A} (l : list A) pos h :
  (pos + length h ≤ length l)%nat → length (splice l pos h) = length l.
Proof. intros. unfold splice. rewrite !length_app, length_take, length_drop. lia. Qed.

Lemma splice_ok {A} (P : A → Prop) l pos h :
  Forall P l → Forall P h → Forall P (splice l pos h).
Proof.
  intros. unfold splice. rewrite !Forall_app. auto using Forall_take, Forall_drop.
Qed.

Lemma splice_app_l {A} (l1 l2 : list A) pos h :
  (pos + length h ≤ length l1)%nat → splice (l1 ++ l2) pos h = splice l1 pos h ++ l2.
Proof.
  intros. unfold splice. rewrite take_app_le, drop_app_le by lia. by rewrite <- !app_assoc.
Qed.

Lemma splice_app_r {A} (l1 l2 : list A) pos h :
  splice (l1 ++ l2) (length l1 + pos) h = l1 ++ splice l2 pos h.
Proof.
  unfold splice. rewrite take_app_ge, drop_app_ge by lia.
  replace (length l1 + pos - length l1)%nat with pos by lia.
  replace (length l1 + pos + length h - length l1)%nat with (pos + length h)%nat by lia.
  by rewrite <- app_assoc.
Qed.

Lemma splice_all {A} (l h : list A) : length h = length l → splice l 0 h = h.
Proof. intros E. unfold splice. rewrite Nat.add_0_l, E, drop_all. by rewrite app_nil_r. Qed.

Module Pkt.

Definition PKT_BUF_SIZE : Z := 4096.
Definition PKT_RX_OFFSET : Z := 2.
Definition PKT_TX_HEADROOM : Z := 128.
#[global] Hint Unfold PKT_BUF_SIZE PKT_RX_OFFSET PKT_TX_HEADROOM : ints.

(** [struct pkt]: [p_data] is the offset of [data] in [buf]. The list link
    [next] lives in the queue model below. *)
Record pkt := mk_pkt {
  p_dev : option nat;
  p_ts_ms : Z;
  p_u32 : Z;
  p_meta_ip : Z;
  p_meta_port : Z;
  p_data : Z;
  p_len : Z;
  p_buf : bytes;
}.
#[export] Instance eta_pkt : Eta pkt := fun p =>
  mk_pkt (p_dev p) (p_ts_ms p) (p_u32 p) (p_meta_ip p) (p_meta_port p) (p_data p) (p_len p)
         (p_buf p).

(** [pkt_alloc]: [calloc] succeeds (its failure is a [PF_ASSERT]). *)
Definition zero_buf : bytes := replicate (Z.to_nat PKT_BUF_SIZE) 0.
#[global] Arguments zero_buf : simpl never.

Definition pkt_alloc : pkt := mk_pkt None 0 0 0 0 PKT_RX_OFFSET 0 zero_buf.

Definition pkt_headroom (p : pkt) : Z := u16 (p_data p).
Definition pkt_tailroom (p : pkt) : Z := u16 (PKT_BUF_SIZE - pkt_headroom p - p_len p).

Definition pkt_reserve (p : pkt) (headroom : Z) : result pkt :=
  PF_ASSERT ((p_len p =? 0) && (headroom <=? PKT_BUF_SIZE));;
  Ok (p <| p_data := headroom |>).

Definition pkt_push (p : pkt) (n : Z) : result pkt :=
  PF_ASSERT (n <=? pkt_headroom p);;
  Ok (p <| p_data := p_data p - n |> <| p_len := u16 (p_len p + n) |>).

Definition pkt_pull (p : pkt) (n : Z) : result pkt :=
  PF_ASSERT (n <=? p_len p);;
  Ok (p <| p_data := p_data p + n |> <| p_len := u16 (p_len p - n) |>).

(** Returns the packet and the tail pointer (an offset in [buf]). *)
Definition pkt_put (p : pkt) (n : Z) : result (pkt * Z) :=
  PF_ASSERT (n <=? pkt_tailroom p);;
  Ok (p <| p_len := u16 (p_len p + n) |>, p_data p + p_len p).

Definition pkt_trim (p : pkt) (newlen : Z) : result pkt :=
  PF_ASSERT (newlen <=? p_len p);;
  Ok (p <| p_len := newlen |>).

(** [memcpy] into [buf] at offset [pos]; outside [buf] it is undefined. *)
Definition buf_write (p : pkt) (pos : Z) (h : bytes) : result pkt :=
  if (0 <=? pos) && (pos + zlen h <=? PKT_BUF_SIZE)
  then Ok (p <| p_buf := splice (p_buf p) (Z.to_nat pos) h |>)
  else Err OutOfBounds.

(** The valid bytes [data[0..len)]. *)
Definition pkt_bytes (p : pkt) : bytes :=
  take (Z.to_nat (p_len p)) (drop (Z.to_nat (p_data p)) (p_buf p)).

(** [memcpy] of [n] bytes from [data + off]; outside [buf] it is undefined. *)
Definition pkt_read (p : pkt) (off n : Z) : result bytes :=
  if (0 <=? p_data p + off) && (0 <=? n) && (p_data p + off + n <=? PKT_BUF_SIZE)
  then Ok (take (Z.to_nat n) (drop (Z.to_nat (p_data p + off)) (p_buf p)))
  else Err OutOfBounds.

(** [pkt_put] followed by a [memcpy] to the pointer it returns. *)
Definition pkt_append (p : pkt) (h : bytes) : result pkt :=
  '(p', tail) ← pkt_put p (zlen h); buf_write p' tail h.

(** [pkt_push] followed by writing the whole header at the new [data]. *)
Definition pkt_prepend (p : pkt) (h : bytes) : result pkt :=
  p' ← pkt_push p (zlen h); buf_write p' (p_data p') h.

(** ** Well-formed packets *)

Record pkt_wf (p : pkt) : Prop := {
  wf_data : 0 ≤ p_data p;
  wf_len : 0 ≤ p_len p;
  wf_fits : p_data p + p_len p ≤ PKT_BUF_SIZE;
  wf_buf_len : length (p_buf p) = Z.to_nat PKT_BUF_SIZE;
  wf_buf_ok : bytes_ok (p_buf p);
}.

(** A fresh transmit packet: allocated, headroom reserved, nothing in it. *)
Definition tx_pkt : pkt := pkt_alloc <| p_data := PKT_TX_HEADROOM |>.

Lemma pkt_reserve_tx : pkt_reserve pkt_alloc PKT_TX_HEADROOM = Ok tx_pkt.
Proof. reflexivity. Qed.

Lemma pkt_alloc_wf : pkt_wf pkt_alloc.
Proof.
  split; try by (cbn; wrap_lia).
  - apply length_replicate.
  - apply Forall_replicate. wrap_lia.
Qed.

Lemma tx_pkt_wf : pkt_wf tx_pkt.
Proof. destruct pkt_alloc_wf. split; try done; cbn; wrap_lia. Qed.

(** The buffer, cut at the window. *)
Lemma pkt_buf_split p :
  pkt_wf p →
  p_buf p = take (Z.to_nat (p_data p)) (p_buf p) ++ pkt_bytes p ++
            drop (Z.to_nat (p_data p + p_len p)) (p_buf p).
Proof.
  intros [Hd Hl Hf Hb _]. unfold pkt_bytes.
  rewrite <- (take_drop (Z.to_nat (p_data p)) (p_buf p)) at 1. f_equal.
  rewrite <- (take_drop (Z.to_nat (p_len p)) (drop _ (p_buf p))) at 1. f_equal.
  rewrite drop_drop. f_equal. lia.
Qed.

Lemma length_pkt_bytes p : pkt_wf p → zlen (pkt_bytes p) = p_len p.
Proof.
  intros [Hd Hl Hf Hb _]. unfold pkt_bytes.
  rewrite length_take, length_drop, Hb. wrap_lia.
Qed.

Lemma pkt_bytes_ok p : pkt_wf p → bytes_ok (pkt_bytes p).
Proof. intros H. apply Forall_take, Forall_drop, H. Qed.

(** Rebuilding the window from an explicit cut of the buffer. *)
Lemma pkt_bytes_cut p l1 l2 l3 :
  p_buf p = l1 ++ l2 ++ l3 → p_data p = zlen l1 → p_len p = zlen l2 → pkt_bytes p = l2.
Proof.
  intros Hb Hd Hl. unfold pkt_bytes.
  rewrite Hb, Hd, Hl, !Nat2Z.id, drop_app_length, take_app_length. done.
Qed.

Lemma pkt_wf_cut p l1 l2 l3 :
  p_buf p = l1 ++ l2 ++ l3 → p_data p = zlen l1 → p_len p = zlen l2 →
  length (p_buf p) = Z.to_nat PKT_BUF_SIZE → bytes_ok (p_buf p) → pkt_wf p.
Proof.
  intros Hb Hd Hl Hlen Hok. split; try done; try lia.
  rewrite Hb, !length_app in Hlen. wrap_lia.
Qed.

(** ** The operations on well-formed packets

    Each is characterised by the exact condition under which it does not
    fail and by its effect on the window. *)

Lemma pkt_headroom_eq p : pkt_wf p → pkt_headroom p = p_data p.
Proof. intros [Hd Hl Hf _ _]. apply u16_small. wrap_lia. Qed.

Lemma pkt_tailroom_eq p : pkt_wf p → pkt_tailroom p = PKT_BUF_SIZE - p_data p - p_len p.
Proof.
  intros Hwf. pose proof Hwf as [Hd Hl Hf _ _]. unfold pkt_tailroom.
  rewrite pkt_headroom_eq by done. apply u16_small. wrap_lia.
Qed.

(** A write that replaces one piece of a cut of the buffer. *)
Lemma buf_write_cut p l1 old l2 h :
  p_buf p = l1 ++ old ++ l2 → length old = length h →
  length (p_buf p) = Z.to_nat PKT_BUF_SIZE →
  buf_write p (zlen l1) h = Ok (p <| p_buf := l1 ++ h ++ l2 |>).
Proof.
  intros Hb Ho Hl. unfold buf_write.
  assert (zlen l1 + zlen h ≤ PKT_BUF_SIZE) as Hle.
  { rewrite Hb, !length_app in Hl. wrap_lia. }
  replace ((0 <=? zlen l1) && (zlen l1 + zlen h <=? PKT_BUF_SIZE)) with true
    by (symmetry; apply andb_true_iff; lia).
  do 2 f_equal. rewrite Nat2Z.id, Hb, <- (Nat.add_0_r (length l1)), splice_app_r.
  by rewrite splice_app_l, splice_all by lia.
Qed.

(** What a write leaves behind: the window is [w] between [l1] and [l2]. *)
Lemma pkt_rewindow p l1 w l2 data len :
  pkt_wf p → length (l1 ++ w ++ l2) = Z.to_nat PKT_BUF_SIZE → bytes_ok (l1 ++ w ++ l2) →
  data = zlen l1 → len = zlen w →
  let p' := p <| p_data := data |> <| p_len := len |> <| p_buf := l1 ++ w ++ l2 |> in
  pkt_wf p' ∧ pkt_bytes p' = w.
Proof.
  intros Hwf Hl Hok -> ->. cbv zeta. split.
  - by apply (pkt_wf_cut _ l1 w l2).
  - by apply (pkt_bytes_cut _ l1 w l2).
Qed.

Lemma pkt_prepend_ok p h :
  pkt_wf p → bytes_ok h → zlen h ≤ p_data p →
  ∃ p', pkt_prepend p h = Ok p' ∧ pkt_wf p' ∧ pkt_bytes p' = h ++ pkt_bytes p ∧
        p_data p' = p_data p - zlen h ∧ p_len p' = p_len p + zlen h.
Proof.
  intros Hwf Hh Hle. pose proof Hwf as [Hd Hl Hf Hb Hok].
  pose proof (length_pkt_bytes p Hwf) as Hlb. pose proof (pkt_buf_split p Hwf) as Hcut.
  set (l3 := drop (Z.to_nat (p_data p + p_len p)) (p_buf p)) in *.
  set (k := Z.to_nat (p_data p - zlen h)).
  set (l1 := take k (p_buf p)).
  set (old := drop k (take (Z.to_nat (p_data p)) (p_buf p))).
  assert (take (Z.to_nat (p_data p)) (p_buf p) = l1 ++ old) as Hpre.
  { rewrite <- (take_drop k (take _ _)). unfold l1. by rewrite take_take, Nat.min_l by lia. }
  assert (zlen l1 = p_data p - zlen h) as Hl1.
  { unfold l1. rewrite length_take, Hb. wrap_lia. }
  assert (length old = length h) as Hold.
  { unfold old. rewrite length_drop, length_take, Hb. wrap_lia. }
  rewrite Hpre, <- app_assoc in Hcut.
  assert (u16 (p_len p + zlen h) = zlen (h ++ pkt_bytes p)) as Hu.
  { rewrite length_app, u16_small; wrap_lia. }
  unfold pkt_prepend, pkt_push.
  rewrite pkt_headroom_eq, (proj2 (Z.leb_le _ _) Hle) by done. cbn.
  rewrite <- Hl1. erewrite buf_write_cut by (cbn; done). eexists. split; [done|].
  rewrite app_assoc, <- (app_assoc l1). 
  destruct (pkt_rewindow p l1 (h ++ pkt_bytes p) l3 (zlen l1) (u16 (p_len p + zlen h)))
    as [Hwf' Hb']; try done.
  - rewrite Hcut, !length_app in Hb. rewrite !length_app. lia.
  - rewrite Hcut, !Forall_app in Hok. rewrite !Forall_app. tauto.
  - rewrite <- !app_assoc in *. split_and!; try done. cbn. rewrite Hu, length_app. lia.
Qed.

Lemma pkt_append_ok p h :
  pkt_wf p → bytes_ok h → zlen h ≤ PKT_BUF_SIZE - p_data p - p_len p →
  ∃ p', pkt_append p h = Ok p' ∧ pkt_wf p' ∧ pkt_bytes p' = pkt_bytes p ++ h ∧
        p_data p' = p_data p ∧ p_len p' = p_len p + zlen h.
Proof.
  intros Hwf Hh Hle. pose proof Hwf as [Hd Hl Hf Hb Hok].
  pose proof (length_pkt_bytes p Hwf) as Hlb. pose proof (pkt_buf_split p Hwf) as Hcut.
  set (l1 := take (Z.to_nat (p_data p)) (p_buf p)) in *.
  set (rest := drop (Z.to_nat (p_data p + p_len p)) (p_buf p)) in *.
  set (old := take (length h) rest). set (l3 := drop (length h) rest).
  assert (rest = old ++ l3) as Hrest by (symmetry; apply take_drop).
  assert (zlen l1 = p_data p) as Hl1 by (unfold l1; rewrite length_take, Hb; wrap_lia).
  assert (length old = length h) as Hold.
  { unfold old, rest. rewrite length_take, length_drop, Hb. wrap_lia. }
  rewrite Hrest in Hcut. rewrite (app_assoc l1) in Hcut.
  assert (u16 (p_len p + zlen h) = zlen (pkt_bytes p ++ h)) as Hu.
  { rewrite length_app, u16_small; wrap_lia. }
  assert (p_data p + p_len p = zlen (l1 ++ pkt_bytes p)) as Hpos.
  { rewrite length_app. lia. }
  unfold pkt_append, pkt_put.
  rewrite pkt_tailroom_eq, (proj2 (Z.leb_le _ _) Hle) by done. cbn.
  rewrite Hpos. erewrite buf_write_cut by (cbn; done). eexists. split; [done|].
  destruct (pkt_rewindow p l1 (pkt_bytes p ++ h) l3 (zlen l1) (u16 (p_len p + zlen h)))
    as [Hwf' Hb']; try done.
  - rewrite Hcut, !length_app in Hb. rewrite !length_app. lia.
  - rewrite Hcut, !Forall_app in Hok. rewrite !Forall_app. tauto.
  - rewrite <- !app_assoc in *. unfold set_field in *. rewrite Hl1 in *. destruct p.
    split_and!; try done. cbn in *. rewrite Hu, length_app. lia.
Qed.

(** Filling a fresh transmit packet. *)
Lemma tx_append_ok h :
  bytes_ok h → zlen h ≤ PKT_BUF_SIZE - PKT_TX_HEADROOM →
  ∃ p', pkt_append tx_pkt h = Ok p' ∧ pkt_wf p' ∧ pkt_bytes p' = h ∧
        p_data p' = PKT_TX_HEADROOM ∧ p_len p' = zlen h.
Proof.
  intros Hok Hl. destruct (pkt_append_ok tx_pkt h) as (p & Hp & Hwf & Hb & Hd & Hlen);
    [apply tx_pkt_wf|done| |].
  - change (p_data tx_pkt) with PKT_TX_HEADROOM. change (p_len tx_pkt) with 0. lia.
  - change (p_len tx_pkt) with 0 in Hlen. change (p_data tx_pkt) with PKT_TX_HEADROOM in Hd.
    eauto 10 with lia.
Qed.

Lemma pkt_pull_ok p n :
  pkt_wf p → 0 ≤ n ≤ p_len p →
  ∃ p', pkt_pull p n = Ok p' ∧ pkt_wf p' ∧ pkt_bytes p' = drop (Z.to_nat n) (pkt_bytes p) ∧
        p_data p' = p_data p + n ∧ p_len p' = p_len p - n.
Proof.
  intros Hwf Hn. pose proof Hwf as [Hd Hl Hf Hb Hok].
  unfold pkt_pull. rewrite (proj2 (Z.leb_le n _)) by lia. cbn.
  assert (u16 (p_len p - n) = p_len p - n) as Hu by wrap_lia.
  eexists. split; [done|]. cbn. rewrite Hu. split_and!; try done.
  - split; cbn; try done; lia.
  - unfold pkt_bytes. cbn. rewrite skipn_firstn_comm, drop_drop. f_equal; [lia|f_equal; lia].
Qed.

Lemma pkt_trim_ok p n :
  pkt_wf p → 0 ≤ n ≤ p_len p →
  ∃ p', pkt_trim p n = Ok p' ∧ pkt_wf p' ∧ pkt_bytes p' = take (Z.to_nat n) (pkt_bytes p) ∧
        p_data p' = p_data p ∧ p_len p' = n.
Proof.
  intros Hwf Hn. pose proof Hwf as [Hd Hl Hf Hb Hok].
  unfold pkt_trim. rewrite (proj2 (Z.leb_le n _)) by lia. cbn.
  eexists. split; [done|]. split_and!; try done.
  - split; cbn; try done; lia.
  - unfold pkt_bytes. cbn. rewrite take_take. f_equal. lia.
Qed.

(** Overwriting valid bytes at offset [off] from [data]. *)
Lemma pkt_patch_ok p off h :
  pkt_wf p → bytes_ok h → 0 ≤ off → off + zlen h ≤ p_len p →
  ∃ p', buf_write p (p_data p + off) h = Ok p' ∧ pkt_wf p' ∧
        pkt_bytes p' = splice (pkt_bytes p) (Z.to_nat off) h ∧
        p_data p' = p_data p ∧ p_len p' = p_len p.
Proof.
  intros Hwf Hh Ho Hle. pose proof Hwf as [Hd Hl Hf Hb Hok].
  pose proof (length_pkt_bytes p Hwf) as Hlb. pose proof (pkt_buf_split p Hwf) as Hcut.
  set (l1 := take (Z.to_nat (p_data p)) (p_buf p)) in *.
  set (l3 := drop (Z.to_nat (p_data p + p_len p)) (p_buf p)) in *.
  assert (zlen l1 = p_data p) as Hl1 by (unfold l1; rewrite length_take, Hb; wrap_lia).
  unfold buf_write.
  replace ((0 <=? p_data p + off) && (p_data p + off + zlen h <=? PKT_BUF_SIZE)) with true
    by (symmetry; apply andb_true_iff; lia).
  eexists. split; [done|].
  assert (splice (p_buf p) (Z.to_nat (p_data p + off)) h =
          l1 ++ splice (pkt_bytes p) (Z.to_nat off) h ++ l3) as Hs.
  { replace (Z.to_nat (p_data p + off)) with (length l1 + Z.to_nat off)%nat by lia.
    rewrite Hcut at 1. rewrite splice_app_r, splice_app_l by lia. done. }
  assert (zlen (splice (pkt_bytes p) (Z.to_nat off) h) = p_len p) as Hls
    by (rewrite length_splice by lia; lia).
  rewrite Hs.
  destruct (pkt_rewindow p l1 (splice (pkt_bytes p) (Z.to_nat off) h) l3 (p_data p) (p_len p))
    as [Hwf' Hb']; try done.
  - rewrite <- Hs, length_splice, Hb; [done|]. wrap_lia.
  - rewrite <- Hs. by apply splice_ok.
Qed.

(** A read inside the window. *)
Lemma pkt_read_ok p off n :
  pkt_wf p → 0 ≤ off → 0 ≤ n → off + n ≤ p_len p →
  pkt_read p off n = Ok (take (Z.to_nat n) (drop (Z.to_nat off) (pkt_bytes p))).
Proof.
  intros [Hd Hl Hf Hb Hok] Ho Hn Hle. unfold pkt_read.
  replace ((0 <=? p_data p + off) && (0 <=? n) && (p_data p + off + n <=? PKT_BUF_SIZE)) with true
    by (symmetry; rewrite !andb_true_iff; lia).
  f_equal. unfold pkt_bytes. rewrite skipn_firstn_comm, drop_drop, take_take.
  f_equal; [lia|f_equal; lia].
Qed.

(** Metadata does not touch the window. *)
Lemma pkt_bytes_meta p ip port :
  pkt_bytes (p <| p_meta_ip := ip |> <| p_meta_port := port |>) = pkt_bytes p.
Proof. reflexivity. Qed.

End Pkt.
