(* ===== verification/Pktq.v ===== *)
(** * Packet queues

    The intrusive singly linked FIFO of [core/pkt.c] ([pktq_init],
    [pktq_push], [pktq_pop], [pktq_free_all]) over a heap of packets, its
    representation invariant, and the refinement to a list. *)

From S2P Require Import Prelude Pkt.

Module Pktq.
Import Pkt.

(** Addresses of heap-allocated packets. *)
Abbreviation loc := nat.

(** A packet object together with its [next] link. *)
Record node := mk_node { nd_pkt : pkt; nd_next : option loc }.
#[export] Instance eta_node : Eta node := fun x => mk_node (nd_pkt x) (nd_next x).

Abbreviation heap := (gmap loc node).

(** [struct pktq]. *)
Record pktq := mk_pktq { q_head : option loc; q_tail : option loc; q_n : Z }.
#[export] Instance eta_pktq : Eta pktq := fun x => mk_pktq (q_head x) (q_tail x) (q_n x).

Definition pktq_init : pktq := mk_pktq None None 0.

(** [x->next = v]: following a dangling pointer is undefined. *)
Definition set_next (h : heap) (x : loc) (v : option loc) : result heap :=
  nd ← in_bounds (h !! x); Ok (<[x := nd <| nd_next := v |>]> h).

Definition pktq_push (h : heap) (q : pktq) (p : loc) : result (heap * pktq) :=
  h ← set_next h p None;
  '(h, q) ← match q_tail q with
             | Some t => h ← set_next h t (Some p); Ok (h, q)
             | None => Ok (h, q <| q_head := Some p |>)
             end;
  Ok (h, q <| q_tail := Some p |> <| q_n := u32 (q_n q + 1) |>).

Definition pktq_pop (h : heap) (q : pktq) : result (option loc * heap * pktq) :=
  match q_head q with
  | None => Ok (None, h, q)
  | Some p =>
      nd ← in_bounds (h !! p);
      let q := q <| q_head := nd_next nd |> in
      let q := match q_head q with None => q <| q_tail := None |> | Some _ => q end in
      h ← set_next h p None;
      Ok (Some p, h, q <| q_n := u32 (q_n q - 1) |>)
  end.

Definition pktq_empty (q : pktq) : bool :=
  match q_head q with None => true | Some _ => false end.

(** [pkt_free]: the object is gone from the heap. *)
Definition pkt_free (h : heap) (p : loc) : heap := delete p h.

(** [while ((p = pktq_pop(q)) != NULL) pkt_free(p);] *)
Fixpoint pktq_free_all (fuel : nat) (h : heap) (q : pktq) : result (heap * pktq) :=
  match fuel with
  | O => Err OutOfFuel
  | S fuel =>
      '(o, h, q) ← pktq_pop h q;
      match o with
      | None => Ok (h, q)
      | Some p => pktq_free_all fuel (pkt_free h p) q
      end
  end.

(** ** Representation *)

(** Following [next] from [o] visits exactly [l]. *)
Fixpoint linked (h : heap) (o : option loc) (l : list loc) : Prop :=
  match l with
  | [] => o = None
  | x :: l => o = Some x ∧ ∃ nd, h !! x = Some nd ∧ linked h (nd_next nd) l
  end.

(** [rep h q lps]: [q] represents the list of packets [lps], front first,
    each with its address. *)
Record rep (h : heap) (q : pktq) (lps : list (loc * pkt)) : Prop := {
  rep_linked : linked h (q_head q) lps.*1;
  rep_tail : q_tail q = last lps.*1;
  rep_n : q_n q = zlen lps;
  rep_nodup : NoDup lps.*1;
  rep_small : zlen lps < 2 ^ 32;
  rep_pkts : Forall (fun xp => ∃ nx, h !! xp.1 = Some (mk_node xp.2 nx)) lps;
}.

Lemma linked_frame (h : heap) o l x nd :
  x ∉ l → linked h o l → linked (<[x := nd]> h) o l.
Proof.
  revert o. induction l as [|y l IH]; intros o Hx; cbn; [done|].
  intros (-> & nd' & Hy & Hl). split; [done|]. exists nd'.
  apply not_elem_of_cons in Hx as [Hne Hx].
  rewrite lookup_insert_ne by done. auto.
Qed.

(** Linking a new last node behind the current one. *)
Lemma linked_snoc (h : heap) o l x t nd ndx :
  last l = Some t → NoDup l → x ∉ l → h !! t = Some nd → h !! x = Some ndx →
  nd_next ndx = None → linked h o l →
  linked (<[t := nd <| nd_next := Some x |>]> h) o (l ++ [x]).
Proof.
  revert o. induction l as [|y l IH]; intros o Hlast Hnd Hx Ht Hhx Hnx; [done|].
  apply not_elem_of_cons in Hx as [Hne Hx]. apply NoDup_cons in Hnd as [Hy Hnd].
  cbn. intros (-> & nd' & Hhy & Hl). split; [done|]. destruct l as [|z l].
  - cbn in Hlast. simplify_eq. eexists. rewrite lookup_insert_eq. split; [done|].
    split; [done|]. exists ndx. by rewrite lookup_insert_ne.
  - assert (t ≠ y) as Hty.
    { intros ->. apply Hy, last_Some_elem_of. done. }
    exists nd'. rewrite lookup_insert_ne by done. split; [done|]. by apply IH.
Qed.

Lemma rep_pkts_frame (h : heap) (lps : list (loc * pkt)) x nd nx :
  h !! x = Some nd →
  Forall (fun xp => ∃ nx, h !! xp.1 = Some (mk_node xp.2 nx)) lps →
  Forall (fun xp => ∃ nx', <[x := nd <| nd_next := nx |>]> h !! xp.1 =
                           Some (mk_node xp.2 nx')) lps.
Proof.
  intros Hx Hall. eapply Forall_impl; [exact Hall|]. intros [y p] [ny Hy]. cbn in *.
  destruct (decide (x = y)) as [->|Hne].
  - rewrite lookup_insert_eq. simplify_eq. eexists. done.
  - rewrite lookup_insert_ne by done. eauto.
Qed.

Lemma pktq_init_rep h : rep h pktq_init [].
Proof. split; try done. apply NoDup_nil_2. Qed.

Lemma pktq_push_rep h q lps x p nx :
  rep h q lps → h !! x = Some (mk_node p nx) → x ∉ lps.*1 → zlen lps + 1 < 2 ^ 32 →
  ∃ h' q', pktq_push h q x = Ok (h', q') ∧ rep h' q' (lps ++ [(x, p)]).
Proof.
  intros [Hl Ht Hn Hnd Hs Hp] Hx Hfresh Hsmall.
  unfold pktq_push, set_next. rewrite Hx. cbn.
  set (h0 := <[x := _]> h).
  assert (h0 !! x = Some (mk_node p None)) as Hx0 by apply lookup_insert_eq.
  assert (linked h0 (q_head q) lps.*1) as Hl0 by by apply linked_frame.
  assert (Forall (fun xp => ∃ nx, h0 !! xp.1 = Some (mk_node xp.2 nx)) (lps ++ [(x, p)])) as Hp0.
  { apply Forall_app. split; [exact (rep_pkts_frame _ _ _ (mk_node p nx) None Hx Hp)|].
    repeat constructor. eauto. }
  assert (NoDup (lps ++ [(x, p)]).*1) as Hnd'.
  { rewrite fmap_app. cbn. apply NoDup_app. split_and!; [done| |apply NoDup_singleton].
    intros y Hy ->%list_elem_of_singleton. done. }
  rewrite Ht. destruct (last lps.*1) as [t|] eqn:Hlast; cbn.
  - assert (∃ pt, (t, pt) ∈ lps) as [pt Hin].
    { apply last_Some_elem_of, list_elem_of_fmap in Hlast as ([? pt] & -> & ?). by exists pt. }
    rewrite Forall_forall in Hp0. destruct (Hp0 (t, pt)) as [nt Hht]; [set_solver|].
    cbn in Hht. rewrite Hht. cbn. eexists _, _. split; [done|].
    split; cbn; rewrite ?fmap_app, ?length_app; cbn; try done.
    + eapply linked_snoc; eauto.
    + by rewrite last_snoc.
    + rewrite Hn, u32_small; wrap_lia.
    + by rewrite fmap_app in Hnd'.
    + wrap_lia.
    + apply (rep_pkts_frame h0 _ t (mk_node pt nt) (Some x)); [done|]. by rewrite Forall_forall.
  - apply last_None, fmap_nil_inv in Hlast as ->. eexists _, _. split; [done|].
    split; cbn; try done.
    + split; [done|]. eauto.
    + cbn in Hn. rewrite Hn. reflexivity.
Qed.

Lemma pktq_pop_rep h q lps :
  rep h q lps →
  match lps with
  | [] => pktq_pop h q = Ok (None, h, q)
  | (x, p) :: lps' =>
      ∃ h' q', pktq_pop h q = Ok (Some x, h', q') ∧ rep h' q' lps' ∧
               h' !! x = Some (mk_node p None) ∧ dom h' = dom h
  end.
Proof.
  intros [Hl Ht Hn Hnd Hs Hp]. unfold pktq_pop.
  destruct lps as [|[x p] lps]; cbn in *; [by rewrite Hl|].
  destruct Hl as (-> & nd & Hx & Hl). apply NoDup_cons in Hnd as [Hfresh Hnd].
  inversion_clear Hp as [|?? [nx Hx'] Hp']. cbn in Hx'. rewrite Hx in Hx'. simplify_eq. cbn in *.
  unfold set_next. rewrite Hx. cbn. eexists _, _. split; [done|]. split; [split|split]; cbn.
  - destruct nx; cbn; by apply linked_frame.
  - destruct lps as [|[y py] lps]; cbn in *; [by rewrite Hl|].
    destruct Hl as [-> _]. cbn. by rewrite Ht.
  - rewrite u32_small; destruct nx; cbn; lia.
  - done.
  - lia.
  - exact (rep_pkts_frame _ _ _ (mk_node p nx) None Hx Hp').
  - apply lookup_insert_eq.
  - rewrite dom_insert_L. apply elem_of_dom_2 in Hx. set_solver.
Qed.

Lemma rep_delete h q lps x : x ∉ lps.*1 → rep h q lps → rep (delete x h) q lps.
Proof.
  intros Hx [Hl Ht Hn Hnd Hs Hp]. split; try done.
  - clear -Hx Hl. revert Hx Hl. generalize (q_head q).
    induction lps.*1 as [|y l IH]; intros o Hx Hl; cbn in *; [done|].
    apply not_elem_of_cons in Hx as [Hne Hx].
    destruct Hl as (-> & nd & Hy & Hl). split; [done|]. exists nd.
    rewrite lookup_delete_ne by done. auto.
  - apply Forall_forall. rewrite Forall_forall in Hp. intros [y p] Hin.
    destruct (Hp _ Hin) as [nx Hy]. exists nx. cbn in *.
    rewrite lookup_delete_ne; [done|]. intros ->. apply Hx, list_elem_of_fmap. eexists. split; [|done]. done.
Qed.

Lemma pktq_free_all_rep h q lps fuel :
  rep h q lps → (length lps < fuel)%nat →
  ∃ h' q', pktq_free_all fuel h q = Ok (h', q') ∧ rep h' q' [] ∧
           dom h' = dom h ∖ list_to_set lps.*1.
Proof.
  revert h q fuel. induction lps as [|[x p] lps IH]; intros h q fuel Hrep Hf;
    destruct fuel as [|fuel]; cbn in Hf; try lia; cbn; pose proof (pktq_pop_rep _ _ _ Hrep) as Hpop.
  - cbn in Hpop. rewrite Hpop. cbn. eexists _, _. split; [done|]. split; [done|set_solver].
  - destruct Hpop as (h' & q' & -> & Hrep' & Hx & Hdom). cbn.
    pose proof (rep_nodup _ _ _ Hrep) as Hnd. cbn in Hnd. apply NoDup_cons in Hnd as [Hfresh _].
    destruct (IH (pkt_free h' x) q' fuel) as (h2 & q2 & E & Hrep2 & Hdom2);
      [by apply rep_delete|lia|].
    exists h2, q2. split_and!; try done. rewrite Hdom2. unfold pkt_free.
    rewrite dom_delete_L, Hdom. set_solver.
Qed.

(** ** Property *)

(** The abstract queue of the rest of the development. *)
Definition fifo_push (l : list (loc * pkt)) (x : loc * pkt) : list (loc * pkt) := l ++ [x].
Definition fifo_pop (l : list (loc * pkt)) : option (loc * pkt) * list (loc * pkt) :=
  match l with [] => (None, []) | x :: l => (Some x, l) end.

(** C40. The linked queue implements a FIFO list: from a represented state,
    [pktq_push] of a packet that is not queued appends it, [pktq_pop] returns
    the oldest packet (NULL exactly on the empty queue), the count field
    stays the length, and [pktq_free_all] ends, empties the queue and frees
    exactly the queued packets. No operation follows a dangling pointer. *)
Theorem pktq_refines_fifo h q lps :
  rep h q lps →
  (∀ x p nx, h !! x = Some (mk_node p nx) → x ∉ lps.*1 → zlen lps + 1 < 2 ^ 32 →
     ∃ h' q', pktq_push h q x = Ok (h', q') ∧ rep h' q' (fifo_push lps (x, p))) ∧
  (∃ h' q', pktq_pop h q = Ok (fst <$> (fifo_pop lps).1, h', q') ∧
     rep h' q' (fifo_pop lps).2 ∧ dom h' = dom h) ∧
  (pktq_empty q = true ↔ lps = []) ∧
  (∃ h' q', pktq_free_all (S (length lps)) h q = Ok (h', q') ∧ rep h' q' [] ∧
     dom h' = dom h ∖ list_to_set lps.*1).
Proof.
  intros Hrep. split_and!.
  - intros. by eapply pktq_push_rep.
  - pose proof (pktq_pop_rep _ _ _ Hrep) as Hpop. destruct lps as [|[x p] lps]; cbn.
    + eexists _, _. split_and!; done.
    + destruct Hpop as (h' & q' & ? & ? & ? & ?). eexists _, _. eauto.
  - destruct Hrep as [Hl _ _ _ _ _]. unfold pktq_empty.
    destruct lps as [|[x p] lps]; cbn in Hl; [by rewrite Hl|].
    destruct Hl as [-> _]. split; done.
  - apply pktq_free_all_rep; [done|lia].
Qed.

Lemma pktq_refines_fifo_witness :
  ∃ h q, pktq_push {[5%nat := mk_node pkt_alloc (Some 9%nat)]} pktq_init 5%nat = Ok (h, q) ∧
         rep h q (fifo_push [] (5%nat, pkt_alloc)).
Proof.
  apply (proj1 (pktq_refines_fifo {[5%nat := mk_node pkt_alloc (Some 9%nat)]} pktq_init []
                  (pktq_init_rep _)) 5%nat pkt_alloc (Some 9%nat)).
  - reflexivity.
  - apply not_elem_of_nil.
  - reflexivity.
Defined.

End Pktq.
