(* ===== verification/Fib.v ===== *)
(** * The forwarding information base

    Models [route/fib.h] and [route/fib.c]: the unibit trie over a pool of
    route entries with insertion, recursive deletion with pruning, longest
    prefix match and the in-order walk, and proves that they implement a
    finite map from prefixes to routes. Pointers into the pool are pool
    indices; a [struct netdev *] is a device index, [None] when NULL. *)

From S2P Require Import Prelude.

Module Fib.

Definition FIB_MAX_ROUTES : Z := 64.
#[global] Hint Unfold FIB_MAX_ROUTES : ints.

(** [struct fib_entry]. *)
Record fib_entry := mk_entry {
  fe_in_use : bool;
  fe_prefix : Z;
  fe_plen : Z;
  fe_next_hop : Z;
  fe_dev : option nat;
  fe_connected : bool;
}.
#[export] Instance eta_entry : Eta fib_entry := fun e =>
  mk_entry (fe_in_use e) (fe_prefix e) (fe_plen e) (fe_next_hop e) (fe_dev e) (fe_connected e).

(** [struct fib_node *]: NULL, or a node with its entry and children. *)
Inductive fib_node :=
  | NNull
  | NNode (entry : option nat) (child0 child1 : fib_node).

(** [struct fib]. *)
Record fib := mk_fib { fib_root : fib_node; fib_pool : list fib_entry }.
#[export] Instance eta_fib : Eta fib := fun f => mk_fib (fib_root f) (fib_pool f).

Definition zero_entry : fib_entry := mk_entry false 0 0 0 None false.

Definition fib_init : fib :=
  mk_fib NNull (replicate (Z.to_nat FIB_MAX_ROUTES) zero_entry).

(** [node_free_rec] frees the whole trie; nothing of it is left. *)
Definition node_free_rec (n : fib_node) : fib_node := NNull.

Definition fib_fini (f : fib) : fib :=
  let _ := node_free_rec (fib_root f) in
  fib_init.

(** The first free slot of the pool. *)
Fixpoint pool_alloc (pool : list fib_entry) : option nat :=
  match pool with
  | [] => None
  | e :: pool => if fe_in_use e then S <$> pool_alloc pool else Some O
  end.

Definition bit_at (addr depth : Z) : Z := Z.land (Z.shiftr addr (31 - depth)) 1.

(** [plen == 0 ? 0 : 0xffffffffu << (32 - plen)]. *)
Definition plen_mask (plen : Z) : Z :=
  if plen =? 0 then 0 else u32 (Z.shiftl 0xffffffff (32 - plen)).

Definition fresh_node : fib_node := NNode None NNull NNull.

Definition calloc_if_null (n : fib_node) : fib_node :=
  match n with NNull => fresh_node | _ => n end.

Definition child (n : fib_node) (b : Z) : fib_node :=
  match n with NNull => NNull | NNode _ c0 c1 => if b =? 0 then c0 else c1 end.

Definition set_child (n : fib_node) (b : Z) (c : fib_node) : fib_node :=
  match n with
  | NNull => NNull
  | NNode e c0 c1 => if b =? 0 then NNode e c c1 else NNode e c0 c
  end.

(** The descent of [fib_add]: [for (d = ..; d < plen; d++)] allocates the
    missing nodes on the path, then [upd] edits the node it ends at. [k] is
    the number of levels still to go. *)
Fixpoint descend (n : fib_node) (prefix d : Z) (k : nat) (upd : option nat → option nat)
    : fib_node :=
  match k with
  | O => match n with NNull => NNull | NNode e c0 c1 => NNode (upd e) c0 c1 end
  | S k =>
      let b := bit_at prefix d in
      set_child n b (descend (calloc_if_null (child n b)) prefix (d + 1) k upd)
  end.

(** [n->entry] at the end of the descent. *)
Fixpoint entry_at (n : fib_node) (prefix d : Z) (k : nat) : option nat :=
  match k with
  | O => match n with NNull => None | NNode e _ _ => e end
  | S k => entry_at (child n (bit_at prefix d)) prefix (d + 1) k
  end.

(** Returns the new state and the C return code. *)
Definition fib_add (f : fib) (prefix plen next_hop : Z) (dev : option nat) (connected : bool)
    : fib * Z :=
  if (32 <? plen) || bool_decide (dev = None) then (f, -1)
  else
    let mask := plen_mask plen in
    let prefix := Z.land prefix mask in
    let k := Z.to_nat plen in
    let root := descend (calloc_if_null (fib_root f)) prefix 0 k id in
    let e := mk_entry true prefix plen next_hop dev connected in
    match entry_at root prefix 0 k with
    | Some i => (mk_fib root (<[i := e]> (fib_pool f)), 0)
    | None =>
        match pool_alloc (fib_pool f) with
        | None => (mk_fib root (fib_pool f), -1)
        | Some i => (mk_fib (descend root prefix 0 k (fun _ => Some i))
                            (<[i := e]> (fib_pool f)), 0)
        end
    end.

(** [!n->entry && !n->child[0] && !n->child[1]]. *)
Definition node_empty (e : option nat) (c0 c1 : fib_node) : bool :=
  match e, c0, c1 with None, NNull, NNull => true | _, _, _ => false end.

(** [del_rec]: the new subtree, whether it was freed (the C return value), the
    pool and [*found]. *)
Fixpoint del_rec (n : fib_node) (prefix plen depth : Z) (pool : list fib_entry) (found : bool)
    : fib_node * bool * list fib_entry * bool :=
  match n with
  | NNull => (NNull, false, pool, found)
  | NNode e c0 c1 =>
      let '(e', c0', c1', pool', found') :=
        if depth =? plen then
          match e with
          | Some i => (None, c0, c1, alter (set_field fe_in_use (fun _ => false)) i pool, true)
          | None => (e, c0, c1, pool, found)
          end
        else if bit_at prefix depth =? 0 then
          let '(c, freed, pool', found') := del_rec c0 prefix plen (depth + 1) pool found in
          (e, if freed : bool then NNull else c, c1, pool', found')
        else
          let '(c, freed, pool', found') := del_rec c1 prefix plen (depth + 1) pool found in
          (e, c0, if freed : bool then NNull else c, pool', found')
      in
      (NNode e' c0' c1', node_empty e' c0' c1' && (0 <? depth), pool', found')
  end.

Definition fib_del (f : fib) (prefix plen : Z) : fib * Z :=
  if 32 <? plen then (f, -1)
  else
    let mask := plen_mask plen in
    let '(root, _, pool, found) :=
      del_rec (fib_root f) (Z.land prefix mask) plen 0 (fib_pool f) false in
    (mk_fib root pool, if found : bool then 0 else -1).

(** The [while (n)] loop of [fib_lookup]. *)
Fixpoint lookup_walk (n : fib_node) (dst depth : Z) (best : option nat) : option nat :=
  match n with
  | NNull => best
  | NNode e c0 c1 =>
      let best := match e with Some i => Some i | None => best end in
      if depth =? 32 then best
      else if bit_at dst depth =? 0 then lookup_walk c0 dst (depth + 1) best
      else lookup_walk c1 dst (depth + 1) best
  end.

Definition fib_lookup (f : fib) (dst : Z) : option nat := lookup_walk (fib_root f) dst 0 None.

(** [fib_add_via]: the state it changes is [stack->fib]. *)
Definition fib_add_via (f : fib) (prefix plen next_hop : Z) : fib * Z :=
  match fib_lookup f next_hop ≫= (fib_pool f !!.) with
  | Some via =>
      if fe_connected via then fib_add f prefix plen next_hop (fe_dev via) false else (f, -1)
  | None => (f, -1)
  end.

(** [walk_rec] with a callback that records the entry it is given. *)
Fixpoint walk_rec (n : fib_node) : list nat :=
  match n with
  | NNull => []
  | NNode e c0 c1 => option_list e ++ walk_rec c0 ++ walk_rec c1
  end.

Definition fib_walk (f : fib) : list fib_entry := omap (fib_pool f !!.) (walk_rec (fib_root f)).

(** ** The trie as a function from bit paths to entries *)

(** The entry at the end of [path], from any node. *)
Fixpoint tget (n : fib_node) (path : list Z) : option nat :=
  match n, path with
  | NNull, _ => None
  | NNode e _ _, [] => e
  | NNode _ c0 c1, b :: path => tget (if b =? 0 then c0 else c1) path
  end.

(** The bits of an address from depth [d], [k] of them, MSB first. *)
Definition bits_from (a d : Z) (k : nat) : list Z :=
  (fun i => bit_at a (d + Z.of_nat i)) <$> seq 0 k.

(** The path of a prefix. *)
Definition path_of (prefix plen : Z) : list Z := bits_from prefix 0 (Z.to_nat plen).

Definition is_bit (b : Z) : Prop := b = 0 ∨ b = 1.

Lemma bit_at_is_bit a d : is_bit (bit_at a d).
Proof. unfold bit_at, is_bit. rewrite (Z.land_ones _ 1) by lia. change (2 ^ 1) with 2. Z.div_mod_to_equations; lia. Qed.

Lemma bits_from_S a d k : bits_from a d (S k) = bit_at a d :: bits_from a (d + 1) k.
Proof.
  unfold bits_from. cbn. f_equal; [f_equal; lia|].
  rewrite <- fmap_S_seq, <- list_fmap_compose. apply list_fmap_ext.
  intros i x _. cbn. f_equal. lia.
Qed.

Lemma length_bits_from a d k : length (bits_from a d k) = k.
Proof. unfold bits_from. by rewrite length_fmap, length_seq. Qed.

Lemma take_bits_from a d k j : (j ≤ k)%nat → take j (bits_from a d k) = bits_from a d j.
Proof. intros. unfold bits_from. rewrite <- fmap_take, take_seq, Nat.min_l by lia. done. Qed.

Lemma bits_from_bits a d k : Forall is_bit (bits_from a d k).
Proof. apply Forall_fmap, Forall_true. intros. apply bit_at_is_bit. Qed.

Lemma is_bit_eqb b b' : is_bit b → is_bit b' → (b =? 0) = (b' =? 0) → b = b'.
Proof. intros [->| ->] [->| ->]; done. Qed.

Lemma tget_null path : tget NNull path = None.
Proof. by destruct path. Qed.

Lemma tget_child n b path : tget (child n b) path = tget n (b :: path).
Proof. destruct n; [by rewrite tget_null|done]. Qed.

Lemma tget_calloc n path : tget (calloc_if_null n) path = tget n path.
Proof. destruct n; [|done]. destruct path; cbn; [done|]. case_match; apply tget_null. Qed.

Lemma entry_at_tget n prefix d k : entry_at n prefix d k = tget n (bits_from prefix d k).
Proof.
  revert n d. induction k as [|k IH]; intros n d; [by destruct n|].
  cbn [entry_at]. rewrite IH, tget_child, bits_from_S. done.
Qed.

Lemma tget_set_child e c0 c1 b c path :
  is_bit b → Forall is_bit path →
  tget (set_child (NNode e c0 c1) b c) path =
  match path with
  | [] => e
  | b' :: q => if decide (b' = b) then tget c q else tget (NNode e c0 c1) path
  end.
Proof.
  intros Hb Hp. destruct path as [|b' q]; [cbn; by case_match|].
  apply Forall_cons in Hp as [Hb' _].
  destruct (decide (b' = b)) as [->|Hne]; cbn; destruct (b =? 0) eqn:E; cbn; rewrite ?E; try done;
    destruct (b' =? 0) eqn:E'; try done; destruct Hne; apply is_bit_eqb; congruence || done.
Qed.

(** The descent edits exactly the entry at its path. *)
Lemma tget_descend n prefix d k upd path :
  n ≠ NNull → Forall is_bit path →
  tget (descend n prefix d k upd) path =
  if decide (path = bits_from prefix d k) then upd (tget n path) else tget n path.
Proof.
  revert n d path. induction k as [|k IH]; intros n d path Hn Hp; destruct n as [|e c0 c1]; try done.
  - cbn. unfold bits_from. by destruct path.
  - cbn [descend]. rewrite bits_from_S, tget_set_child by (done || apply bit_at_is_bit).
    destruct path as [|b' q]; [by rewrite decide_False|]. apply Forall_cons in Hp as [Hb' Hq].
    destruct (decide (b' = bit_at prefix d)) as [->|Hne]; [|by rewrite decide_False by congruence].
    rewrite IH, tget_calloc, tget_child.
    + repeat case_decide; congruence || done.
    + cbn. case_match; [destruct c0|destruct c1]; done.
    + done.
Qed.

Lemma descend_not_null n prefix d k upd : n ≠ NNull → descend n prefix d k upd ≠ NNull.
Proof. destruct n, k; try done; cbn; by case_match. Qed.

Lemma node_empty_tget e c0 c1 : node_empty e c0 c1 = true → ∀ q, tget (NNode e c0 c1) q = None.
Proof.
  destruct e, c0, c1; try done. intros _ [|b q]; cbn; [done|]. case_match; apply tget_null.
Qed.

Definition release (i : nat) (pool : list fib_entry) : list fib_entry :=
  alter (set_field fe_in_use (fun _ => false)) i pool.

(** What a run of [del_rec] on [n] guarantees. *)
Definition del_post (n : fib_node) (target : list Z) (pool : list fib_entry) (found : bool)
    (r : fib_node * bool * list fib_entry * bool) : Prop :=
  let '(n', freed, pool', found') := r in
  (∀ path, Forall is_bit path →
     tget n' path = if decide (path = target) then None else tget n path) ∧
  (freed = true → ∀ q, tget n' q = None) ∧
  match tget n target with
  | Some i => pool' = release i pool ∧ found' = true
  | None => pool' = pool ∧ found' = found
  end.

(** One level up: the parent of a node that was handled by [del_rec]. *)
Lemma del_post_parent e c0 c1 b target pool found c fr pool' found' (g : bool) :
  is_bit b → (g = true → node_empty e (if b =? 0 then if fr : bool then NNull else c else c0)
                                     (if b =? 0 then c1 else if fr : bool then NNull else c) = true) →
  del_post (child (NNode e c0 c1) b) target pool found (c, fr, pool', found') →
  del_post (NNode e c0 c1) (b :: target) pool found
    (set_child (NNode e c0 c1) b (if fr : bool then NNull else c), g, pool', found').
Proof.
  intros Hb Hg (Hc & Hfr & Hpool). split; [|split].
  - intros path Hp. rewrite tget_set_child by done. destruct path as [|b' q]; [done|].
    apply Forall_cons in Hp as [Hb' Hq].
    destruct (decide (b' = b)) as [->|Hne]; [|by rewrite decide_False by congruence].
    assert (tget (if fr : bool then NNull else c) q = tget c q) as ->.
    { destruct fr; [|done]. by rewrite tget_null, Hfr. }
    rewrite Hc, tget_child by done. repeat case_decide; congruence || done.
  - intros E q. specialize (Hg E). revert Hg. cbn. destruct (b =? 0); intros Hg;
      by apply node_empty_tget.
  - by rewrite tget_child in Hpool.
Qed.

Lemma del_rec_post n prefix plen depth pool found :
  0 ≤ depth ≤ plen →
  del_post n (bits_from prefix depth (Z.to_nat (plen - depth))) pool found
    (del_rec n prefix plen depth pool found).
Proof.
  revert depth pool found. induction n as [|e c0 IH0 c1 IH1]; intros depth pool found Hd.
  { split_and!; [|done|by rewrite tget_null].
    intros path _. rewrite tget_null. by case_decide. }
  cbn [del_rec]. destruct (Z.eqb_spec depth plen) as [->|Hne].
  - rewrite Z.sub_diag. change (bits_from prefix plen (Z.to_nat 0)) with (@nil Z).
    destruct e as [i|]; (split; [by intros [|b path] _|split; [|done]]);
      intros [? _]%andb_true_iff; by apply node_empty_tget.
  - replace (Z.to_nat (plen - depth)) with (S (Z.to_nat (plen - (depth + 1)))) by lia.
    rewrite bits_from_S. pose proof (bit_at_is_bit prefix depth) as Hb.
    destruct (bit_at prefix depth =? 0) eqn:Eb; [specialize (IH0 (depth + 1) pool found ltac:(lia))
      |specialize (IH1 (depth + 1) pool found ltac:(lia))];
      destruct (del_rec _ _ _ _ _ _) as [[[c fr] pool1] found1].
    + pose proof (del_post_parent e c0 c1 _ (bits_from prefix (depth + 1) (Z.to_nat (plen - (depth + 1))))
        pool found c fr pool1 found1
        (node_empty e (if fr : bool then NNull else c) c1 && (0 <? depth)) Hb) as H.
      cbn [child set_child] in H. rewrite Eb in H. apply H; [by intros [? _]%andb_true_iff|exact IH0].
    + pose proof (del_post_parent e c0 c1 _ (bits_from prefix (depth + 1) (Z.to_nat (plen - (depth + 1))))
        pool found c fr pool1 found1
        (node_empty e c0 (if fr : bool then NNull else c) && (0 <? depth)) Hb) as H.
      cbn [child set_child] in H. rewrite Eb in H. apply H; [by intros [? _]%andb_true_iff|exact IH1].
Qed.

(** ** Longest match along a path *)

(** [r] is the entry found deepest among the first [m + 1] nodes on the path
    of [dst] from [n], or [best] when none of them has an entry. *)
Definition deepest (n : fib_node) (dst depth : Z) (m : nat) (best r : option nat) : Prop :=
  (∃ k i, (k ≤ m)%nat ∧ tget n (bits_from dst depth k) = Some i ∧ r = Some i ∧
          ∀ k', (k < k' ≤ m)%nat → tget n (bits_from dst depth k') = None) ∨
  (r = best ∧ ∀ k, (k ≤ m)%nat → tget n (bits_from dst depth k) = None).

Lemma deepest_step n dst depth m best r :
  deepest (child n (bit_at dst depth)) dst (depth + 1) m
    (match tget n [] with Some i => Some i | None => best end) r →
  deepest n dst depth (S m) best r.
Proof.
  intros [(k & i & Hk & Hi & -> & Hmax)|[-> Hnone]].
  - left. exists (S k), i. rewrite bits_from_S, <- tget_child. split_and!; try done; [lia|].
    intros [|k'] Hk'; [lia|]. rewrite bits_from_S, <- tget_child. apply Hmax. lia.
  - destruct (tget n []) as [i|] eqn:E.
    + left. exists O, i. split_and!; try done; [lia|].
      intros [|k'] Hk'; [lia|]. rewrite bits_from_S, <- tget_child. apply Hnone. lia.
    + right. split; [done|]. intros [|k'] Hk'; [done|].
      rewrite bits_from_S, <- tget_child. apply Hnone. lia.
Qed.

Lemma lookup_walk_deepest n dst depth best :
  0 ≤ depth ≤ 32 →
  deepest n dst depth (Z.to_nat (32 - depth)) best (lookup_walk n dst depth best).
Proof.
  revert depth best. induction n as [|e c0 IH0 c1 IH1]; intros depth best Hd; cbn [lookup_walk].
  { right. split; [done|]. intros. apply tget_null. }
  destruct (Z.eqb_spec depth 32) as [->|Hne].
  - destruct e as [i|].
    + left. exists O, i. split_and!; try done. intros k'. cbn. lia.
    + right. split; [done|]. intros k Hk. assert (k = O) as -> by (cbn in Hk; lia). done.
  - replace (Z.to_nat (32 - depth)) with (S (Z.to_nat (32 - (depth + 1)))) by lia.
    apply deepest_step. cbn [child tget].
    destruct (bit_at dst depth =? 0); [apply IH0|apply IH1]; lia.
Qed.

(** ** Prefixes and masks *)

Lemma bit_at_testbit a d :
  0 ≤ d ≤ 31 → bit_at a d = Z.b2z (Z.testbit a (31 - d)).
Proof.
  intros Hd. unfold bit_at. rewrite (Z.land_ones _ 1), <- Z.bit0_mod by lia.
  rewrite Z.shiftr_spec by lia. done.
Qed.

Lemma plen_mask_testbit l j :
  0 ≤ l ≤ 32 → 0 ≤ j → Z.testbit (plen_mask l) j = (32 - l <=? j) && (j <? 32).
Proof.
  intros Hl Hj. unfold plen_mask. destruct (Z.eqb_spec l 0) as [->|Hne].
  { rewrite Z.bits_0. symmetry. apply andb_false_iff. lia. }
  unfold u32. destruct (Z.ltb_spec j 32).
  - rewrite Z.mod_pow2_bits_low by lia. change 0xffffffff with (Z.ones 32).
    rewrite andb_true_r. destruct (Z.leb_spec (32 - l) j).
    + rewrite Z.shiftl_spec by lia. apply Z.ones_spec_low. lia.
    + apply Z.shiftl_spec_low. lia.
  - rewrite Z.mod_pow2_bits_high by lia. by rewrite andb_false_r.
Qed.

Lemma testbit_u32_high a j : 0 ≤ a < 2 ^ 32 → 32 ≤ j → Z.testbit a j = false.
Proof.
  intros Ha Hj. rewrite <- (Z.mod_small a (2 ^ 32)) by done. apply Z.mod_pow2_bits_high. lia.
Qed.

(** Agreeing under the mask is agreeing on the path. *)
Lemma mask_eq_path a b l :
  0 ≤ l ≤ 32 → Z.land a (plen_mask l) = Z.land b (plen_mask l) ↔ path_of a l = path_of b l.
Proof.
  intros Hl. split.
  - intros E. unfold path_of, bits_from. apply list_fmap_ext. intros i x Hx.
    apply lookup_seq in Hx as [-> Hi]. rewrite !bit_at_testbit by lia. f_equal.
    assert (32 - l ≤ 31 - (0 + Z.of_nat (0 + i)) < 32) as Hj by lia. revert Hj.
    generalize (31 - (0 + Z.of_nat (0 + i))). intros j Hj.
    apply (f_equal (fun z => Z.testbit z j)) in E.
    rewrite !Z.land_spec, !plen_mask_testbit, (proj2 (Z.leb_le (32 - l) j)),
      (proj2 (Z.ltb_lt j 32)) in E by lia.
    by rewrite !andb_true_r in E.
  - intros E. apply Z.bits_inj'. intros j Hj. rewrite !Z.land_spec, !plen_mask_testbit by lia.
    destruct (Z.leb_spec (32 - l) j), (Z.ltb_spec j 32); cbn; rewrite ?andb_false_r; try done.
    rewrite !andb_true_r. assert (Z.to_nat (31 - j) < Z.to_nat l)%nat as Hi by lia.
    apply (f_equal (.!! Z.to_nat (31 - j))) in E. unfold path_of, bits_from in E.
    rewrite !list_lookup_fmap, !lookup_seq_lt in E by done.
    injection E as E. rewrite !bit_at_testbit in E by lia.
    replace (31 - (0 + Z.of_nat (Z.to_nat (31 - j)))) with j in E by lia.
    by apply Z.b2z_inj in E.
Qed.

Lemma land_mask_idem a l : Z.land (Z.land a (plen_mask l)) (plen_mask l) = Z.land a (plen_mask l).
Proof. by rewrite <- Z.land_assoc, Z.land_diag. Qed.

Lemma path_of_masked a l : 0 ≤ l ≤ 32 → path_of (Z.land a (plen_mask l)) l = path_of a l.
Proof. intros Hl. apply mask_eq_path; [done|]. apply land_mask_idem. Qed.

Lemma length_path_of a l : 0 ≤ l → zlen (path_of a l) = l.
Proof. intros. unfold path_of. rewrite length_bits_from. lia. Qed.

(** A masked prefix and its length are determined by the path. *)
Lemma path_of_inj p1 l1 p2 l2 :
  0 ≤ l1 ≤ 32 → 0 ≤ l2 ≤ 32 → Z.land p1 (plen_mask l1) = p1 → Z.land p2 (plen_mask l2) = p2 →
  path_of p1 l1 = path_of p2 l2 → (p1, l1) = (p2, l2).
Proof.
  intros Hl1 Hl2 H1 H2 E. assert (l1 = l2) as ->.
  { rewrite <- (length_path_of p1 l1), <- (length_path_of p2 l2), E by lia. done. }
  apply mask_eq_path in E; [|done]. congruence.
Qed.

(** ** Invariant and abstract table *)

Abbreviation route := (Z * option nat * bool)%type.

Definition route_of (e : fib_entry) : route := (fe_next_hop e, fe_dev e, fe_connected e).
Definition key_of (e : fib_entry) : Z * Z := (fe_prefix e, fe_plen e).

Record entry_ok (e : fib_entry) : Prop := {
  eo_plen : 0 ≤ fe_plen e ≤ 32;
  eo_masked : Z.land (fe_prefix e) (plen_mask (fe_plen e)) = fe_prefix e;
  eo_dev : fe_dev e ≠ None;
}.

(** The pool slots in use are exactly those the trie points to, each from
    the node at the path of its prefix. *)
Record fib_wf (f : fib) : Prop := {
  fw_len : length (fib_pool f) = Z.to_nat FIB_MAX_ROUTES;
  fw_trie : ∀ path i, Forall is_bit path → tget (fib_root f) path = Some i →
    ∃ e, fib_pool f !! i = Some e ∧ fe_in_use e = true ∧ path = path_of (fe_prefix e) (fe_plen e);
  fw_pool : ∀ i e, fib_pool f !! i = Some e → fe_in_use e = true →
    entry_ok e ∧ tget (fib_root f) (path_of (fe_prefix e) (fe_plen e)) = Some i;
}.

(** [fib_abs f T]: the state implements the table [T] from (prefix, length)
    to routes. *)
Definition fib_abs (f : fib) (T : gmap (Z * Z) route) : Prop :=
  fib_wf f ∧
  ∀ k r, T !! k = Some r ↔
    ∃ i e, fib_pool f !! i = Some e ∧ fe_in_use e = true ∧ key_of e = k ∧ route_of e = r.

(** The prefix [k] covers the address [dst]. *)
Definition covers (k : Z * Z) (dst : Z) : Prop := Z.land dst (plen_mask k.2) = k.1.

(** Longest prefix match on the abstract table. *)
Definition is_lpm (T : gmap (Z * Z) route) (dst : Z) (o : option (Z * Z)) : Prop :=
  match o with
  | Some k => k ∈ dom T ∧ covers k dst ∧ ∀ k', k' ∈ dom T → covers k' dst → k'.2 ≤ k.2
  | None => ∀ k', k' ∈ dom T → ¬ covers k' dst
  end.

Lemma fib_abs_lookup f T i e :
  fib_abs f T → fib_pool f !! i = Some e → fe_in_use e = true → T !! key_of e = Some (route_of e).
Proof. intros [_ H] Hi Hu. apply H. eauto 10. Qed.

Lemma fib_wf_key_inj f i j e e' :
  fib_wf f → fib_pool f !! i = Some e → fib_pool f !! j = Some e' →
  fe_in_use e = true → fe_in_use e' = true → key_of e = key_of e' → i = j.
Proof.
  intros [_ _ Hp] Hi Hj Hu Hu' [= E1 E2].
  destruct (Hp _ _ Hi Hu) as [_ H1], (Hp _ _ Hj Hu') as [_ H2]. rewrite E1, E2 in H1. congruence.
Qed.

Lemma fib_init_abs : fib_abs fib_init ∅.
Proof.
  assert (∀ i e, fib_pool fib_init !! i = Some e → fe_in_use e = true → False) as Hno.
  { intros i e [-> _]%lookup_replicate. done. }
  split; [split|].
  - apply length_replicate.
  - intros path i _. cbn [fib_root fib_init]. by rewrite tget_null.
  - intros i e Hi Hu. by destruct (Hno i e).
  - intros k r. rewrite lookup_empty. split; [done|].
    intros (i & e & Hi & Hu & _). by destruct (Hno i e).
Qed.

(** ** Pool accounting *)

Abbreviation used pool := (filter (fun e => fe_in_use e = true) pool).

Lemma pool_alloc_Some pool i :
  pool_alloc pool = Some i → ∃ e, pool !! i = Some e ∧ fe_in_use e = false.
Proof.
  revert i. induction pool as [|e pool IH]; intros i; cbn; [done|].
  destruct (fe_in_use e) eqn:E; [|intros [= <-]; eauto].
  intros (j & Hj & ->)%fmap_Some_1. by apply IH.
Qed.

Lemma pool_alloc_None pool : pool_alloc pool = None ↔ length (used pool) = length pool.
Proof.
  induction pool as [|e pool IH]; [done|].
  cbn [pool_alloc]. rewrite filter_cons. destruct (fe_in_use e) eqn:E.
  - rewrite decide_True by done. cbn. rewrite fmap_None, IH. lia.
  - rewrite decide_False by congruence.
    pose proof (length_filter (fun e => fe_in_use e = true) pool). split; [done|cbn; lia].
Qed.

Lemma used_nodup pool :
  (∀ i j e e', pool !! i = Some e → pool !! j = Some e' → fe_in_use e = true →
     fe_in_use e' = true → key_of e = key_of e' → i = j) →
  NoDup (key_of <$> used pool).
Proof.
  induction pool as [|e pool IH]; intros Hinj; [apply NoDup_nil_2|].
  rewrite filter_cons. assert (NoDup (key_of <$> used pool)) as Hnd.
  { apply IH. intros i j e1 e2 H1 H2 U1 U2 K. specialize (Hinj (S i) (S j) e1 e2 H1 H2 U1 U2 K). lia. }
  case_decide as Hu; [|done]. cbn. apply NoDup_cons_2; [|done].
  intros (e' & K & Hin)%list_elem_of_fmap. apply list_elem_of_filter in Hin as [Hu' Hin].
  apply list_elem_of_lookup_1 in Hin as [j Hj].
  by specialize (Hinj O (S j) e e' eq_refl Hj Hu Hu' K).
Qed.

(** The table of a pool. *)
Definition fib_table (f : fib) : gmap (Z * Z) route :=
  list_to_map ((fun e => (key_of e, route_of e)) <$> used (fib_pool f)).

Lemma fib_table_keys f :
  ((fun e => (key_of e, route_of e)) <$> used (fib_pool f)).*1 = key_of <$> used (fib_pool f).
Proof. by rewrite <- list_fmap_compose. Qed.

Lemma fib_table_nodup f : fib_wf f → NoDup (key_of <$> used (fib_pool f)).
Proof. intros Hwf. apply used_nodup. intros. by eapply fib_wf_key_inj. Qed.

Lemma fib_wf_abs f : fib_wf f → fib_abs f (fib_table f).
Proof.
  intros Hwf. split; [done|]. intros k r. unfold fib_table.
  rewrite <- elem_of_list_to_map by (rewrite fib_table_keys; by apply fib_table_nodup).
  rewrite list_elem_of_fmap. split.
  - intros (e & [= -> ->] & Hin). apply list_elem_of_filter in Hin as [Hu Hin].
    apply list_elem_of_lookup_1 in Hin as [i Hi]. eauto 10.
  - intros (i & e & Hi & Hu & <- & <-). exists e. split; [done|].
    apply list_elem_of_filter. split; [done|]. by eapply list_elem_of_lookup_2.
Qed.

(** The number of routes in the table is the number of pool slots in use. *)
Lemma fib_abs_size f T : fib_abs f T → size T = length (used (fib_pool f)).
Proof.
  intros [Hwf HT]. assert (T = fib_table f) as ->.
  { apply map_eq. intros k. apply option_eq. intros r. by rewrite HT, (proj2 (fib_wf_abs f Hwf)). }
  unfold fib_table. rewrite map_size_list_to_map by (rewrite fib_table_keys; by apply fib_table_nodup).
  by rewrite length_fmap.
Qed.

(** ** Insertion *)

(** Writing route [e] into slot [i] and pointing the node at its path there. *)
Lemma fib_abs_set f T root i e :
  fib_abs f T → (i < length (fib_pool f))%nat → entry_ok e → fe_in_use e = true →
  (∀ path, Forall is_bit path → tget root path =
     if decide (path = path_of (fe_prefix e) (fe_plen e)) then Some i else tget (fib_root f) path) →
  (∀ e0, fib_pool f !! i = Some e0 → fe_in_use e0 = true → key_of e0 = key_of e) →
  (∀ j, tget (fib_root f) (path_of (fe_prefix e) (fe_plen e)) = Some j → j = i) →
  fib_abs (mk_fib root (<[i := e]> (fib_pool f))) (<[key_of e := route_of e]> T).
Proof.
  intros [Hwf HT] Hi Hok Hu Hget Hold Hpath. pose proof Hwf as [Hlen Htrie Hpool].
  assert (∀ p l, Forall is_bit (path_of p l)) as Hbits by (intros; apply bits_from_bits).
  assert (∀ j e', fib_pool f !! j = Some e' → fe_in_use e' = true → key_of e' = key_of e → j = i) as Huniq.
  { intros j e' Hj Hu' [= K1 K2]. apply Hpath. rewrite <- K1, <- K2. by apply Hpool. }
  split; [split|]; cbn [fib_root fib_pool].
  - by rewrite length_insert.
  - intros path j Hp. rewrite Hget by done. case_decide as Hd.
    + intros [= <-]. exists e. rewrite list_lookup_insert_eq by done. done.
    + intros Hj. destruct (Htrie _ _ Hp Hj) as (e' & He' & Hu' & ->). exists e'.
      split_and!; try done. rewrite list_lookup_insert_ne; [done|]. intros <-.
      apply Hd. pose proof (Hold _ He' Hu') as [= -> ->]. done.
  - intros j e' Hj Hu'. rewrite Hget by done. destruct (decide (i = j)) as [<-|Hne].
    + rewrite list_lookup_insert_eq in Hj by done. simplify_eq. by rewrite decide_True.
    + rewrite list_lookup_insert_ne in Hj by done. destruct (Hpool _ _ Hj Hu') as [Hok' Hg].
      split; [done|]. case_decide as Hd; [|done]. f_equal. symmetry. apply Hpath.
      by rewrite <- Hd.
  - intros k r. destruct (decide (k = key_of e)) as [->|Hk].
    + rewrite lookup_insert_eq. split.
      * intros [= <-]. exists i, e. rewrite list_lookup_insert_eq by done. done.
      * intros (j & e' & Hj & Hu' & K & <-). destruct (decide (i = j)) as [<-|Hne].
        -- rewrite list_lookup_insert_eq in Hj by done. congruence.
        -- rewrite list_lookup_insert_ne in Hj by done. by destruct Hne; rewrite (Huniq j e').
    + rewrite lookup_insert_ne by done. rewrite HT.
      split; intros (j & e' & Hj & Hu' & K & R); exists j, e'; split_and!; try done.
      * rewrite list_lookup_insert_ne; [done|]. intros <-. by rewrite (Hold e') in K.
      * destruct (decide (i = j)) as [<-|Hne]; [|by rewrite list_lookup_insert_ne in Hj].
        rewrite list_lookup_insert_eq in Hj by done. congruence.
Qed.

(** The nodes allocated on the way carry no entry. *)
Lemma tget_descend_id n prefix k path :
  Forall is_bit path → tget (descend (calloc_if_null n) prefix 0 k id) path = tget n path.
Proof.
  intros Hp. rewrite tget_descend by (done || by destruct n). rewrite tget_calloc. by case_decide.
Qed.

Lemma fib_abs_same_trie f T root :
  fib_abs f T → (∀ path, Forall is_bit path → tget root path = tget (fib_root f) path) →
  fib_abs (mk_fib root (fib_pool f)) T.
Proof.
  intros [[Hlen Htrie Hpool] HT] Hget. split; [split|]; cbn [fib_root fib_pool]; try done.
  - intros path i Hp. rewrite Hget by done. by apply Htrie.
  - intros i e Hi Hu. rewrite Hget by apply bits_from_bits. by apply Hpool.
Qed.

Lemma fib_abs_key_None f T p l :
  fib_abs f T → tget (fib_root f) (path_of p l) = None → T !! (p, l) = None.
Proof.
  intros [[_ _ Hpool] HT] Hn. apply eq_None_not_Some.
  intros [r (i & e & Hi & Hu & [= K1 K2] & _)%HT].
  destruct (Hpool _ _ Hi Hu) as [_ Hg]. congruence.
Qed.

(** The entry the trie has at the path of a masked prefix is the one the
    table has for it. *)
Lemma fib_abs_key_Some f T p l i :
  fib_abs f T → 0 ≤ l ≤ 32 → Z.land p (plen_mask l) = p →
  tget (fib_root f) (path_of p l) = Some i →
  ∃ e, fib_pool f !! i = Some e ∧ fe_in_use e = true ∧ key_of e = (p, l) ∧
       T !! (p, l) = Some (route_of e).
Proof.
  intros Habs Hl Hm Hi. pose proof Habs as [[_ Htrie Hpool] _].
  destruct (Htrie _ _ (bits_from_bits _ _ _) Hi) as (e & He & Hu & Hp).
  destruct (Hpool _ _ He Hu) as [[Hl' Hm' _] _].
  assert (key_of e = (p, l)) as K by (symmetry; by apply path_of_inj).
  exists e. split_and!; try done. rewrite <- K. by eapply fib_abs_lookup.
Qed.

Section add.
Context (f : fib) (T : gmap (Z * Z) route) (Habs : fib_abs f T).
Context (prefix plen next_hop : Z) (d : nat) (connected : bool) (Hpl : 0 ≤ plen ≤ 32).

Let pfx := Z.land prefix (plen_mask plen).
Let e := mk_entry true pfx plen next_hop (Some d) connected.
Let root := descend (calloc_if_null (fib_root f)) pfx 0 (Z.to_nat plen) id.

Lemma add_root path : Forall is_bit path → tget root path = tget (fib_root f) path.
Proof. apply tget_descend_id. Qed.

Lemma add_entry_ok : entry_ok e.
Proof. split; cbn; [lia|apply land_mask_idem|done]. Qed.

(** The body of [fib_add] past its argument check. *)
Lemma fib_add_body :
  fib_add f prefix plen next_hop (Some d) connected =
  match tget (fib_root f) (path_of pfx plen) with
  | Some i => (mk_fib root (<[i := e]> (fib_pool f)), 0)
  | None =>
      match pool_alloc (fib_pool f) with
      | None => (mk_fib root (fib_pool f), -1)
      | Some i => (mk_fib (descend root pfx 0 (Z.to_nat plen) (fun _ => Some i))
                          (<[i := e]> (fib_pool f)), 0)
      end
  end.
Proof.
  unfold fib_add. rewrite (proj2 (Z.ltb_ge 32 plen)) by lia. cbn [orb bool_decide].
  rewrite bool_decide_eq_false_2 by done. cbv zeta. fold pfx root e.
  rewrite entry_at_tget. rewrite <- add_root by apply bits_from_bits. done.
Qed.

Lemma fib_add_ok :
  T !! (pfx, plen) ≠ None ∨ pool_alloc (fib_pool f) ≠ None →
  ∃ f', fib_add f prefix plen next_hop (Some d) connected = (f', 0) ∧
        fib_abs f' (<[(pfx, plen) := (next_hop, Some d, connected)]> T).
Proof.
  intros Hor. rewrite fib_add_body.
  change (next_hop, Some d, connected) with (route_of e). change (pfx, plen) with (key_of e).
  destruct (tget (fib_root f) (path_of pfx plen)) as [i|] eqn:Hi.
  - destruct (fib_abs_key_Some f T pfx plen i) as (e0 & He0 & Hu0 & K0 & _);
      try done; [apply land_mask_idem|].
    eexists. split; [done|]. apply (fib_abs_set f T root i e); try done.
    + by eapply lookup_lt_Some.
    + apply add_entry_ok.
    + intros path Hp. rewrite add_root by done. case_decide; [by subst|done].
    + intros e1 He1 _. assert (e1 = e0) as -> by congruence. exact K0.
    + intros. cbn in *. congruence.
  - pose proof (fib_abs_key_None f T _ _ Habs Hi) as HN.
    destruct (pool_alloc (fib_pool f)) as [i|] eqn:Hal; [|by destruct Hor].
    apply pool_alloc_Some in Hal as (e0 & He0 & Hu0).
    eexists. split; [done|]. apply (fib_abs_set f T _ i e); try done.
    + by eapply lookup_lt_Some.
    + apply add_entry_ok.
    + intros path Hp. rewrite tget_descend by (done || (apply descend_not_null; by destruct (fib_root f))).
      by rewrite add_root.
    + intros. congruence.
    + intros. cbn in *. congruence.
Qed.

Lemma fib_add_full :
  T !! (pfx, plen) = None → pool_alloc (fib_pool f) = None →
  ∃ f', fib_add f prefix plen next_hop (Some d) connected = (f', -1) ∧ fib_abs f' T.
Proof.
  intros HN Hal. rewrite fib_add_body, Hal.
  destruct (tget (fib_root f) (path_of pfx plen)) as [i|] eqn:Hi.
  - destruct (fib_abs_key_Some f T pfx plen i) as (e0 & _ & _ & _ & HS);
      try done; [apply land_mask_idem|congruence].
  - eexists. split; [done|]. apply fib_abs_same_trie; [done|]. apply add_root.
Qed.
End add.

(** ** Properties *)

(** C13. [fib_add] refines insertion into a finite map from (prefix, length)
    to routes: bad arguments are rejected and change nothing, a new prefix is
    rejected exactly when all 64 slots are taken (and the table is
    unchanged), and otherwise the masked prefix now has the given route and
    every other prefix keeps its own; an existing prefix is replaced even
    when the pool is full. *)
Theorem fib_add_refines f T prefix plen next_hop dev connected :
  fib_abs f T → 0 ≤ plen < 256 →
  let '(f', rc) := fib_add f prefix plen next_hop dev connected in
  let key := (Z.land prefix (plen_mask plen), plen) in
  if decide (32 < plen ∨ dev = None) then f' = f ∧ rc = -1
  else if decide (T !! key = None ∧ Z.of_nat (size T) = FIB_MAX_ROUTES)
       then fib_abs f' T ∧ rc = -1
       else fib_abs f' (<[key := (next_hop, dev, connected)]> T) ∧ rc = 0.
Proof.
  intros Habs Hpl. destruct (decide (32 < plen ∨ dev = None)) as [Hbad|Hgood].
  { unfold fib_add. replace ((32 <? plen) || bool_decide (dev = None)) with true; [done|].
    symmetry. apply orb_true_iff. rewrite bool_decide_eq_true. destruct Hbad; [left; lia|auto]. }
  destruct dev as [d|]; [|tauto]. assert (0 ≤ plen ≤ 32) as Hpl' by lia.
  assert (pool_alloc (fib_pool f) = None ↔ Z.of_nat (size T) = FIB_MAX_ROUTES) as Hfull.
  { rewrite (fib_abs_size f T), pool_alloc_None by done.
    destruct Habs as [[-> _ _] _]. wrap_lia. }
  cbv zeta. destruct (decide (T !! _ = None ∧ _)) as [[HN Hsz]|Hfree].
  - destruct (fib_add_full f T Habs prefix plen next_hop d connected Hpl') as (f' & -> & Habs');
      tauto.
  - destruct (fib_add_ok f T Habs prefix plen next_hop d connected Hpl') as (f' & -> & Habs');
      [|done].
    destruct (T !! _) eqn:E; [by left|right]. tauto.
Qed.

(** Two routes, 10.0.0.0/8 and 10.1.0.0/16, for the witnesses. *)
Definition demo_fib : fib :=
  (fib_add (fib_add fib_init 0x0a000000 8 0 (Some 0%nat) true).1
           0x0a010000 16 0x0a000001 (Some 1%nat) false).1.

Definition demo_table : gmap (Z * Z) route :=
  <[(0x0a010000, 16) := (0x0a000001, Some 1%nat, false)]>
    (<[(0x0a000000, 8) := (0, Some 0%nat, true)]> ∅).

Lemma demo_fib_abs : fib_abs demo_fib demo_table.
Proof.
  destruct (fib_add_ok fib_init ∅ fib_init_abs 0x0a000000 8 0 0%nat true ltac:(lia))
    as (f1 & E1 & H1); [by right|].
  assert (pool_alloc (fib_pool (fib_add fib_init 0x0a000000 8 0 (Some 0%nat) true).1) ≠ None)
    as Hfree by (vm_compute; discriminate).
  unfold demo_fib, demo_table. rewrite E1 in *. cbn [fst] in *.
  destruct (fib_add_ok f1 _ H1 0x0a010000 16 0x0a000001 1%nat false ltac:(lia))
    as (f2 & E2 & H2); [by right|].
  rewrite E2. exact H2.
Qed.

Lemma fib_add_refines_witness :
  let '(f', rc) := fib_add demo_fib 0x0a020304 8 7 (Some 1%nat) true in
  fib_abs f' (<[(0x0a000000, 8) := (7, Some 1%nat, true)]> demo_table) ∧ rc = 0.
Proof.
  exact (fib_add_refines demo_fib demo_table 0x0a020304 8 7 (Some 1%nat) true demo_fib_abs
           ltac:(lia)).
Defined.

(** The table after the slot of key [k] was released. *)
Lemma fib_abs_release f T root i e :
  fib_abs f T → fib_pool f !! i = Some e → fe_in_use e = true →
  (∀ path, Forall is_bit path → tget root path =
     if decide (path = path_of (fe_prefix e) (fe_plen e)) then None else tget (fib_root f) path) →
  fib_abs (mk_fib root (release i (fib_pool f))) (delete (key_of e) T).
Proof.
  intros [Hwf HT] Hi Hu Hget. pose proof Hwf as [Hlen Htrie Hpool].
  assert (∀ j e', release i (fib_pool f) !! j = Some e' → fe_in_use e' = true →
            j ≠ i ∧ fib_pool f !! j = Some e') as Hrel.
  { intros j e' Hj Hu'. unfold release in Hj. destruct (decide (i = j)) as [<-|Hne].
    - rewrite list_lookup_alter_eq, Hi in Hj. cbn in Hj. simplify_eq.
    - by rewrite list_lookup_alter_ne in Hj. }
  assert (∀ j, j ≠ i → release i (fib_pool f) !! j = fib_pool f !! j) as Hrel'.
  { intros j Hne. by apply list_lookup_alter_ne. }
  split; [split|]; cbn [fib_root fib_pool].
  - unfold release. by rewrite length_alter.
  - intros path j Hp. rewrite Hget by done. case_decide as Hd; [done|]. intros Hj.
    destruct (Htrie _ _ Hp Hj) as (e' & He' & Hu' & ->). exists e'.
    rewrite Hrel'; [done|]. intros ->. congruence.
  - intros j e' Hj Hu'. apply Hrel in Hj as [Hne Hj]; [|done]. destruct (Hpool _ _ Hj Hu') as [Hok Hg].
    split; [done|]. rewrite Hget by apply bits_from_bits. case_decide as Hd; [|done].
    destruct (Hpool _ _ Hi Hu) as [_ Hg']. congruence.
  - intros k r. rewrite lookup_delete_Some, HT. split.
    + intros (Hk & j & e' & Hj & Hu' & <- & <-). exists j, e'.
      rewrite Hrel'; [done|]. intros ->. congruence.
    + intros (j & e' & Hj & Hu' & <- & <-). apply Hrel in Hj as [Hne Hj]; [|done].
      split; [|by eauto 10]. intros K. apply Hne. by eapply fib_wf_key_inj.
Qed.

(** Deletion on the valid prefix lengths. *)
Lemma fib_del_ok f T prefix plen :
  fib_abs f T → 0 ≤ plen ≤ 32 →
  let key := (Z.land prefix (plen_mask plen), plen) in
  ∃ f', fib_del f prefix plen = (f', if decide (T !! key = None) then -1 else 0) ∧ fib_abs f' (delete key T).
Proof.
  intros Habs Hpl. pose proof Habs as [[Hlen Htrie Hpool] HT]. unfold fib_del.
  rewrite (proj2 (Z.ltb_ge 32 plen)) by lia.
  cbv zeta. set (pfx := Z.land prefix (plen_mask plen)).
  pose proof (del_rec_post (fib_root f) pfx plen 0 (fib_pool f) false ltac:(lia)) as Hpost.
  rewrite Z.sub_0_r in Hpost. fold (path_of pfx plen) in Hpost.
  destruct (del_rec _ _ _ _ _ _) as [[[root freed] pool] found]. destruct Hpost as (Hget & _ & Hp).
  destruct (tget (fib_root f) (path_of pfx plen)) as [i|] eqn:Hi; destruct Hp as [-> ->].
  - destruct (fib_abs_key_Some f T pfx plen i) as (e & He & Hu & K & HS);
      [done|lia|apply land_mask_idem|done|].
    rewrite HS, decide_False by done. eexists. split; [done|]. rewrite <- K.
    apply fib_abs_release; try done. intros path Hb. rewrite Hget by done.
    by injection K as -> ->.
  - rewrite (fib_abs_key_None f T) by done. rewrite decide_True by done.
    eexists. split; [done|]. rewrite delete_id by (by eapply fib_abs_key_None).
    apply fib_abs_same_trie; [done|]. intros path Hb. rewrite Hget by done.
    case_decide; [by subst|done].
Qed.

(** C14. [fib_del] refines deletion: it succeeds exactly when the masked
    prefix has a route of that length, it then removes that route and no
    other, and the pruning of empty branches never loses a route. *)
Theorem fib_del_refines f T prefix plen :
  fib_abs f T → 0 ≤ plen < 256 →
  let '(f', rc) := fib_del f prefix plen in
  let key := (Z.land prefix (plen_mask plen), plen) in
  if decide (32 < plen) then f' = f ∧ rc = -1
  else fib_abs f' (delete key T) ∧ rc = (if decide (T !! key = None) then -1 else 0).
Proof.
  intros Habs Hpl. destruct (decide (32 < plen)) as [Hgt|Hle].
  { unfold fib_del. by rewrite (proj2 (Z.ltb_lt _ _) Hgt). }
  destruct (fib_del_ok f T prefix plen Habs ltac:(lia)) as (f' & -> & Ha). done.
Qed.

Lemma fib_del_refines_witness :
  let '(f', rc) := fib_del demo_fib 0x0a01ffff 16 in
  fib_abs f' (delete (0x0a010000, 16) demo_table) ∧ rc = 0.
Proof. exact (fib_del_refines demo_fib demo_table 0x0a01ffff 16 demo_fib_abs ltac:(lia)). Defined.

(** ** The walk *)

Lemma elem_of_option_list {A} (o : option A) x : x ∈ option_list o ↔ o = Some x.
Proof. destruct o as [y|]; cbn; [rewrite list_elem_of_singleton; split; congruence|by rewrite elem_of_nil]. Qed.

Lemma walk_rec_tget n i : i ∈ walk_rec n ↔ ∃ path, Forall is_bit path ∧ tget n path = Some i.
Proof.
  induction n as [|e c0 IH0 c1 IH1]; cbn [walk_rec].
  - split; [by intros ?%elem_of_nil|]. intros (path & _ & H). by rewrite tget_null in H.
  - rewrite !elem_of_app, IH0, IH1, elem_of_option_list. split.
    + intros [->|[(q & Hq & H)|(q & Hq & H)]]; [by exists []|exists (0 :: q)|exists (1 :: q)];
        (split; [|done]); constructor; unfold is_bit; auto.
    + intros ([|b q] & Hb & H); [by left|]. right. apply Forall_cons in Hb as [[-> | ->] Hq]; eauto.
Qed.

Lemma walk_rec_nodup n :
  (∀ p q i, Forall is_bit p → Forall is_bit q → tget n p = Some i → tget n q = Some i → p = q) →
  NoDup (walk_rec n).
Proof.
  induction n as [|e c0 IH0 c1 IH1]; intros Hinj; cbn [walk_rec]; [apply NoDup_nil_2|].
  assert (∀ b q, is_bit b → Forall is_bit q → Forall is_bit (b :: q)) as Hc by (by constructor).
  assert (is_bit 0 ∧ is_bit 1) as [B0 B1] by (unfold is_bit; auto).
  apply NoDup_app. split; [destruct e; [apply NoDup_singleton|apply NoDup_nil_2]|]. split.
  - intros i ->%elem_of_option_list [(q & Hq & H)%walk_rec_tget|(q & Hq & H)%walk_rec_tget]%elem_of_app.
    + discriminate (Hinj [] (0 :: q) i (Forall_nil_2 _) (Hc _ _ B0 Hq) eq_refl H).
    + discriminate (Hinj [] (1 :: q) i (Forall_nil_2 _) (Hc _ _ B1 Hq) eq_refl H).
  - apply NoDup_app. split_and!.
    + apply IH0. intros p q i Hp Hq H1 H2. by injection (Hinj (0 :: p) (0 :: q) i (Hc _ _ B0 Hp) (Hc _ _ B0 Hq) H1 H2).
    + intros i (p & Hp & H1)%walk_rec_tget (q & Hq & H2)%walk_rec_tget.
      discriminate (Hinj (0 :: p) (1 :: q) i (Hc _ _ B0 Hp) (Hc _ _ B1 Hq) H1 H2).
    + apply IH1. intros p q i Hp Hq H1 H2. by injection (Hinj (1 :: p) (1 :: q) i (Hc _ _ B1 Hp) (Hc _ _ B1 Hq) H1 H2).
Qed.

Lemma elem_of_fib_walk f e :
  fib_wf f → e ∈ fib_walk f ↔ ∃ i, fib_pool f !! i = Some e ∧ fe_in_use e = true.
Proof.
  intros [_ Htrie Hpool]. unfold fib_walk. rewrite list_elem_of_omap. split.
  - intros (i & (path & Hb & H)%walk_rec_tget & He). destruct (Htrie _ _ Hb H) as (e' & He' & Hu & _).
    exists i. by simplify_eq.
  - intros (i & He & Hu). exists i. split; [|done]. apply walk_rec_tget. eexists.
    split; [apply bits_from_bits|]. by apply Hpool.
Qed.

(** The walk visits every route of the table once. *)
Lemma fib_walk_table f T :
  fib_abs f T → (fun e => (key_of e, route_of e)) <$> fib_walk f ≡ₚ map_to_list T.
Proof.
  intros [Hwf HT]. apply NoDup_Permutation.
  - apply (NoDup_fmap_1 fst). rewrite <- list_fmap_compose.
    change (NoDup (key_of <$> fib_walk f)). unfold fib_walk.
    assert (NoDup (walk_rec (fib_root f))) as Hnd.
    { apply walk_rec_nodup. intros p q i Hp Hq H1 H2.
      destruct (fw_trie _ Hwf _ _ Hp H1) as (e & He & _ & ->), (fw_trie _ Hwf _ _ Hq H2) as (e' & He' & _ & ->).
      by simplify_eq. }
    assert (∀ i, i ∈ walk_rec (fib_root f) → ∃ e, fib_pool f !! i = Some e ∧ fe_in_use e = true) as Hin.
    { intros i (path & Hb & H)%walk_rec_tget. destruct (fw_trie _ Hwf _ _ Hb H) as (e & ? & ? & _). eauto. }
    revert Hnd Hin. generalize (walk_rec (fib_root f)) as l. induction l as [|i l IH]; intros Hnd Hin; [apply NoDup_nil_2|].
    apply NoDup_cons in Hnd as [Hi Hnd]. destruct (Hin i) as (e & He & Hu); [left|].
    cbn [omap list_omap]. rewrite He. cbn [fmap list_fmap]. apply NoDup_cons_2; [|apply IH; [done|]; intros; apply Hin; by right].
    intros (e' & K & (j & Hj & He')%list_elem_of_omap)%list_elem_of_fmap.
    destruct (Hin j) as (e2 & E2 & Hu'); [by right|]. rewrite He' in E2. injection E2 as <-.
    by rewrite (fib_wf_key_inj f i j e e' Hwf He He' Hu Hu' K) in Hi.
  - apply NoDup_map_to_list.
  - intros [k r]. rewrite list_elem_of_fmap, elem_of_map_to_list, HT. split.
    + intros (e & [= -> ->] & (i & ? & ?)%elem_of_fib_walk); [|done]. eauto 10.
    + intros (i & e & ? & ? & <- & <-). exists e. split; [done|]. apply elem_of_fib_walk; eauto.
Qed.

(** The entry a lookup returns is a live one. *)
Lemma fib_lookup_in_use f dst i :
  fib_wf f → fib_lookup f dst = Some i → ∃ e, fib_pool f !! i = Some e ∧ fe_in_use e = true.
Proof.
  intros [_ Htrie _] Hl. unfold fib_lookup in Hl.
  destruct (lookup_walk_deepest (fib_root f) dst 0 None ltac:(lia))
    as [(k & j & Hk & Hj & E & _)|[E _]]; rewrite E in Hl; simplify_eq.
  destruct (Htrie _ _ (bits_from_bits _ _ _) Hj) as (e & ? & ? & _). eauto.
Qed.

(** The lookup on the pool: the entry found covers the address and no entry in
    use that covers it is longer; none is found when none covers it. *)
Lemma fib_lookup_pool f dst :
  fib_wf f →
  match fib_lookup f dst with
  | Some i => ∃ e, fib_pool f !! i = Some e ∧ fe_in_use e = true ∧ covers (key_of e) dst ∧
                   ∀ j e', fib_pool f !! j = Some e' → fe_in_use e' = true → covers (key_of e') dst →
                           fe_plen e' ≤ fe_plen e
  | None => ∀ j e', fib_pool f !! j = Some e' → fe_in_use e' = true → ¬ covers (key_of e') dst
  end.
Proof.
  intros [Hlen Htrie Hpool].
  assert (∀ j e', fib_pool f !! j = Some e' → fe_in_use e' = true → covers (key_of e') dst →
            0 ≤ fe_plen e' ≤ 32 ∧ tget (fib_root f) (path_of dst (fe_plen e')) ≠ None) as Hcov.
  { intros j e Hj Hu Hc. destruct (Hpool _ _ Hj Hu) as [[Hl Hm _] Hg]. split; [done|].
    assert (path_of dst (fe_plen e) = path_of (fe_prefix e) (fe_plen e)) as ->; [|congruence].
    apply mask_eq_path; [done|]. unfold covers in Hc. cbn in Hc. congruence. }
  unfold fib_lookup. pose proof (lookup_walk_deepest (fib_root f) dst 0 None ltac:(lia)) as Hw.
  destruct Hw as [(k & i & Hk & Hi & -> & Hmax)|[-> Hnone]].
  - destruct (Htrie _ _ (bits_from_bits _ _ _) Hi) as (e & He & Hu & Hpe).
    destruct (Hpool _ _ He Hu) as [[Hl Hm _] _].
    assert (Z.of_nat k = fe_plen e) as Ek.
    { apply (f_equal length) in Hpe. unfold path_of in Hpe. rewrite !length_bits_from in Hpe. lia. }
    exists e. split; [done|]. split; [done|]. split.
    + unfold covers. cbn. rewrite <- Hm. apply mask_eq_path; [done|]. rewrite <- Hpe, <- Ek.
      unfold path_of. by rewrite Nat2Z.id.
    + intros j e' Hj Hu' Hc. destruct (Hcov j e' Hj Hu' Hc) as [Hr Hne].
      destruct (Z.le_gt_cases (fe_plen e') (fe_plen e)) as [|Hgt]; [done|].
      destruct Hne. apply Hmax. lia.
  - intros j e' Hj Hu' Hc. destruct (Hcov j e' Hj Hu' Hc) as [Hr Hne]. apply Hne. apply Hnone. lia.
Qed.

(** Masking keeps the high bits. *)
Lemma land_plen_mask a l : 0 ≤ l ≤ 32 → 0 ≤ a < 2 ^ 32 → Z.land a (plen_mask l) = a - a mod 2 ^ (32 - l).
Proof.
  intros Hl Ha. assert (a - a mod 2 ^ (32 - l) = Z.shiftl (Z.shiftr a (32 - l)) (32 - l)) as ->.
  { rewrite Z.shiftl_mul_pow2, Z.shiftr_div_pow2 by lia.
    pose proof (Z.div_mod a (2 ^ (32 - l)) ltac:(apply Z.pow_nonzero; lia)). lia. }
  apply Z.bits_inj'. intros j Hj. rewrite Z.land_spec, plen_mask_testbit, Z.shiftl_spec by lia.
  destruct (Z.leb_spec (32 - l) j); cbn [andb].
  - rewrite Z.shiftr_spec, Z.sub_add by lia. destruct (Z.ltb_spec j 32); [apply andb_true_r|].
    rewrite andb_false_r. symmetry. by apply testbit_u32_high.
  - rewrite andb_false_r. symmetry. apply Z.testbit_neg_r. lia.
Qed.

(** Covering, as a block of addresses. *)
Lemma covers_block e dst :
  entry_ok e → 0 ≤ dst < 2 ^ 32 →
  covers (key_of e) dst ↔ fe_prefix e ≤ dst < fe_prefix e + 2 ^ (32 - fe_plen e).
Proof.
  intros [Hl Hm _] Hd. unfold covers. cbn [key_of fst snd]. rewrite land_plen_mask by done.
  assert (0 < 2 ^ (32 - fe_plen e)) as Hpos by (apply Z.pow_pos_nonneg; lia).
  assert (fe_prefix e mod 2 ^ (32 - fe_plen e) = 0) as Hp.
  { apply Z.bits_inj'. intros j Hj. rewrite Z.bits_0. destruct (Z.lt_ge_cases j (32 - fe_plen e)).
    - rewrite <- Hm, Z.mod_pow2_bits_low, Z.land_spec, plen_mask_testbit by lia.
      by rewrite (proj2 (Z.leb_gt _ _)), andb_false_r by lia.
    - apply Z.mod_pow2_bits_high. lia. }
  pose proof (Z.mod_pos_bound dst _ Hpos). pose proof (Z.div_mod dst (2 ^ (32 - fe_plen e)) ltac:(lia)) as E.
  split; [lia|]. intros H'. apply Z.mod_divide in Hp as [q Hq]; [|lia].
  rewrite Hq in *. assert (dst / 2 ^ (32 - fe_plen e) = q); [|nia].
  symmetry. apply (Z.div_unique_pos _ _ _ (dst - q * 2 ^ (32 - fe_plen e))); lia.
Qed.

(** C12. [fib_lookup] is longest prefix match: it returns a route of the table
    whose prefix covers the destination and is at least as long as every
    covering prefix, and NULL exactly when no prefix covers it. *)
Theorem fib_lookup_lpm f T dst :
  fib_abs f T →
  match fib_lookup f dst with
  | Some i => ∃ e, fib_pool f !! i = Some e ∧ T !! key_of e = Some (route_of e) ∧
                   is_lpm T dst (Some (key_of e))
  | None => is_lpm T dst None
  end.
Proof.
  intros Habs. pose proof Habs as [Hwf HT]. pose proof (fib_lookup_pool f dst Hwf) as H.
  destruct (fib_lookup f dst) as [i|].
  - destruct H as (e & He & Hu & Hc & Hmax). exists e. pose proof (fib_abs_lookup f T i e Habs He Hu).
    split_and!; try done. split; [|split; [done|]].
    + apply elem_of_dom. by eexists.
    + intros k' [r (j & e' & Hj & Hu' & <- & _)%HT]%elem_of_dom Hc'. by apply (Hmax j).
  - intros k' [r (j & e' & Hj & Hu' & <- & _)%HT]%elem_of_dom. by apply (H j).
Qed.

Lemma fib_lookup_lpm_witness :
  fib_lookup demo_fib 0x0a010203 = Some 1%nat ∧
  ∃ e, fib_pool demo_fib !! 1%nat = Some e ∧ demo_table !! key_of e = Some (route_of e) ∧
       is_lpm demo_table 0x0a010203 (Some (key_of e)).
Proof.
  split; [reflexivity|]. exact (fib_lookup_lpm demo_fib demo_table 0x0a010203 demo_fib_abs).
Defined.

End Fib.
