(* ===== verification/Headers.v ===== *)
(** * Wire-format headers

    The packed structs the stack casts packet bytes to: [struct eth_hdr],
    [arp_hdr], [ipv4_hdr], [icmp_hdr], [udp_hdr] and [tcp_hdr]. Multi-byte
    fields hold the value a native load gives, so that the code's
    [pf_ntohs]/[pf_htons] calls appear in the model. [read_*] dereferences a
    pointer to the first of the given bytes, [*_image] is the memory image a
    struct write leaves. *)

From S2P Require Import Prelude Pf Pkt.

Record eth_hdr := mk_eth { eh_dst : bytes; eh_src : bytes; eh_type : Z }.

Definition read_eth (b : bytes) : result eth_hdr :=
  match b with
  | d0 :: d1 :: d2 :: d3 :: d4 :: d5 :: s0 :: s1 :: s2 :: s3 :: s4 :: s5 :: t0 :: t1 :: _ =>
      Ok (mk_eth [d0; d1; d2; d3; d4; d5] [s0; s1; s2; s3; s4; s5] (load16 t0 t1))
  | _ => Err OutOfBounds
  end.

Definition eth_image (h : eth_hdr) : bytes := eh_dst h ++ eh_src h ++ store16 (eh_type h).

Record arp_hdr := mk_arp {
  ah_htype : Z; ah_ptype : Z; ah_hlen : Z; ah_plen : Z; ah_op : Z;
  ah_sha : bytes; ah_spa : bytes; ah_tha : bytes; ah_tpa : bytes;
}.

Definition read_arp (b : bytes) : result arp_hdr :=
  match b with
  | h0 :: h1 :: p0 :: p1 :: hl :: pl :: o0 :: o1 ::
    a0 :: a1 :: a2 :: a3 :: a4 :: a5 :: b0 :: b1 :: b2 :: b3 ::
    c0 :: c1 :: c2 :: c3 :: c4 :: c5 :: d0 :: d1 :: d2 :: d3 :: _ =>
      Ok (mk_arp (load16 h0 h1) (load16 p0 p1) hl pl (load16 o0 o1)
            [a0; a1; a2; a3; a4; a5] [b0; b1; b2; b3] [c0; c1; c2; c3; c4; c5] [d0; d1; d2; d3])
  | _ => Err OutOfBounds
  end.

Definition arp_image (h : arp_hdr) : bytes :=
  store16 (ah_htype h) ++ store16 (ah_ptype h) ++ [ah_hlen h; ah_plen h] ++ store16 (ah_op h) ++
  ah_sha h ++ ah_spa h ++ ah_tha h ++ ah_tpa h.

Record ipv4_hdr := mk_ip {
  ih_vihl : Z; ih_tos : Z; ih_total_len : Z; ih_id : Z; ih_frag_off : Z;
  ih_ttl : Z; ih_proto : Z; ih_csum : Z; ih_saddr : Z; ih_daddr : Z;
}.
#[export] Instance eta_ip : Eta ipv4_hdr := fun h =>
  mk_ip (ih_vihl h) (ih_tos h) (ih_total_len h) (ih_id h) (ih_frag_off h) (ih_ttl h) (ih_proto h)
        (ih_csum h) (ih_saddr h) (ih_daddr h).

Definition read_ip (b : bytes) : result ipv4_hdr :=
  match b with
  | v :: t :: l0 :: l1 :: i0 :: i1 :: f0 :: f1 :: ttl :: p :: c0 :: c1 ::
    s0 :: s1 :: s2 :: s3 :: d0 :: d1 :: d2 :: d3 :: _ =>
      Ok (mk_ip v t (load16 l0 l1) (load16 i0 i1) (load16 f0 f1) ttl p (load16 c0 c1)
            (load32 s0 s1 s2 s3) (load32 d0 d1 d2 d3))
  | _ => Err OutOfBounds
  end.

Definition ip_image (h : ipv4_hdr) : bytes :=
  [ih_vihl h; ih_tos h] ++ store16 (ih_total_len h) ++ store16 (ih_id h) ++
  store16 (ih_frag_off h) ++ [ih_ttl h; ih_proto h] ++ store16 (ih_csum h) ++
  store32 (ih_saddr h) ++ store32 (ih_daddr h).

Record icmp_hdr := mk_icmp { ic_type : Z; ic_code : Z; ic_csum : Z; ic_rest : Z }.
#[export] Instance eta_icmp : Eta icmp_hdr := fun h =>
  mk_icmp (ic_type h) (ic_code h) (ic_csum h) (ic_rest h).

Definition read_icmp (b : bytes) : result icmp_hdr :=
  match b with
  | t :: c :: s0 :: s1 :: r0 :: r1 :: r2 :: r3 :: _ =>
      Ok (mk_icmp t c (load16 s0 s1) (load32 r0 r1 r2 r3))
  | _ => Err OutOfBounds
  end.

Definition icmp_image (h : icmp_hdr) : bytes :=
  [ic_type h; ic_code h] ++ store16 (ic_csum h) ++ store32 (ic_rest h).

Record udp_hdr := mk_udp { uh_sport : Z; uh_dport : Z; uh_len : Z; uh_csum : Z }.
#[export] Instance eta_udp : Eta udp_hdr := fun h =>
  mk_udp (uh_sport h) (uh_dport h) (uh_len h) (uh_csum h).

Definition read_udp (b : bytes) : result udp_hdr :=
  match b with
  | s0 :: s1 :: d0 :: d1 :: l0 :: l1 :: c0 :: c1 :: _ =>
      Ok (mk_udp (load16 s0 s1) (load16 d0 d1) (load16 l0 l1) (load16 c0 c1))
  | _ => Err OutOfBounds
  end.

Definition udp_image (h : udp_hdr) : bytes :=
  store16 (uh_sport h) ++ store16 (uh_dport h) ++ store16 (uh_len h) ++ store16 (uh_csum h).

Record tcp_hdr := mk_tcp {
  th_sport : Z; th_dport : Z; th_seq : Z; th_ack : Z; th_doff : Z; th_flags : Z;
  th_wnd : Z; th_csum : Z; th_urg : Z;
}.
#[export] Instance eta_tcp : Eta tcp_hdr := fun h =>
  mk_tcp (th_sport h) (th_dport h) (th_seq h) (th_ack h) (th_doff h) (th_flags h) (th_wnd h)
         (th_csum h) (th_urg h).

Definition read_tcp (b : bytes) : result tcp_hdr :=
  match b with
  | s0 :: s1 :: d0 :: d1 :: q0 :: q1 :: q2 :: q3 :: a0 :: a1 :: a2 :: a3 :: o :: f ::
    w0 :: w1 :: c0 :: c1 :: u0 :: u1 :: _ =>
      Ok (mk_tcp (load16 s0 s1) (load16 d0 d1) (load32 q0 q1 q2 q3) (load32 a0 a1 a2 a3) o f
            (load16 w0 w1) (load16 c0 c1) (load16 u0 u1))
  | _ => Err OutOfBounds
  end.

Definition tcp_image (h : tcp_hdr) : bytes :=
  store16 (th_sport h) ++ store16 (th_dport h) ++ store32 (th_seq h) ++ store32 (th_ack h) ++
  [th_doff h; th_flags h] ++ store16 (th_wnd h) ++ store16 (th_csum h) ++ store16 (th_urg h).

(** ** Field ranges *)

Abbreviation u16_ok z := (0 ≤ z < 65536).
Abbreviation u32_ok z := (0 ≤ z < 2 ^ 32).

Record ip_ok (h : ipv4_hdr) : Prop := {
  io_vihl : byte_ok (ih_vihl h); io_tos : byte_ok (ih_tos h);
  io_total : u16_ok (ih_total_len h); io_id : u16_ok (ih_id h);
  io_frag : u16_ok (ih_frag_off h); io_ttl : byte_ok (ih_ttl h);
  io_proto : byte_ok (ih_proto h); io_csum : u16_ok (ih_csum h);
  io_saddr : u32_ok (ih_saddr h); io_daddr : u32_ok (ih_daddr h);
}.

Record udp_ok (h : udp_hdr) : Prop := {
  uo_sport : u16_ok (uh_sport h); uo_dport : u16_ok (uh_dport h);
  uo_len : u16_ok (uh_len h); uo_csum : u16_ok (uh_csum h);
}.

Record tcp_ok (h : tcp_hdr) : Prop := {
  to_sport : u16_ok (th_sport h); to_dport : u16_ok (th_dport h);
  to_seq : u32_ok (th_seq h); to_ack : u32_ok (th_ack h);
  to_doff : byte_ok (th_doff h); to_flags : byte_ok (th_flags h);
  to_wnd : u16_ok (th_wnd h); to_csum : u16_ok (th_csum h); to_urg : u16_ok (th_urg h);
}.

Lemma load_store16 v : u16_ok v → load16 (v mod 256) (v / 256 mod 256) = v.
Proof. intros. unfold load16. wrap_lia. Qed.

Lemma load_store32 v :
  u32_ok v → load32 (v mod 256) (v / 256 mod 256) (v / 65536 mod 256) (v / 16777216 mod 256) = v.
Proof. intros. unfold load32. wrap_lia. Qed.

Lemma mod256_ok v : byte_ok (v mod 256).
Proof. wrap_lia. Qed.
#[export] Hint Resolve mod256_ok : ints.

(** ** Reading and writing headers *)

(** Destruct a byte list known to be long enough into named bytes. *)
Ltac explode_bytes b H :=
  repeat (destruct b as [|? b]; [cbn in H; lia|]); clear H.

(** Turn [bytes_ok] of an explicit list into one hypothesis per byte. *)
Ltac byte_hyps :=
  repeat match goal with
  | H : bytes_ok (_ :: _) |- _ => apply Forall_cons in H as [? H]
  end.

Lemma read_ip_ok b :
  bytes_ok b → 20 ≤ zlen b →
  ∃ h, read_ip b = Ok h ∧ ip_ok h ∧ b = ip_image h ++ drop 20 b.
Proof.
  intros Hok Hl. explode_bytes b Hl. byte_hyps. eexists. split; [reflexivity|].
  split; [split; cbn; auto using load16_range, load32_range|].
  cbn -[Z.add Z.mul Z.div Z.modulo load16 load32]. unfold load16, load32. bytes_eq.
Qed.

Lemma read_ip_image h rest : ip_ok h → read_ip (ip_image h ++ rest) = Ok h.
Proof.
  intros []. destruct h. cbn -[Z.div Z.modulo load16 load32] in *.
  rewrite !load_store16, !load_store32 by done. done.
Qed.

(** The header survives cutting the bytes behind it. *)
Lemma read_ip_take b k ih : (20 ≤ k)%nat → read_ip b = Ok ih → read_ip (take k b) = Ok ih.
Proof.
  intros Hk. do 20 (destruct k as [|k]; [lia|]).
  do 20 (destruct b as [|? b]; [done|]). done.
Qed.

Lemma length_ip_image h : length (ip_image h) = 20%nat.
Proof. done. Qed.

Lemma ip_image_ok h : ip_ok h → bytes_ok (ip_image h).
Proof. intros []. cbn -[Z.div Z.modulo]. solve_bytes_ok. Qed.

Lemma read_eth_ok b :
  bytes_ok b → 14 ≤ zlen b →
  ∃ h, read_eth b = Ok h ∧ length (eh_dst h) = 6%nat ∧ length (eh_src h) = 6%nat ∧
       bytes_ok (eh_dst h) ∧ bytes_ok (eh_src h) ∧ u16_ok (eh_type h) ∧
       b = eth_image h ++ drop 14 b.
Proof.
  intros Hok Hl. explode_bytes b Hl. byte_hyps. eexists. split; [reflexivity|].
  cbn -[Z.add Z.mul Z.div Z.modulo load16].
  split_and!; try done; try (by solve_bytes_ok); try (by apply load16_range).
  unfold load16. bytes_eq.
Qed.

Lemma read_arp_ok b :
  bytes_ok b → 28 ≤ zlen b →
  ∃ h, read_arp b = Ok h ∧ length (ah_sha h) = 6%nat ∧ bytes_ok (ah_sha h) ∧
       length (ah_spa h) = 4%nat ∧ bytes_ok (ah_spa h) ∧
       length (ah_tpa h) = 4%nat ∧ bytes_ok (ah_tpa h).
Proof.
  intros Hok Hl. explode_bytes b Hl. byte_hyps. eexists. split; [reflexivity|].
  cbn -[load16]. split_and!; try done; by solve_bytes_ok.
Qed.

Lemma read_icmp_ok b :
  bytes_ok b → 8 ≤ zlen b →
  ∃ h, read_icmp b = Ok h ∧ byte_ok (ic_type h) ∧ byte_ok (ic_code h) ∧ u32_ok (ic_rest h) ∧
       b = icmp_image h ++ drop 8 b.
Proof.
  intros Hok Hl. explode_bytes b Hl. byte_hyps. eexists. split; [reflexivity|].
  cbn -[Z.add Z.mul Z.div Z.modulo load16 load32].
  split_and!; try done; try (by apply load32_range).
  unfold load16, load32. bytes_eq.
Qed.

Lemma length_icmp_image h : length (icmp_image h) = 8%nat.
Proof. done. Qed.

Lemma read_udp_ok b :
  bytes_ok b → 8 ≤ zlen b →
  ∃ h, read_udp b = Ok h ∧ udp_ok h ∧ b = udp_image h ++ drop 8 b.
Proof.
  intros Hok Hl. explode_bytes b Hl. byte_hyps. eexists. split; [reflexivity|].
  split; [split; cbn; auto using load16_range|].
  cbn -[Z.add Z.mul Z.div Z.modulo load16]. unfold load16. bytes_eq.
Qed.

Lemma read_udp_image h rest : udp_ok h → read_udp (udp_image h ++ rest) = Ok h.
Proof.
  intros []. destruct h. cbn -[Z.div Z.modulo load16] in *. by rewrite !load_store16 by done.
Qed.

Lemma read_tcp_ok b :
  bytes_ok b → 20 ≤ zlen b →
  ∃ h, read_tcp b = Ok h ∧ tcp_ok h ∧ b = tcp_image h ++ drop 20 b.
Proof.
  intros Hok Hl. explode_bytes b Hl. byte_hyps. eexists. split; [reflexivity|].
  split; [split; cbn; auto using load16_range, load32_range|].
  cbn -[Z.add Z.mul Z.div Z.modulo load16 load32]. unfold load16, load32. bytes_eq.
Qed.

Lemma read_tcp_image h rest : tcp_ok h → read_tcp (tcp_image h ++ rest) = Ok h.
Proof.
  intros []. destruct h. cbn -[Z.div Z.modulo load16 load32] in *.
  rewrite !load_store16, !load_store32 by done. done.
Qed.
