(* ===== verification/Stats.v ===== *)
(** * Protocol counters

    Models [core/stats.h] and [core/stats.c]: the counters declared once by
    the [PF_STATS_MAP] X-macro, the name table, and the accessors that view
    [struct pf_stats] as an array of [uint64_t]. *)

From S2P Require Import Prelude.

Module Stats.

(** [PF_STATS_MAP]: one constructor per counter, in the macro's order. *)
Inductive stat :=
  | eth_rx_frames | eth_rx_runts | eth_rx_unknown_ethertype | eth_rx_other_dest | eth_tx_frames
  | arp_rx | arp_rx_malformed | arp_req_for_us | arp_replies_rx | arp_replies_tx
  | arp_requests_tx | arp_pkts_queued | arp_waitq_drops | arp_resolve_fails | arp_cache_expired
  | arp_cache_evictions | ip_rx | ip_rx_truncated | ip_rx_bad_version | ip_rx_bad_ihl
  | ip_rx_bad_len | ip_rx_bad_csum | ip_rx_bad_src | ip_rx_bcast_ignored | ip_rx_not_for_us
  | ip_rx_delivered | ip_rx_proto_unreach | ip_frags_rx | ip_reass_completed
  | ip_reass_timeouts | ip_reass_overlap_drops | ip_reass_too_big | ip_reass_bad_frag
  | ip_reass_evicted | ip_tx | ip_tx_frags | ip_tx_no_route | ip_fwd_forwarded
  | ip_fwd_ttl_exceeded | ip_fwd_no_route | ip_fwd_bad_dst | ip_fwd_mtu_drop | ip_fwd_same_if
  | icmp_rx | icmp_rx_malformed | icmp_rx_bad_csum | icmp_echo_req_rx | icmp_echo_reply_tx
  | icmp_echo_reply_rx | icmp_rx_errors | icmp_rx_other | icmp_err_tx | icmp_err_suppressed
  | udp_rx | udp_rx_malformed | udp_rx_bad_csum | udp_rx_nocsum | udp_rx_no_sock
  | udp_rx_delivered | udp_rx_q_drops | udp_tx | tcp_rx_segs | tcp_rx_malformed
  | tcp_rx_bad_csum | tcp_rx_bad_opts | tcp_rx_no_match | tcp_rx_out_of_window | tcp_rx_bad_ack
  | tcp_rx_data_ignored | tcp_rx_bytes | tcp_tx_segs | tcp_tx_bytes | tcp_rst_rx | tcp_rst_tx
  | tcp_challenge_acks_tx | tcp_rtx_segs | tcp_rto_fires | tcp_fast_rtx | tcp_dupacks_rx
  | tcp_ooo_queued | tcp_ooo_dropped | tcp_passive_opens | tcp_active_opens
  | tcp_conns_established | tcp_conns_reset | tcp_conn_timeouts | tcp_accept_drops
  | tcp_zero_wnd_probes | tcp_rtt_samples.

(** The expansion of the macro as a list. *)
Definition PF_STATS_MAP : list stat := [
  eth_rx_frames; eth_rx_runts; eth_rx_unknown_ethertype; eth_rx_other_dest; eth_tx_frames;
  arp_rx; arp_rx_malformed; arp_req_for_us; arp_replies_rx; arp_replies_tx; arp_requests_tx;
  arp_pkts_queued; arp_waitq_drops; arp_resolve_fails; arp_cache_expired; arp_cache_evictions;
  ip_rx; ip_rx_truncated; ip_rx_bad_version; ip_rx_bad_ihl; ip_rx_bad_len; ip_rx_bad_csum;
  ip_rx_bad_src; ip_rx_bcast_ignored; ip_rx_not_for_us; ip_rx_delivered; ip_rx_proto_unreach;
  ip_frags_rx; ip_reass_completed; ip_reass_timeouts; ip_reass_overlap_drops; ip_reass_too_big;
  ip_reass_bad_frag; ip_reass_evicted; ip_tx; ip_tx_frags; ip_tx_no_route; ip_fwd_forwarded;
  ip_fwd_ttl_exceeded; ip_fwd_no_route; ip_fwd_bad_dst; ip_fwd_mtu_drop; ip_fwd_same_if;
  icmp_rx; icmp_rx_malformed; icmp_rx_bad_csum; icmp_echo_req_rx; icmp_echo_reply_tx;
  icmp_echo_reply_rx; icmp_rx_errors; icmp_rx_other; icmp_err_tx; icmp_err_suppressed; udp_rx;
  udp_rx_malformed; udp_rx_bad_csum; udp_rx_nocsum; udp_rx_no_sock; udp_rx_delivered;
  udp_rx_q_drops; udp_tx; tcp_rx_segs; tcp_rx_malformed; tcp_rx_bad_csum; tcp_rx_bad_opts;
  tcp_rx_no_match; tcp_rx_out_of_window; tcp_rx_bad_ack; tcp_rx_data_ignored; tcp_rx_bytes;
  tcp_tx_segs; tcp_tx_bytes; tcp_rst_rx; tcp_rst_tx; tcp_challenge_acks_tx; tcp_rtx_segs;
  tcp_rto_fires; tcp_fast_rtx; tcp_dupacks_rx; tcp_ooo_queued; tcp_ooo_dropped;
  tcp_passive_opens; tcp_active_opens; tcp_conns_established; tcp_conns_reset;
  tcp_conn_timeouts; tcp_accept_drops; tcp_zero_wnd_probes; tcp_rtt_samples].

(** [#name] for every counter. *)
Definition stat_names : list string := [
  "eth_rx_frames"; "eth_rx_runts"; "eth_rx_unknown_ethertype"; "eth_rx_other_dest";
  "eth_tx_frames"; "arp_rx"; "arp_rx_malformed"; "arp_req_for_us"; "arp_replies_rx";
  "arp_replies_tx"; "arp_requests_tx"; "arp_pkts_queued"; "arp_waitq_drops";
  "arp_resolve_fails"; "arp_cache_expired"; "arp_cache_evictions"; "ip_rx"; "ip_rx_truncated";
  "ip_rx_bad_version"; "ip_rx_bad_ihl"; "ip_rx_bad_len"; "ip_rx_bad_csum"; "ip_rx_bad_src";
  "ip_rx_bcast_ignored"; "ip_rx_not_for_us"; "ip_rx_delivered"; "ip_rx_proto_unreach";
  "ip_frags_rx"; "ip_reass_completed"; "ip_reass_timeouts"; "ip_reass_overlap_drops";
  "ip_reass_too_big"; "ip_reass_bad_frag"; "ip_reass_evicted"; "ip_tx"; "ip_tx_frags";
  "ip_tx_no_route"; "ip_fwd_forwarded"; "ip_fwd_ttl_exceeded"; "ip_fwd_no_route";
  "ip_fwd_bad_dst"; "ip_fwd_mtu_drop"; "ip_fwd_same_if"; "icmp_rx"; "icmp_rx_malformed";
  "icmp_rx_bad_csum"; "icmp_echo_req_rx"; "icmp_echo_reply_tx"; "icmp_echo_reply_rx";
  "icmp_rx_errors"; "icmp_rx_other"; "icmp_err_tx"; "icmp_err_suppressed"; "udp_rx";
  "udp_rx_malformed"; "udp_rx_bad_csum"; "udp_rx_nocsum"; "udp_rx_no_sock"; "udp_rx_delivered";
  "udp_rx_q_drops"; "udp_tx"; "tcp_rx_segs"; "tcp_rx_malformed"; "tcp_rx_bad_csum";
  "tcp_rx_bad_opts"; "tcp_rx_no_match"; "tcp_rx_out_of_window"; "tcp_rx_bad_ack";
  "tcp_rx_data_ignored"; "tcp_rx_bytes"; "tcp_tx_segs"; "tcp_tx_bytes"; "tcp_rst_rx";
  "tcp_rst_tx"; "tcp_challenge_acks_tx"; "tcp_rtx_segs"; "tcp_rto_fires"; "tcp_fast_rtx";
  "tcp_dupacks_rx"; "tcp_ooo_queued"; "tcp_ooo_dropped"; "tcp_passive_opens";
  "tcp_active_opens"; "tcp_conns_established"; "tcp_conns_reset"; "tcp_conn_timeouts";
  "tcp_accept_drops"; "tcp_zero_wnd_probes"; "tcp_rtt_samples"]%string.

(** The position of a counter in [struct pf_stats]. *)
Definition stat_index (s : stat) : nat :=
  match s with
  | eth_rx_frames => 0
  | eth_rx_runts => 1
  | eth_rx_unknown_ethertype => 2
  | eth_rx_other_dest => 3
  | eth_tx_frames => 4
  | arp_rx => 5
  | arp_rx_malformed => 6
  | arp_req_for_us => 7
  | arp_replies_rx => 8
  | arp_replies_tx => 9
  | arp_requests_tx => 10
  | arp_pkts_queued => 11
  | arp_waitq_drops => 12
  | arp_resolve_fails => 13
  | arp_cache_expired => 14
  | arp_cache_evictions => 15
  | ip_rx => 16
  | ip_rx_truncated => 17
  | ip_rx_bad_version => 18
  | ip_rx_bad_ihl => 19
  | ip_rx_bad_len => 20
  | ip_rx_bad_csum => 21
  | ip_rx_bad_src => 22
  | ip_rx_bcast_ignored => 23
  | ip_rx_not_for_us => 24
  | ip_rx_delivered => 25
  | ip_rx_proto_unreach => 26
  | ip_frags_rx => 27
  | ip_reass_completed => 28
  | ip_reass_timeouts => 29
  | ip_reass_overlap_drops => 30
  | ip_reass_too_big => 31
  | ip_reass_bad_frag => 32
  | ip_reass_evicted => 33
  | ip_tx => 34
  | ip_tx_frags => 35
  | ip_tx_no_route => 36
  | ip_fwd_forwarded => 37
  | ip_fwd_ttl_exceeded => 38
  | ip_fwd_no_route => 39
  | ip_fwd_bad_dst => 40
  | ip_fwd_mtu_drop => 41
  | ip_fwd_same_if => 42
  | icmp_rx => 43
  | icmp_rx_malformed => 44
  | icmp_rx_bad_csum => 45
  | icmp_echo_req_rx => 46
  | icmp_echo_reply_tx => 47
  | icmp_echo_reply_rx => 48
  | icmp_rx_errors => 49
  | icmp_rx_other => 50
  | icmp_err_tx => 51
  | icmp_err_suppressed => 52
  | udp_rx => 53
  | udp_rx_malformed => 54
  | udp_rx_bad_csum => 55
  | udp_rx_nocsum => 56
  | udp_rx_no_sock => 57
  | udp_rx_delivered => 58
  | udp_rx_q_drops => 59
  | udp_tx => 60
  | tcp_rx_segs => 61
  | tcp_rx_malformed => 62
  | tcp_rx_bad_csum => 63
  | tcp_rx_bad_opts => 64
  | tcp_rx_no_match => 65
  | tcp_rx_out_of_window => 66
  | tcp_rx_bad_ack => 67
  | tcp_rx_data_ignored => 68
  | tcp_rx_bytes => 69
  | tcp_tx_segs => 70
  | tcp_tx_bytes => 71
  | tcp_rst_rx => 72
  | tcp_rst_tx => 73
  | tcp_challenge_acks_tx => 74
  | tcp_rtx_segs => 75
  | tcp_rto_fires => 76
  | tcp_fast_rtx => 77
  | tcp_dupacks_rx => 78
  | tcp_ooo_queued => 79
  | tcp_ooo_dropped => 80
  | tcp_passive_opens => 81
  | tcp_active_opens => 82
  | tcp_conns_established => 83
  | tcp_conns_reset => 84
  | tcp_conn_timeouts => 85
  | tcp_accept_drops => 86
  | tcp_zero_wnd_probes => 87
  | tcp_rtt_samples => 88
  end%nat.

Lemma stat_index_lookup s : PF_STATS_MAP !! stat_index s = Some s.
Proof. by destruct s. Qed.

Lemma stat_index_inj s s' : stat_index s = stat_index s' → s = s'.
Proof.
  intros E. pose proof (stat_index_lookup s) as H. rewrite E, stat_index_lookup in H. congruence.
Qed.

#[global] Instance stat_eq_dec : EqDecision stat.
Proof.
  intros s s'. refine (cast_if (decide (stat_index s = stat_index s')));
    [by apply stat_index_inj|congruence].
Defined.

(** [struct pf_stats]: the value of each of its fields. *)
Definition pf_stats : Type := stat → Z.

Definition zero_stats : pf_stats := fun _ => 0.

(** [stack->stats.name += n]. *)
Definition stats_add (st : pf_stats) (s : stat) (n : Z) : pf_stats :=
  fun s' => if decide (s' = s) then u64 (st s + n) else st s'.

Definition pf_stats_count : Z := zlen stat_names.

Definition pf_stats_name (i : nat) : result string :=
  PF_ASSERT (Z.of_nat i <? pf_stats_count);; in_bounds (stat_names !! i).

(** [base[i]] of the struct viewed as an array: its fields lie in the order
    of the macro. *)
Definition pf_stats_get (st : pf_stats) (i : nat) : result Z :=
  PF_ASSERT (Z.of_nat i <? pf_stats_count);; s ← in_bounds (PF_STATS_MAP !! i); Ok (st s).

(** The array view: every counter is found at its index, under its name. *)
Lemma pf_stats_get_index st s : pf_stats_get st (stat_index s) = Ok (st s).
Proof. by destruct s. Qed.

Lemma pf_stats_get_ok st i : Z.of_nat i < pf_stats_count → ∃ v, pf_stats_get st i = Ok v.
Proof.
  intros Hi. destruct (lookup_lt_is_Some_2 PF_STATS_MAP i) as [s Hs].
  { change (length PF_STATS_MAP) with (length stat_names). unfold pf_stats_count in Hi. lia. }
  exists (st s). unfold pf_stats_get. rewrite (proj2 (Z.ltb_lt _ _) Hi), Hs. done.
Qed.

Lemma pf_stats_name_ok i : Z.of_nat i < pf_stats_count → ∃ n, pf_stats_name i = Ok n ∧ n ∈ stat_names.
Proof.
  intros Hi. destruct (lookup_lt_is_Some_2 stat_names i) as [n Hn]; [unfold pf_stats_count in Hi; lia|].
  exists n. unfold pf_stats_name. rewrite (proj2 (Z.ltb_lt _ _) Hi), Hn.
  split; [done|by eapply list_elem_of_lookup_2].
Qed.

Lemma stats_add_eq st s n : stats_add st s n s = u64 (st s + n).
Proof. unfold stats_add. by rewrite decide_True. Qed.

Lemma stats_add_ne st s s' n : s' ≠ s → stats_add st s n s' = st s'.
Proof. intros. unfold stats_add. by rewrite decide_False. Qed.

End Stats.
