(* ===== verification/Stack.v ===== *)
(** * The stack object

    Models the composition root [struct pf_stack] of [core/stack.h] with the
    state of every protocol module ([arp/arp.h], [ipv4/ip_reass.h],
    [udp/sock.h], [tcp/tcp.h], [netdev/netdev.h]), the environment it runs in
    (the monotonic clock and the wire), and the state monad the handlers are
    written in.

    A pointer to an element of one of the stack's arrays is its index, NULL
    is [None]; a packet queue is the list it represents ([Pktq]). *)

From S2P Require Import Prelude Pf Pkt Fib Headers Stats.
Import Pkt Fib Stats.

(** ** Constants *)

Definition PF_MAX_DEVS : Z := 8.

Definition ETH_HDR_LEN : Z := 14.
Definition ETH_TYPE_IP4 : Z := 0x0800.
Definition ETH_TYPE_ARP : Z := 0x0806.

Definition ARP_HDR_LEN : Z := 28.
Definition ARP_OP_REQUEST : Z := 1.
Definition ARP_OP_REPLY : Z := 2.
Definition ARP_CACHE_SIZE : nat := 64.
Definition ARP_CACHE_TTL_MS : Z := 60000.
Definition ARP_PENDING_RETRY_MS : Z := 1000.
Definition ARP_PENDING_MAX_TRIES : Z := 3.
Definition ARP_WAITQ_MAX : Z := 8.

Definition IPV4_HDR_MIN : Z := 20.
Definition IPV4_HDR_MAX : Z := 60.
Definition IP_DEFAULT_TTL : Z := 64.
Definition IP_PROTO_ICMP : Z := 1.
Definition IP_PROTO_TCP : Z := 6.
Definition IP_PROTO_UDP : Z := 17.
Definition IP_FRAG_DF : Z := 0x4000.
Definition IP_FRAG_MF : Z := 0x2000.
Definition IP_FRAG_OFFMASK : Z := 0x1fff.

Definition IP_REASS_CTXS : nat := 8.
Definition IP_REASS_TIMEOUT_MS : Z := 15000.
Definition IP_REASS_MAX_RANGES : Z := 32.
Definition IP_REASS_MAX_PAYLOAD : Z := 4000.

Definition PF_SOCK_MAX : nat := 32.
Definition PF_SOCK_RXQ_CAP : Z := 64.
Definition PF_EPHEMERAL_BASE : Z := 49152.

Definition TCP_MAX_CONNS : nat := 16.
Definition TCP_SNDBUF : Z := 65535.
Definition TCP_RCVBUF : Z := 65535.

#[global] Hint Unfold PF_MAX_DEVS ETH_HDR_LEN ETH_TYPE_IP4 ETH_TYPE_ARP ARP_HDR_LEN
  ARP_OP_REQUEST ARP_OP_REPLY ARP_CACHE_SIZE ARP_CACHE_TTL_MS ARP_PENDING_RETRY_MS
  ARP_PENDING_MAX_TRIES ARP_WAITQ_MAX IPV4_HDR_MIN IPV4_HDR_MAX IP_DEFAULT_TTL IP_PROTO_ICMP
  IP_PROTO_TCP IP_PROTO_UDP IP_FRAG_DF IP_FRAG_MF IP_FRAG_OFFMASK IP_REASS_CTXS
  IP_REASS_TIMEOUT_MS IP_REASS_MAX_RANGES IP_REASS_MAX_PAYLOAD PF_SOCK_MAX PF_SOCK_RXQ_CAP
  PF_EPHEMERAL_BASE TCP_MAX_CONNS TCP_SNDBUF TCP_RCVBUF : ints.

(** ** Network devices ([netdev/netdev.h]) *)

Record netdev_stats := mk_ndst {
  rx_pkts : Z; rx_bytes : Z; rx_drops : Z;
  tx_pkts : Z; tx_bytes : Z; tx_errs : Z;
}.
#[export] Instance eta_ndst : Eta netdev_stats := fun s =>
  mk_ndst (rx_pkts s) (rx_bytes s) (rx_drops s) (tx_pkts s) (tx_bytes s) (tx_errs s).

(** [nd_tx] is the driver's [tx] hook: the code it returns for a frame. *)
Record netdev := mk_netdev {
  nd_name : string; nd_ifindex : Z; nd_mac : bytes; nd_ip : Z; nd_mask : Z; nd_mtu : Z;
  nd_up : bool; nd_tx : bytes → Z; nd_st : netdev_stats;
}.
#[export] Instance eta_netdev : Eta netdev := fun d =>
  mk_netdev (nd_name d) (nd_ifindex d) (nd_mac d) (nd_ip d) (nd_mask d) (nd_mtu d) (nd_up d)
            (nd_tx d) (nd_st d).

(** ** ARP cache ([arp/arp.h]) *)

Inductive arp_state := ARP_FREE | ARP_PENDING | ARP_RESOLVED.
#[global] Instance arp_state_eq_dec : EqDecision arp_state.
Proof. solve_decision. Defined.

Record arp_entry := mk_arp_entry {
  ae_state : arp_state; ae_ip : Z; ae_mac : bytes; ae_tries : Z; ae_dev : option nat;
  ae_deadline_ms : Z; ae_waitq : list pkt;
}.
#[export] Instance eta_arp_entry : Eta arp_entry := fun e =>
  mk_arp_entry (ae_state e) (ae_ip e) (ae_mac e) (ae_tries e) (ae_dev e) (ae_deadline_ms e)
               (ae_waitq e).

Abbreviation arp_cache := (list arp_entry).

Definition zero_arp_entry : arp_entry := mk_arp_entry ARP_FREE 0 (replicate 6 0) 0 None 0 [].

(** ** Reassembly contexts ([ipv4/ip_reass.h]) *)

(** The first [nranges] ranges; [rc_payload] is the malloc'd buffer. *)
Record ip_reass_ctx := mk_reass_ctx {
  rc_in_use : bool; rc_src : Z; rc_dst : Z; rc_id : Z; rc_proto : Z; rc_dev : option nat;
  rc_deadline_ms : Z; rc_have_first : bool; rc_expected_total : Z; rc_ranges : list (Z * Z);
  rc_hdr : bytes; rc_hdr_len : Z; rc_payload : bytes;
}.
#[export] Instance eta_reass_ctx : Eta ip_reass_ctx := fun c =>
  mk_reass_ctx (rc_in_use c) (rc_src c) (rc_dst c) (rc_id c) (rc_proto c) (rc_dev c)
    (rc_deadline_ms c) (rc_have_first c) (rc_expected_total c) (rc_ranges c) (rc_hdr c)
    (rc_hdr_len c) (rc_payload c).

Abbreviation ip_reass := (list ip_reass_ctx).

Definition zero_reass_ctx : ip_reass_ctx :=
  mk_reass_ctx false 0 0 0 0 None 0 false 0 [] (replicate (Z.to_nat IPV4_HDR_MAX) 0) 0 [].

(** ** Sockets ([udp/sock.h]) *)

Inductive pf_sock_type := PF_SOCK_NONE | PF_SOCK_UDP | PF_SOCK_TCP.
#[global] Instance pf_sock_type_eq_dec : EqDecision pf_sock_type.
Proof. solve_decision. Defined.

Record pf_sock := mk_sock {
  sk_type : pf_sock_type; sk_local_ip : Z; sk_local_port : Z; sk_rxq : list pkt;
  sk_tcb : option nat; sk_err : Z;
}.
#[export] Instance eta_sock : Eta pf_sock := fun s =>
  mk_sock (sk_type s) (sk_local_ip s) (sk_local_port s) (sk_rxq s) (sk_tcb s) (sk_err s).

Definition zero_sock : pf_sock := mk_sock PF_SOCK_NONE 0 0 [] None 0.

Record pf_socktab := mk_socktab { st_socks : list pf_sock; st_ephemeral_next : Z }.
#[export] Instance eta_socktab : Eta pf_socktab := fun t =>
  mk_socktab (st_socks t) (st_ephemeral_next t).

(** ** TCP control blocks ([tcp/tcp.h]) *)

Inductive tcp_state :=
  | TCP_CLOSED | TCP_LISTEN | TCP_SYN_SENT | TCP_SYN_RCVD | TCP_ESTABLISHED | TCP_FIN_WAIT_1
  | TCP_FIN_WAIT_2 | TCP_CLOSE_WAIT | TCP_CLOSING | TCP_LAST_ACK | TCP_TIME_WAIT.
#[global] Instance tcp_state_eq_dec : EqDecision tcp_state.
Proof. solve_decision. Defined.

(** [tc_acceptq] is [acceptq[0..acceptq_n)]; [tc_sock_idx] is -1 when
    detached; [srtt_ms]/[rttvar_ms] are -1 until the first sample. *)
Record tcp_cb := mk_tcb {
  tc_active : bool; tc_state : tcp_state; tc_sock_idx : Z;
  tc_local_ip : Z; tc_remote_ip : Z; tc_local_port : Z; tc_remote_port : Z;
  tc_iss : Z; tc_snd_una : Z; tc_snd_nxt : Z; tc_snd_wnd : Z; tc_snd_wl1 : Z; tc_snd_wl2 : Z;
  tc_irs : Z; tc_rcv_nxt : Z; tc_rcv_wnd_advertised : Z; tc_mss : Z;
  tc_sndbuf : bytes; tc_snd_head : Z; tc_snd_len : Z; tc_fin_queued : bool; tc_fin_sent : bool;
  tc_rcvbuf : bytes; tc_rcv_head : Z; tc_rcv_len : Z; tc_rcv_eof : bool; tc_ooo : list pkt;
  tc_srtt_ms : Z; tc_rttvar_ms : Z; tc_rto_ms : Z; tc_rto_deadline : Z; tc_rtx_count : Z;
  tc_rtt_timing : bool; tc_rtt_seq : Z; tc_rtt_start_ms : Z;
  tc_cwnd : Z; tc_ssthresh : Z; tc_dupacks : Z; tc_nodelay : bool;
  tc_timewait_deadline : Z; tc_delack_deadline : Z; tc_delack_pending : Z;
  tc_backlog : Z; tc_acceptq : list nat; tc_listener : option nat;
}.
#[export] Instance eta_tcb : Eta tcp_cb := fun t =>
  mk_tcb (tc_active t) (tc_state t) (tc_sock_idx t) (tc_local_ip t) (tc_remote_ip t)
    (tc_local_port t) (tc_remote_port t) (tc_iss t) (tc_snd_una t) (tc_snd_nxt t) (tc_snd_wnd t)
    (tc_snd_wl1 t) (tc_snd_wl2 t) (tc_irs t) (tc_rcv_nxt t) (tc_rcv_wnd_advertised t) (tc_mss t)
    (tc_sndbuf t) (tc_snd_head t) (tc_snd_len t) (tc_fin_queued t) (tc_fin_sent t) (tc_rcvbuf t)
    (tc_rcv_head t) (tc_rcv_len t) (tc_rcv_eof t) (tc_ooo t) (tc_srtt_ms t) (tc_rttvar_ms t)
    (tc_rto_ms t) (tc_rto_deadline t) (tc_rtx_count t) (tc_rtt_timing t) (tc_rtt_seq t)
    (tc_rtt_start_ms t) (tc_cwnd t) (tc_ssthresh t) (tc_dupacks t) (tc_nodelay t)
    (tc_timewait_deadline t) (tc_delack_deadline t) (tc_delack_pending t) (tc_backlog t)
    (tc_acceptq t) (tc_listener t).

(** The all-zero control block [memset] leaves. *)
Definition zero_tcb : tcp_cb :=
  mk_tcb false TCP_CLOSED 0 0 0 0 0 0 0 0 0 0 0 0 0 0 0 [] 0 0 false false [] 0 0 false [] 0 0 0 0 0
    false 0 0 0 0 0 false 0 0 0 0 [] None.

Record tcp_globals := mk_tcpg { tg_tcbs : list tcp_cb; tg_iss_next : Z }.
#[export] Instance eta_tcpg : Eta tcp_globals := fun t => mk_tcpg (tg_tcbs t) (tg_iss_next t).

(** ** [struct pf_stack] and the environment *)

Record pf_stack := mk_stack {
  ps_devs : list netdev; ps_hexdump_rx : bool; ps_forwarding : bool;
  ps_arp : arp_cache; ps_reass : ip_reass; ps_socks : pf_socktab; ps_tcp : tcp_globals;
  ps_fib : fib; ps_ip_id : Z; ps_icmp_last_err_ms : Z; ps_stats : pf_stats;
}.
#[export] Instance eta_stack : Eta pf_stack := fun s =>
  mk_stack (ps_devs s) (ps_hexdump_rx s) (ps_forwarding s) (ps_arp s) (ps_reass s) (ps_socks s)
    (ps_tcp s) (ps_fib s) (ps_ip_id s) (ps_icmp_last_err_ms s) (ps_stats s).

(** The stack together with what it observes and affects: the value
    [pf_now_ms] returns (constant while one event is handled) and the frames
    handed to the drivers, oldest first, each with its device. *)
Record world := mk_world { w_stack : pf_stack; w_now : Z; w_wire : list (nat * bytes) }.
#[export] Instance eta_world : Eta world := fun w =>
  mk_world (w_stack w) (w_now w) (w_wire w).

Abbreviation PF := (M world).

Definition get_stack {A} (f : pf_stack → A) : PF A := gets (fun w => f (w_stack w)).
Definition upd_stack (f : pf_stack → pf_stack) : PF () := modify (set_field w_stack f).
Definition pf_now_ms : PF Z := gets w_now.

(** [stack->stats.s++] and [stack->stats.s += n]. *)
Definition stat_add (s : stat) (n : Z) : PF () :=
  upd_stack (set_field ps_stats (fun st => stats_add st s n)).
Definition stat_inc (s : stat) : PF () := stat_add s 1.

(** Dereferencing a device pointer, and updating through it. *)
Definition get_dev (d : nat) : PF netdev :=
  devs ← get_stack ps_devs; lift (in_bounds (devs !! d)).
Definition upd_dev (d : nat) (f : netdev → netdev) : PF () :=
  _ ← get_dev d; upd_stack (set_field ps_devs (alter f d)).

(** One step of a run whose head is a monad operation; the specifications of
    the components' operations are applied by hand. *)
Ltac wp_step :=
  lazymatch goal with
  | |- wp (_ ≫= _) _ _ => apply wp_bind
  | |- wp (mret _) _ _ => apply wp_ret
  | |- wp (gets _) _ _ => apply wp_gets
  | |- wp (get_stack _) _ _ => apply wp_gets
  | |- wp pf_now_ms _ _ => apply wp_gets
  end; cbv beta.
Ltac wp_steps := repeat wp_step.
