(* ===== verification/Link.v ===== *)
(** * Link-layer transmission

    Models [netdev/netdev.c] ([netdev_tx]) and the transmit half of
    [eth/eth.c] ([eth_output]), and defines the frame relations that say
    which part of the stack a transmission may change. *)

From S2P Require Import Prelude Pf Pkt Headers Stats Stack.
Import Pkt Stats.

Definition ETH_BCAST : bytes := replicate 6 0xff.

(** Counted transmit around the driver hook. *)
Definition netdev_tx (d : nat) (p : pkt) : PF Z :=
  nd ← get_dev d;
  modify (set_field w_wire (fun l => l ++ [(d, pkt_bytes p)]));;
  let rc := nd_tx nd (pkt_bytes p) in
  (if rc =? 0 then
     upd_dev d (set_field nd_st (fun s =>
       s <| tx_pkts ::= fun n => u64 (n + 1) |> <| tx_bytes ::= fun n => u64 (n + p_len p) |>))
   else
     upd_dev d (set_field nd_st (set_field tx_errs (fun n => u64 (n + 1)))));;
  mret rc.

Definition eth_output (d : nat) (dst : bytes) (ethertype : Z) (p : pkt) : PF Z :=
  nd ← get_dev d;
  p ← lift (pkt_prepend p (eth_image (mk_eth dst (nd_mac nd) (pf_htons ethertype))));
  stat_inc eth_tx_frames;;
  netdev_tx d p.

(** ** What a transmission leaves alone

    The counters and the wire are observers; [erase_tx] forgets them. Two
    worlds with the same erasure differ only there. *)

Definition zero_ndst : netdev_stats := mk_ndst 0 0 0 0 0 0.

Definition clear_st (d : netdev) : netdev := d <| nd_st := zero_ndst |>.

Definition erase_tx (w : world) : world :=
  w <| w_stack ::= fun s => s <| ps_stats := zero_stats |> <| ps_devs ::= fmap clear_st |> |>
    <| w_wire := [] |>.

(** Additionally forgets the ARP cache. *)
Definition erase_arp (w : world) : world :=
  erase_tx w <| w_stack ::= set_field ps_arp (fun _ => []) |>.

(** Additionally forgets the IP identification counter. *)
Definition erase_ip (w : world) : world :=
  erase_arp w <| w_stack ::= set_field ps_ip_id (fun _ => 0) |>.

(** Additionally forgets the time of the last ICMP error. *)
Definition erase_icmp (w : world) : world :=
  erase_ip w <| w_stack ::= set_field ps_icmp_last_err_ms (fun _ => 0) |>.

(** Additionally forgets the sockets and the TCP connections. *)
Definition erase_l4 (w : world) : world :=
  erase_icmp w <| w_stack ::= fun s => s <| ps_socks := mk_socktab [] 0 |> <| ps_tcp := mk_tcpg [] 0 |> |>.

(** Additionally forgets the reassembly contexts. *)
Definition erase_in (w : world) : world :=
  erase_l4 w <| w_stack ::= set_field ps_reass (fun _ => []) |>.

Lemma erase_tx_arp w w' : erase_tx w = erase_tx w' → erase_arp w = erase_arp w'.
Proof. unfold erase_arp. by intros ->. Qed.

Lemma erase_arp_ip w w' : erase_arp w = erase_arp w' → erase_ip w = erase_ip w'.
Proof. unfold erase_ip. by intros ->. Qed.

Lemma erase_ip_icmp w w' : erase_ip w = erase_ip w' → erase_icmp w = erase_icmp w'.
Proof. unfold erase_icmp. by intros ->. Qed.

Lemma erase_icmp_l4 w w' : erase_icmp w = erase_icmp w' → erase_l4 w = erase_l4 w'.
Proof. unfold erase_l4. by intros ->. Qed.

Lemma erase_l4_in w w' : erase_l4 w = erase_l4 w' → erase_in w = erase_in w'.
Proof. unfold erase_in. by intros ->. Qed.

(** Goals [erase_x w = erase_x w'] from the steps in the context: bring every
    step to the goal's level, then chain them. *)
Ltac frame :=
  repeat match goal with
  | H : erase_tx _ = erase_tx _ |- erase_arp _ = erase_arp _ => apply erase_tx_arp in H
  | H : erase_tx _ = erase_tx _ |- erase_ip _ = erase_ip _ => apply erase_tx_arp in H
  | H : erase_arp _ = erase_arp _ |- erase_ip _ = erase_ip _ => apply erase_arp_ip in H
  | H : erase_tx _ = erase_tx _ |- erase_icmp _ = erase_icmp _ => apply erase_tx_arp in H
  | H : erase_arp _ = erase_arp _ |- erase_icmp _ = erase_icmp _ => apply erase_arp_ip in H
  | H : erase_ip _ = erase_ip _ |- erase_icmp _ = erase_icmp _ => apply erase_ip_icmp in H
  | H : erase_tx _ = erase_tx _ |- erase_l4 _ = erase_l4 _ => apply erase_tx_arp in H
  | H : erase_arp _ = erase_arp _ |- erase_l4 _ = erase_l4 _ => apply erase_arp_ip in H
  | H : erase_ip _ = erase_ip _ |- erase_l4 _ = erase_l4 _ => apply erase_ip_icmp in H
  | H : erase_icmp _ = erase_icmp _ |- erase_l4 _ = erase_l4 _ => apply erase_icmp_l4 in H
  | H : erase_tx _ = erase_tx _ |- erase_in _ = erase_in _ => apply erase_tx_arp in H
  | H : erase_arp _ = erase_arp _ |- erase_in _ = erase_in _ => apply erase_arp_ip in H
  | H : erase_ip _ = erase_ip _ |- erase_in _ = erase_in _ => apply erase_ip_icmp in H
  | H : erase_icmp _ = erase_icmp _ |- erase_in _ = erase_in _ => apply erase_icmp_l4 in H
  | H : erase_l4 _ = erase_l4 _ |- erase_in _ = erase_in _ => apply erase_l4_in in H
  end; congruence.

(** What the erasures keep. *)
Lemma erase_icmp_proj w w' :
  erase_icmp w = erase_icmp w' →
  w_now w = w_now w' ∧
  ps_fib (w_stack w) = ps_fib (w_stack w') ∧
  ps_reass (w_stack w) = ps_reass (w_stack w') ∧
  ps_socks (w_stack w) = ps_socks (w_stack w') ∧
  ps_tcp (w_stack w) = ps_tcp (w_stack w') ∧
  ps_forwarding (w_stack w) = ps_forwarding (w_stack w') ∧
  clear_st <$> ps_devs (w_stack w) = clear_st <$> ps_devs (w_stack w').
Proof. destruct w as [[] ? ?], w' as [[] ? ?]. cbn. intros E. simplify_eq. done. Qed.

Lemma erase_l4_reass w w' : erase_l4 w = erase_l4 w' → ps_reass (w_stack w) = ps_reass (w_stack w').
Proof. destruct w as [[] ? ?], w' as [[] ? ?]. cbn. intros E. simplify_eq. done. Qed.

Lemma erase_in_proj w w' :
  erase_in w = erase_in w' →
  w_now w = w_now w' ∧
  ps_fib (w_stack w) = ps_fib (w_stack w') ∧
  ps_forwarding (w_stack w) = ps_forwarding (w_stack w') ∧
  ps_hexdump_rx (w_stack w) = ps_hexdump_rx (w_stack w') ∧
  clear_st <$> ps_devs (w_stack w) = clear_st <$> ps_devs (w_stack w').
Proof. destruct w as [[] ? ?], w' as [[] ? ?]. cbn. intros E. simplify_eq. done. Qed.

Lemma erase_tx_arp_eq w w' : erase_tx w = erase_tx w' → ps_arp (w_stack w) = ps_arp (w_stack w').
Proof. destruct w as [[] ? ?], w' as [[] ? ?]. cbn. intros E. simplify_eq. done. Qed.

Lemma erase_ip_last_err w w' :
  erase_ip w = erase_ip w' → ps_icmp_last_err_ms (w_stack w) = ps_icmp_last_err_ms (w_stack w').
Proof. destruct w as [[] ? ?], w' as [[] ? ?]. cbn. intros E. simplify_eq. done. Qed.

(** Device [d] exists, with its configuration (everything but counters). *)
Definition dev_at (w : world) (d : nat) (nd : netdev) : Prop :=
  (clear_st <$> ps_devs (w_stack w)) !! d = Some (clear_st nd).

Lemma dev_at_erase w w' d nd : erase_icmp w = erase_icmp w' → dev_at w d nd → dev_at w' d nd.
Proof. intros E. unfold dev_at. destruct (erase_icmp_proj _ _ E) as (_&_&_&_&_&_& ->). done. Qed.

Lemma dev_at_in w w' d nd : erase_in w = erase_in w' → dev_at w d nd → dev_at w' d nd.
Proof. intros E. unfold dev_at. destruct (erase_in_proj _ _ E) as (_&_&_&_& ->). done. Qed.

Lemma erase_in_length w w' :
  erase_in w = erase_in w' → length (ps_devs (w_stack w)) = length (ps_devs (w_stack w')).
Proof.
  intros (_&_&_&_&E)%erase_in_proj. by rewrite <- (length_fmap clear_st), E, length_fmap.
Qed.

Lemma dev_at_lookup w d nd :
  dev_at w d nd → ∃ nd', ps_devs (w_stack w) !! d = Some nd' ∧ clear_st nd' = clear_st nd.
Proof. unfold dev_at. rewrite list_lookup_fmap. intros (nd' & ? & ?)%fmap_Some. eauto. Qed.

Lemma clear_st_proj nd nd' :
  clear_st nd = clear_st nd' →
  nd_mac nd = nd_mac nd' ∧ nd_ip nd = nd_ip nd' ∧ nd_mask nd = nd_mask nd' ∧
  nd_mtu nd = nd_mtu nd' ∧ nd_tx nd = nd_tx nd'.
Proof. destruct nd, nd'. cbn. intros E. simplify_eq. done. Qed.

(** ** Specifications *)

Lemma wp_stat_inc s (Q : () → world → Prop) w :
  (∀ w', erase_tx w = erase_tx w' → w_wire w' = w_wire w →
         ps_stats (w_stack w') = stats_add (ps_stats (w_stack w)) s 1 → Q () w') →
  wp (stat_inc s) Q w.
Proof. intros H. apply wp_modify. by apply H. Qed.

Lemma wp_get_dev d nd (Q : netdev → world → Prop) w :
  dev_at w d nd → (∀ nd', clear_st nd' = clear_st nd → Q nd' w) → wp (get_dev d) Q w.
Proof.
  intros (nd' & Hd & E)%dev_at_lookup HQ. apply wp_bind, wp_gets.
  eapply wp_lift; [by rewrite Hd|]. auto.
Qed.

Lemma wp_upd_dev_st d nd f (Q : () → world → Prop) w :
  dev_at w d nd →
  (∀ w', erase_tx w = erase_tx w' → w_wire w' = w_wire w →
         ps_stats (w_stack w') = ps_stats (w_stack w) → Q () w') →
  wp (upd_dev d (set_field nd_st f)) Q w.
Proof.
  intros Hd HQ. apply wp_bind. eapply wp_get_dev; [done|]. intros nd' _.
  apply wp_modify. apply HQ; try done. unfold erase_tx, set_field. cbn.
  do 2 f_equal. apply list_eq. intros i. rewrite !list_lookup_fmap.
  destruct (decide (i = d)) as [->|Hne].
  - rewrite list_lookup_alter_eq. destruct (_ !! d); done.
  - by rewrite list_lookup_alter_ne.
Qed.

Lemma wp_netdev_tx d nd p (Q : Z → world → Prop) w :
  dev_at w d nd →
  (∀ w' rc, erase_tx w = erase_tx w' → w_wire w' = w_wire w ++ [(d, pkt_bytes p)] →
            ps_stats (w_stack w') = ps_stats (w_stack w) → rc = nd_tx nd (pkt_bytes p) → Q rc w') →
  wp (netdev_tx d p) Q w.
Proof.
  intros Hd HQ. apply wp_bind. eapply wp_get_dev; [done|]. intros nd' E'.
  apply wp_bind, wp_modify. set (w1 := w <| w_wire ::= _ |>).
  assert (dev_at w1 d nd) as Hd1 by done.
  assert (nd_tx nd' = nd_tx nd) as -> by apply clear_st_proj, E'.
  apply wp_bind. destruct (_ =? 0); eapply wp_upd_dev_st; try exact Hd1;
    intros w2 E2 W2 S2; apply wp_ret, HQ; try done; by rewrite <- E2.
Qed.

Lemma eth_image_ok dst src ty : bytes_ok dst → bytes_ok src → bytes_ok (eth_image (mk_eth dst src ty)).
Proof. intros. unfold eth_image. rewrite !Forall_app. auto using store16_ok. Qed.

Lemma length_eth_image dst src ty :
  length dst = 6%nat → length src = 6%nat → zlen (eth_image (mk_eth dst src ty)) = ETH_HDR_LEN.
Proof. intros H1 H2. unfold eth_image. rewrite !length_app. cbn. rewrite H1, H2. done. Qed.

(** A device whose address is six bytes. *)
Definition mac_ok (m : bytes) : Prop := length m = 6%nat ∧ bytes_ok m.

Lemma ETH_BCAST_ok : mac_ok ETH_BCAST.
Proof. split; [done|]. apply Forall_replicate. wrap_lia. Qed.

(** The frame [eth_output] puts on the wire. *)
Definition eth_frame (dst src : bytes) (ethertype : Z) (payload : bytes) : bytes :=
  eth_image (mk_eth dst src (pf_htons ethertype)) ++ payload.

(** [eth_output] of a packet with room for the header emits exactly one
    frame and changes nothing but counters. *)
Lemma wp_eth_output d nd dst ethertype p (Q : Z → world → Prop) w :
  dev_at w d nd → mac_ok (nd_mac nd) → mac_ok dst → pkt_wf p → ETH_HDR_LEN ≤ p_data p →
  (∀ w' rc, erase_tx w = erase_tx w' →
     w_wire w' = w_wire w ++ [(d, eth_frame dst (nd_mac nd) ethertype (pkt_bytes p))] → Q rc w') →
  wp (eth_output d dst ethertype p) Q w.
Proof.
  intros Hd [Hm1 Hm2] [Hd1 Hd2] Hwf Hroom HQ. apply wp_bind. eapply wp_get_dev; [done|].
  intros nd' E'. apply clear_st_proj in E' as (-> & _). apply wp_bind.
  destruct (pkt_prepend_ok p (eth_image (mk_eth dst (nd_mac nd) (pf_htons ethertype))))
    as (p' & Hp' & Hwf' & Hb' & _); [done|by apply eth_image_ok| |].
  { rewrite length_eth_image by done. done. }
  eapply wp_lift; [exact Hp'|]. apply wp_bind, wp_stat_inc. intros w1 E1 W1 _.
  eapply wp_netdev_tx.
  { eapply dev_at_erase; [|done]. by apply erase_ip_icmp, erase_arp_ip, erase_tx_arp. }
  intros w2 rc E2 W2 _ _. apply HQ; [congruence|]. by rewrite W2, W1, Hb'.
Qed.
