(* ===== verification/Arp.v ===== *)
(** * ARP

    Models [arp/arp.c]: the cache of 64 entries, each free, pending with up to
    eight parked packets, or resolved; request and reply generation; the
    RFC 826 input handler; resolution for the IP layer; and the timer. The
    operations are written on the whole stack, as in the source, and an entry
    pointer is its index in [stack->arp.entries]. *)

From S2P Require Import Prelude Pf Pkt Fib Headers Stats Stack Link.
Import Pkt Stats.

(** ** Operations *)

Definition arp_init : arp_cache := replicate ARP_CACHE_SIZE zero_arp_entry.

(** The entry that answers for [ip]. *)
Definition arp_match (ip : Z) (e : arp_entry) : Prop := ae_state e ≠ ARP_FREE ∧ ae_ip e = ip.
#[global] Instance arp_match_dec ip e : Decision (arp_match ip e).
Proof. unfold arp_match. apply _. Defined.

Definition arp_lookup (c : arp_cache) (ip : Z) : option nat := fst <$> list_find (arp_match ip) c.

(** Reading and writing through an entry pointer. *)
Definition get_arp (i : nat) : PF arp_entry :=
  c ← get_stack ps_arp; lift (in_bounds (c !! i)).
Definition upd_arp (i : nat) (f : arp_entry → arp_entry) : PF () :=
  _ ← get_arp i; upd_stack (set_field ps_arp (alter f i)).

(** The scan of [arp_alloc_entry] from index [i]: [inl] the first free entry,
    or [inr] the entry closest to expiry, given the best so far. *)
Fixpoint arp_scan (c : arp_cache) (i : nat) (victim : nat) (vdeadline : Z) : nat + nat :=
  match c with
  | [] => inr victim
  | e :: c =>
      if decide (ae_state e = ARP_FREE) then inl i
      else if ae_deadline_ms e <? vdeadline then arp_scan c (S i) i (ae_deadline_ms e)
      else arp_scan c (S i) victim vdeadline
  end.

Definition arp_alloc_entry : PF nat :=
  c ← get_stack ps_arp;
  e0 ← lift (in_bounds (c !! 0%nat));
  match arp_scan c 0 0 (ae_deadline_ms e0) with
  | inl i => mret i
  | inr victim =>
      stat_inc arp_cache_evictions;;
      upd_arp victim (fun _ => zero_arp_entry);;
      mret victim
  end.

(** The packets parked behind a resolution, sent oldest first. *)
Definition arp_flush (dev : nat) (mac : bytes) (q : list pkt) : PF () :=
  for_each q (fun p => _ ← eth_output dev mac ETH_TYPE_IP4 p; mret ()).

Definition arp_entry_resolve (i : nat) (dev : nat) (mac : bytes) (now : Z) : PF () :=
  e ← get_arp i;
  upd_arp i (fun e => e <| ae_state := ARP_RESOLVED |> <| ae_mac := mac |> <| ae_dev := Some dev |>
                        <| ae_deadline_ms := u64 (now + ARP_CACHE_TTL_MS) |> <| ae_tries := 0 |>);;
  when (bool_decide (ae_state e = ARP_PENDING))
    (upd_arp i (set_field ae_waitq (fun _ => []));; arp_flush dev mac (ae_waitq e)).

Definition arp_request_hdr (nd : netdev) (target_ip : Z) : arp_hdr :=
  mk_arp (pf_htons 1) (pf_htons ETH_TYPE_IP4) 6 4 (pf_htons ARP_OP_REQUEST)
    (nd_mac nd) (pf_put_be32 (nd_ip nd)) (replicate 6 0) (pf_put_be32 target_ip).

Definition arp_send_request (dev : nat) (target_ip : Z) : PF () :=
  p ← lift (pkt_reserve pkt_alloc PKT_TX_HEADROOM);
  nd ← get_dev dev;
  p ← lift (pkt_append p (arp_image (arp_request_hdr nd target_ip)));
  stat_inc arp_requests_tx;;
  _ ← eth_output dev ETH_BCAST ETH_TYPE_ARP p;
  mret ().

Definition arp_reply_hdr (nd : netdev) (req : arp_hdr) : arp_hdr :=
  mk_arp (pf_htons 1) (pf_htons ETH_TYPE_IP4) 6 4 (pf_htons ARP_OP_REPLY)
    (nd_mac nd) (pf_put_be32 (nd_ip nd)) (ah_sha req) (ah_spa req).

Definition arp_send_reply (dev : nat) (req : arp_hdr) : PF () :=
  p ← lift (pkt_reserve pkt_alloc PKT_TX_HEADROOM);
  nd ← get_dev dev;
  p ← lift (pkt_append p (arp_image (arp_reply_hdr nd req)));
  stat_inc arp_replies_tx;;
  _ ← eth_output dev (ah_sha req) ETH_TYPE_ARP p;
  mret ().

(** [pf_get_be32] of a four-byte array. *)
Definition get_be32 (b : bytes) : Z :=
  match b with [b0; b1; b2; b3] => pf_get_be32 b0 b1 b2 b3 | _ => 0 end.

(** RFC 826 merge: update any existing mapping, create one only when we are
    the target; [spa = 0] is never learnt. *)
Definition arp_merge (dev : nat) (spa : Z) (sha : bytes) (for_us : bool) (now : Z) : PF () :=
  when (negb (spa =? 0))
    (c ← get_stack ps_arp;
     match arp_lookup c spa with
     | Some i => arp_entry_resolve i dev sha now
     | None =>
         when for_us
           (i ← arp_alloc_entry;
            upd_arp i (set_field ae_ip (fun _ => spa));;
            arp_entry_resolve i dev sha now)
     end).

Definition arp_input (dev : nat) (p : pkt) : PF () :=
  stat_inc arp_rx;;
  if p_len p <? ARP_HDR_LEN then stat_inc arp_rx_malformed
  else
    ah ← lift (read_arp (pkt_bytes p));
    if negb (pf_ntohs (ah_htype ah) =? 1) || negb (pf_ntohs (ah_ptype ah) =? ETH_TYPE_IP4)
       || negb (ah_hlen ah =? 6) || negb (ah_plen ah =? 4)
    then stat_inc arp_rx_malformed
    else
      let op := pf_ntohs (ah_op ah) in
      if negb (op =? ARP_OP_REQUEST) && negb (op =? ARP_OP_REPLY)
      then stat_inc arp_rx_malformed
      else
        let spa := get_be32 (ah_spa ah) in
        let tpa := get_be32 (ah_tpa ah) in
        now ← pf_now_ms;
        nd ← get_dev dev;
        let for_us := negb (nd_ip nd =? 0) && (tpa =? nd_ip nd) in
        arp_merge dev spa (ah_sha ah) for_us now;;
        if for_us && (op =? ARP_OP_REQUEST) then
          stat_inc arp_req_for_us;; arp_send_reply dev ah
        else when (op =? ARP_OP_REPLY) (stat_inc arp_replies_rx).

(** Parking [p] behind entry [i]; a full queue drops its oldest packet. *)
Definition arp_park (i : nat) (p : pkt) : PF () :=
  e ← get_arp i;
  when (ARP_WAITQ_MAX <=? zlen (ae_waitq e))
    (upd_arp i (set_field ae_waitq tail);; stat_inc arp_waitq_drops);;
  upd_arp i (set_field ae_waitq (fun q => q ++ [p]));;
  stat_inc arp_pkts_queued.

(** A new pending entry for [next_hop], with its first request sent. *)
Definition arp_start (dev : nat) (next_hop : Z) : PF nat :=
  i ← arp_alloc_entry;
  now ← pf_now_ms;
  upd_arp i (fun e => e <| ae_state := ARP_PENDING |> <| ae_ip := next_hop |>
                        <| ae_dev := Some dev |> <| ae_tries := 1 |>
                        <| ae_deadline_ms := u64 (now + ARP_PENDING_RETRY_MS) |>);;
  arp_send_request dev next_hop;;
  mret i.

(** [Some mac] is the return value 0 with [mac_out] filled, [None] is 1. *)
Definition arp_resolve (dev : nat) (next_hop : Z) (p : option pkt) : PF (option bytes) :=
  c ← get_stack ps_arp;
  let e := arp_lookup c next_hop in
  hit ← match e with
        | Some i => e ← get_arp i;
                    mret (if decide (ae_state e = ARP_RESOLVED) then Some (ae_mac e) else None)
        | None => mret None
        end;
  match hit with
  | Some mac => mret (Some mac)
  | None =>
      i ← match e with Some i => mret i | None => arp_start dev next_hop end;
      match p with Some p => arp_park i p | None => mret () end;;
      mret None
  end.

Definition arp_tick_entry (now_ms : Z) (i : nat) : PF () :=
  e ← get_arp i;
  if bool_decide (ae_state e = ARP_FREE) || (now_ms <? ae_deadline_ms e) then mret ()
  else if decide (ae_state e = ARP_RESOLVED) then
    upd_arp i (set_field ae_state (fun _ => ARP_FREE));;
    stat_inc arp_cache_expired
  else if ARP_PENDING_MAX_TRIES <=? ae_tries e then
    stat_inc arp_resolve_fails;;
    stat_add arp_waitq_drops (zlen (ae_waitq e));;
    upd_arp i (fun e => e <| ae_waitq := [] |> <| ae_state := ARP_FREE |>)
  else
    upd_arp i (fun e => e <| ae_tries := u8 (ae_tries e + 1) |>
                          <| ae_deadline_ms := u64 (now_ms + ARP_PENDING_RETRY_MS) |>);;
    d ← lift (in_bounds (ae_dev e));
    arp_send_request d (ae_ip e).

Definition arp_tick (now_ms : Z) : PF () := for_each (seq 0 ARP_CACHE_SIZE) (arp_tick_entry now_ms).

(** ** The cache invariant *)

(** A packet the link layer can prepend its header to. *)
Definition tx_ready (p : pkt) : Prop := pkt_wf p ∧ ETH_HDR_LEN ≤ p_data p.

Record arp_entry_wf (ndevs : nat) (e : arp_entry) : Prop := {
  aw_mac : mac_ok (ae_mac e);
  aw_idle : ae_state e ≠ ARP_PENDING → ae_waitq e = [];
  aw_waitq_len : zlen (ae_waitq e) ≤ ARP_WAITQ_MAX;
  aw_waitq : Forall tx_ready (ae_waitq e);
  aw_dev : ae_state e ≠ ARP_FREE → ∃ d, ae_dev e = Some d ∧ (d < ndevs)%nat;
  aw_tries : ae_state e = ARP_PENDING → 1 ≤ ae_tries e ≤ ARP_PENDING_MAX_TRIES;
}.

(** No two live entries answer for the same address. *)
Definition arp_unique (c : arp_cache) : Prop :=
  ∀ i j e1 e2 ip, c !! i = Some e1 → c !! j = Some e2 → arp_match ip e1 → arp_match ip e2 → i = j.

Record arp_wf (ndevs : nat) (c : arp_cache) : Prop := {
  aw_len : length c = ARP_CACHE_SIZE;
  aw_entries : Forall (arp_entry_wf ndevs) c;
  aw_unique : arp_unique c;
}.

(** A configured device; an MTU of 28 leaves room for one 8-byte chunk. *)
Record dev_wf (nd : netdev) : Prop := {
  dw_mac : mac_ok (nd_mac nd);
  dw_ip : u32_ok (nd_ip nd);
  dw_mask : u32_ok (nd_mask nd);
  dw_mtu : 28 ≤ nd_mtu nd < 65536;
}.

Abbreviation devs w := (ps_devs (w_stack w)).
Abbreviation arpc w := (ps_arp (w_stack w)).

Record link_wf (w : world) : Prop := {
  lw_devs : Forall dev_wf (devs w);
  lw_arp : arp_wf (length (devs w)) (arpc w);
}.

(** *** Frame lemmas *)

Lemma erase_arp_devs w w' :
  erase_arp w = erase_arp w' → clear_st <$> devs w = clear_st <$> devs w'.
Proof. intros (_&_&_&_&_&_&E)%erase_arp_ip%erase_ip_icmp%erase_icmp_proj. exact E. Qed.

Lemma dev_wf_clear nd : dev_wf (clear_st nd) ↔ dev_wf nd.
Proof. split; intros []; split; done. Qed.

Lemma devs_wf_clear l l' : clear_st <$> l = clear_st <$> l' → Forall dev_wf l → Forall dev_wf l'.
Proof.
  intros E H. rewrite Forall_lookup in *. intros i nd' Hi.
  assert ((clear_st <$> l) !! i = Some (clear_st nd')) as Hc
    by (rewrite E, list_lookup_fmap, Hi; done).
  rewrite list_lookup_fmap in Hc. apply fmap_Some in Hc as (nd & Hnd & Ec).
  apply dev_wf_clear. rewrite Ec. apply dev_wf_clear. eauto.
Qed.

(** Rebuilding [link_wf] after a step that keeps the configuration. *)
Lemma link_wf_step w w' :
  link_wf w → erase_arp w = erase_arp w' → arp_wf (length (devs w)) (arpc w') → link_wf w'.
Proof.
  intros [Hd Ha] E%erase_arp_devs Ha'. split; [by eapply devs_wf_clear|].
  by rewrite <- (length_fmap clear_st), <- E, length_fmap.
Qed.

Lemma link_wf_tx w w' : link_wf w → erase_tx w = erase_tx w' → link_wf w'.
Proof.
  intros Hw E. eapply link_wf_step; [done|by apply erase_tx_arp|].
  rewrite <- (erase_tx_arp_eq _ _ E). apply Hw.
Qed.

Lemma dev_at_wf w d nd : link_wf w → dev_at w d nd → dev_wf nd.
Proof.
  intros Hw (nd' & Hd & E)%dev_at_lookup. apply dev_wf_clear. rewrite <- E. apply dev_wf_clear.
  by eapply Forall_lookup_1; [apply Hw|].
Qed.

Lemma dev_at_tx w w' d nd : erase_tx w = erase_tx w' → dev_at w d nd → dev_at w' d nd.
Proof. intros E. by apply dev_at_erase, erase_ip_icmp, erase_arp_ip, erase_tx_arp. Qed.

Lemma dev_at_arp w w' d nd : erase_arp w = erase_arp w' → dev_at w d nd → dev_at w' d nd.
Proof. intros E. by apply dev_at_erase, erase_ip_icmp, erase_arp_ip. Qed.

Lemma dev_at_lt w d nd : dev_at w d nd → (d < length (devs w))%nat.
Proof. intros (nd' & Hd & _)%dev_at_lookup. by eapply lookup_lt_Some. Qed.

Lemma dev_at_intro w d : (d < length (devs w))%nat → ∃ nd, dev_at w d nd.
Proof.
  intros [nd Hd]%lookup_lt_is_Some. exists nd. unfold dev_at. by rewrite list_lookup_fmap, Hd.
Qed.

(** *** The cache as a list *)

Lemma arp_lookup_Some c ip i :
  arp_lookup c ip = Some i → ∃ e, c !! i = Some e ∧ arp_match ip e.
Proof.
  unfold arp_lookup. intros ([j e] & H & ->)%fmap_Some. apply list_find_Some in H as (? & ? & _).
  eauto.
Qed.

Lemma arp_lookup_None c ip : arp_lookup c ip = None ↔ Forall (fun e => ¬ arp_match ip e) c.
Proof. unfold arp_lookup. by rewrite fmap_None, list_find_None. Qed.

(** With unique addresses the lookup finds exactly the matching entry. *)
Lemma arp_lookup_unique c ip i e :
  arp_unique c → c !! i = Some e → arp_match ip e → arp_lookup c ip = Some i.
Proof.
  intros Hu Hi Hm. destruct (arp_lookup c ip) as [j|] eqn:Hj.
  - apply arp_lookup_Some in Hj as (e' & Hj & Hm'). f_equal. by eapply Hu.
  - apply arp_lookup_None in Hj. by eapply Forall_lookup_1 in Hi; [|exact Hj].
Qed.

(** Writing an entry preserves the invariant if no other live entry has its
    address. *)
Lemma arp_wf_insert n c i e' :
  arp_wf n c → arp_entry_wf n e' →
  (∀ j e ip, j ≠ i → c !! j = Some e → arp_match ip e → ¬ arp_match ip e') →
  arp_wf n (<[i:=e']> c).
Proof.
  intros [Hl He Hu] He' Hx. split.
  - by rewrite length_insert.
  - by apply Forall_insert.
  - intros j k e1 e2 ip Hj Hk Hm1 Hm2.
    apply list_lookup_insert_Some in Hj as [(<- & <- & _)|(Hj & Hj')];
    apply list_lookup_insert_Some in Hk as [(<- & <- & _)|(Hk & Hk')]; try done.
    + exfalso. eapply (Hx k); eauto.
    + exfalso. eapply (Hx j); eauto.
    + by eapply Hu.
Qed.

(** Updating an entry in place, keeping its address or freeing it. *)
Lemma arp_wf_update n c i e e' :
  arp_wf n c → c !! i = Some e → arp_entry_wf n e' →
  (∀ ip, arp_match ip e' → arp_match ip e) →
  arp_wf n (<[i:=e']> c).
Proof.
  intros Hc Hi He' Hsub. apply arp_wf_insert; [done..|].
  intros j e2 ip Hj Hj2 Hm Hm'. apply Hj. eapply (aw_unique _ _ Hc); eauto.
Qed.

(** Writing an entry for an address nobody has. *)
Lemma arp_wf_new n c i e' :
  arp_wf n c → arp_entry_wf n e' → arp_lookup c (ae_ip e') = None → arp_wf n (<[i:=e']> c).
Proof.
  intros Hc He' Hn. apply arp_wf_insert; [done..|].
  intros j e ip _ Hj Hm [_ <-]. apply arp_lookup_None in Hn.
  by eapply Forall_lookup_1 in Hj; [|exact Hn].
Qed.

Lemma zero_arp_entry_wf n : arp_entry_wf n zero_arp_entry.
Proof.
  split; try done. split; [done|]. apply Forall_replicate. wrap_lia.
Qed.

(** The cache [arp_init] builds. *)
Lemma arp_init_wf n : arp_wf n arp_init.
Proof.
  split; [apply length_replicate|apply Forall_replicate, zero_arp_entry_wf|].
  intros i j e1 e2 ip H1 _ [Hm _] _. by apply lookup_replicate in H1 as [-> _].
Qed.

(** *** Specifications of the operations *)

Lemma wp_get_arp i e (Q : arp_entry → world → Prop) w :
  arpc w !! i = Some e → Q e w → wp (get_arp i) Q w.
Proof. intros Hi HQ. unfold get_arp. wp_steps. eapply wp_lift; [by rewrite Hi|done]. Qed.

Lemma wp_upd_arp i e f (Q : () → world → Prop) w :
  arpc w !! i = Some e →
  (∀ w', erase_arp w = erase_arp w' → w_wire w' = w_wire w → arpc w' = <[i:=f e]> (arpc w) →
         Q () w') →
  wp (upd_arp i f) Q w.
Proof.
  intros Hi HQ. unfold upd_arp. wp_step. eapply wp_get_arp; [done|].
  apply wp_modify. apply HQ; try done. by apply alter_insert.
Qed.

(** What [arp_alloc_entry] chooses: the first free entry, or, in a full
    cache, an entry with the earliest deadline, which is cleared. *)
Inductive arp_alloc (c : arp_cache) : nat → arp_cache → Prop :=
  | alloc_free i e :
      c !! i = Some e → ae_state e = ARP_FREE →
      (∀ j e', (j < i)%nat → c !! j = Some e' → ae_state e' ≠ ARP_FREE) → arp_alloc c i c
  | alloc_evict i e :
      c !! i = Some e → Forall (fun e' => ae_state e' ≠ ARP_FREE) c →
      Forall (fun e' => ae_deadline_ms e ≤ ae_deadline_ms e') c →
      arp_alloc c i (<[i:=zero_arp_entry]> c).

Definition scan_post (c : arp_cache) (r : nat + nat) : Prop :=
  match r with
  | inl i => ∃ e, c !! i = Some e ∧ ae_state e = ARP_FREE ∧
                  ∀ j e', (j < i)%nat → c !! j = Some e' → ae_state e' ≠ ARP_FREE
  | inr v => ∃ e, c !! v = Some e ∧ Forall (fun e' => ae_state e' ≠ ARP_FREE) c ∧
                  Forall (fun e' => ae_deadline_ms e ≤ ae_deadline_ms e') c
  end.

Lemma arp_scan_post seen c v e :
  (seen ++ c) !! v = Some e → Forall (fun e' => ae_state e' ≠ ARP_FREE) seen →
  Forall (fun e' => ae_deadline_ms e ≤ ae_deadline_ms e') seen →
  scan_post (seen ++ c) (arp_scan c (length seen) v (ae_deadline_ms e)).
Proof.
  revert seen v e. induction c as [|x c IH]; intros seen v e Hv Hs Hd; cbn [arp_scan].
  - cbn. rewrite app_nil_r in *. eauto.
  - assert ((seen ++ x :: c) !! length seen = Some x) as Hx by by apply list_lookup_middle.
    destruct (decide _) as [Hf|Hf].
    + exists x. split_and!; [done..|]. intros j e' Hj He'.
      rewrite lookup_app_l in He' by done. by eapply Forall_lookup_1 in He'; [|exact Hs].
    + replace (S (length seen)) with (length (seen ++ [x])) by (rewrite length_app; cbn; lia).
      replace (seen ++ x :: c) with ((seen ++ [x]) ++ c) in * by by rewrite <- app_assoc.
      destruct (Z.ltb_spec (ae_deadline_ms x) (ae_deadline_ms e)).
      * apply IH; [done|by apply Forall_app_2; [|constructor]|].
        apply Forall_app_2; [|constructor; [lia|done]].
        eapply Forall_impl; [exact Hd|]. cbn. lia.
      * apply IH; [done| |]; (apply Forall_app_2; [|constructor]); done.
Qed.

Lemma wp_arp_alloc_entry (Q : nat → world → Prop) w :
  link_wf w →
  (∀ w' i, erase_arp w = erase_arp w' → w_wire w' = w_wire w → arp_alloc (arpc w) i (arpc w') →
           Q i w') →
  wp arp_alloc_entry Q w.
Proof.
  intros Hw HQ. unfold arp_alloc_entry. wp_steps.
  assert (∃ e0, arpc w !! 0%nat = Some e0) as [e0 He0].
  { apply lookup_lt_is_Some. rewrite (aw_len _ _ (lw_arp _ Hw)). wrap_lia. }
  eapply wp_lift; [by rewrite He0|].
  pose proof (arp_scan_post [] (arpc w) 0 e0 He0 ltac:(done) ltac:(done)) as Hp. cbn in Hp.
  destruct (arp_scan _ _ _ _) as [i|v]; cbn in Hp.
  - destruct Hp as (e & ? & ? & ?). wp_steps. apply HQ; eauto using arp_alloc.
  - destruct Hp as (e & Hv & ? & ?). wp_step. apply wp_stat_inc. intros w1 E1 W1 _. wp_step.
    pose proof (erase_tx_arp_eq _ _ E1) as A1.
    eapply wp_upd_arp; [by rewrite <- A1|]. intros w2 E2 W2 A2. wp_steps.
    apply HQ; [frame|congruence|]. rewrite A2, <- A1. eauto using arp_alloc.
Qed.

Lemma arp_alloc_wf n c i c' : arp_wf n c → arp_alloc c i c' → arp_wf n c'.
Proof.
  intros Hc [|j e Hj _ _]; [done|]. eapply arp_wf_update; [done..| |].
  - apply zero_arp_entry_wf.
  - by intros ip [].
Qed.

(** The chosen entry is free in the resulting cache. *)
Lemma arp_alloc_slot c i c' :
  arp_alloc c i c' → ∃ e, c' !! i = Some e ∧ ae_state e = ARP_FREE.
Proof.
  intros [|j e Hj _ _]; [eauto|]. exists zero_arp_entry. split; [|done].
  apply list_lookup_insert_eq. by eapply lookup_lt_Some.
Qed.

(** Allocation makes no address appear. *)
Lemma arp_alloc_lookup_None c i c' ip :
  arp_alloc c i c' → arp_lookup c ip = None → arp_lookup c' ip = None.
Proof.
  intros [|j e Hj _ _]; [done|]. rewrite !arp_lookup_None. intros H.
  apply Forall_insert; [done|]. by intros [].
Qed.

(** The frames of a flushed queue. *)
Definition flush_frames (dev : nat) (mac src : bytes) (q : list pkt) : list (nat * bytes) :=
  (fun p => (dev, eth_frame mac src ETH_TYPE_IP4 (pkt_bytes p))) <$> q.

Lemma wp_arp_flush dev nd mac q (Q : () → world → Prop) w :
  dev_at w dev nd → mac_ok (nd_mac nd) → mac_ok mac → Forall tx_ready q →
  (∀ w', erase_tx w = erase_tx w' → w_wire w' = w_wire w ++ flush_frames dev mac (nd_mac nd) q →
         Q () w') →
  wp (arp_flush dev mac q) Q w.
Proof.
  intros Hd Hm Hmac Hq. revert w Hd. unfold arp_flush.
  induction Hq as [|p q [Hp Hr] Hq IH]; intros w Hd HQ; cbn [for_each].
  - wp_steps. apply HQ; [done|]. by rewrite app_nil_r.
  - wp_steps. eapply wp_eth_output; [done..|]. intros w1 _ E1 W1. wp_steps.
    apply IH; [by eapply dev_at_tx|]. intros w2 E2 W2. apply HQ; [congruence|].
    by rewrite W2, W1, <- app_assoc.
Qed.

(** The frames [arp_send_request] and [arp_send_reply] emit. *)
Definition arp_frame (nd : netdev) (dst : bytes) (h : arp_hdr) : bytes :=
  eth_frame dst (nd_mac nd) ETH_TYPE_ARP (arp_image h).

Lemma put_be32_ok v : bytes_ok (pf_put_be32 v).
Proof. unfold pf_put_be32. solve_bytes_ok. Qed.

Lemma arp_image_ok h :
  byte_ok (ah_hlen h) → byte_ok (ah_plen h) → mac_ok (ah_sha h) → mac_ok (ah_tha h) →
  length (ah_spa h) = 4%nat → bytes_ok (ah_spa h) → length (ah_tpa h) = 4%nat →
  bytes_ok (ah_tpa h) → bytes_ok (arp_image h) ∧ zlen (arp_image h) = ARP_HDR_LEN.
Proof.
  intros ? ? [L1 ?] [L2 ?] L3 ? L4 ?. unfold arp_image. split.
  - rewrite !Forall_app. split_and!; auto using store16_ok, store32_ok.
  - rewrite !length_app, L1, L2, L3, L4. done.
Qed.

(** Building an ARP packet and handing it to the Ethernet layer. *)
Lemma wp_arp_emit dev nd dst h s (Q : () → world → Prop) w :
  dev_at w dev nd → mac_ok (nd_mac nd) → mac_ok dst →
  bytes_ok (arp_image h) → zlen (arp_image h) = ARP_HDR_LEN →
  (∀ w', erase_tx w = erase_tx w' → w_wire w' = w_wire w ++ [(dev, arp_frame nd dst h)] →
         Q () w') →
  wp (p ← lift (pkt_append tx_pkt (arp_image h)); stat_inc s;;
      _ ← eth_output dev dst ETH_TYPE_ARP p; mret ()) Q w.
Proof.
  intros Hd Hm Hdst Hok Hlen HQ. wp_step.
  destruct (pkt_append_ok tx_pkt (arp_image h)) as (p & Hp & Hwf & Hb & Hdat & _);
    [apply tx_pkt_wf|done|rewrite Hlen; done|].
  eapply wp_lift; [exact Hp|]. wp_step. apply wp_stat_inc. intros w1 E1 W1 _. wp_step.
  eapply wp_eth_output; [by eapply dev_at_tx|done..| |].
  { rewrite Hdat. done. }
  intros w2 _ E2 W2. wp_steps. apply HQ; [congruence|]. by rewrite W2, W1, Hb.
Qed.

Lemma wp_arp_send_request dev nd target (Q : () → world → Prop) w :
  link_wf w → dev_at w dev nd →
  (∀ w', erase_tx w = erase_tx w' →
         w_wire w' = w_wire w ++ [(dev, arp_frame nd ETH_BCAST (arp_request_hdr nd target))] →
         Q () w') →
  wp (arp_send_request dev target) Q w.
Proof.
  intros Hw Hd HQ. pose proof (dev_at_wf _ _ _ Hw Hd) as [Hm _ _ _].
  unfold arp_send_request. wp_step. eapply wp_lift; [apply pkt_reserve_tx|]. wp_step.
  eapply wp_get_dev; [done|]. intros nd' (E1 & E2 & _)%clear_st_proj.
  replace (arp_request_hdr nd' target) with (arp_request_hdr nd target)
    by (unfold arp_request_hdr; by rewrite E1, E2).
  destruct (arp_image_ok (arp_request_hdr nd target)); try done; try apply put_be32_ok.
  { split; [done|]. apply Forall_replicate. wrap_lia. }
  eapply wp_arp_emit; eauto using ETH_BCAST_ok.
Qed.

Lemma wp_arp_send_reply dev nd req (Q : () → world → Prop) w :
  link_wf w → dev_at w dev nd → mac_ok (ah_sha req) → length (ah_spa req) = 4%nat →
  bytes_ok (ah_spa req) →
  (∀ w', erase_tx w = erase_tx w' →
         w_wire w' = w_wire w ++ [(dev, arp_frame nd (ah_sha req) (arp_reply_hdr nd req))] →
         Q () w') →
  wp (arp_send_reply dev req) Q w.
Proof.
  intros Hw Hd Hsha Hl Hspa HQ. pose proof (dev_at_wf _ _ _ Hw Hd) as [Hm _ _ _].
  unfold arp_send_reply. wp_step. eapply wp_lift; [apply pkt_reserve_tx|]. wp_step.
  eapply wp_get_dev; [done|]. intros nd' (E1 & E2 & _)%clear_st_proj.
  replace (arp_reply_hdr nd' req) with (arp_reply_hdr nd req)
    by (unfold arp_reply_hdr; by rewrite E1, E2).
  destruct (arp_image_ok (arp_reply_hdr nd req)); try done; try apply put_be32_ok.
  eapply wp_arp_emit; eauto.
Qed.

(** The entry after a resolution, and after parking a packet. *)
Definition arp_resolved (e : arp_entry) (dev : nat) (mac : bytes) (now : Z) : arp_entry :=
  mk_arp_entry ARP_RESOLVED (ae_ip e) mac 0 (Some dev) (u64 (now + ARP_CACHE_TTL_MS)) [].

Definition park (q : list pkt) (p : pkt) : list pkt :=
  (if ARP_WAITQ_MAX <=? zlen q then tail q else q) ++ [p].

Definition arp_pending (e : arp_entry) (ip : Z) (dev : nat) (now : Z) : arp_entry :=
  mk_arp_entry ARP_PENDING ip (ae_mac e) 1 (Some dev) (u64 (now + ARP_PENDING_RETRY_MS))
    (ae_waitq e).

Lemma insert_twice {A} (l : list A) i x y : <[i:=y]> (<[i:=x]> l) = <[i:=y]> l.
Proof. apply list_insert_insert_eq. Qed.

Lemma lookup_inserted {A} (l : list A) i x y : l !! i = Some x → <[i:=y]> l !! i = Some y.
Proof. intros. apply list_lookup_insert_eq. by eapply lookup_lt_Some. Qed.

Lemma wp_arp_entry_resolve i e dev nd mac now n (Q : () → world → Prop) w :
  arpc w !! i = Some e → arp_entry_wf n e → dev_at w dev nd → mac_ok (nd_mac nd) → mac_ok mac →
  (∀ w', erase_arp w = erase_arp w' → arpc w' = <[i:=arp_resolved e dev mac now]> (arpc w) →
         w_wire w' = w_wire w ++ flush_frames dev mac (nd_mac nd) (ae_waitq e) → Q () w') →
  wp (arp_entry_resolve i dev mac now) Q w.
Proof.
  intros Hi He Hd Hm Hmac HQ. unfold arp_entry_resolve. wp_step. eapply wp_get_arp; [done|].
  wp_step. eapply wp_upd_arp; [done|]. intros w1 E1 W1 A1.
  apply wp_when; intros Hp.
  - wp_step. eapply wp_upd_arp; [rewrite A1; by eapply lookup_inserted|]. intros w2 E2 W2 A2.
    rewrite A1, insert_twice in A2. eapply wp_arp_flush; try done; [|apply He|].
    { eapply dev_at_arp; [|done]. frame. }
    intros w3 E3 W3. apply HQ; [frame| |congruence].
    by rewrite <- (erase_tx_arp_eq _ _ E3), A2.
  - apply bool_decide_eq_false in Hp. pose proof (aw_idle _ _ He Hp) as Hq. apply HQ; [done| |].
    + rewrite A1. f_equal. destruct e; cbn in *. by subst.
    + by rewrite Hq, W1, app_nil_r.
Qed.

Lemma wp_arp_park i e p (Q : () → world → Prop) w :
  arpc w !! i = Some e →
  (∀ w', erase_arp w = erase_arp w' → w_wire w' = w_wire w →
         arpc w' = <[i:=e <| ae_waitq ::= fun q => park q p |> ]> (arpc w) → Q () w') →
  wp (arp_park i p) Q w.
Proof.
  intros Hi HQ. unfold arp_park. wp_step. eapply wp_get_arp; [done|]. wp_step.
  apply wp_when; intros Hfull.
  - wp_step. eapply wp_upd_arp; [done|]. intros w1 E1 W1 A1.
    apply wp_stat_inc. intros w2 E2 W2 _. pose proof (erase_tx_arp_eq _ _ E2) as A2. wp_step.
    eapply wp_upd_arp; [rewrite <- A2, A1; by eapply lookup_inserted|]. intros w3 E3 W3 A3.
    apply wp_stat_inc. intros w4 E4 W4 _. pose proof (erase_tx_arp_eq _ _ E4) as A4.
    apply HQ; [frame|congruence|]. rewrite <- A4, A3, <- A2, A1, insert_twice.
    f_equal. unfold set_field, park. cbn. by rewrite Hfull.
  - wp_step. eapply wp_upd_arp; [done|]. intros w3 E3 W3 A3.
    apply wp_stat_inc. intros w4 E4 W4 _. pose proof (erase_tx_arp_eq _ _ E4) as A4.
    apply HQ; [frame|congruence|]. rewrite <- A4, A3.
    f_equal. unfold set_field, park. cbn. by rewrite Hfull.
Qed.

(** A full queue keeps its newest eight packets. *)
Lemma park_newest q p :
  zlen q ≤ ARP_WAITQ_MAX →
  park q p = drop (length (q ++ [p]) - Z.to_nat ARP_WAITQ_MAX) (q ++ [p]).
Proof.
  intros Hq. unfold park. rewrite length_app. cbn [length].
  destruct (Z.leb_spec ARP_WAITQ_MAX (zlen q)).
  - replace (length q + 1 - Z.to_nat ARP_WAITQ_MAX)%nat with 1%nat by wrap_lia.
    destruct q; [cbn in *; wrap_lia|done].
  - by replace (length q + 1 - Z.to_nat ARP_WAITQ_MAX)%nat with 0%nat by wrap_lia.
Qed.

Lemma park_wf n e p :
  arp_entry_wf n e → ae_state e = ARP_PENDING → tx_ready p →
  arp_entry_wf n (e <| ae_waitq ::= fun q => park q p |>).
Proof.
  intros [] Hs Hp. split; try done; cbn.
  - rewrite park_newest, length_drop, length_app by done. cbn. wrap_lia.
  - rewrite park_newest by done. apply Forall_drop, Forall_app_2; [done|by constructor].
Qed.

Lemma wp_arp_start dev nd ip (Q : nat → world → Prop) w :
  link_wf w → dev_at w dev nd → arp_lookup (arpc w) ip = None →
  (∀ w' i c1 e, erase_arp w = erase_arp w' → link_wf w' → arp_alloc (arpc w) i c1 →
     c1 !! i = Some e → ae_state e = ARP_FREE → 
     arpc w' = <[i:=arp_pending e ip dev (w_now w)]> c1 →
     w_wire w' = w_wire w ++ [(dev, arp_frame nd ETH_BCAST (arp_request_hdr nd ip))] →
     Q i w') →
  wp (arp_start dev ip) Q w.
Proof.
  intros Hw Hd Hnone HQ. unfold arp_start. wp_step. apply wp_arp_alloc_entry; [done|].
  intros w1 i E1 W1 Ha. destruct (arp_alloc_slot _ _ _ Ha) as (e & Hi & Hf). wp_steps.
  assert (w_now w1 = w_now w) as N1.
  { symmetry. by apply erase_icmp_proj, erase_ip_icmp, erase_arp_ip. }
  eapply wp_upd_arp; [done|]. intros w2 E2 W2 A2. wp_step.
  assert (arp_wf (length (devs w)) (arpc w1)) as Hwf1 by (eapply arp_alloc_wf; [apply Hw|done]).
  assert (link_wf w2) as Hw2.
  { eapply link_wf_step; [done|frame|]. rewrite A2. apply arp_wf_new; [done| |].
    - destruct (Forall_lookup_1 _ _ _ _ (aw_entries _ _ Hwf1) Hi).
      split; try done. cbn. eauto using dev_at_lt.
    - eapply arp_alloc_lookup_None; [done|]. done. }
  eapply wp_arp_send_request; [done| |].
  { eapply dev_at_arp; [|exact Hd]. frame. }
  intros w3 E3 W3. wp_steps. eapply HQ; try done.
  - frame.
  - by eapply link_wf_tx.
  - rewrite <- (erase_tx_arp_eq _ _ E3), A2, N1. done.
  - congruence.
Qed.

Definition park_opt (e : arp_entry) (p : option pkt) : arp_entry :=
  match p with Some p => e <| ae_waitq ::= fun q => park q p |> | None => e end.

(** The three outcomes of [arp_resolve]. *)
Inductive arp_resolve_post (w : world) (dev : nat) (nd : netdev) (ip : Z) (p : option pkt) :
    option bytes → world → Prop :=
  | resolve_hit i e :
      arp_lookup (arpc w) ip = Some i → arpc w !! i = Some e → ae_state e = ARP_RESOLVED →
      arp_resolve_post w dev nd ip p (Some (ae_mac e)) w
  | resolve_wait i e w' :
      arp_lookup (arpc w) ip = Some i → arpc w !! i = Some e → ae_state e = ARP_PENDING →
      arpc w' = <[i:=park_opt e p]> (arpc w) → w_wire w' = w_wire w →
      arp_resolve_post w dev nd ip p None w'
  | resolve_new i c1 e w' :
      arp_lookup (arpc w) ip = None → arp_alloc (arpc w) i c1 → c1 !! i = Some e →
      ae_state e = ARP_FREE →
      arpc w' = <[i:=park_opt (arp_pending e ip dev (w_now w)) p]> c1 →
      w_wire w' = w_wire w ++ [(dev, arp_frame nd ETH_BCAST (arp_request_hdr nd ip))] →
      arp_resolve_post w dev nd ip p None w'.

(** Parking, or not, behind a pending entry. *)
Lemma wp_arp_park_opt i e p (Q : () → world → Prop) w :
  link_wf w → arpc w !! i = Some e → ae_state e = ARP_PENDING → from_option tx_ready True p →
  (∀ w', erase_arp w = erase_arp w' → link_wf w' → w_wire w' = w_wire w →
         arpc w' = <[i:=park_opt e p]> (arpc w) → Q () w') →
  wp (match p with Some p => arp_park i p | None => mret () end) Q w.
Proof.
  intros Hw Hi Hs Hp HQ. destruct p as [p|]; cbn in *.
  - eapply wp_arp_park; [done|]. intros w1 E1 W1 A1. apply HQ; try done.
    eapply link_wf_step; [done..|]. rewrite A1.
    eapply arp_wf_update; [apply Hw|done| |done].
    apply park_wf; [|done..]. eapply Forall_lookup_1; [|done]. apply Hw.
  - wp_steps. apply HQ; try done. by rewrite list_insert_id.
Qed.

Lemma wp_arp_resolve dev nd ip p w :
  link_wf w → dev_at w dev nd → from_option tx_ready True p →
  wp (arp_resolve dev ip p)
     (fun r w' => erase_arp w = erase_arp w' ∧ link_wf w' ∧ arp_resolve_post w dev nd ip p r w') w.
Proof.
  intros Hw Hd Hp. unfold arp_resolve. wp_steps.
  destruct (arp_lookup (arpc w) ip) as [i|] eqn:Hl; wp_steps.
  - destruct (arp_lookup_Some _ _ _ Hl) as (e & Hi & [Hnf Hip]).
    eapply wp_get_arp; [done|]. wp_steps. destruct (decide _) as [Hr|Hr]; wp_steps.
    { eauto using arp_resolve_post. }
    assert (ae_state e = ARP_PENDING) by (by destruct (ae_state e)).
    eapply wp_arp_park_opt; [done..|]. intros w1 E1 Hw1 W1 A1. wp_steps.
    eauto using arp_resolve_post.
  - eapply wp_arp_start; [done..|]. intros w1 i c1 e E1 Hw1 Ha Hi Hf A1 W1. wp_steps.
    eapply wp_arp_park_opt; [done|rewrite A1; by eapply lookup_inserted|done..|].
    intros w2 E2 Hw2 W2 A2. wp_steps. split_and!; [frame|done|].
    eapply resolve_new; try done; [|congruence]. by rewrite A2, A1, insert_twice.
Qed.

(** ** The cache as a map from addresses *)

Definition arp_find (c : arp_cache) (ip : Z) : option arp_entry := arp_lookup c ip ≫= (c !!.).

Lemma arp_find_Some n c ip e :
  arp_wf n c → arp_find c ip = Some e ↔ ∃ i, c !! i = Some e ∧ arp_match ip e.
Proof.
  intros Hc. unfold arp_find. split.
  - intros (i & Hi & He)%bind_Some. destruct (arp_lookup_Some _ _ _ Hi) as (e' & He' & ?).
    rewrite He in He'. simplify_eq. eauto.
  - intros (i & Hi & Hm). by rewrite (arp_lookup_unique _ _ _ _ (aw_unique _ _ Hc) Hi Hm).
Qed.

Lemma arp_find_ext n c c' ip :
  arp_wf n c → arp_wf n c' →
  (∀ i e, arp_match ip e → c !! i = Some e ↔ c' !! i = Some e) → arp_find c ip = arp_find c' ip.
Proof.
  intros Hc Hc' H. apply option_eq. intros e.
  rewrite (arp_find_Some _ _ _ _ Hc), (arp_find_Some _ _ _ _ Hc').
  split; intros (i & Hi & Hm); exists i; (split; [|done]); by apply (H i e Hm).
Qed.

(** Writing an entry affects the address it had and the one it gets. *)
Lemma arp_find_insert_eq n c i e e' ip :
  arp_wf n (<[i:=e']> c) → c !! i = Some e → arp_match ip e' → arp_find (<[i:=e']> c) ip = Some e'.
Proof.
  intros Hc Hi Hm. apply (arp_find_Some _ _ _ _ Hc). exists i. split; [|done].
  by eapply lookup_inserted.
Qed.

Lemma arp_find_insert_ne n c i e e' ip :
  arp_wf n c → arp_wf n (<[i:=e']> c) → c !! i = Some e →
  ¬ arp_match ip e → ¬ arp_match ip e' → arp_find (<[i:=e']> c) ip = arp_find c ip.
Proof.
  intros Hc Hc' Hi Hm Hm'. eapply arp_find_ext; [done..|]. intros j x Hx.
  destruct (decide (i = j)) as [->|Hne].
  - rewrite (lookup_inserted _ _ _ _ Hi), Hi. by split; intros; simplify_eq.
  - by rewrite list_lookup_insert_ne.
Qed.

(** Allocation changes the map at most by dropping a victim, and only when
    every entry is in use. *)
Lemma arp_alloc_find n c i c' ip :
  arp_wf n c → arp_alloc c i c' →
  arp_find c' ip = arp_find c ip ∨
  (arp_find c' ip = None ∧ Forall (fun e => ae_state e ≠ ARP_FREE) c ∧
   ∃ e, arp_find c ip = Some e ∧ Forall (fun e' => ae_deadline_ms e ≤ ae_deadline_ms e') c).
Proof.
  intros Hc Ha. pose proof (arp_alloc_wf _ _ _ _ Hc Ha) as Hc'.
  destruct Ha as [j e Hj _ _|j e Hj Hfull Hmin]; [by left|].
  destruct (decide (arp_match ip e)) as [Hm|Hm].
  - right. split_and!; [|done|].
    + apply eq_None_not_Some. intros [x Hx].
      apply (arp_find_Some _ _ _ _ Hc') in Hx as (k & Hk & Hmk).
      apply list_lookup_insert_Some in Hk as [(_ & <- & _)|[Hne Hk]]; [by destruct Hmk|].
      apply Hne. by eapply (aw_unique _ _ Hc).
    + exists e. split; [|done]. apply (arp_find_Some _ _ _ _ Hc). eauto.
  - left. eapply arp_find_insert_ne; try done. by intros [].
Qed.

(** ** Learning *)

Definition arp_learns (c : arp_cache) (spa : Z) (for_us : bool) : Prop :=
  spa ≠ 0 ∧ (is_Some (arp_find c spa) ∨ for_us = true).

(** The packets waiting for [spa], if it can be learnt. *)
Definition arp_waiting (c : arp_cache) (spa : Z) : list pkt :=
  if spa =? 0 then [] else from_option ae_waitq [] (arp_find c spa).

Definition learnt_entry (spa : Z) (dev : nat) (sha : bytes) (now : Z) : arp_entry :=
  mk_arp_entry ARP_RESOLVED spa sha 0 (Some dev) (u64 (now + ARP_CACHE_TTL_MS)) [].

(** The effect of RFC 826's merge on the cache [c]. *)
Record arp_merged (c c' : arp_cache) (dev : nat) (spa : Z) (sha : bytes) (for_us : bool) (now : Z)
  : Prop := {
  am_learnt : arp_learns c spa for_us → arp_find c' spa = Some (learnt_entry spa dev sha now);
  am_not_learnt : ¬ arp_learns c spa for_us → c' = c;
  am_known : is_Some (arp_find c spa) → ∀ ip, ip ≠ spa → arp_find c' ip = arp_find c ip;
  am_others : ∀ ip e, ip ≠ spa → arp_find c' ip = Some e → arp_find c ip = Some e;
}.

Lemma arp_find_None c ip : arp_find c ip = None ↔ arp_lookup c ip = None.
Proof.
  unfold arp_find. destruct (arp_lookup c ip) as [i|] eqn:Hl; [|done].
  destruct (arp_lookup_Some _ _ _ Hl) as (e & He & _). cbn. by rewrite He.
Qed.

Lemma arp_find_lookup c ip i e : arp_lookup c ip = Some i → c !! i = Some e → arp_find c ip = Some e.
Proof. unfold arp_find. by intros -> ?. Qed.

Lemma resolved_wf n e dev mac now :
  mac_ok mac → (dev < n)%nat → arp_entry_wf n (arp_resolved e dev mac now).
Proof. intros. split; try done. cbn. eauto. Qed.

Lemma arp_merged_refresh n c i e dev spa sha for_us now :
  arp_wf n c → spa ≠ 0 → arp_lookup c spa = Some i → c !! i = Some e → mac_ok sha → (dev < n)%nat →
  arp_wf n (<[i:=arp_resolved e dev sha now]> c) ∧
  arp_merged c (<[i:=arp_resolved e dev sha now]> c) dev spa sha for_us now.
Proof.
  intros Hc Hz Hl Hi Hsha Hdev. destruct (arp_lookup_Some _ _ _ Hl) as (e' & He' & [Hnf Hip]).
  rewrite Hi in He'. simplify_eq/=.
  assert (arp_wf n (<[i:=arp_resolved e' dev sha now]> c)) as Hc'.
  { eapply arp_wf_update; [done..|by apply resolved_wf|]. by intros ip [_ <-]. }
  assert (∀ ip, ip ≠ ae_ip e' → arp_find (<[i:=arp_resolved e' dev sha now]> c) ip = arp_find c ip)
    as Hne.
  { intros ip Hip. eapply arp_find_insert_ne; [done..| |]; by intros [_ ?]. }
  split; [done|]. split.
  - intros _. by eapply arp_find_insert_eq.
  - intros []. split; [done|]. left. rewrite (arp_find_lookup _ _ _ _ Hl Hi). eauto.
  - auto.
  - intros ip x Hip. by rewrite Hne.
Qed.

Lemma arp_merged_create n c i c1 e dev spa sha now :
  arp_wf n c → spa ≠ 0 → arp_lookup c spa = None → arp_alloc c i c1 → c1 !! i = Some e →
  ae_state e = ARP_FREE → mac_ok sha → (dev < n)%nat →
  let c' := <[i:=learnt_entry spa dev sha now]> c1 in
  arp_wf n c' ∧ arp_merged c c' dev spa sha true now.
Proof.
  intros Hc Hz Hl Ha Hi Hf Hsha Hdev c'. pose proof (arp_alloc_wf _ _ _ _ Hc Ha) as Hc1.
  assert (arp_wf n c') as Hc'.
  { apply arp_wf_new; [done| |by eapply arp_alloc_lookup_None].
    exact (resolved_wf n (zero_arp_entry <| ae_ip := spa |>) dev sha now Hsha Hdev). }
  split; [done|]. split.
  - intros _. by eapply arp_find_insert_eq.
  - intros []. split; auto.
  - rewrite (proj2 (arp_find_None c spa) Hl). by intros [].
  - intros ip x Hip. unfold c'.
    rewrite (arp_find_insert_ne n c1 i e); [|done..|by intros []|by intros [_ ?]].
    destruct (arp_alloc_find n c i c1 ip Hc Ha) as [->|[-> _]]; done.
Qed.

Lemma wp_arp_merge dev nd spa sha for_us now (Q : () → world → Prop) w :
  link_wf w → dev_at w dev nd → mac_ok sha →
  (∀ w', erase_arp w = erase_arp w' → link_wf w' →
     arp_merged (arpc w) (arpc w') dev spa sha for_us now →
     w_wire w' = w_wire w ++ flush_frames dev sha (nd_mac nd) (arp_waiting (arpc w) spa) → Q () w') →
  wp (arp_merge dev spa sha for_us now) Q w.
Proof.
  intros Hw Hd Hsha HQ. pose proof (lw_arp _ Hw) as Ha. pose proof (dev_at_lt _ _ _ Hd) as Hlt.
  pose proof (dev_at_wf _ _ _ Hw Hd) as [Hm _ _ _].
  assert (¬ arp_learns (arpc w) spa for_us → arp_waiting (arpc w) spa = [] → Q () w)
    as Hskip.
  { intros Hn Hq. apply HQ; try done. by rewrite Hq, app_nil_r. }
  unfold arp_merge. apply wp_when; intros Hz.
  2: { apply Hskip; [intros []; lia|]. unfold arp_waiting.
       by destruct (spa =? 0). }
  apply negb_true_iff, Z.eqb_neq in Hz. wp_steps.
  assert (arp_waiting (arpc w) spa = from_option ae_waitq [] (arp_find (arpc w) spa)) as Hwait.
  { unfold arp_waiting. by rewrite (proj2 (Z.eqb_neq _ _) Hz). }
  destruct (arp_lookup (arpc w) spa) as [i|] eqn:Hl.
  - destruct (arp_lookup_Some _ _ _ Hl) as (e & Hi & _).
    pose proof (Forall_lookup_1 _ _ _ _ (aw_entries _ _ Ha) Hi) as He.
    eapply wp_arp_entry_resolve; [done..|]. intros w1 E1 A1 W1.
    destruct (arp_merged_refresh _ _ i e dev spa sha for_us now Ha) as [Hc' Hmg]; [done..|].
    rewrite Hwait, (arp_find_lookup _ _ _ _ Hl Hi) in HQ. cbn in HQ. rewrite <- A1 in Hc', Hmg.
    apply HQ; try done. by eapply link_wf_step.
  - rewrite (proj2 (arp_find_None _ _) Hl) in Hwait. cbn in Hwait.
    apply wp_when; intros Hus.
    2: { apply Hskip; try done. subst. intros [_ [[x Hx]|?]]; [|done].
         by rewrite (proj2 (arp_find_None _ _) Hl) in Hx. }
    subst for_us. wp_step. apply wp_arp_alloc_entry; [done|]. intros w1 i E1 W1 Hal.
    destruct (arp_alloc_slot _ _ _ Hal) as (e & Hi & Hf). wp_step.
    eapply wp_upd_arp; [done|]. intros w2 E2 W2 A2.
    pose proof (arp_alloc_wf _ _ _ _ Ha Hal) as Hwf1.
    pose proof (Forall_lookup_1 _ _ _ _ (aw_entries _ _ Hwf1) Hi) as He.
    assert (ae_waitq e = []) as Hq by (apply He; by rewrite Hf).
    eapply (wp_arp_entry_resolve i (e <| ae_ip := spa |>));
      [rewrite A2; by eapply lookup_inserted| |eapply dev_at_arp; [|done]; frame|done..|].
    { destruct He. by split. }
    intros w3 E3 A3 W3. cbn in W3. rewrite A2, insert_twice in A3.
    destruct (arp_merged_create _ _ i _ e dev spa sha now Ha Hz Hl Hal) as [Hc' Hmg]; [done..|].
    assert (arpc w3 = <[i:=learnt_entry spa dev sha now]> (arpc w1)) as A3' by done.
    rewrite <- A3' in Hc', Hmg. apply HQ; [frame| |done|].
    + eapply link_wf_step; [done|frame|done].
    + rewrite W3, Hq, W2, W1, Hwait. done.
Qed.

(** ** Input *)

(** The packets [arp_input] accepts (RFC 826, Ethernet and IPv4). *)
Definition arp_parse (b : bytes) : option arp_hdr :=
  match read_arp b with
  | Ok ah =>
      if (pf_ntohs (ah_htype ah) =? 1) && (pf_ntohs (ah_ptype ah) =? ETH_TYPE_IP4)
         && (ah_hlen ah =? 6) && (ah_plen ah =? 4)
         && ((pf_ntohs (ah_op ah) =? ARP_OP_REQUEST) || (pf_ntohs (ah_op ah) =? ARP_OP_REPLY))
      then Some ah else None
  | Err _ => None
  end.

Lemma read_arp_short b : zlen b < ARP_HDR_LEN → read_arp b = Err OutOfBounds.
Proof.
  intros H. do 28 (destruct b as [|? b]; [done|]). exfalso. cbn in H. unfold ARP_HDR_LEN in H. lia.
Qed.

Definition arp_for_us (nd : netdev) (ah : arp_hdr) : bool :=
  negb (nd_ip nd =? 0) && (get_be32 (ah_tpa ah) =? nd_ip nd).

(** What [arp_input] sends: parked packets, then a reply to a request for us. *)
Definition arp_input_frames (c : arp_cache) (dev : nat) (nd : netdev) (ah : arp_hdr) :
    list (nat * bytes) :=
  flush_frames dev (ah_sha ah) (nd_mac nd) (arp_waiting c (get_be32 (ah_spa ah))) ++
  if arp_for_us nd ah && (pf_ntohs (ah_op ah) =? ARP_OP_REQUEST)
  then [(dev, arp_frame nd (ah_sha ah) (arp_reply_hdr nd ah))] else [].

Definition arp_input_post (w : world) (dev : nat) (nd : netdev) (b : bytes) (w' : world) : Prop :=
  match arp_parse b with
  | None => arpc w' = arpc w ∧ w_wire w' = w_wire w
  | Some ah =>
      arp_merged (arpc w) (arpc w') dev (get_be32 (ah_spa ah)) (ah_sha ah) (arp_for_us nd ah)
        (w_now w) ∧
      w_wire w' = w_wire w ++ arp_input_frames (arpc w) dev nd ah
  end.

(** The body of [arp_input] after validation. *)
Lemma wp_arp_input_body dev nd ah w w1 :
  link_wf w1 → dev_at w1 dev nd → mac_ok (ah_sha ah) →
  length (ah_spa ah) = 4%nat → bytes_ok (ah_spa ah) → erase_tx w = erase_tx w1 →
  w_wire w1 = w_wire w →
  wp (arp_merge dev (get_be32 (ah_spa ah)) (ah_sha ah) (arp_for_us nd ah) (w_now w);;
      if arp_for_us nd ah && (pf_ntohs (ah_op ah) =? ARP_OP_REQUEST) then
        stat_inc arp_req_for_us;; arp_send_reply dev ah
      else when (pf_ntohs (ah_op ah) =? ARP_OP_REPLY) (stat_inc arp_replies_rx))
    (fun _ w' => erase_arp w = erase_arp w' ∧ link_wf w' ∧
       arp_merged (arpc w) (arpc w') dev (get_be32 (ah_spa ah)) (ah_sha ah) (arp_for_us nd ah)
         (w_now w) ∧
       w_wire w' = w_wire w ++ arp_input_frames (arpc w) dev nd ah) w1.
Proof.
  intros Hw Hd Hsha Hl Hspa E1 W1. pose proof (erase_tx_arp_eq _ _ E1) as A1. wp_step.
  eapply wp_arp_merge; [done..|]. intros w2 E2 Hw2 Hmg W2. rewrite <- A1 in Hmg, W2.
  unfold arp_input_frames. destruct (arp_for_us nd ah && _).
  - wp_step. apply wp_stat_inc. intros w3 E3 W3 _.
    assert (link_wf w3) as Hw3 by by eapply link_wf_tx.
    eapply wp_arp_send_reply; [done| |done..|].
    { eapply (dev_at_arp w1); [|done]. frame. }
    intros w4 E4 W4.
    assert (arpc w4 = arpc w2) as ->.
    { by rewrite <- (erase_tx_arp_eq _ _ E4), <- (erase_tx_arp_eq _ _ E3). }
    split_and!; [frame|by eapply link_wf_tx|done|].
    rewrite W4, W3, W2, W1, <- app_assoc. done.
  - rewrite app_nil_r. apply wp_when; intros _.
    + apply wp_stat_inc. intros w3 E3 W3 _. rewrite <- (erase_tx_arp_eq _ _ E3).
      split_and!; [frame|by eapply link_wf_tx|done|congruence].
    + split_and!; [frame|done|done|congruence].
Qed.

Lemma wp_arp_input dev nd p w :
  link_wf w → dev_at w dev nd → pkt_wf p →
  wp (arp_input dev p)
     (fun _ w' => erase_arp w = erase_arp w' ∧ link_wf w' ∧
                  arp_input_post w dev nd (pkt_bytes p) w') w.
Proof.
  intros Hw Hd Hp. pose proof (length_pkt_bytes p Hp) as Hlen.
  unfold arp_input. wp_step. apply wp_stat_inc. intros w1 E1 W1 _.
  assert (∀ w2, erase_tx w1 = erase_tx w2 → w_wire w2 = w_wire w1 →
    arp_parse (pkt_bytes p) = None →
    erase_arp w = erase_arp w2 ∧ link_wf w2 ∧ arp_input_post w dev nd (pkt_bytes p) w2) as Hbad.
  { intros w2 E2 W2 Hn. assert (erase_tx w = erase_tx w2) as E by congruence.
    unfold arp_input_post. rewrite Hn, (erase_tx_arp_eq _ _ E).
    split_and!; [frame|by eapply link_wf_tx|done|congruence]. }
  destruct (Z.ltb_spec (p_len p) ARP_HDR_LEN).
  { apply wp_stat_inc. intros w2 E2 W2 _. apply Hbad; try done.
    unfold arp_parse. by rewrite read_arp_short by lia. }
  wp_step. destruct (read_arp_ok (pkt_bytes p)) as (ah & Hah & L1 & B1 & L2 & B2 & _);
    [by apply pkt_bytes_ok|wrap_lia|].
  eapply wp_lift; [exact Hah|].
  unfold arp_input_post, arp_parse in *. rewrite Hah in *.
  destruct (pf_ntohs (ah_htype ah) =? 1); [|apply wp_stat_inc; intros; by apply Hbad].
  destruct (pf_ntohs (ah_ptype ah) =? ETH_TYPE_IP4); [|apply wp_stat_inc; intros; by apply Hbad].
  destruct (ah_hlen ah =? 6); [|apply wp_stat_inc; intros; by apply Hbad].
  destruct (ah_plen ah =? 4); [|apply wp_stat_inc; intros; by apply Hbad].
  cbn [negb andb orb] in *. rewrite <- negb_orb.
  destruct ((pf_ntohs (ah_op ah) =? ARP_OP_REQUEST) || _);
    [|apply wp_stat_inc; intros; by apply Hbad].
  cbn [negb]. wp_steps. assert (dev_at w1 dev nd) as Hd1 by by eapply dev_at_tx.
  eapply wp_get_dev; [done|]. intros nd' (Em & Ei & _)%clear_st_proj. rewrite Ei.
  assert (w_now w1 = w_now w) as ->.
  { symmetry. by apply erase_icmp_proj, erase_ip_icmp, erase_arp_ip, erase_tx_arp. }
  apply wp_arp_input_body; try done. by eapply link_wf_tx.
Qed.

(** ** The timer *)

(** What one tick does to an entry, and the request it sends, if any. *)
Definition tick_entry (now : Z) (e : arp_entry) : arp_entry :=
  if bool_decide (ae_state e = ARP_FREE) || (now <? ae_deadline_ms e) then e
  else if decide (ae_state e = ARP_RESOLVED) then e <| ae_state := ARP_FREE |>
  else if ARP_PENDING_MAX_TRIES <=? ae_tries e then e <| ae_waitq := [] |> <| ae_state := ARP_FREE |>
  else e <| ae_tries := ae_tries e + 1 |> <| ae_deadline_ms := u64 (now + ARP_PENDING_RETRY_MS) |>.

Definition tick_retries (now : Z) (e : arp_entry) : bool :=
  bool_decide (ae_state e = ARP_PENDING) && (ae_deadline_ms e <=? now)
  && (ae_tries e <? ARP_PENDING_MAX_TRIES).

Definition tick_frame (ds : list netdev) (now : Z) (e : arp_entry) : list (nat * bytes) :=
  if tick_retries now e then
    match ae_dev e with
    | Some d => match ds !! d with
                | Some nd => [(d, arp_frame nd ETH_BCAST (arp_request_hdr nd (ae_ip e)))]
                | None => []
                end
    | None => []
    end
  else [].

Lemma tick_entry_wf n now e : arp_entry_wf n e → arp_entry_wf n (tick_entry now e).
Proof.
  intros []. unfold tick_entry.
  destruct (_ || _) eqn:?; [by split|]. destruct (decide _) as [Hr|Hr].
  { split; try done; cbn. intros _. apply aw_idle0. by rewrite Hr. }
  destruct (Z.leb_spec ARP_PENDING_MAX_TRIES (ae_tries e)); split; try done.
  cbn. intros Hs. specialize (aw_tries0 Hs). lia.
Qed.

Lemma tick_entry_match now e ip : arp_match ip (tick_entry now e) → arp_match ip e.
Proof.
  unfold tick_entry, arp_match. destruct (_ || _); [done|]. destruct (decide _) as [H|H].
  - intros [[] _]. done.
  - destruct (_ <=? _); [intros [[] _]; done|done].
Qed.

Lemma tick_frame_clear ds ds' now e :
  clear_st <$> ds = clear_st <$> ds' → tick_frame ds now e = tick_frame ds' now e.
Proof.
  intros E. unfold tick_frame. destruct (tick_retries now e); [|done].
  destruct (ae_dev e) as [d|]; [|done].
  assert ((clear_st <$> ds) !! d = (clear_st <$> ds') !! d) as H by by rewrite E.
  rewrite !list_lookup_fmap in H. destruct (ds !! d) as [nd|], (ds' !! d) as [nd'|]; try done.
  apply (inj Some) in H. apply clear_st_proj in H as (Em & Ei & _).
  unfold arp_frame, arp_request_hdr. by rewrite Em, Ei.
Qed.

Lemma wp_stat_add s n (Q : () → world → Prop) w :
  (∀ w', erase_tx w = erase_tx w' → w_wire w' = w_wire w → Q () w') → wp (stat_add s n) Q w.
Proof. intros H. apply wp_modify. by apply H. Qed.

Lemma wp_arp_tick_entry now i e (Q : () → world → Prop) w :
  link_wf w → arpc w !! i = Some e →
  (∀ w', erase_arp w = erase_arp w' → link_wf w' → arpc w' = <[i:=tick_entry now e]> (arpc w) →
         w_wire w' = w_wire w ++ tick_frame (devs w) now e → Q () w') →
  wp (arp_tick_entry now i) Q w.
Proof.
  intros Hw Hi HQ. pose proof (Forall_lookup_1 _ _ _ _ (aw_entries _ _ (lw_arp _ Hw)) Hi) as He.
  assert (∀ w', erase_arp w = erase_arp w' → arpc w' = <[i:=tick_entry now e]> (arpc w) →
    w_wire w' = w_wire w ++ tick_frame (devs w) now e → Q () w') as HQ'.
  { intros w' E A W. apply HQ; try done. eapply link_wf_step; [done..|]. rewrite A.
    eapply arp_wf_update; [apply Hw|done|by apply tick_entry_wf|apply tick_entry_match]. }
  clear HQ. unfold arp_tick_entry. wp_step. eapply wp_get_arp; [done|].
  unfold tick_entry in HQ'. unfold tick_frame, tick_retries in HQ'.
  destruct (bool_decide (ae_state e = ARP_FREE)) eqn:Hfree; cbn [orb] in *.
  { apply bool_decide_eq_true in Hfree. rewrite Hfree in HQ'. wp_steps.
    apply HQ'; [done|by rewrite list_insert_id|]. cbn. by rewrite app_nil_r. }
  apply bool_decide_eq_false in Hfree.
  rewrite (Z.leb_antisym now (ae_deadline_ms e)) in HQ'.
  destruct (now <? ae_deadline_ms e); cbn [negb] in *; rewrite ?andb_false_r in HQ'.
  { wp_steps. apply HQ'; [done|by rewrite list_insert_id|by rewrite app_nil_r]. }
  destruct (decide (ae_state e = ARP_RESOLVED)) as [Hr|Hr].
  { wp_step. eapply wp_upd_arp; [done|]. intros w1 E1 W1 A1.
    apply wp_stat_inc. intros w2 E2 W2 _. apply HQ'; [frame| |].
    - by rewrite <- (erase_tx_arp_eq _ _ E2).
    - rewrite Hr. cbn. rewrite app_nil_r. congruence. }
  assert (ae_state e = ARP_PENDING) as Hp by (by destruct (ae_state e)).
  rewrite Hp in HQ'. cbn [bool_decide decide] in HQ'. rewrite Z.ltb_antisym in HQ'.
  destruct (Z.leb_spec ARP_PENDING_MAX_TRIES (ae_tries e)) as [Hmax|Hmax].
  - wp_step. apply wp_stat_inc. intros w1 E1 W1 _. wp_step. apply wp_stat_add. intros w2 E2 W2.
    assert (arpc w = arpc w2) as A2 by (apply erase_tx_arp_eq; congruence).
    eapply wp_upd_arp; [by rewrite <- A2|]. intros w3 E3 W3 A3. rewrite <- A2 in A3.
    apply HQ'; [frame|done|]. cbn. rewrite app_nil_r. congruence.
  - wp_step. eapply wp_upd_arp; [done|]. intros w1 E1 W1 A1. wp_step.
    destruct (aw_dev _ _ He Hfree) as (d & Hd & Hlt). eapply wp_lift; [by rewrite Hd|].
    destruct (lookup_lt_is_Some_2 _ _ Hlt) as [nd Hnd].
    assert (dev_at w d nd) as Hda by (unfold dev_at; by rewrite list_lookup_fmap, Hnd).
    assert (u8 (ae_tries e + 1) = ae_tries e + 1) as Hu.
    { pose proof (aw_tries _ _ He Hp). wrap_lia. }
    assert (link_wf w1) as Hw1.
    { eapply link_wf_step; [done..|]. rewrite A1. eapply arp_wf_update; [apply Hw|done| |done].
      destruct He. split; try done. cbn. rewrite Hu. specialize (aw_tries0 Hp). lia. }
    eapply wp_arp_send_request; [done|by eapply dev_at_arp|]. intros w2 E2 W2.
    apply HQ'; [frame| |].
    + rewrite <- (erase_tx_arp_eq _ _ E2), A1, Hu. done.
    + rewrite Hd, Hnd, W2, W1. done.
Qed.

Lemma wp_arp_tick_from now pre rest w :
  link_wf w → arpc w = pre ++ rest →
  wp (for_each (seq (length pre) (length rest)) (arp_tick_entry now))
     (fun _ w' => erase_arp w = erase_arp w' ∧ link_wf w' ∧
        arpc w' = pre ++ (tick_entry now <$> rest) ∧
        w_wire w' = w_wire w ++ (rest ≫= tick_frame (devs w) now)) w.
Proof.
  revert pre w. induction rest as [|e rest IH]; intros pre w Hw Hc; cbn [for_each seq length].
  - wp_steps. split_and!; [done..|by rewrite app_nil_r].
  - wp_step. eapply wp_arp_tick_entry; [done|rewrite Hc; by apply list_lookup_middle|].
    intros w1 E1 Hw1 A1 W1.
    assert (arpc w1 = (pre ++ [tick_entry now e]) ++ rest) as Hc1.
    { rewrite A1, Hc, insert_app_r_alt, Nat.sub_diag by lia. by rewrite <- app_assoc. }
    replace (S (length pre)) with (length (pre ++ [tick_entry now e]))
      by (rewrite length_app; cbn; lia).
    eapply wp_mono; [by apply IH|]. intros _ w2 (E2 & Hw2 & A2 & W2).
    split_and!; [frame|done| |].
    + by rewrite A2, <- app_assoc.
    + rewrite W2, W1, <- app_assoc. cbn. do 2 f_equal. apply list_bind_ext; [|done].
      intros x. apply tick_frame_clear. by symmetry; apply erase_arp_devs.
Qed.

(** ** An example configuration

    Two interfaces, 10.0.0.1/24 and 10.0.1.1/24, with 10.0.0.2 resolved and a
    packet waiting for 10.0.0.3. *)

Definition demo_dev0 : netdev :=
  mk_netdev "tap0" 0 [2; 0; 0; 0; 0; 1] 0x0a000001 0xffffff00 1500 true (fun _ => 0) zero_ndst.
Definition demo_dev1 : netdev :=
  mk_netdev "tap1" 1 [2; 0; 0; 0; 1; 1] 0x0a000101 0xffffff00 576 true (fun _ => 0) zero_ndst.

Definition demo_resolved : arp_entry :=
  mk_arp_entry ARP_RESOLVED 0x0a000002 [2; 0; 0; 0; 0; 2] 0 (Some 0%nat) 60000 [].
Definition demo_pending : arp_entry :=
  mk_arp_entry ARP_PENDING 0x0a000003 (replicate 6 0) 1 (Some 0%nat) 1000 [tx_pkt].

Definition demo_arp : arp_cache := <[1%nat:=demo_pending]> (<[0%nat:=demo_resolved]> arp_init).

Definition demo_stack (f : Fib.fib) : pf_stack :=
  mk_stack [demo_dev0; demo_dev1] false true demo_arp (replicate IP_REASS_CTXS zero_reass_ctx)
    (mk_socktab (replicate PF_SOCK_MAX zero_sock) PF_EPHEMERAL_BASE)
    (mk_tcpg (replicate TCP_MAX_CONNS zero_tcb) 0) f 7 0 zero_stats.

Definition demo_world (f : Fib.fib) : world := mk_world (demo_stack f) 500 [].

Lemma demo_pending_wf p :
  tx_ready p →
  arp_entry_wf 2 (mk_arp_entry ARP_PENDING 0x0a000003 (replicate 6 0) 1 (Some 0%nat) 1000 [p]).
Proof.
  intros Hp. split; cbn; try done.
  - split; [done|solve_bytes_ok].
  - by constructor.
  - intros _. eexists. split; [done|]. lia.
Qed.

Lemma tx_pkt_ready : tx_ready tx_pkt.
Proof. split; [apply tx_pkt_wf|done]. Qed.

Lemma demo_arp_wf : arp_wf 2 demo_arp.
Proof.
  apply arp_wf_new; [apply arp_wf_new; [apply arp_init_wf| |reflexivity]| |reflexivity].
  - split; try done; [split; [done|solve_bytes_ok]|eexists; split; [done|]; lia].
  - apply demo_pending_wf, tx_pkt_ready.
Qed.

Lemma demo_dev0_wf : dev_wf demo_dev0.
Proof. split; try (cbn; lia). split; [done|cbn; solve_bytes_ok]. Qed.
Lemma demo_dev1_wf : dev_wf demo_dev1.
Proof. split; try (cbn; lia). split; [done|cbn; solve_bytes_ok]. Qed.

Lemma demo_link_wf f : link_wf (demo_world f).
Proof.
  split; [|apply demo_arp_wf].
  apply Forall_cons_2; [apply demo_dev0_wf|]. apply Forall_cons_2; [apply demo_dev1_wf|done].
Qed.

(** ** Theorems *)

(** C24. [arp_resolve] for a packet with link-layer headroom always returns,
    keeps the cache invariant and changes only the cache, the counters and the
    wire. A resolved next hop yields its address and changes nothing; behind a
    pending one the packet is parked, the queue keeping its newest eight; an
    unknown one gets a pending entry holding the packet and exactly one
    broadcast request, and no other address appears. *)
Theorem arp_resolve_spec w dev nd ip p :
  link_wf w → dev_at w dev nd → tx_ready p →
  ∃ r w', arp_resolve dev ip (Some p) w = Ok (r, w') ∧ link_wf w' ∧ erase_arp w = erase_arp w' ∧
  match arp_find (arpc w) ip with
  | Some e =>
      if decide (ae_state e = ARP_RESOLVED) then r = Some (ae_mac e) ∧ w' = w
      else r = None ∧ w_wire w' = w_wire w ∧
           arp_find (arpc w') ip =
             Some (e <| ae_waitq := let q := ae_waitq e ++ [p] in drop (length q - 8) q |>) ∧
           ∀ ip', ip' ≠ ip → arp_find (arpc w') ip' = arp_find (arpc w) ip'
  | None =>
      r = None ∧
      w_wire w' = w_wire w ++ [(dev, arp_frame nd ETH_BCAST (arp_request_hdr nd ip))] ∧
      (∃ mac, arp_find (arpc w') ip =
         Some (mk_arp_entry ARP_PENDING ip mac 1 (Some dev) (u64 (w_now w + 1000)) [p])) ∧
      ∀ ip' e, ip' ≠ ip → arp_find (arpc w') ip' = Some e → arp_find (arpc w) ip' = Some e
  end.
Proof.
  intros Hw Hd Hp.
  destruct (wp_run _ _ _ (wp_arp_resolve dev nd ip (Some p) w Hw Hd Hp))
    as (r & w' & Hrun & E & Hw' & Hpost).
  exists r, w'. split_and!; try done. pose proof (lw_arp _ Hw) as Hc.
  assert (arp_wf (length (devs w)) (arpc w')) as Hc'.
  { apply erase_arp_devs in E. rewrite <- (length_fmap clear_st), E, length_fmap. apply Hw'. }
  destruct Hpost as [i e Hl Hi Hs|i e w' Hl Hi Hs A W|i c1 e w' Hl Ha Hi Hs A W].
  - rewrite (arp_find_lookup _ _ _ _ Hl Hi). by rewrite decide_True.
  - rewrite (arp_find_lookup _ _ _ _ Hl Hi), decide_False by (by rewrite Hs).
    destruct (arp_lookup_Some _ _ _ Hl) as (e' & He' & Hm). rewrite Hi in He'. simplify_eq.
    rewrite A in *. split_and!; try done.
    + rewrite (arp_find_insert_eq _ _ _ _ _ ip Hc' Hi) by done.
      f_equal. unfold park_opt, set_field. cbn. f_equal. apply (park_newest (ae_waitq e')). apply (aw_waitq_len _ _ (Forall_lookup_1 _ _ _ _ (aw_entries _ _ Hc) Hi)).
    + intros ip' Hne. eapply arp_find_insert_ne; try done; destruct Hm; intros [? Hx]; cbn in Hx; congruence.
  - rewrite (proj2 (arp_find_None _ _) Hl). rewrite A in *.
    pose proof (arp_alloc_wf _ _ _ _ Hc Ha) as Hc1.
    assert (ae_waitq e = []) as Hq.
    { eapply Forall_lookup_1 in Hi; [|apply Hc1]. apply Hi. by rewrite Hs. }
    split_and!; try done.
    + exists (ae_mac e). rewrite (arp_find_insert_eq _ _ _ _ _ ip Hc' Hi) by done.
      unfold park_opt, arp_pending. by rewrite Hq.
    + intros ip' x Hne.
      rewrite (arp_find_insert_ne _ _ _ _ _ ip' Hc1 Hc' Hi); [|by intros []|intros [? Hx]; cbn in Hx; congruence].
      destruct (arp_alloc_find _ _ _ _ ip' Hc Ha) as [->|[-> _]]; done.
Qed.

Lemma arp_resolve_spec_witness :
  ∃ r w', arp_resolve 0 0x0a000009 (Some tx_pkt) (demo_world Fib.demo_fib) = Ok (r, w') ∧ r = None.
Proof.
  destruct (arp_resolve_spec (demo_world Fib.demo_fib) 0 demo_dev0 0x0a000009 tx_pkt
    (demo_link_wf _) eq_refl tx_pkt_ready) as (r & w' & Hrun & _ & _ & Hr & _).
  exists r, w'. by split.
Defined.

(** C25. [arp_input] is safe on every received packet, whatever its bytes: it
    returns, keeps the cache invariant and touches only the cache, counters
    and wire. A malformed packet changes neither cache nor wire. A valid one
    has the effect of RFC 826's merge: the sender's mapping is refreshed if
    present and created only if the packet targets this interface (never for
    sender 0), packets parked for it are sent in arrival order, no other
    address appears, and a request for us is answered with our binding. *)
Theorem arp_input_spec w dev nd p :
  link_wf w → dev_at w dev nd → pkt_wf p →
  ∃ w', arp_input dev p w = Ok ((), w') ∧ link_wf w' ∧ erase_arp w = erase_arp w' ∧
        arp_input_post w dev nd (pkt_bytes p) w'.
Proof.
  intros Hw Hd Hp. destruct (wp_run _ _ _ (wp_arp_input dev nd p w Hw Hd Hp))
    as ([] & w' & ? & ? & ? & ?). eauto.
Qed.

Lemma arp_input_spec_witness :
  ∃ w', arp_input 0 tx_pkt (demo_world Fib.demo_fib) = Ok ((), w') ∧ link_wf w'.
Proof.
  destruct (arp_input_spec (demo_world Fib.demo_fib) 0 demo_dev0 tx_pkt
    (demo_link_wf _) eq_refl tx_pkt_wf) as (w' & ? & ? & _). eauto.
Defined.

(** [arp_tick] returns, keeps the invariant and applies [tick_entry] to
    every entry: due resolved entries are freed, due pending ones are retried
    (one broadcast request each, in table order) or, after three tries,
    released together with their parked packets; nothing else changes. *)
Theorem arp_tick_spec w now :
  link_wf w →
  ∃ w', arp_tick now w = Ok ((), w') ∧ link_wf w' ∧ erase_arp w = erase_arp w' ∧
        arpc w' = tick_entry now <$> arpc w ∧
        w_wire w' = w_wire w ++ (arpc w ≫= tick_frame (devs w) now).
Proof.
  intros Hw. pose proof (wp_arp_tick_from now [] (arpc w) w Hw eq_refl) as H.
  rewrite (aw_len _ _ (lw_arp _ Hw)) in H.
  destruct (wp_run _ _ _ H) as ([] & w' & ? & ? & ? & ? & ?). eauto 10.
Qed.

Lemma arp_tick_spec_witness :
  ∃ w', arp_tick 1000 (demo_world Fib.demo_fib) = Ok ((), w') ∧
        arpc w' = tick_entry 1000 <$> demo_arp.
Proof.
  destruct (arp_tick_spec (demo_world Fib.demo_fib) 1000 (demo_link_wf _)) as (w' & ? & _ & _ & ? & _).
  eauto.
Defined.
