(* ===== verification/IpOut.v ===== *)
(** * IPv4 output

    Models the address predicates of [ipv4/ipv4.h] and the transmit half of
    [ipv4/ipv4.c]: [ip_route_lookup], [ip_output_one] and [ip_output] with
    sender-side fragmentation. *)

From S2P Require Import Prelude Pf Checksum Pkt Fib Headers Stats Stack Link Arp.
Import Checksum Pkt Fib Stats.

(** ** Address predicates and header accessors *)

Definition ip_hdr_version (ih : ipv4_hdr) : Z := Z.shiftr (ih_vihl ih) 4.
Definition ip_hdr_len (ih : ipv4_hdr) : Z := u8 (Z.land (ih_vihl ih) 0x0f * 4).

Definition ip4_is_loopback (ip : Z) : bool := Z.shiftr ip 24 =? 127.
Definition ip4_is_multicast (ip : Z) : bool := Z.shiftr ip 28 =? 0xe.
Definition ip4_is_experimental (ip : Z) : bool := Z.shiftr ip 28 =? 0xf.
Definition ip4_is_limited_bcast (ip : Z) : bool := ip =? 0xffffffff.

(** [dev->ip | ~dev->mask]. *)
Definition subnet_bcast (nd : netdev) : Z := Z.lor (nd_ip nd) (u32 (Z.lnot (nd_mask nd))).

(** ** Routing and transmission *)

Definition ip_route_lookup (dst : Z) : PF (option (nat * Z)) :=
  f ← get_stack ps_fib;
  match fib_lookup f dst with
  | None => mret None
  | Some i =>
      rt ← lift (in_bounds (fib_pool f !! i));
      let next_hop := if fe_connected rt then dst else fe_next_hop rt in
      mret ((fun d => (d, next_hop)) <$> fe_dev rt)
  end.

(** The 20-byte header for a datagram of [len] bytes in all, checksummed. *)
Definition ip_build_hdr (src dst proto ttl id frag_field len : Z) : ipv4_hdr :=
  let ih := mk_ip 0x45 0 (pf_htons len) (pf_htons id) (pf_htons frag_field) ttl proto 0
                  (pf_htonl src) (pf_htonl dst) in
  ih <| ih_csum := pf_htons (inet_csum (ip_image ih)) |>.

Definition ip_to_bcast (nd : netdev) (dst : Z) : bool :=
  ip4_is_limited_bcast dst || (negb (nd_ip nd =? 0) && (dst =? subnet_bcast nd)).

Definition ip_output_one (dev : nat) (next_hop src dst proto ttl id frag_field : Z) (p : pkt) : PF Z :=
  let len := u16 (p_len p + IPV4_HDR_MIN) in
  p ← lift (pkt_prepend p (ip_image (ip_build_hdr src dst proto ttl id frag_field len)));
  stat_inc ip_tx;;
  nd ← get_dev dev;
  if ip_to_bcast nd dst then eth_output dev ETH_BCAST ETH_TYPE_IP4 p
  else
    r ← arp_resolve dev next_hop (Some p);
    match r with
    | Some mac => eth_output dev mac ETH_TYPE_IP4 p
    | None => mret 0
    end.

(** [while (off < p->len)]: the fragmentation loop, [rc] as accumulated. *)
Fixpoint ip_frag_loop (fuel : nat) (dev : nat) (next_hop src dst proto ttl id max_chunk : Z)
    (p : pkt) (off rc : Z) : PF Z :=
  match fuel with
  | O => lift (Err OutOfFuel)
  | S fuel =>
      if off <? p_len p then
        let chunk := Z.min max_chunk (u16 (p_len p - off)) in
        let last := off + chunk =? p_len p in
        fp ← lift (pkt_reserve pkt_alloc PKT_TX_HEADROOM);
        data ← lift (pkt_read p off chunk);
        fp ← lift (pkt_append fp data);
        let frag_field := u16 (Z.land (off / 8) IP_FRAG_OFFMASK) in
        let frag_field := if last then frag_field else Z.lor frag_field IP_FRAG_MF in
        stat_inc ip_tx_frags;;
        r ← ip_output_one dev next_hop src dst proto ttl id frag_field fp;
        ip_frag_loop fuel dev next_hop src dst proto ttl id max_chunk p (u16 (off + chunk))
          (if r <? 0 then -1 else rc)
      else mret rc
  end.

Definition ip_output (src dst proto ttl : Z) (p : pkt) : PF Z :=
  route ← ip_route_lookup dst;
  match route with
  | None => stat_inc ip_tx_no_route;; mret (-1)
  | Some (dev, next_hop) =>
      nd ← get_dev dev;
      if dst =? nd_ip nd then stat_inc ip_tx_no_route;; mret (-1)
      else
        let src := if src =? 0 then nd_ip nd else src in
        id ← get_stack ps_ip_id;
        upd_stack (set_field ps_ip_id (fun i => u16 (i + 1)));;
        if p_len p + IPV4_HDR_MIN <=? nd_mtu nd then
          ip_output_one dev next_hop src dst proto ttl id 0 p
        else
          let max_chunk := u16 (Z.land (u32 (nd_mtu nd - IPV4_HDR_MIN)) (u32 (Z.lnot 7))) in
          ip_frag_loop (S (Z.to_nat (p_len p))) dev next_hop src dst proto ttl id max_chunk p 0 0
  end.

(** ** The invariant of the network layer *)

(** Every live route leads to an existing device. *)
Record fib_ok (ndevs : nat) (f : fib) : Prop := {
  fo_wf : fib_wf f;
  fo_routes : ∀ i e, fib_pool f !! i = Some e → fe_in_use e = true →
    u32_ok (fe_next_hop e) ∧ ∃ d, fe_dev e = Some d ∧ (d < ndevs)%nat;
}.

Record net_wf (w : world) : Prop := {
  nw_link : link_wf w;
  nw_fib : fib_ok (length (devs w)) (ps_fib (w_stack w));
  nw_ip_id : u16_ok (ps_ip_id (w_stack w));
}.

Lemma erase_icmp_length w w' : erase_icmp w = erase_icmp w' → length (devs w) = length (devs w').
Proof.
  intros (_&_&_&_&_&_&E)%erase_icmp_proj. by rewrite <- (length_fmap clear_st), E, length_fmap.
Qed.

Lemma net_wf_step w w' :
  net_wf w → erase_icmp w = erase_icmp w' → link_wf w' → u16_ok (ps_ip_id (w_stack w')) → net_wf w'.
Proof.
  intros [Hl Hf Hi] E Hl' Hi'. split; [done| |done].
  rewrite <- (erase_icmp_length _ _ E). destruct (erase_icmp_proj _ _ E) as (_ & <- & _). done.
Qed.

Lemma erase_arp_ip_id w w' : erase_arp w = erase_arp w' → ps_ip_id (w_stack w) = ps_ip_id (w_stack w').
Proof. destruct w as [[] ? ?], w' as [[] ? ?]. cbn. intros E. simplify_eq. done. Qed.

Lemma net_wf_arp w w' : net_wf w → erase_arp w = erase_arp w' → link_wf w' → net_wf w'.
Proof.
  intros Hw E Hl. eapply net_wf_step; [done|frame|done|].
  rewrite <- (erase_arp_ip_id _ _ E). apply Hw.
Qed.

Lemma net_wf_tx w w' : net_wf w → erase_tx w = erase_tx w' → net_wf w'.
Proof.
  intros Hw E. eapply net_wf_arp; [done|frame|]. eapply link_wf_tx; [apply Hw|done].
Qed.

(** ** The header *)

Lemma ip_build_hdr_ok src dst proto ttl id frag len :
  u32_ok src → u32_ok dst → byte_ok proto → byte_ok ttl →
  ip_ok (ip_build_hdr src dst proto ttl id frag len).
Proof. intros. split; cbn; try apply htons_range; try apply htonl_range; try done; wrap_lia. Qed.

(** A header is its first ten bytes, the checksum, and the addresses. *)
Lemma ip_image_csum h :
  ip_image h = take 10 (ip_image h) ++ store16 (ih_csum h) ++ drop 12 (ip_image h).
Proof. done. Qed.

(** Every header the stack builds passes the receiver's checksum test. *)
Lemma ip_build_hdr_csum src dst proto ttl id frag len :
  u32_ok src → u32_ok dst → byte_ok proto → byte_ok ttl →
  inet_csum (ip_image (ip_build_hdr src dst proto ttl id frag len)) = 0.
Proof.
  intros. set (h := ip_build_hdr src dst proto ttl id frag len).
  assert (bytes_ok (ip_image h)) as Hok by by apply ip_image_ok, ip_build_hdr_ok.
  rewrite ip_image_csum. unfold inet_csum. cbn [ih_csum].
  set (h0 := h <| ih_csum := 0 |>).
  change (ih_csum h) with (pf_htons (inet_csum (ip_image h0))).
  rewrite store16_htons by apply csum_fold_range.
  apply csum_fill_verifies; [by exists 5%nat|by apply Forall_take|by apply Forall_drop|done|done|].
  by left.
Qed.

(** The datagram handed to the link layer. *)
Definition ip_datagram (src dst proto ttl id frag : Z) (payload : bytes) : bytes :=
  ip_image (ip_build_hdr src dst proto ttl id frag (zlen payload + IPV4_HDR_MIN)) ++ payload.

(** ** Handing a datagram to the link layer *)

(** Either it is on the wire, to a broadcast or a resolved address, or it is
    parked in the ARP cache. *)
Inductive ip_handed (w : world) (dev : nat) (nd : netdev) (nh dst : Z) (dg : bytes) :
    world → Prop :=
  | handed_bcast w' :
      ip_to_bcast nd dst = true → arpc w' = arpc w →
      w_wire w' = w_wire w ++ [(dev, eth_frame ETH_BCAST (nd_mac nd) ETH_TYPE_IP4 dg)] →
      ip_handed w dev nd nh dst dg w'
  | handed_unicast e w' :
      ip_to_bcast nd dst = false → arp_find (arpc w) nh = Some e → ae_state e = ARP_RESOLVED →
      arpc w' = arpc w →
      w_wire w' = w_wire w ++ [(dev, eth_frame (ae_mac e) (nd_mac nd) ETH_TYPE_IP4 dg)] →
      ip_handed w dev nd nh dst dg w'
  | handed_parked p e w' :
      ip_to_bcast nd dst = false →
      pkt_bytes p = dg → arp_find (arpc w') nh = Some e → ae_state e = ARP_PENDING →
      last (ae_waitq e) = Some p →
      w_wire w' = w_wire w ++ (match arp_find (arpc w) nh with
                               | Some _ => []
                               | None => [(dev, arp_frame nd ETH_BCAST (arp_request_hdr nd nh))]
                               end) →
      (∀ e', arp_find (arpc w) nh = Some e' → ae_state e' = ARP_PENDING) →
      ip_handed w dev nd nh dst dg w'.

(** Reading [arp_resolve]'s outcome for a miss. *)
Lemma arp_resolve_post_parked w dev nd nh p w' :
  link_wf w → link_wf w' → arp_resolve_post w dev nd nh (Some p) None w' →
  (∃ e, arp_find (arpc w') nh = Some e ∧ ae_state e = ARP_PENDING ∧ last (ae_waitq e) = Some p) ∧
  (∀ e', arp_find (arpc w) nh = Some e' → ae_state e' = ARP_PENDING) ∧
  w_wire w' = w_wire w ++ (match arp_find (arpc w) nh with
                           | Some _ => []
                           | None => [(dev, arp_frame nd ETH_BCAST (arp_request_hdr nd nh))]
                           end).
Proof.
  intros Hw Hw' Hpost. inversion Hpost as [|i e w2 Hl Hi Hs A W|i c1 e w2 Hl Ha Hi Hs A W]; subst.
  - destruct (arp_lookup_Some _ _ _ Hl) as (e' & He' & Hm). rewrite Hi in He'. simplify_eq.
    rewrite (arp_find_lookup _ _ _ _ Hl Hi).
    pose proof (lw_arp _ Hw') as Hc. rewrite A in *. split_and!.
    + exists (park_opt e' (Some p)). split_and!; [by eapply arp_find_insert_eq|done|].
      apply last_snoc.
    + by intros x [= <-].
    + by rewrite app_nil_r.
  - rewrite (proj2 (arp_find_None _ _) Hl). pose proof (lw_arp _ Hw') as Hc. rewrite A in *.
    split_and!; [|done|done].
    exists (park_opt (arp_pending e nh dev (w_now w)) (Some p)).
    split_and!; [by eapply arp_find_insert_eq|done|]. apply last_snoc.
Qed.

Lemma wp_ip_output_one dev nd nh src dst proto ttl id frag p w :
  net_wf w → dev_at w dev nd → u32_ok src → u32_ok dst → byte_ok proto → byte_ok ttl →
  pkt_wf p → IPV4_HDR_MIN + ETH_HDR_LEN ≤ p_data p →
  wp (ip_output_one dev nh src dst proto ttl id frag p)
     (fun _ w' => erase_arp w = erase_arp w' ∧ net_wf w' ∧
        ip_handed w dev nd nh dst (ip_datagram src dst proto ttl id frag (pkt_bytes p)) w') w.
Proof.
  intros Hw Hd Hsrc Hdst Hproto Httl Hp Hroom. pose proof (nw_link _ Hw) as Hlw.
  pose proof (dev_at_wf _ _ _ Hlw Hd) as [Hm _ _ _].
  unfold ip_output_one. wp_step.
  assert (u16 (p_len p + IPV4_HDR_MIN) = zlen (pkt_bytes p) + IPV4_HDR_MIN) as ->.
  { rewrite length_pkt_bytes by done. destruct Hp. wrap_lia. }
  set (h := ip_build_hdr src dst proto ttl id frag _).
  destruct (pkt_prepend_ok p (ip_image h)) as (p' & Hp' & Hwf' & Hb' & Hdat & _);
    [done|by apply ip_image_ok, ip_build_hdr_ok|rewrite length_ip_image; wrap_lia|].
  eapply wp_lift; [exact Hp'|]. wp_step. apply wp_stat_inc. intros w1 E1 W1 _. wp_step.
  assert (dev_at w1 dev nd) as Hd1 by by eapply dev_at_tx.
  assert (link_wf w1) as Hw1 by by eapply link_wf_tx.
  pose proof (erase_tx_arp_eq _ _ E1) as A1.
  assert (ETH_HDR_LEN ≤ p_data p') as Hroom'.
  { rewrite Hdat, length_ip_image. wrap_lia. }
  fold (ip_datagram src dst proto ttl id frag (pkt_bytes p)) in Hb'.
  eapply wp_get_dev; [done|]. intros nd' (Em & Ei & Emask & _)%clear_st_proj.
  assert (ip_to_bcast nd' dst = ip_to_bcast nd dst) as ->.
  { unfold ip_to_bcast, subnet_bcast. by rewrite Ei, Emask. }
  destruct (ip_to_bcast nd dst) eqn:Hbc.
  { eapply wp_eth_output; eauto using ETH_BCAST_ok. intros w2 rc E2 W2.
    split_and!; [frame|eapply net_wf_tx; [done|frame]|]. apply handed_bcast; [done| |].
    - rewrite A1. symmetry. by apply erase_tx_arp_eq.
    - by rewrite W2, W1, Hb'. }
  wp_step. eapply wp_mono; [by apply wp_arp_resolve|].
  intros r w2 (E2 & Hw2 & Hpost). destruct r as [mac|].
  - inversion Hpost as [i e Hl Hi Hs| |]; subst.
    eapply wp_eth_output; [done..| |done|done|].
    { exact (aw_mac _ _ (Forall_lookup_1 _ _ _ _ (aw_entries _ _ (lw_arp _ Hw1)) Hi)). }
    intros w3 rc E3 W3. split_and!; [frame|eapply net_wf_tx; [done|congruence]|].
    eapply handed_unicast; try done.
    + rewrite A1. by eapply arp_find_lookup.
    + rewrite A1. symmetry. by apply erase_tx_arp_eq.
    + by rewrite W3, W1, Hb'.
  - wp_steps. split_and!; [frame|eapply net_wf_arp; [done|frame|done]|].
    destruct (arp_resolve_post_parked _ _ _ _ _ _ Hw1 Hw2 Hpost) as ((e & ? & ? & ?) & ? & W2).
    rewrite <- A1, W1 in *. by eapply handed_parked.
Qed.

(** ** Fragmentation *)

(** The fragments of a payload: offset, more-fragments flag, data. *)
Fixpoint frag_chunks (fuel : nat) (max : nat) (off : Z) (rest : bytes) : list (Z * bool * bytes) :=
  match fuel, rest with
  | S fuel, _ :: _ =>
      let chunk := take max rest in
      let rest' := drop max rest in
      (off, negb (bool_decide (rest' = [])), chunk)
        :: frag_chunks fuel max (off + zlen chunk) rest'
  | _, _ => []
  end.

(** The frag_off field: offset in 8-byte units, with the MF bit. *)
Definition frag_word (off : Z) (more : bool) : Z := off / 8 + if more then IP_FRAG_MF else 0.

(** The largest multiple of eight that fits behind a header. *)
Definition frag_size (mtu : Z) : Z := (mtu - IPV4_HDR_MIN) / 8 * 8.

Definition ip_datagrams (mtu src dst proto ttl id : Z) (payload : bytes) : list bytes :=
  if zlen payload + IPV4_HDR_MIN <=? mtu then [ip_datagram src dst proto ttl id 0 payload]
  else
    (fun '(off, more, data) => ip_datagram src dst proto ttl id (frag_word off more) data)
      <$> frag_chunks (length payload) (Z.to_nat (frag_size mtu)) 0 payload.

Lemma land_lnot7 x : 0 ≤ x < 2 ^ 32 → Z.land x (u32 (Z.lnot 7)) = x / 8 * 8.
Proof.
  intros Hx. change (u32 (Z.lnot 7)) with (Z.land (Z.ones 32) (Z.lnot 7)).
  rewrite Z.land_assoc, Z.land_ones by lia. rewrite Z.mod_small by done.
  rewrite <- Z.ldiff_land. change 7 with (Z.ones 3). rewrite Z.ldiff_ones_r by lia.
  rewrite shiftl_mul, shiftr_div by lia. done.
Qed.

Lemma max_chunk_eq mtu :
  28 ≤ mtu < 65536 →
  u16 (Z.land (u32 (mtu - IPV4_HDR_MIN)) (u32 (Z.lnot 7))) = frag_size mtu.
Proof.
  intros Hm. rewrite u32_small, land_lnot7 by wrap_lia. unfold frag_size. wrap_lia.
Qed.

Lemma frag_field_eq off (last : bool) :
  0 ≤ off < 65536 →
  (let f := u16 (Z.land (off / 8) IP_FRAG_OFFMASK) in if last then f else Z.lor f IP_FRAG_MF)
  = frag_word off (negb last).
Proof.
  intros Ho. cbv zeta. unfold IP_FRAG_OFFMASK, frag_word. change 0x1fff with (Z.ones 13).
  rewrite Z.land_ones, (Z.mod_small (off / 8)) by wrap_lia. rewrite u16_small by wrap_lia.
  destruct last; cbn [negb]; [lia|]. rewrite Z.lor_comm.
  change IP_FRAG_MF with (Z.shiftl 1 13). rewrite lor_shiftl_add by wrap_lia.
  rewrite shiftl_mul by lia. lia.
Qed.

(** A sequence of datagrams handed over in order. *)
Fixpoint ip_handed_all (w : world) (dev : nat) (nd : netdev) (nh dst : Z) (dgs : list bytes)
    (w' : world) : Prop :=
  match dgs with
  | [] => arpc w' = arpc w ∧ w_wire w' = w_wire w
  | dg :: dgs => ∃ w1, ip_handed w dev nd nh dst dg w1 ∧ ip_handed_all w1 dev nd nh dst dgs w'
  end.

Lemma ip_handed_from w1 w dev nd nh dst dg w' :
  arpc w1 = arpc w → w_wire w1 = w_wire w → ip_handed w1 dev nd nh dst dg w' →
  ip_handed w dev nd nh dst dg w'.
Proof.
  intros A W []; [apply handed_bcast|eapply handed_unicast|eapply handed_parked];
    try rewrite <- A; try rewrite <- W; done.
Qed.

Definition frag_datagram (src dst proto ttl id : Z) (c : Z * bool * bytes) : bytes :=
  let '(off, more, data) := c in ip_datagram src dst proto ttl id (frag_word off more) data.

Lemma frag_chunks_cons fuel max off rest :
  0 < zlen rest →
  frag_chunks (S fuel) max off rest =
  (off, negb (bool_decide (drop max rest = [])), take max rest)
    :: frag_chunks fuel max (off + zlen (take max rest)) (drop max rest).
Proof. destruct rest; cbn [length]; [lia|done]. Qed.

(** Cutting a chunk off a list. *)
Lemma take_length_take {A} m (l : list A) : take (length (take m l)) l = take m l.
Proof. rewrite length_take. destruct (Nat.min_spec m (length l)) as [[? ->]|[? ->]]; [done|]. rewrite !take_ge by lia. done. Qed.

Lemma drop_length_take {A} m (l : list A) : drop (length (take m l)) l = drop m l.
Proof. rewrite length_take. destruct (Nat.min_spec m (length l)) as [[? ->]|[? ->]]; [done|]. rewrite !drop_ge by lia. done. Qed.

Lemma last_chunk m (l : bytes) : (zlen (take m l) =? zlen l) = bool_decide (drop m l = []).
Proof.
  apply Bool.eq_true_iff_eq. rewrite Z.eqb_eq, bool_decide_eq_true. pose proof (length_drop l m) as Hdl.
  rewrite length_take.
  split; [intros; apply length_zero_iff_nil; lia|intros Hn; rewrite Hn in Hdl; cbn in Hdl; lia].
Qed.

Lemma wp_ip_frag_loop dev nd nh src dst proto ttl id max p fuel off rc w :
  net_wf w → dev_at w dev nd → u32_ok src → u32_ok dst → byte_ok proto → byte_ok ttl →
  pkt_wf p → 8 ≤ max ≤ PKT_BUF_SIZE - PKT_TX_HEADROOM →
  0 ≤ off ≤ p_len p → p_len p - off < Z.of_nat fuel →
  wp (ip_frag_loop fuel dev nh src dst proto ttl id max p off rc)
     (fun _ w' => erase_arp w = erase_arp w' ∧ net_wf w' ∧
        ip_handed_all w dev nd nh dst
          (frag_datagram src dst proto ttl id <$>
             frag_chunks (pred fuel) (Z.to_nat max) off (drop (Z.to_nat off) (pkt_bytes p))) w') w.
Proof.
  intros Hw Hd Hsrc Hdst Hproto Httl Hp Hmax. revert off rc w Hw Hd.
  pose proof (length_pkt_bytes p Hp) as Hlb. pose proof (wf_len _ Hp).
  pose proof (wf_fits _ Hp). pose proof (wf_data _ Hp).
  induction fuel as [|fuel IH]; intros off rc w Hw Hd Hoff Hfuel; [lia|].
  cbn [ip_frag_loop pred]. destruct (Z.ltb_spec off (p_len p)) as [Hlt|Hge].
  2: { wp_steps. rewrite drop_ge by lia. destruct fuel; by split_and!. }
  set (rest := drop (Z.to_nat off) (pkt_bytes p)).
  assert (zlen rest = p_len p - off) as Hrest by (unfold rest; rewrite length_drop; lia).
  assert (u16 (p_len p - off) = zlen rest) as -> by wrap_lia.
  set (chunk := take (Z.to_nat max) rest).
  assert (Z.min max (zlen rest) = zlen chunk) as Hmin by (unfold chunk; rewrite length_take; lia).
  rewrite Hmin.
  assert (off + zlen chunk ≤ p_len p ∧ 0 < zlen chunk) as [Hfit Hpos] by lia.
  wp_step. eapply wp_lift; [apply pkt_reserve_tx|]. wp_step.
  eapply wp_lift; [apply pkt_read_ok; [done|lia..]|]. wp_step. rewrite Nat2Z.id. fold rest.
  rewrite (take_length_take _ rest : take (length chunk) rest = chunk).
  destruct (pkt_append_ok tx_pkt chunk) as (fp & Hfp & Hfwf & Hfb & Hfd & _);
    [apply tx_pkt_wf|by apply Forall_take, Forall_drop, pkt_bytes_ok|cbn; wrap_lia|].
  eapply wp_lift; [exact Hfp|]. wp_step. apply wp_stat_inc. intros w1 E1 W1 _. wp_step.
  rewrite frag_field_eq by wrap_lia.
  eapply wp_mono; [apply (wp_ip_output_one _ nd); try done|].
  { by eapply net_wf_tx. } { by eapply dev_at_tx. } { rewrite Hfd. done. }
  intros r w2 (E2 & Hw2 & Hh). rewrite u16_small by wrap_lia.
  eapply wp_mono; [apply IH; [done| |lia..]|].
  { eapply dev_at_arp; [|done]. frame. }
  intros _ w3 (E3 & Hw3 & Hh3). split_and!; [frame|done|].
  destruct fuel as [|fuel]; [lia|]. rewrite frag_chunks_cons by lia.
  fold chunk. exists w2. split.
  - eapply ip_handed_from; [symmetry; apply erase_tx_arp_eq, E1|done|].
    rewrite <- last_chunk. fold chunk. replace (zlen chunk =? zlen rest) with (off + zlen chunk =? p_len p) by lia.
    unfold frag_datagram. by rewrite Hfb in Hh.
  - cbn [pred] in Hh3.
    rewrite <- drop_length_take. fold chunk. unfold rest. rewrite drop_drop.
    by replace (Z.to_nat off + length chunk)%nat with (Z.to_nat (off + zlen chunk)) by lia.
Qed.

(** ** Output *)

(** The egress device and next hop the FIB gives for [dst]. *)
Definition ip_route (f : fib) (dst : Z) : option (nat * Z) :=
  i ← fib_lookup f dst;
  rt ← fib_pool f !! i;
  (fun d => (d, if fe_connected rt then dst else fe_next_hop rt)) <$> fe_dev rt.

(** A transport payload with room for the IP and link headers: at most a
    transmit buffer's worth of data behind a UDP header. *)
Record ip_tx_ready (p : pkt) : Prop := {
  it_wf : pkt_wf p;
  it_room : IPV4_HDR_MIN + ETH_HDR_LEN ≤ p_data p;
  it_len : p_len p ≤ PKT_BUF_SIZE - PKT_TX_HEADROOM + 8;
}.

(** A fresh packet filled with [h] is ready. *)
Lemma tx_append_ready h :
  bytes_ok h → zlen h ≤ PKT_BUF_SIZE - PKT_TX_HEADROOM →
  ∃ p', pkt_append tx_pkt h = Ok p' ∧ ip_tx_ready p' ∧ pkt_bytes p' = h ∧
        p_data p' = PKT_TX_HEADROOM ∧ p_len p' = zlen h.
Proof.
  intros Hok Hl. destruct (tx_append_ok h Hok Hl) as (p & Hp & Hwf & Hb & Hd & Hlen).
  exists p. split_and!; try done. split; [done|rewrite Hd; done|lia].
Qed.

Definition ip_output_post (w : world) (src dst proto ttl : Z) (payload : bytes) (w' : world) : Prop :=
  match ip_route (ps_fib (w_stack w)) dst with
  | None => arpc w' = arpc w ∧ w_wire w' = w_wire w
  | Some (dev, nh) =>
      ∃ nd, devs w !! dev = Some nd ∧
      if dst =? nd_ip nd then arpc w' = arpc w ∧ w_wire w' = w_wire w
      else ip_handed_all w dev nd nh dst
             (ip_datagrams (nd_mtu nd) (if src =? 0 then nd_ip nd else src) dst proto ttl
                (ps_ip_id (w_stack w)) payload) w'
  end.

Lemma wp_ip_route_lookup dst (Q : option (nat * Z) → world → Prop) w :
  net_wf w →
  (∀ r, ip_route (ps_fib (w_stack w)) dst = r →
     (∀ d nh, r = Some (d, nh) → ∃ nd, devs w !! d = Some nd) → Q r w) →
  wp (ip_route_lookup dst) Q w.
Proof.
  intros Hw HQ. unfold ip_route_lookup. wp_steps. unfold ip_route in HQ.
  destruct (fib_lookup _ dst) as [i|] eqn:Hl; wp_steps; [|by apply HQ].
  destruct (fib_lookup_in_use _ _ _ (fo_wf _ _ (nw_fib _ Hw)) Hl) as (e & He & Hu).
  eapply wp_lift; [by rewrite He|]. wp_steps. cbn in HQ. rewrite He in HQ. cbn in HQ.
  apply HQ; [done|]. intros d nh Hr.
  destruct (fo_routes _ _ (nw_fib _ Hw) _ _ He Hu) as (_ & d' & Hd' & Hlt).
  rewrite Hd' in Hr. simplify_eq/=. by apply lookup_lt_is_Some.
Qed.

Lemma dev_at_of_lookup w d nd : devs w !! d = Some nd → dev_at w d nd.
Proof. intros H. unfold dev_at. by rewrite list_lookup_fmap, H. Qed.

Lemma ip_handed_all_from w1 w dev nd nh dst dgs w' :
  arpc w1 = arpc w → w_wire w1 = w_wire w → ip_handed_all w1 dev nd nh dst dgs w' →
  ip_handed_all w dev nd nh dst dgs w'.
Proof.
  intros A W. destruct dgs as [|dg dgs]; cbn.
  - intros [-> ->]. done.
  - intros (w2 & H & ?). exists w2. split; [by eapply ip_handed_from|done].
Qed.

Lemma ip_datagrams_frags mtu src dst proto ttl id payload :
  mtu < zlen payload + IPV4_HDR_MIN →
  ip_datagrams mtu src dst proto ttl id payload =
  frag_datagram src dst proto ttl id <$>
    frag_chunks (length payload) (Z.to_nat (frag_size mtu)) 0 payload.
Proof. intros H. unfold ip_datagrams. by rewrite (proj2 (Z.leb_gt _ _) H). Qed.

(** The datagram, or the train of its fragments, towards a device. *)
Lemma wp_ip_send_datagrams dev nd nh src dst proto ttl id p w :
  net_wf w → dev_at w dev nd → u32_ok src → u32_ok dst → byte_ok proto → byte_ok ttl → ip_tx_ready p →
  wp (if p_len p + IPV4_HDR_MIN <=? nd_mtu nd then ip_output_one dev nh src dst proto ttl id 0 p
      else ip_frag_loop (S (Z.to_nat (p_len p))) dev nh src dst proto ttl id (frag_size (nd_mtu nd)) p 0 0)
    (fun _ w' => erase_arp w = erase_arp w' ∧ net_wf w' ∧
       ip_handed_all w dev nd nh dst (ip_datagrams (nd_mtu nd) src dst proto ttl id (pkt_bytes p)) w') w.
Proof.
  intros Hw Hd Hsrc Hdst Hproto Httl [Hp Hroom Hlen]. pose proof (length_pkt_bytes p Hp) as Hlb.
  pose proof (dev_at_wf _ _ _ (nw_link _ Hw) Hd) as [_ Hip _ Hmtu].
  destruct (Z.leb_spec (p_len p + IPV4_HDR_MIN) (nd_mtu nd)) as [Hfit|Hbig].
  - unfold ip_datagrams. rewrite Hlb, (proj2 (Z.leb_le _ _) Hfit).
    eapply wp_mono; [by apply (wp_ip_output_one dev nd)|]. intros _ w' (? & ? & ?).
    split; [done|split; [done|]]. exists w'. by split.
  - rewrite ip_datagrams_frags by lia. replace (length (pkt_bytes p)) with (Z.to_nat (p_len p)) by lia.
    apply (wp_ip_frag_loop _ _ _ _ _ _ _ _ _ _ (S (Z.to_nat (p_len p))) 0); try done.
    + unfold frag_size. destruct Hp. wrap_lia.
    + pose proof (wf_len _ Hp). lia.
    + pose proof (wf_len _ Hp). lia.
Qed.

Lemma wp_ip_output src dst proto ttl p w :
  net_wf w → u32_ok src → u32_ok dst → byte_ok proto → byte_ok ttl → ip_tx_ready p →
  wp (ip_output src dst proto ttl p)
     (fun _ w' => erase_ip w = erase_ip w' ∧ net_wf w' ∧
                  ip_output_post w src dst proto ttl (pkt_bytes p) w') w.
Proof.
  intros Hw Hsrc Hdst Hproto Httl [Hp Hroom Hlen]. pose proof (length_pkt_bytes p Hp) as Hlb.
  unfold ip_output, ip_output_post. wp_step. apply wp_ip_route_lookup; [done|].
  intros r Hr Hdev. rewrite Hr.
  assert (∀ w1, erase_tx w = erase_tx w1 → w_wire w1 = w_wire w →
    erase_ip w = erase_ip w1 ∧ net_wf w1 ∧ arpc w1 = arpc w ∧ w_wire w1 = w_wire w) as Hdrop.
  { intros w1 E1 W1. split_and!; [frame|by eapply net_wf_tx| |done].
    symmetry. by apply erase_tx_arp_eq. }
  destruct r as [[dev nh]|].
  2: { wp_step. apply wp_stat_inc. intros w1 E1 W1 _. wp_steps. auto. }
  destruct (Hdev _ _ eq_refl) as [nd Hnd]. pose proof (dev_at_of_lookup _ _ _ Hnd) as Hd.
  pose proof (dev_at_wf _ _ _ (nw_link _ Hw) Hd) as [_ Hip _ Hmtu].
  wp_step. eapply wp_get_dev; [done|]. intros nd' (_ & Ei & _ & Emtu & _)%clear_st_proj.
  rewrite Ei, Emtu. destruct (dst =? nd_ip nd) eqn:Hself.
  { wp_step. apply wp_stat_inc. intros w1 E1 W1 _. wp_steps.
    destruct (Hdrop w1) as (? & ? & ? & ?); [done..|]. split_and!; try done. exists nd.
    by rewrite Hself. }
  set (src' := if src =? 0 then nd_ip nd else src).
  assert (u32_ok src') as Hsrc' by (unfold src'; destruct (src =? 0); [apply Hip|apply Hsrc]).
  wp_steps. apply wp_modify.
  match goal with |- wp _ _ ?w1' => set (w1 := w1') end.
  assert (net_wf w1) as Hw1.
  { eapply (net_wf_step w); [done|done| |cbn; apply u16_range].
    by destruct (nw_link _ Hw). }
  assert (erase_ip w = erase_ip w1) as E1 by done.
  assert (dev_at w1 dev nd) as Hd1 by exact Hd.
  rewrite max_chunk_eq by lia. eapply wp_mono; [by apply (wp_ip_send_datagrams dev nd)|].
  intros _ w' (E & ? & Hh). split_and!; [frame|done|]. exists nd. rewrite Hself.
  split; [done|]. by apply (ip_handed_all_from w1).
Qed.

(** Nor does it depend on the device's counters. *)
Lemma ip_handed_all_dev w dev nd nd' nh dst dgs w' :
  nd_mac nd = nd_mac nd' → nd_ip nd = nd_ip nd' → nd_mask nd = nd_mask nd' →
  ip_handed_all w dev nd nh dst dgs w' → ip_handed_all w dev nd' nh dst dgs w'.
Proof.
  intros Em Ei Emask. revert w. induction dgs as [|dg dgs IH]; intros w; cbn; [done|].
  assert (ip_to_bcast nd dst = ip_to_bcast nd' dst) as Hb.
  { unfold ip_to_bcast, subnet_bcast. by rewrite Ei, Emask. }
  assert (∀ dst h, arp_frame nd dst h = arp_frame nd' dst h) as Ha.
  { intros. unfold arp_frame. by rewrite Em. }
  assert (∀ ip, arp_request_hdr nd ip = arp_request_hdr nd' ip) as Hr.
  { intros. unfold arp_request_hdr. by rewrite Em, Ei. }
  intros (w1 & Hh & Hrest). exists w1. split; [|by apply IH].
  destruct Hh; [apply handed_bcast|eapply handed_unicast|eapply handed_parked];
    rewrite <- ?Hb, <- ?Ha, <- ?Hr, <- ?Em; done.
Qed.

(** The outcome only depends on the part of the state [ip_output] reads. *)
Lemma ip_output_post_from w w1 src dst proto ttl payload w' :
  arpc w1 = arpc w → w_wire w1 = w_wire w → ps_ip_id (w_stack w1) = ps_ip_id (w_stack w) →
  ps_fib (w_stack w1) = ps_fib (w_stack w) → clear_st <$> devs w1 = clear_st <$> devs w →
  ip_output_post w1 src dst proto ttl payload w' → ip_output_post w src dst proto ttl payload w'.
Proof.
  intros A W I F D. unfold ip_output_post. rewrite F, I, <- A, <- W.
  destruct (ip_route _ dst) as [[dev nh]|]; [|done].
  intros (nd1 & Hnd1 & Hpost).
  pose proof (dev_at_of_lookup _ _ _ Hnd1) as Hd. unfold dev_at in Hd. rewrite D in Hd.
  rewrite list_lookup_fmap in Hd. apply fmap_Some in Hd as (nd & Hnd & Ec).
  apply clear_st_proj in Ec as (Em & Eip & Emask & Emtu & _). exists nd. split; [done|].
  rewrite Eip, Emtu in Hpost. destruct (dst =? nd_ip nd); [done|].
  eapply (ip_handed_all_from w1); [done..|]. by eapply ip_handed_all_dev.
Qed.

Lemma ip_output_post_tx w w1 src dst proto ttl payload w' :
  erase_tx w = erase_tx w1 → w_wire w1 = w_wire w →
  ip_output_post w1 src dst proto ttl payload w' → ip_output_post w src dst proto ttl payload w'.
Proof.
  intros E W. assert (erase_icmp w = erase_icmp w1) as Ei by frame.
  destruct (erase_icmp_proj _ _ Ei) as (_ & F & _ & _ & _ & _ & D).
  apply ip_output_post_from; try done.
  - symmetry. by apply erase_tx_arp_eq.
  - symmetry. apply erase_arp_ip_id. frame.
Qed.

(** Only the cache and the wire afterwards matter. *)
Lemma ip_handed_to w dev nd nh dst dg w1 w2 :
  arpc w2 = arpc w1 → w_wire w2 = w_wire w1 → ip_handed w dev nd nh dst dg w1 → ip_handed w dev nd nh dst dg w2.
Proof.
  intros A W H. revert A W. destruct H; intros A W;
    [apply handed_bcast|eapply handed_unicast|eapply handed_parked]; try rewrite A; try rewrite W; done.
Qed.

Lemma ip_handed_all_to w dev nd nh dst dgs w1 w2 :
  arpc w2 = arpc w1 → w_wire w2 = w_wire w1 →
  ip_handed_all w dev nd nh dst dgs w1 → ip_handed_all w dev nd nh dst dgs w2.
Proof.
  intros A W. revert w. induction dgs as [|dg dgs IH]; intros w; cbn [ip_handed_all]; [by rewrite A, W|].
  intros (w3 & H & ?). exists w3. auto.
Qed.

Lemma ip_output_post_to w src dst proto ttl payload w1 w2 :
  arpc w2 = arpc w1 → w_wire w2 = w_wire w1 →
  ip_output_post w src dst proto ttl payload w1 → ip_output_post w src dst proto ttl payload w2.
Proof.
  intros A W. unfold ip_output_post. destruct (ip_route _ dst) as [[dev nh]|]; [|by rewrite A, W].
  intros (nd & ? & H). exists nd. split; [done|]. destruct (dst =? nd_ip nd); [by rewrite A, W|].
  by eapply ip_handed_all_to.
Qed.

(** ** What is on the wire *)

(** A well-formed train of fragments from offset [off]: contiguous, every
    datagram within the MTU, all but the last flagged and a positive multiple
    of eight bytes long, and none but a lone one empty. *)
Fixpoint frags_ok (mtu off : Z) (cs : list (Z * bool * bytes)) : Prop :=
  match cs with
  | [] => False
  | (o, more, data) :: cs =>
      o = off ∧ zlen data + IPV4_HDR_MIN ≤ mtu ∧
      match cs with
      | [] => more = false ∧ (off = 0 ∨ 0 < zlen data)
      | _ => more = true ∧ 0 < zlen data ∧ zlen data mod 8 = 0 ∧ frags_ok mtu (off + zlen data) cs
      end
  end.

Definition frag_data (c : Z * bool * bytes) : bytes := c.2.

Lemma frag_chunks_ok mtu fuel off rest :
  28 ≤ mtu → 0 < zlen rest ≤ Z.of_nat fuel →
  frags_ok mtu off (frag_chunks fuel (Z.to_nat (frag_size mtu)) off rest) ∧
  concat (frag_data <$> frag_chunks fuel (Z.to_nat (frag_size mtu)) off rest) = rest.
Proof.
  intros Hm. set (max := Z.to_nat (frag_size mtu)).
  assert (Z.of_nat max = frag_size mtu ∧ 8 ≤ frag_size mtu ≤ mtu - 20 ∧ frag_size mtu mod 8 = 0)
    as (Hmax & Hr & H8).
  { unfold max, frag_size. wrap_lia. }
  revert off rest. induction fuel as [|fuel IH]; intros off rest Hl; [lia|].
  rewrite frag_chunks_cons by lia. pose proof (length_take rest max) as Ht.
  pose proof (length_drop rest max) as Hd.
  destruct (decide (drop max rest = [])) as [E|E].
  - rewrite E in *. cbn [length] in Hd. rewrite bool_decide_true by done.
    assert (take max rest = rest) as Hall by (apply take_ge; lia). rewrite Hall.
    destruct fuel; cbn; (split; [split_and!; [done|wrap_lia|done|right; lia]|]); by rewrite app_nil_r.
  - assert (0 < zlen (drop max rest)) as Hpos.
    { destruct (drop max rest); [done|cbn; lia]. }
    rewrite bool_decide_false by done.
    destruct (IH (off + zlen (take max rest)) (drop max rest)) as [IH1 IH2]; [lia|].
    assert (zlen (take max rest) = frag_size mtu) as Hlt by lia.
    cbn [frags_ok fmap list_fmap concat frag_data snd].
    split; [|by rewrite IH2, take_drop]. split_and!; [done|wrap_lia|].
    destruct (frag_chunks fuel _ _ (drop max rest)) eqn:Ec; [done|].
    split_and!; [done|lia|by rewrite Hlt|done].
Qed.

(** The datagrams as fragments. *)
Lemma ip_datagrams_train mtu src dst proto ttl id payload :
  28 ≤ mtu →
  ∃ cs, ip_datagrams mtu src dst proto ttl id payload = frag_datagram src dst proto ttl id <$> cs ∧
        frags_ok mtu 0 cs ∧ concat (frag_data <$> cs) = payload.
Proof.
  intros Hm. destruct (Z.le_gt_cases (zlen payload + IPV4_HDR_MIN) mtu) as [Hfit|Hbig].
  - exists [(0, false, payload)]. unfold ip_datagrams. rewrite (proj2 (Z.leb_le _ _) Hfit).
    split_and!; try done; [by split_and!; try left|]. cbn. by rewrite app_nil_r.
  - eexists. rewrite ip_datagrams_frags by lia. split; [done|]. apply frag_chunks_ok; wrap_lia.
Qed.

(** Handing to a resolved next hop puts every datagram on the wire. *)
Lemma ip_handed_resolved w dev nd nh dst dgs e w' :
  ip_to_bcast nd dst = false → arp_find (arpc w) nh = Some e → ae_state e = ARP_RESOLVED →
  ip_handed_all w dev nd nh dst dgs w' →
  arpc w' = arpc w ∧
  w_wire w' = w_wire w ++
    ((fun dg => (dev, eth_frame (ae_mac e) (nd_mac nd) ETH_TYPE_IP4 dg)) <$> dgs).
Proof.
  intros Hb He Hs. revert w He. induction dgs as [|dg dgs IH]; intros w He; cbn [ip_handed_all].
  - intros [-> ->]. by rewrite app_nil_r.
  - intros (w1 & Hh & Hrest).
    assert (arpc w1 = arpc w ∧
      w_wire w1 = w_wire w ++ [(dev, eth_frame (ae_mac e) (nd_mac nd) ETH_TYPE_IP4 dg)]) as [A W].
    { destruct Hh as [|e' w1 _ He' _ ? ?|p e' w1 _ _ _ _ _ _ Hp]; [congruence| |].
      - rewrite He in He'. by simplify_eq.
      - specialize (Hp _ He). congruence. }
    apply IH in Hrest; [|by rewrite A]. rewrite A, W, <- app_assoc in Hrest. done.
Qed.

(** C22. [ip_output] of a payload with headroom, to a routed destination whose
    next hop is resolved, returns and puts exactly one train of fragments on
    the egress device: contiguous, each within the MTU, 8-byte aligned, MF on
    all but the last, together carrying exactly the payload, all under one
    identification; the ARP cache and everything but counters and the IP
    identification are unchanged. *)
Theorem ip_output_wire w src dst proto ttl p dev nh nd e :
  net_wf w → u32_ok src → u32_ok dst → byte_ok proto → byte_ok ttl → ip_tx_ready p →
  ip_route (ps_fib (w_stack w)) dst = Some (dev, nh) → devs w !! dev = Some nd →
  dst ≠ nd_ip nd → ip_to_bcast nd dst = false →
  arp_find (arpc w) nh = Some e → ae_state e = ARP_RESOLVED →
  ∃ rc w' cs, ip_output src dst proto ttl p w = Ok (rc, w') ∧
    erase_ip w = erase_ip w' ∧ net_wf w' ∧ arpc w' = arpc w ∧
    w_wire w' = w_wire w ++
      ((fun c => (dev, eth_frame (ae_mac e) (nd_mac nd) ETH_TYPE_IP4
          (frag_datagram (if src =? 0 then nd_ip nd else src) dst proto ttl
             (ps_ip_id (w_stack w)) c))) <$> cs) ∧
    frags_ok (nd_mtu nd) 0 cs ∧ concat (frag_data <$> cs) = pkt_bytes p.
Proof.
  intros Hw Hsrc Hdst Hproto Httl Hp Hr Hnd Hself Hb He Hs.
  destruct (wp_run _ _ _ (wp_ip_output src dst proto ttl p w Hw Hsrc Hdst Hproto Httl Hp))
    as (rc & w' & Hrun & E & Hw' & Hpost).
  unfold ip_output_post in Hpost. rewrite Hr in Hpost. destruct Hpost as (nd' & Hnd' & Hpost).
  assert (nd' = nd) as -> by congruence.
  rewrite (proj2 (Z.eqb_neq _ _) Hself) in Hpost.
  pose proof (dw_mtu _ (dev_at_wf _ _ _ (nw_link _ Hw) (dev_at_of_lookup _ _ _ Hnd))) as Hmtu.
  destruct (ip_datagrams_train (nd_mtu nd) (if src =? 0 then nd_ip nd else src) dst proto ttl
    (ps_ip_id (w_stack w)) (pkt_bytes p)) as (cs & Hcs & Hok & Hcat); [lia|].
  rewrite Hcs in Hpost. apply (ip_handed_resolved _ _ _ _ _ _ e) in Hpost as [A W]; try done.
  exists rc, w', cs. rewrite <- list_fmap_compose in W. eauto 10.
Qed.

(** The example configuration, with 10.0.0.0/8 connected on the first device. *)
Abbreviation demo := (demo_world demo_fib).

Lemma demo_fib_ok : fib_ok 2 demo_fib.
Proof.
  split; [apply demo_fib_abs|]. intros i e Hi Hu.
  pose proof (fib_abs_lookup _ _ _ _ demo_fib_abs Hi Hu) as HT. unfold demo_table in HT.
  apply lookup_insert_Some in HT as [[_ HT]|[_ HT]]; [|apply lookup_insert_Some in HT as [[_ HT]|[_ HT]]].
  - injection HT as <- <- _. split; [lia|]. exists 1%nat. split; [done|lia].
  - injection HT as <- <- _. split; [lia|]. exists 0%nat. split; [done|lia].
  - by rewrite lookup_empty in HT.
Qed.

Lemma demo_net_wf : net_wf demo.
Proof. split; [apply demo_link_wf|apply demo_fib_ok|cbn; lia]. Qed.

(** A 2000-byte payload. *)
Definition demo_payload : bytes := replicate 2000 0x5a.
Definition demo_pkt : pkt := tx_pkt <| p_len := 2000 |> <| p_buf := splice zero_buf 128 demo_payload |>.
#[global] Arguments demo_payload : simpl never.

Lemma demo_pkt_ready : ip_tx_ready demo_pkt.
Proof.
  assert (length zero_buf = 4096%nat) as Hz by apply length_replicate.
  split; [|done|done]. split; [by vm_compute..| |].
  - change (length (splice zero_buf 128 demo_payload) = 4096%nat).
    rewrite length_splice; [done|]. rewrite Hz. unfold demo_payload. rewrite length_replicate. lia.
  - change (bytes_ok (splice zero_buf 128 demo_payload)).
    apply splice_ok; apply Forall_replicate; wrap_lia.
Qed.

Lemma ip_output_wire_witness :
  ∃ rc w', ip_output 0 0x0a000002 IP_PROTO_UDP 64 demo_pkt demo = Ok (rc, w') ∧ net_wf w'.
Proof.
  destruct (ip_output_wire demo 0 0x0a000002 IP_PROTO_UDP 64 demo_pkt 0 0x0a000002 demo_dev0
    demo_resolved demo_net_wf ltac:(lia) ltac:(lia) ltac:(wrap_lia) ltac:(wrap_lia) demo_pkt_ready
    eq_refl eq_refl ltac:(done) eq_refl eq_refl eq_refl) as (rc & w' & cs & H1 & _ & H2 & _).
  eauto.
Defined.
