(* ===== verification/Rfc.v ===== *)
(** * What the standards say of a datagram

    The header fields of an IPv4 datagram as numbers on its bytes, and the
    address classes as ranges of numbers (RFC 791, 1112, 1122), written without
    the code's accessors. The rules of the receive path, of ICMP errors and of
    the forwarder are stated with these; the lemmas relate them to the
    accessors and predicates of [ipv4/ipv4.h]. *)

From S2P Require Import Prelude Pf Checksum Pkt Fib Headers Stats Stack Link Arp IpOut.
Import Checksum Fib.

(** ** Fields *)

(** The big-endian number in [n] bytes from offset [off]. *)
Definition be (l : bytes) : Z := foldl (fun a x => a * 256 + x) 0 l.
Definition be_at (b : bytes) (off n : nat) : Z := be (take n (drop off b)).

Definition f_version (b : bytes) : Z := be_at b 0 1 / 16.
Definition f_hlen (b : bytes) : Z := 4 * (be_at b 0 1 mod 16).
Definition f_total (b : bytes) : Z := be_at b 2 2.
Definition f_dont_frag (b : bytes) : bool := be_at b 6 2 / 2 ^ 14 mod 2 =? 1.
Definition f_frag_off (b : bytes) : Z := be_at b 6 2 mod 2 ^ 13.
Definition f_ttl (b : bytes) : Z := be_at b 8 1.
Definition f_proto (b : bytes) : Z := be_at b 9 1.
Definition f_src (b : bytes) : Z := be_at b 12 4.
Definition f_dst (b : bytes) : Z := be_at b 16 4.

(** ** Address classes *)

(** 127.0.0.0 - 127.255.255.255. *)
Definition loopback_addr (a : Z) : Prop := 127 * 2 ^ 24 ≤ a < 128 * 2 ^ 24.

(** 224.0.0.0 - 255.255.255.255: the multicast groups, class E and the limited
    broadcast address. *)
Definition group_addr (a : Z) : Prop := 224 * 2 ^ 24 ≤ a < 2 ^ 32.

(** The address whose host bits are all ones in the network of [ip]. *)
Definition bcast_of (ip mask a : Z) : Prop :=
  ∀ k, 0 ≤ k < 32 → Z.testbit a k = if Z.testbit mask k then Z.testbit ip k else true.

(** An address in the block of 2^(32 - plen) addresses from [prefix]. *)
Definition in_prefix (prefix plen a : Z) : Prop := prefix ≤ a < prefix + 2 ^ (32 - plen).

(** ** The code's predicates *)

Lemma ip4_is_loopback_iff a : ip4_is_loopback a = true ↔ loopback_addr a.
Proof.
  unfold ip4_is_loopback, loopback_addr. rewrite shiftr_div, Z.eqb_eq by lia.
  Z.div_mod_to_equations. lia.
Qed.

Lemma ip4_group_iff a :
  u32_ok a → ip4_is_multicast a || ip4_is_experimental a = true ↔ group_addr a.
Proof.
  intros Ha. unfold ip4_is_multicast, ip4_is_experimental, group_addr.
  rewrite shiftr_div, orb_true_iff, !Z.eqb_eq by lia. Z.div_mod_to_equations. lia.
Qed.

Lemma ip4_limited_group a : ip4_is_limited_bcast a = true → ip4_is_experimental a = true.
Proof. unfold ip4_is_limited_bcast. by intros ->%Z.eqb_eq. Qed.

(** The three tests the code makes, in any of its orders. *)
Lemma ip4_group_limited_iff a :
  u32_ok a →
  ip4_is_multicast a = true ∨ ip4_is_experimental a = true ∨ ip4_is_limited_bcast a = true ↔ group_addr a.
Proof.
  intros Ha. rewrite <- ip4_group_iff, orb_true_iff by done. pose proof (ip4_limited_group a). tauto.
Qed.

Lemma u32_bits_eq a b : u32_ok a → u32_ok b → a = b ↔ ∀ k, 0 ≤ k < 32 → Z.testbit a k = Z.testbit b k.
Proof.
  intros Ha Hb. split; [by intros ->|]. intros H. rewrite <- (Z.mod_small a (2 ^ 32)), <- (Z.mod_small b (2 ^ 32)) by done.
  apply Z.bits_inj'. intros k Hk. destruct (Z.lt_ge_cases k 32).
  - rewrite !Z.mod_pow2_bits_low by lia. by apply H.
  - by rewrite !Z.mod_pow2_bits_high by lia.
Qed.

Lemma subnet_bcast_bits nd k :
  0 ≤ k < 32 →
  Z.testbit (subnet_bcast nd) k = if Z.testbit (nd_mask nd) k then Z.testbit (nd_ip nd) k else true.
Proof.
  intros Hk. unfold subnet_bcast, u32. rewrite Z.lor_spec, Z.mod_pow2_bits_low, Z.lnot_spec by lia.
  destruct (Z.testbit (nd_mask nd) k); cbn [negb]; [apply orb_false_r|apply orb_true_r].
Qed.

Lemma subnet_bcast_range nd : u32_ok (nd_ip nd) → u32_ok (subnet_bcast nd).
Proof.
  intros H. unfold subnet_bcast, u32. rewrite <- (Z.mod_small (nd_ip nd) (2 ^ 32)) by done.
  rewrite <- !Z.land_ones, <- Z.land_lor_distr_l, Z.land_ones by lia. apply Z.mod_pos_bound. lia.
Qed.

Lemma subnet_bcast_iff nd a :
  u32_ok (nd_ip nd) → u32_ok a → a = subnet_bcast nd ↔ bcast_of (nd_ip nd) (nd_mask nd) a.
Proof.
  intros Hi Ha. rewrite u32_bits_eq by (done || by apply subnet_bcast_range). unfold bcast_of.
  split; intros H k Hk; rewrite H by done; [|symmetry]; by apply subnet_bcast_bits.
Qed.

(** ** The fields of a header that was read *)

(** Testing one bit with a mask. *)
Lemma land_pow2_eqb x n : 0 ≤ n → negb (Z.land x (2 ^ n) =? 0) = (x / 2 ^ n mod 2 =? 1).
Proof.
  intros Hn. rewrite <- Z.testbit_spec' by done.
  assert (Z.land x (2 ^ n) = if Z.testbit x n then 2 ^ n else 0) as ->.
  { apply Z.bits_inj'. intros k Hk. rewrite Z.land_spec, Z.pow2_bits_eqb by done.
    destruct (Z.eqb_spec n k) as [<-|]; destruct (Z.testbit x n) eqn:E;
      rewrite ?Z.bits_0, ?Z.pow2_bits_eqb, ?andb_false_r, ?andb_true_r by done; rewrite ?Z.eqb_refl; try done.
    by rewrite (proj2 (Z.eqb_neq _ _)). }
  destruct (Z.testbit x n); cbn [Z.b2z]; [|done].
  by rewrite (proj2 (Z.eqb_neq _ _)) by (apply Z.pow_nonzero; lia).
Qed.

Record fields_of (b : bytes) (ih : ipv4_hdr) : Prop := {
  fl_version : ip_hdr_version ih = f_version b;
  fl_hlen : ip_hdr_len ih = f_hlen b;
  fl_total : pf_ntohs (ih_total_len ih) = f_total b;
  fl_df : negb (Z.land (pf_ntohs (ih_frag_off ih)) IP_FRAG_DF =? 0) = f_dont_frag b;
  fl_off : Z.land (pf_ntohs (ih_frag_off ih)) IP_FRAG_OFFMASK = f_frag_off b;
  fl_ttl : ih_ttl ih = f_ttl b;
  fl_proto : ih_proto ih = f_proto b;
  fl_src : pf_ntohl (ih_saddr ih) = f_src b;
  fl_dst : pf_ntohl (ih_daddr ih) = f_dst b;
}.

Lemma read_ip_fields b ih : bytes_ok b → read_ip b = Ok ih → fields_of b ih.
Proof.
  intros Hok H. do 20 (destruct b as [|? b]; [done|]). injection H as <-. byte_hyps.
  split.
  - unfold ip_hdr_version, f_version. cbn -[Z.shiftr Z.div]. by rewrite shiftr_div by lia.
  - unfold ip_hdr_len, f_hlen. cbn -[Z.land Z.modulo]. change 0x0f with (Z.ones 4).
    rewrite Z.land_ones by lia. wrap_lia.
  - unfold f_total. cbn -[pf_ntohs load16]. by apply ntohs_load16.
  - unfold f_dont_frag. cbn -[pf_ntohs load16 Z.div Z.modulo Z.land]. rewrite ntohs_load16 by done.
    change IP_FRAG_DF with (2 ^ 14). by rewrite land_pow2_eqb by lia.
  - unfold f_frag_off. cbn -[pf_ntohs load16 Z.div Z.modulo Z.land]. rewrite ntohs_load16 by done.
    change IP_FRAG_OFFMASK with (Z.ones 13). by rewrite Z.land_ones by lia.
  - done.
  - done.
  - unfold f_src, be_at, be. cbn -[pf_ntohl load32]. change (take 0 b) with (@nil Z). rewrite ntohl_load32 by done. cbn [foldl]. lia.
  - unfold f_dst, be_at, be. cbn -[pf_ntohl load32]. change (take 0 b) with (@nil Z). rewrite ntohl_load32 by done. cbn [foldl]. lia.
Qed.
