(* ===== verification/Icmp.v ===== *)
(** * ICMP

    Models [icmp/icmp.c]: echo service and counters on input, and generation
    of error messages with the RFC 1122 suppression rules and the RFC 1812
    rate limit. *)

From S2P Require Import Prelude Pf Checksum Pkt Fib Headers Stats Stack Link Arp IpOut Rfc.
Import Checksum Pkt Fib Stats.

Definition ICMP_HDR_LEN : Z := 8.
Definition ICMP_TYPE_ECHO_REPLY : Z := 0.
Definition ICMP_TYPE_DEST_UNREACH : Z := 3.
Definition ICMP_TYPE_SRC_QUENCH : Z := 4.
Definition ICMP_TYPE_REDIRECT : Z := 5.
Definition ICMP_TYPE_ECHO_REQUEST : Z := 8.
Definition ICMP_TYPE_TIME_EXCEEDED : Z := 11.
Definition ICMP_TYPE_PARAM_PROBLEM : Z := 12.
Definition ICMP_UNREACH_NET : Z := 0.
Definition ICMP_UNREACH_PROTO : Z := 2.
Definition ICMP_UNREACH_PORT : Z := 3.
Definition ICMP_UNREACH_FRAG_NEEDED : Z := 4.
Definition ICMP_TIME_EXC_TTL : Z := 0.
Definition ICMP_TIME_EXC_REASS : Z := 1.
Definition ICMP_ERR_MIN_INTERVAL_MS : Z := 10.
#[global] Hint Unfold ICMP_HDR_LEN ICMP_TYPE_ECHO_REPLY ICMP_TYPE_DEST_UNREACH
  ICMP_TYPE_SRC_QUENCH ICMP_TYPE_REDIRECT ICMP_TYPE_ECHO_REQUEST ICMP_TYPE_TIME_EXCEEDED
  ICMP_TYPE_PARAM_PROBLEM ICMP_UNREACH_NET ICMP_UNREACH_PROTO ICMP_UNREACH_PORT
  ICMP_UNREACH_FRAG_NEEDED ICMP_TIME_EXC_TTL ICMP_TIME_EXC_REASS ICMP_ERR_MIN_INTERVAL_MS : ints.

Definition icmp_type_is_error (type : Z) : bool :=
  (type =? ICMP_TYPE_DEST_UNREACH) || (type =? ICMP_TYPE_SRC_QUENCH) || (type =? ICMP_TYPE_REDIRECT)
  || (type =? ICMP_TYPE_TIME_EXCEEDED) || (type =? ICMP_TYPE_PARAM_PROBLEM).

(** A message with its checksum field computed over header and body. *)
Definition icmp_message (h : icmp_hdr) (body : bytes) : bytes :=
  let h0 := h <| ic_csum := 0 |> in
  icmp_image (h0 <| ic_csum := pf_htons (inet_csum (icmp_image h0 ++ body)) |>) ++ body.

(** The echo service: the request with type 0 and a fresh checksum, back to
    its sender from the address it was sent to. *)
Definition icmp_echo_reply (ih : ipv4_hdr) (icmp : bytes) (ch : icmp_hdr) : PF () :=
  rp ← lift (pkt_reserve pkt_alloc PKT_TX_HEADROOM);
  rp ← lift (pkt_append rp (icmp_message (ch <| ic_type := ICMP_TYPE_ECHO_REPLY |>)
                                         (drop (Z.to_nat ICMP_HDR_LEN) icmp)));
  stat_inc icmp_echo_reply_tx;;
  _ ← ip_output (pf_ntohl (ih_daddr ih)) (pf_ntohl (ih_saddr ih)) IP_PROTO_ICMP IP_DEFAULT_TTL rp;
  mret ().

Definition icmp_input (p : pkt) (ih : ipv4_hdr) : PF () :=
  stat_inc icmp_rx;;
  let ihl := ip_hdr_len ih in
  let ilen := u16 (p_len p - ihl) in
  if ilen <? ICMP_HDR_LEN then stat_inc icmp_rx_malformed
  else
    icmp ← lift (pkt_read p ihl ilen);
    if negb (inet_csum icmp =? 0) then stat_inc icmp_rx_bad_csum
    else
      ch ← lift (read_icmp icmp);
      if ic_type ch =? ICMP_TYPE_ECHO_REQUEST then
        if negb (ic_code ch =? 0) then stat_inc icmp_rx_malformed
        else stat_inc icmp_echo_req_rx;; icmp_echo_reply ih icmp ch
      else if ic_type ch =? ICMP_TYPE_ECHO_REPLY then stat_inc icmp_echo_reply_rx
      else if icmp_type_is_error (ic_type ch) then stat_inc icmp_rx_errors
      else stat_inc icmp_rx_other.

(** The early returns of [icmp_send_error]: is an error about this datagram
    forbidden? [orig] is the memory at the header pointer. *)
Definition icmp_err_forbidden (orig : bytes) (orig_avail : Z) : result bool :=
  if orig_avail <? IPV4_HDR_MIN then Ok true
  else
    ih ← read_ip orig;
    let ihl := ip_hdr_len ih in
    let osrc := pf_ntohl (ih_saddr ih) in
    let odst := pf_ntohl (ih_daddr ih) in
    if (ihl <? IPV4_HDR_MIN) || (orig_avail <? ihl) then Ok true
    else if negb (Z.land (pf_ntohs (ih_frag_off ih)) IP_FRAG_OFFMASK =? 0) then Ok true
    else if (osrc =? 0) || ip4_is_loopback osrc || ip4_is_multicast osrc
            || ip4_is_experimental osrc || ip4_is_limited_bcast osrc then Ok true
    else if ip4_is_multicast odst || ip4_is_limited_bcast odst || ip4_is_experimental odst
         then Ok true
    else if (ih_proto ih =? IP_PROTO_ICMP) && (u16 (ihl + 1) <=? orig_avail) then
      t ← in_bounds (orig !! Z.to_nat ihl);
      Ok (icmp_type_is_error t)
    else Ok false.

Definition icmp_send_error (orig : bytes) (orig_avail type code : Z) : PF () :=
  forbidden ← lift (icmp_err_forbidden orig orig_avail);
  if forbidden : bool then mret ()
  else
    now ← pf_now_ms;
    last ← get_stack ps_icmp_last_err_ms;
    if negb (last =? 0) && (u64 (now - last) <? ICMP_ERR_MIN_INTERVAL_MS) then
      stat_inc icmp_err_suppressed
    else
      ih ← lift (read_ip orig);
      let include := Z.min orig_avail (u16 (ip_hdr_len ih + 8)) in
      p ← lift (pkt_reserve pkt_alloc PKT_TX_HEADROOM);
      quoted ← lift (if include <=? zlen orig then Ok (take (Z.to_nat include) orig)
                     else Err OutOfBounds);
      p ← lift (pkt_append p (icmp_message (mk_icmp type code 0 0) quoted));
      stat_inc icmp_err_tx;;
      upd_stack (set_field ps_icmp_last_err_ms (fun _ => now));;
      _ ← ip_output 0 (pf_ntohl (ih_saddr ih)) IP_PROTO_ICMP IP_DEFAULT_TTL p;
      mret ().

(** ** Messages *)

Lemma length_icmp_message h body : zlen (icmp_message h body) = ICMP_HDR_LEN + zlen body.
Proof. unfold icmp_message. rewrite length_app, length_icmp_image. wrap_lia. Qed.

Lemma icmp_image_ok h : byte_ok (ic_type h) → byte_ok (ic_code h) → bytes_ok (icmp_image h).
Proof.
  intros. unfold icmp_image. rewrite !Forall_app.
  split_and!; auto using store16_ok, store32_ok.
Qed.

Lemma icmp_message_ok h body :
  byte_ok (ic_type h) → byte_ok (ic_code h) → bytes_ok body → bytes_ok (icmp_message h body).
Proof. intros. apply Forall_app_2; [|done]. by apply icmp_image_ok. Qed.

(** Every message the stack builds passes the receiver's checksum test. *)
Lemma icmp_message_csum h body :
  byte_ok (ic_type h) → byte_ok (ic_code h) → bytes_ok body → zlen body ≤ 65526 →
  inet_csum (icmp_message h body) = 0.
Proof.
  intros Ht Hc Hb Hl. destruct h as [t cd c0 r].
  set (c := inet_csum ([t; cd] ++ [0; 0] ++ store32 r ++ body)).
  change (icmp_message (mk_icmp t cd c0 r) body)
    with ([t; cd] ++ store16 (pf_htons c) ++ store32 r ++ body).
  rewrite store16_htons by apply csum_fold_range.
  unfold inet_csum. apply csum_fill_verifies; [by exists 1%nat|solve_bytes_ok| |cbn; lia|done|].
  - apply Forall_app_2; [apply store32_ok|done].
  - left. unfold c. done.
Qed.

(** ** Specifications *)

(** The stack invariant survives any step below ICMP. *)
Lemma net_wf_last_err w t :
  net_wf w → net_wf (w <| w_stack ::= set_field ps_icmp_last_err_ms (fun _ => t) |>).
Proof. intros [[] [] ?]. by split. Qed.

Lemma net_wf_now w t : net_wf w → net_wf (w <| w_now := t |>).
Proof. intros [[] [] ?]. by split. Qed.

Lemma ntohl_u32 x : u32_ok x → u32_ok (pf_ntohl x).
Proof. apply htonl_range. Qed.

Lemma wp_icmp_echo_reply ih icmp ch w :
  net_wf w → ip_ok ih → bytes_ok icmp → ICMP_HDR_LEN ≤ zlen icmp ≤ PKT_BUF_SIZE - PKT_TX_HEADROOM →
  byte_ok (ic_code ch) →
  let reply := icmp_message (ch <| ic_type := ICMP_TYPE_ECHO_REPLY |>) (drop 8 icmp) in
  wp (icmp_echo_reply ih icmp ch)
     (fun _ w' => erase_ip w = erase_ip w' ∧ net_wf w' ∧
        ip_output_post w (pf_ntohl (ih_daddr ih)) (pf_ntohl (ih_saddr ih)) IP_PROTO_ICMP
          IP_DEFAULT_TTL reply w') w.
Proof.
  intros Hw Hih Hok Hl Hc reply. unfold icmp_echo_reply. wp_step.
  eapply wp_lift; [apply pkt_reserve_tx|]. wp_step.
  assert (bytes_ok reply) as Hrok by (apply icmp_message_ok; [done|done|by apply Forall_drop]).
  assert (zlen reply = zlen icmp) as Hrl.
  { unfold reply. rewrite length_icmp_message, length_drop. wrap_lia. }
  destruct (tx_append_ready reply) as (rp & Hrp & Hready & Hb & _); [done|lia|].
  eapply wp_lift; [exact Hrp|]. wp_step. apply wp_stat_inc. intros w1 E1 W1 _. wp_step.
  eapply wp_mono; [apply wp_ip_output|].
  - by eapply net_wf_tx.
  - apply ntohl_u32, Hih.
  - apply ntohl_u32, Hih.
  - wrap_lia.
  - wrap_lia.
  - done.
  - intros _ w2 (E2 & Hw2 & Hpost). wp_steps. split_and!; [frame|done|].
    rewrite Hb in Hpost. eapply ip_output_post_tx; done.
Qed.

(** The message of an echo request the stack answers. *)
Definition icmp_echo_req (m : bytes) : option icmp_hdr :=
  if (ICMP_HDR_LEN <=? zlen m) && (inet_csum m =? 0) then
    match read_icmp m with
    | Ok ch => if (ic_type ch =? ICMP_TYPE_ECHO_REQUEST) && (ic_code ch =? 0) then Some ch else None
    | Err _ => None
    end
  else None.

(** The transport payload of a datagram. *)
Definition ip_payload (p : pkt) (ih : ipv4_hdr) : bytes := drop (Z.to_nat (ip_hdr_len ih)) (pkt_bytes p).

Definition icmp_input_post (w : world) (ih : ipv4_hdr) (m : bytes) (w' : world) : Prop :=
  match icmp_echo_req m with
  | None => arpc w' = arpc w ∧ w_wire w' = w_wire w
  | Some ch =>
      ip_output_post w (pf_ntohl (ih_daddr ih)) (pf_ntohl (ih_saddr ih)) IP_PROTO_ICMP IP_DEFAULT_TTL
        (icmp_message (ch <| ic_type := ICMP_TYPE_ECHO_REPLY |>) (drop 8 m)) w'
  end.

(** A received datagram: the packet starts at the header [ih]. *)
Record rx_dgram (p : pkt) (ih : ipv4_hdr) : Prop := {
  ir_wf : pkt_wf p;
  ir_read : read_ip (pkt_bytes p) = Ok ih;
  ir_ok : ip_ok ih;
  ir_ihl : IPV4_HDR_MIN ≤ ip_hdr_len ih ≤ p_len p;
}.

Lemma ip_hdr_len_range ih : ip_ok ih → 0 ≤ ip_hdr_len ih ≤ 60.
Proof.
  intros H. unfold ip_hdr_len. change 0x0f with (Z.ones 4). rewrite Z.land_ones by lia.
  change (2 ^ 4) with 16. wrap_lia.
Qed.

Lemma length_ip_payload p ih : rx_dgram p ih → zlen (ip_payload p ih) = p_len p - ip_hdr_len ih.
Proof.
  intros [Hwf _ _ Hl]. unfold ip_payload. rewrite length_drop.
  pose proof (length_pkt_bytes p Hwf). wrap_lia.
Qed.

Lemma ip_payload_ok p ih : rx_dgram p ih → bytes_ok (ip_payload p ih).
Proof. intros [Hwf _ _ _]. by apply Forall_drop, pkt_bytes_ok. Qed.

(** Reading the whole payload through [p->data + ihl]. *)
Lemma ip_payload_read p ih :
  rx_dgram p ih → pkt_read p (ip_hdr_len ih) (p_len p - ip_hdr_len ih) = Ok (ip_payload p ih).
Proof.
  intros Hrx. pose proof Hrx as [Hwf _ _ Hl]. pose proof (length_ip_payload _ _ Hrx).
  rewrite pkt_read_ok by (done || wrap_lia). f_equal. apply take_ge. unfold ip_payload in *. lia.
Qed.

Lemma ip_payload_len16 p ih :
  rx_dgram p ih → u16 (p_len p - ip_hdr_len ih) = p_len p - ip_hdr_len ih.
Proof. intros [[] _ _ Hl]. wrap_lia. Qed.

Lemma wp_icmp_input p ih w :
  net_wf w → rx_dgram p ih → p_len p - ip_hdr_len ih ≤ PKT_BUF_SIZE - PKT_TX_HEADROOM →
  wp (icmp_input p ih)
     (fun _ w' => erase_ip w = erase_ip w' ∧ net_wf w' ∧ icmp_input_post w ih (ip_payload p ih) w') w.
Proof.
  intros Hw Hrx Hsmall. pose proof (length_ip_payload _ _ Hrx) as Hml.
  pose proof (ip_payload_ok _ _ Hrx) as Hmok. unfold icmp_input. wp_step. apply wp_stat_inc.
  intros w1 E1 W1 _.
  assert (∀ w2, erase_tx w1 = erase_tx w2 → w_wire w2 = w_wire w1 →
    icmp_echo_req (ip_payload p ih) = None →
    erase_ip w = erase_ip w2 ∧ net_wf w2 ∧ icmp_input_post w ih (ip_payload p ih) w2) as Hskip.
  { intros w2 E2 W2 Hn. assert (erase_tx w = erase_tx w2) as E by congruence.
    unfold icmp_input_post. rewrite Hn, (erase_tx_arp_eq _ _ E).
    split_and!; [frame|by eapply net_wf_tx|done|congruence]. }
  unfold icmp_input_post, icmp_echo_req in *. cbv zeta.
  rewrite (ip_payload_len16 _ _ Hrx), <- Hml.
  rewrite Z.ltb_antisym. destruct (Z.leb_spec ICMP_HDR_LEN (zlen (ip_payload p ih))) as [Hge|Hlt];
    [|apply wp_stat_inc; intros; by apply Hskip].
  cbn [negb andb] in *. wp_step. rewrite Hml. eapply wp_lift; [by apply ip_payload_read|].
  destruct (inet_csum (ip_payload p ih) =? 0); [|apply wp_stat_inc; intros; by apply Hskip].
  cbn [negb andb] in *. wp_step.
  destruct (read_icmp_ok (ip_payload p ih)) as (ch & Hch & _ & Hcode & _); [done|wrap_lia|].
  eapply wp_lift; [exact Hch|]. rewrite Hch in *.
  destruct (ic_type ch =? ICMP_TYPE_ECHO_REQUEST).
  - destruct (ic_code ch =? 0); cbn [negb andb] in *; [|apply wp_stat_inc; intros; by apply Hskip].
    wp_step. apply wp_stat_inc. intros w2 E2 W2 _. assert (erase_tx w = erase_tx w2) by congruence.
    eapply wp_mono; [apply wp_icmp_echo_reply; try done; [by eapply net_wf_tx|apply Hrx|lia]|].
    intros _ w3 (E3 & Hw3 & Hpost). split_and!; [frame|done|].
    eapply ip_output_post_tx; [done| |exact Hpost]. congruence.
  - cbn [negb andb] in *.
    destruct (ic_type ch =? _); [apply wp_stat_inc; intros; by apply Hskip|].
    destruct (icmp_type_is_error _); apply wp_stat_inc; intros; by apply Hskip.
Qed.

(** ** Errors *)

Lemma icmp_err_forbidden_ok orig avail :
  bytes_ok orig → 0 ≤ avail ≤ zlen orig →
  ∃ b, icmp_err_forbidden orig avail = Ok b ∧
       (b = false → ∃ ih, read_ip orig = Ok ih ∧ ip_ok ih ∧ IPV4_HDR_MIN ≤ ip_hdr_len ih ≤ avail).
Proof.
  intros Hok Hl. unfold icmp_err_forbidden.
  destruct (Z.ltb_spec avail IPV4_HDR_MIN); [by exists true|].
  destruct (read_ip_ok orig) as (ih & Hih & Hiok & _); [done|wrap_lia|]. rewrite Hih.
  cbn [mbind result_bind]. pose proof (ip_hdr_len_range ih Hiok).
  destruct (Z.ltb_spec (ip_hdr_len ih) IPV4_HDR_MIN); cbn [orb]; [by exists true|].
  destruct (Z.ltb_spec avail (ip_hdr_len ih)); [by exists true|].
  assert (∀ b, ∃ b', Ok (A:=bool) b = Ok b' ∧
    (b' = false → ∃ ih0, Ok (A:=ipv4_hdr) ih = Ok ih0 ∧ ip_ok ih0 ∧
       IPV4_HDR_MIN ≤ ip_hdr_len ih0 ≤ avail)) as Hdone by eauto 10 with lia.
  destruct (negb _); [auto|]. destruct (_ || _ || _ || _ || _); [auto|].
  destruct (_ || _ || _); [auto|].
  destruct (_ && _) eqn:Hi; [|auto]. apply andb_true_iff in Hi as [_ Hi%Z.leb_le].
  destruct (lookup_lt_is_Some_2 orig (Z.to_nat (ip_hdr_len ih))) as [t Ht]; [wrap_lia|].
  rewrite Ht. cbn. auto.
Qed.

(** Is the rate limiter closed? *)
Definition icmp_err_limited (w : world) : bool :=
  negb (ps_icmp_last_err_ms (w_stack w) =? 0)
  && (u64 (w_now w - ps_icmp_last_err_ms (w_stack w)) <? ICMP_ERR_MIN_INTERVAL_MS).

(** The quoted part: the original header and the first eight data bytes. *)
Definition icmp_quote (orig : bytes) (avail : Z) (ih : ipv4_hdr) : bytes :=
  take (Z.to_nat (Z.min avail (ip_hdr_len ih + 8))) orig.

Definition icmp_error_post (w : world) (orig : bytes) (avail type code : Z) (w' : world) : Prop :=
  match icmp_err_forbidden orig avail with
  | Ok false =>
      if icmp_err_limited w then
        arpc w' = arpc w ∧ w_wire w' = w_wire w ∧
        ps_icmp_last_err_ms (w_stack w') = ps_icmp_last_err_ms (w_stack w)
      else
        ps_icmp_last_err_ms (w_stack w') = w_now w ∧
        ∃ ih, read_ip orig = Ok ih ∧
          ip_output_post w 0 (pf_ntohl (ih_saddr ih)) IP_PROTO_ICMP IP_DEFAULT_TTL
            (icmp_message (mk_icmp type code 0 0) (icmp_quote orig avail ih)) w'
  | _ => w' = w
  end.

Lemma wp_icmp_send_error orig avail type code w :
  net_wf w → bytes_ok orig → 0 ≤ avail ≤ zlen orig → avail < 65536 → byte_ok type → byte_ok code →
  wp (icmp_send_error orig avail type code)
     (fun _ w' => erase_icmp w = erase_icmp w' ∧ net_wf w' ∧ icmp_error_post w orig avail type code w')
     w.
Proof.
  intros Hw Hok Hav Hav2 Ht Hc. unfold icmp_send_error, icmp_error_post. wp_step.
  destruct (icmp_err_forbidden_ok orig avail Hok Hav) as (b & Hb & Hcont).
  eapply wp_lift; [exact Hb|]. rewrite Hb. destruct b.
  { wp_steps. done. }
  destruct (Hcont eq_refl) as (ih & Hih & Hiok & Hihl).
  pose proof (ip_hdr_len_range ih Hiok) as Hr. wp_steps.
  fold (icmp_err_limited w).
  destruct (icmp_err_limited w).
  { apply wp_stat_inc. intros w1 E1 W1 _. split_and!; [frame|by eapply net_wf_tx| |done|].
    - symmetry. by apply erase_tx_arp_eq.
    - symmetry. apply erase_ip_last_err. frame. }
  wp_step. eapply wp_lift; [exact Hih|]. cbv zeta. rewrite u16_small by lia.
  wp_step. eapply wp_lift; [apply pkt_reserve_tx|]. wp_step.
  rewrite (proj2 (Z.leb_le _ _)) by lia. eapply wp_lift; [done|].
  fold (icmp_quote orig avail ih). set (q := icmp_quote orig avail ih).
  assert (bytes_ok q) as Hq by by apply Forall_take.
  assert (zlen q ≤ 68) as Hql by (unfold q, icmp_quote; rewrite length_take; lia).
  set (msg := icmp_message (mk_icmp type code 0 0) q).
  assert (bytes_ok msg) as Hm by by apply icmp_message_ok.
  destruct (tx_append_ready msg) as (p & Hp & Hready & Hb' & _);
    [done|unfold msg; rewrite length_icmp_message; wrap_lia|].
  wp_step. eapply wp_lift; [exact Hp|]. wp_step. apply wp_stat_inc. intros w1 E1 W1 _.
  wp_step. apply wp_modify. wp_step.
  set (w2 := w1 <| w_stack ::= _ |>).
  assert (net_wf w2) as Hw2 by (apply net_wf_last_err; by eapply net_wf_tx).
  assert (erase_icmp w1 = erase_icmp w2) as E2 by done.
  eapply wp_mono; [apply wp_ip_output; [done|lia|apply ntohl_u32, Hiok|wrap_lia|wrap_lia|done]|].
  intros _ w3 (E3 & Hw3 & Hpost). wp_steps. split_and!.
  - apply erase_ip_icmp in E3. rewrite <- E3. frame.
  - done.
  - rewrite <- (erase_ip_last_err _ _ E3). done.
  - exists ih. split; [done|]. rewrite Hb' in Hpost. eapply (ip_output_post_tx _ w1); [done..|].
    by apply (ip_output_post_from w1 w2) in Hpost.
Qed.

(** ** Theorems *)


(** ** The rules of RFC 1122 *)

(** No error may be sent about a datagram whose bytes are [b]: the header is
    not all there; it is not the first fragment; its source does not name a
    single host; it was sent to a group; or it carries an ICMP error. *)
Inductive icmp_barred (b : bytes) : Prop :=
  | barred_header : zlen b < 20 ∨ f_hlen b < 20 ∨ zlen b < f_hlen b → icmp_barred b
  | barred_fragment : f_frag_off b ≠ 0 → icmp_barred b
  | barred_source : f_src b = 0 ∨ loopback_addr (f_src b) ∨ group_addr (f_src b) → icmp_barred b
  | barred_group : group_addr (f_dst b) → icmp_barred b
  | barred_error : f_proto b = 1 → f_hlen b < zlen b →
      be_at b (Z.to_nat (f_hlen b)) 1 ∈ [3; 4; 5; 11; 12] → icmp_barred b.

(** An error was sent less than 10 ms ago, on the 64-bit clock. *)
Definition icmp_throttled (w : world) : Prop :=
  ps_icmp_last_err_ms (w_stack w) ≠ 0 ∧ (w_now w - ps_icmp_last_err_ms (w_stack w)) mod 2 ^ 64 < 10.

(** The bytes of an error message about [b]. *)
Record icmp_error_about (b : bytes) (type code : Z) (msg : bytes) : Prop := {
  em_head : take 2 msg = [type; code];
  em_unused : take 4 (drop 4 msg) = [0; 0; 0; 0];
  em_quote : drop 8 msg = take (Z.to_nat (f_hlen b + 8)) b;
  em_csum : inet_csum msg = 0;
}.

(** What asking for an error about the datagram [b] does. *)
Record icmp_error_done (w : world) (b : bytes) (type code : Z) (w' : world) : Prop := {
  ed_silent : icmp_barred b ∨ icmp_throttled w →
    arpc w' = arpc w ∧ w_wire w' = w_wire w ∧
    ps_icmp_last_err_ms (w_stack w') = ps_icmp_last_err_ms (w_stack w);
  ed_sent : ¬ icmp_barred b → ¬ icmp_throttled w →
    ps_icmp_last_err_ms (w_stack w') = w_now w ∧
    ∃ msg, icmp_error_about b type code msg ∧
      ip_output_post w 0 (f_src b) IP_PROTO_ICMP IP_DEFAULT_TTL msg w';
}.

Lemma icmp_type_is_error_iff t : icmp_type_is_error t = true ↔ t ∈ [3; 4; 5; 11; 12].
Proof.
  unfold icmp_type_is_error. rewrite !orb_true_iff, !Z.eqb_eq. autounfold with ints. set_solver.
Qed.

Lemma byte_at b i t : b !! i = Some t → be_at b i 1 = t.
Proof. intros H. unfold be_at. rewrite (drop_S _ _ _ H). change (be [t] = t). unfold be. cbn [foldl]. lia. Qed.

(** A source the code refuses to answer. *)
Lemma icmp_bad_source_iff a :
  u32_ok a →
  (a =? 0) || ip4_is_loopback a || ip4_is_multicast a || ip4_is_experimental a || ip4_is_limited_bcast a = true
  ↔ a = 0 ∨ loopback_addr a ∨ group_addr a.
Proof.
  intros Ha. rewrite <- ip4_group_limited_iff, <- ip4_is_loopback_iff, !orb_true_iff, Z.eqb_eq by done. tauto.
Qed.

Lemma icmp_bad_dest_iff a :
  u32_ok a →
  ip4_is_multicast a || ip4_is_limited_bcast a || ip4_is_experimental a = true ↔ group_addr a.
Proof. intros Ha. rewrite <- ip4_group_limited_iff, !orb_true_iff by done. tauto. Qed.

(** The code's early returns are the rules. *)
Lemma icmp_err_forbidden_iff orig avail b :
  bytes_ok orig → 0 ≤ avail ≤ zlen orig → icmp_err_forbidden orig avail = Ok b →
  b = true ↔ icmp_barred (take (Z.to_nat avail) orig).
Proof.
  intros Hok Hl. unfold icmp_err_forbidden. set (d := take (Z.to_nat avail) orig).
  assert (zlen d = avail) as Hd by (unfold d; rewrite length_take; lia).
  assert (∀ b', icmp_barred d → Ok true = Ok b' → b' = true ↔ icmp_barred d) as Hyes by naive_solver.
  destruct (Z.ltb_spec avail IPV4_HDR_MIN) as [Hs|Hs]; unfold IPV4_HDR_MIN in Hs.
  { apply Hyes, barred_header. lia. }
  destruct (read_ip_ok orig) as (ih & Hih & Hiok & _); [done|lia|]. rewrite Hih. cbn [mbind result_bind].
  assert (read_ip d = Ok ih) as Hdih by (apply read_ip_take; [lia|done]).
  destruct (read_ip_fields d ih) as [_ Ehl _ _ Eoff _ Epr Esrc Edst]; [by apply Forall_take|done|].
  pose proof (ip_hdr_len_range ih Hiok) as Hr.
  assert (u32_ok (pf_ntohl (ih_saddr ih)) ∧ u32_ok (pf_ntohl (ih_daddr ih))) as [Hsr Hdr]
    by (split; apply ntohl_u32, Hiok).
  cbv zeta. rewrite Eoff. destruct (_ || (avail <? _)) eqn:Hh; [apply Hyes, barred_header|].
  { apply orb_true_iff in Hh as [?%Z.ltb_lt|?%Z.ltb_lt]; unfold IPV4_HDR_MIN in *; lia. }
  apply orb_false_iff in Hh as [Hh1%Z.ltb_ge Hh2%Z.ltb_ge]. unfold IPV4_HDR_MIN in *.
  destruct (Z.eqb_spec (f_frag_off d) 0) as [Hf|Hf]; cbn [negb]; [|by apply Hyes, barred_fragment].
  destruct (_ || _ || _ || _ || ip4_is_limited_bcast (pf_ntohl (ih_saddr ih))) eqn:Hsb.
  { apply icmp_bad_source_iff in Hsb; [|done]. apply Hyes, barred_source. by rewrite <- Esrc. }
  destruct (_ || _ || ip4_is_experimental (pf_ntohl (ih_daddr ih))) eqn:Hdb.
  { apply icmp_bad_dest_iff in Hdb; [|done]. apply Hyes, barred_group. by rewrite <- Edst. }
  apply not_true_iff_false in Hsb, Hdb. rewrite icmp_bad_source_iff, Esrc in Hsb by done.
  rewrite icmp_bad_dest_iff, Edst in Hdb by done.
  assert (∀ b', Ok b' = Ok b → (b' = true ↔ f_proto d = 1 ∧ f_hlen d < zlen d ∧
    be_at d (Z.to_nat (f_hlen d)) 1 ∈ [3; 4; 5; 11; 12]) → b = true ↔ icmp_barred d) as Hend.
  { intros b' [= ->] ->. split; [intros (?&?&?); by apply barred_error|].
    destruct 1 as [?|?|?|?|?]; try done. exfalso. lia. }
  destruct (_ && _) eqn:Hi.
  - apply andb_true_iff in Hi as [Hp%Z.eqb_eq Hi%Z.leb_le].
    destruct (lookup_lt_is_Some_2 orig (Z.to_nat (ip_hdr_len ih))) as [t Ht]; [wrap_lia|].
    rewrite Ht. cbn [mbind result_bind in_bounds]. intros H. apply (Hend _ H).
    rewrite icmp_type_is_error_iff, <- Ehl, (byte_at d _ t), <- Epr, Hp.
    + split; [intros ?; split_and!; [done|wrap_lia|done]|tauto].
    + unfold d. rewrite lookup_take_lt by wrap_lia. done.
  - intros H. apply (Hend _ H). split; [done|]. intros (Hp & Hlt & _). exfalso.
    apply andb_false_iff in Hi as [Hi%Z.eqb_neq|Hi%Z.leb_gt]; [|wrap_lia]. apply Hi. by rewrite Epr.
Qed.

Lemma icmp_err_limited_iff w : icmp_err_limited w = true ↔ icmp_throttled w.
Proof.
  unfold icmp_err_limited, icmp_throttled, u64. rewrite andb_true_iff, negb_true_iff, Z.eqb_neq, Z.ltb_lt.
  done.
Qed.

(** The message the code builds is one about the datagram. *)
Lemma icmp_message_about orig avail ih type code :
  bytes_ok orig → 0 ≤ avail ≤ zlen orig → 20 ≤ avail → read_ip orig = Ok ih → ip_ok ih → byte_ok type → byte_ok code →
  icmp_error_about (take (Z.to_nat avail) orig) type code
    (icmp_message (mk_icmp type code 0 0) (icmp_quote orig avail ih)).
Proof.
  intros Hok Hl Hm Hih Hiok Ht Hc. pose proof (ip_hdr_len_range ih Hiok).
  destruct (read_ip_fields (take (Z.to_nat avail) orig) ih) as [_ Ehl _ _ _ _ _ _ _];
    [by apply Forall_take|apply read_ip_take; [lia|done]|].
  split; [done|done| |].
  - change (icmp_quote orig avail ih = take (Z.to_nat (f_hlen (take (Z.to_nat avail) orig) + 8)) (take (Z.to_nat avail) orig)).
    unfold icmp_quote. rewrite take_take, <- Ehl. f_equal. lia.
  - apply icmp_message_csum; [done|done|by apply Forall_take|]. unfold icmp_quote. rewrite length_take. lia.
Qed.

(** The effect of the code is the one the rules ask for. *)
Lemma icmp_error_post_done w orig avail type code w' :
  bytes_ok orig → 0 ≤ avail ≤ zlen orig → byte_ok type → byte_ok code →
  icmp_error_post w orig avail type code w' →
  icmp_error_done w (take (Z.to_nat avail) orig) type code w' ∧
  (icmp_barred (take (Z.to_nat avail) orig) → w' = w).
Proof.
  intros Hok Hl Ht Hc. unfold icmp_error_post. destruct (icmp_err_forbidden_ok orig avail Hok Hl) as (b & Hb & Hcont).
  pose proof (icmp_err_forbidden_iff orig avail b Hok Hl Hb) as Hiff. rewrite Hb. destruct b.
  { intros ->. split; [|done]. split; [done|]. intros H. exfalso. by apply H, Hiff. }
  assert (¬ icmp_barred (take (Z.to_nat avail) orig)) as Hnb by (rewrite <- Hiff; done).
  pose proof (icmp_err_limited_iff w) as Hlim. destruct (icmp_err_limited w).
  { intros (A & W & L). split; [|done]. split; [done|]. intros _ H. exfalso. by apply H, Hlim. }
  intros [L (ih & Hih & Hout)]. split; [|done]. destruct (Hcont eq_refl) as (ih' & Hih' & Hiok & Hihl).
  assert (ih' = ih) as -> by congruence. unfold IPV4_HDR_MIN in *.
  split; [intros [H|H]; [done|apply Hlim in H; done]|]. intros _ _. split; [done|].
  eexists. split; [by apply icmp_message_about; try lia|].
  destruct (read_ip_fields (take (Z.to_nat avail) orig) ih) as [_ _ _ _ _ _ _ Esrc _];
    [by apply Forall_take|apply read_ip_take; [lia|done]|].
  by rewrite <- Esrc.
Qed.


(** The rate limit holds across calls: within 10 ms of an error that was
    sent, no further error puts anything on the wire, whatever it is about. *)
Lemma icmp_rate_limit w w1 w2 now' o1 a1 t1 c1 o2 a2 t2 c2 :
  net_wf w → bytes_ok o1 → 0 ≤ a1 ≤ zlen o1 → a1 < 65536 → byte_ok t1 → byte_ok c1 →
  bytes_ok o2 → 0 ≤ a2 ≤ zlen o2 → a2 < 65536 → byte_ok t2 → byte_ok c2 →
  icmp_send_error o1 a1 t1 c1 w = Ok ((), w1) →
  icmp_err_forbidden o1 a1 = Ok false → icmp_err_limited w = false →
  0 < w_now w ≤ now' → now' < w_now w + 10 →
  icmp_send_error o2 a2 t2 c2 (w1 <| w_now := now' |>) = Ok ((), w2) →
  w_wire w2 = w_wire w1 ∧ arpc w2 = arpc w1.
Proof.
  intros Hw Ho1 Ha1 Hb1 Ht1 Hc1 Ho2 Ha2 Hb2 Ht2 Hc2 Hrun1 Hallow Hopen Hnow Hnow' Hrun2.
  pose proof (wp_icmp_send_error o1 a1 t1 c1 w Hw Ho1 Ha1 Hb1 Ht1 Hc1) as H1. unfold wp in H1.
  rewrite Hrun1 in H1. destruct H1 as (E1 & Hw1 & Hpost1). unfold icmp_error_post in Hpost1.
  rewrite Hallow, Hopen in Hpost1. destruct Hpost1 as [Hlast _].
  set (w1' := w1 <| w_now := now' |>) in *.
  assert (net_wf w1') as Hw1' by exact (net_wf_now _ _ Hw1).
  pose proof (wp_icmp_send_error o2 a2 t2 c2 w1' Hw1' Ho2 Ha2 Hb2 Ht2 Hc2) as H2. unfold wp in H2.
  rewrite Hrun2 in H2. destruct H2 as (_ & _ & Hpost2). unfold icmp_error_post in Hpost2.
  assert (icmp_err_limited w1' = true) as Hlim.
  { unfold icmp_err_limited. change (w_stack w1') with (w_stack w1). rewrite Hlast.
    change (w_now w1') with now'. apply andb_true_iff. split; [|wrap_lia].
    apply negb_true_iff. lia. }
  rewrite Hlim in Hpost2.
  destruct (icmp_err_forbidden o2 a2) as [[]|]; [by subst| |by subst].
  by destruct Hpost2 as (-> & -> & _).
Qed.

(** C36. An echo request longer than a transmit buffer aborts the stack: the
    reply is allocated with 128 bytes of headroom and [pkt_put] of the whole
    message fails its assertion. Such messages arrive reassembled. *)
Theorem icmp_echo_overflow w p ih ch :
  rx_dgram p ih → icmp_echo_req (ip_payload p ih) = Some ch →
  PKT_BUF_SIZE - PKT_TX_HEADROOM < p_len p - ip_hdr_len ih →
  icmp_input p ih w = Err AssertFailed.
Proof.
  intros Hrx Hreq Hbig. pose proof (length_ip_payload _ _ Hrx) as Hml. unfold icmp_echo_req in Hreq.
  set (m := ip_payload p ih) in *.
  destruct (Z.leb_spec ICMP_HDR_LEN (zlen m)) as [Hge|]; [|done]. cbn [andb] in Hreq.
  destruct (inet_csum m =? 0) eqn:Hcs; [|done].
  destruct (read_icmp m) as [ch'|] eqn:Hch; [|done].
  destruct (_ =? ICMP_TYPE_ECHO_REQUEST) eqn:Hty; [|done].
  destruct (ic_code ch' =? 0) eqn:Hcode; [|done]. injection Hreq as ->.
  unfold icmp_input. eapply run_bind; [reflexivity|]. cbv zeta.
  rewrite (ip_payload_len16 _ _ Hrx), <- Hml, (proj2 (Z.ltb_ge _ _) Hge), Hml.
  eapply run_bind; [apply run_lift, ip_payload_read, Hrx|]. fold m. rewrite Hcs. cbn [negb].
  eapply run_bind; [by apply run_lift|]. rewrite Hty, Hcode. cbn [negb].
  eapply run_bind; [reflexivity|]. unfold icmp_echo_reply.
  eapply run_bind; [apply run_lift, pkt_reserve_tx|]. apply run_bind_err, run_lift_err.
  unfold pkt_append, pkt_put.
  replace (_ <=? pkt_tailroom tx_pkt) with false; [done|]. symmetry. apply Z.leb_gt.
  rewrite pkt_tailroom_eq by apply tx_pkt_wf. rewrite length_icmp_message, length_drop.
  change (p_data tx_pkt) with PKT_TX_HEADROOM. change (p_len tx_pkt) with 0. wrap_lia.
Qed.

(** ** Witnesses *)

(** A received packet holding [b] behind its pulled Ethernet header. *)
Definition mk_rx (b : bytes) : pkt :=
  pkt_alloc <| p_data := 16 |> <| p_len := zlen b |> <| p_buf := splice zero_buf 16 b |>.

Lemma mk_rx_wf b : bytes_ok b → zlen b ≤ 4080 → pkt_wf (mk_rx b) ∧ pkt_bytes (mk_rx b) = b.
Proof.
  intros Hok Hl. assert (length zero_buf = 4096%nat) as Hz by apply length_replicate.
  assert (bytes_ok zero_buf) as Hzok by (apply Forall_replicate; wrap_lia).
  split; [split|].
  - done.
  - change (0 ≤ zlen b). lia.
  - change (16 + zlen b ≤ 4096). lia.
  - change (length (splice zero_buf 16 b) = 4096%nat). rewrite length_splice; lia.
  - by apply splice_ok.
  - apply (pkt_bytes_cut _ (take 16 zero_buf) b (drop (16 + length b) zero_buf)); [done| |done].
    rewrite length_take, Hz. done.
Qed.

Lemma ip_datagram_ok src dst proto ttl id frag payload :
  u32_ok src → u32_ok dst → byte_ok proto → byte_ok ttl → bytes_ok payload →
  bytes_ok (ip_datagram src dst proto ttl id frag payload).
Proof. intros. apply Forall_app_2; [by apply ip_image_ok, ip_build_hdr_ok|done]. Qed.

(** A datagram the stack built, as received. *)
Lemma mk_rx_datagram src dst proto ttl id frag payload :
  u32_ok src → u32_ok dst → byte_ok proto → byte_ok ttl → bytes_ok payload → zlen payload ≤ 4060 →
  rx_dgram (mk_rx (ip_datagram src dst proto ttl id frag payload))
    (ip_build_hdr src dst proto ttl id frag (zlen payload + IPV4_HDR_MIN)).
Proof.
  intros. set (b := ip_datagram src dst proto ttl id frag payload).
  assert (zlen b = 20 + zlen payload) as Hl.
  { unfold b, ip_datagram. rewrite length_app, length_ip_image. lia. }
  destruct (mk_rx_wf b) as [Hwf Hb]; [by apply ip_datagram_ok|lia|].
  split; [done| |by apply ip_build_hdr_ok|].
  - rewrite Hb. apply read_ip_image. by apply ip_build_hdr_ok.
  - change (20 ≤ 20 ≤ zlen b). lia.
Qed.

Definition demo_echo (n : nat) : bytes := icmp_message (mk_icmp 8 0 0 0x01020304) (replicate n 7).
Definition demo_ping (n : nat) : pkt :=
  mk_rx (ip_datagram 0x0a000002 0x0a000001 IP_PROTO_ICMP 64 1 0 (demo_echo n)).
Definition demo_ping_hdr (n : nat) : ipv4_hdr :=
  ip_build_hdr 0x0a000002 0x0a000001 IP_PROTO_ICMP 64 1 0 (zlen (demo_echo n) + IPV4_HDR_MIN).

Lemma demo_ping_rx n : (n ≤ 4000)%nat → rx_dgram (demo_ping n) (demo_ping_hdr n).
Proof.
  intros Hn. apply mk_rx_datagram; [lia|lia|wrap_lia|wrap_lia| |].
  - unfold demo_echo. apply icmp_message_ok; [unfold byte_ok; cbn [ic_type]; lia|
      unfold byte_ok; cbn [ic_code]; lia|]. apply Forall_replicate. wrap_lia.
  - unfold demo_echo. rewrite length_icmp_message, length_replicate. wrap_lia.
Qed.


Lemma icmp_echo_overflow_witness :
  icmp_input (demo_ping 4000) (demo_ping_hdr 4000) demo = Err AssertFailed.
Proof.
  destruct (icmp_echo_req (ip_payload (demo_ping 4000) (demo_ping_hdr 4000))) as [ch|] eqn:E;
    [|vm_compute in E; discriminate].
  exact (icmp_echo_overflow demo (demo_ping 4000) (demo_ping_hdr 4000) ch
    (demo_ping_rx 4000 ltac:(lia)) E ltac:(vm_compute; reflexivity)).
Defined.

(** A UDP datagram for a closed port, as an error would quote it. *)
Definition demo_orig : bytes :=
  ip_datagram 0x0a000002 0x0a000001 IP_PROTO_UDP 64 1 0 [0; 1; 0; 2; 0; 8; 0; 0].

Lemma demo_orig_ok : bytes_ok demo_orig.
Proof. apply ip_datagram_ok; try lia; try wrap_lia. solve_bytes_ok. Qed.


Lemma icmp_rate_limit_witness :
  ∃ w1 w2,
    icmp_send_error demo_orig 28 ICMP_TYPE_DEST_UNREACH ICMP_UNREACH_PORT demo = Ok ((), w1) ∧
    icmp_send_error demo_orig 28 ICMP_TYPE_DEST_UNREACH ICMP_UNREACH_PORT (w1 <| w_now := 505 |>)
      = Ok ((), w2) ∧ w_wire w2 = w_wire w1.
Proof.
  destruct (wp_run _ _ _ (wp_icmp_send_error demo_orig 28 ICMP_TYPE_DEST_UNREACH ICMP_UNREACH_PORT
    demo demo_net_wf demo_orig_ok ltac:(cbn; lia) ltac:(lia) ltac:(wrap_lia) ltac:(wrap_lia)))
    as ([] & w1 & H1 & _ & Hw1 & _).
  assert (net_wf (w1 <| w_now := 505 |>)) as Hw1' by exact (net_wf_now _ _ Hw1).
  destruct (wp_run _ _ _ (wp_icmp_send_error demo_orig 28 ICMP_TYPE_DEST_UNREACH ICMP_UNREACH_PORT
    (w1 <| w_now := 505 |>) Hw1' demo_orig_ok ltac:(cbn; lia) ltac:(lia) ltac:(wrap_lia)
    ltac:(wrap_lia))) as ([] & w2 & H2 & _).
  exists w1, w2. split; [exact H1|]. split; [exact H2|].
  exact (proj1 (icmp_rate_limit demo w1 w2 505 demo_orig 28 ICMP_TYPE_DEST_UNREACH
    ICMP_UNREACH_PORT demo_orig 28 ICMP_TYPE_DEST_UNREACH ICMP_UNREACH_PORT demo_net_wf
    demo_orig_ok ltac:(cbn; lia) ltac:(lia) ltac:(wrap_lia) ltac:(wrap_lia)
    demo_orig_ok ltac:(cbn; lia) ltac:(lia) ltac:(wrap_lia) ltac:(wrap_lia) H1
    ltac:(vm_compute; reflexivity) ltac:(vm_compute; reflexivity) ltac:(cbn; lia) ltac:(cbn; lia)
    H2)).
Defined.
