(* ===== verification/Reass.v ===== *)
(** * IPv4 reassembly

    Models [ipv4/ip_reass.c]: eight contexts keyed by source, destination,
    identification and protocol, each with a sorted list of received ranges
    and a payload buffer; insertion that rejects overlaps; delivery of the
    completed datagram; the timeout.

    Delivery goes through [ip_local_deliver], which this file takes as a
    parameter; the receive path ([Input]) supplies it. Memory from
    [malloc] is modelled as zero bytes; the round-trip theorem shows that
    every byte delivered was written by a fragment. *)

From S2P Require Import Prelude Pf Checksum Pkt Fib Headers Stats Stack Link Arp IpOut Icmp.
Import Checksum Pkt Fib Stats.

(** ** Ranges *)

Abbreviation ranges := (list (Z * Z)).

(** The scan of [ranges_insert]: [None] on an overlap, else the position. *)
Fixpoint ranges_pos (l : ranges) (start end_ : Z) : option nat :=
  match l with
  | [] => Some 0%nat
  | (s, e) :: l =>
      if (start <? e) && (s <? end_) then None
      else if end_ <=? s then Some 0%nat
      else S <$> ranges_pos l start end_
  end.

(** The merge loop, from the last pair to the first. *)
Fixpoint ranges_coalesce (l : ranges) : ranges :=
  match l with
  | [] => []
  | (s, e) :: l =>
      match ranges_coalesce l with
      | (s', e') :: l' => if e =? s' then (s, e') :: l' else (s, e) :: (s', e') :: l'
      | [] => [(s, e)]
      end
  end.

Definition ranges_insert (l : ranges) (start end_ : Z) : option ranges :=
  pos ← ranges_pos l start end_;
  if IP_REASS_MAX_RANGES <=? zlen l then None
  else Some (ranges_coalesce (take pos l ++ (start, end_) :: drop pos l)).

(** ** Contexts *)

Definition ip_reass_init : ip_reass := replicate IP_REASS_CTXS zero_reass_ctx.

(** Every context in use is released. *)
Definition ip_reass_fini (r : ip_reass) : ip_reass :=
  (fun c => if rc_in_use c then zero_reass_ctx else c) <$> r.

Definition ctx_match (src dst id proto : Z) (c : ip_reass_ctx) : Prop :=
  rc_in_use c = true ∧ rc_src c = src ∧ rc_dst c = dst ∧ rc_id c = id ∧ rc_proto c = proto.
#[global] Instance ctx_match_dec src dst id proto c : Decision (ctx_match src dst id proto c).
Proof. unfold ctx_match. apply _. Defined.

Definition ctx_find (r : ip_reass) (src dst id proto : Z) : option nat :=
  fst <$> list_find (ctx_match src dst id proto) r.

Definition get_ctx (i : nat) : PF ip_reass_ctx :=
  r ← get_stack ps_reass; lift (in_bounds (r !! i)).
Definition upd_ctx (i : nat) (f : ip_reass_ctx → ip_reass_ctx) : PF () :=
  _ ← get_ctx i; upd_stack (set_field ps_reass (alter f i)).
Definition ctx_release (i : nat) : PF () := upd_ctx i (fun _ => zero_reass_ctx).

(** The scan of [ctx_alloc]: [inl] the first free context, or [inr] the one
    with the earliest deadline. *)
Fixpoint ctx_scan (r : ip_reass) (i victim : nat) (vdeadline : Z) : nat + nat :=
  match r with
  | [] => inr victim
  | c :: r =>
      if negb (rc_in_use c) then inl i
      else if rc_deadline_ms c <? vdeadline then ctx_scan r (S i) i (rc_deadline_ms c)
      else ctx_scan r (S i) victim vdeadline
  end.

Definition ctx_alloc : PF nat :=
  r ← get_stack ps_reass;
  c0 ← lift (in_bounds (r !! 0%nat));
  i ← match ctx_scan r 0 0 (rc_deadline_ms c0) with
      | inl i => mret i
      | inr i => stat_inc ip_reass_evicted;; ctx_release i;; mret i
      end;
  upd_ctx i (fun c => c <| rc_in_use := true |> <| rc_expected_total := -1 |>
                        <| rc_payload := replicate (Z.to_nat IP_REASS_MAX_PAYLOAD) 0 |>);;
  mret i.

(** What becomes of the context a fragment belongs to. *)
Inductive frag_outcome :=
  | FragTooBig
  | FragOverlap
  | FragKept (c : ip_reass_ctx).

(** [ip_reass_input] from the size check to the copy of the header: [off],
    [data] and [mf] of the fragment, [hdr] its IP header. *)
Definition ip_reass_add (c : ip_reass_ctx) (off : Z) (mf : bool) (hdr data : bytes) : frag_outcome :=
  let paylen := zlen data in
  let end_ := off + paylen in
  if IP_REASS_MAX_PAYLOAD <? u32 end_ then FragTooBig
  else if negb mf && (0 <=? rc_expected_total c) && negb (rc_expected_total c =? end_) then FragOverlap
  else
    let c := if mf then c else c <| rc_expected_total := end_ |> in
    if (0 <=? rc_expected_total c) && (rc_expected_total c <? end_) then FragOverlap
    else
      match ranges_insert (rc_ranges c) off (u16 end_) with
      | None => FragOverlap
      | Some rs =>
          let c := c <| rc_ranges := rs |>
                     <| rc_payload ::= fun b => splice b (Z.to_nat off) data |> in
          FragKept (if off =? 0
                    then c <| rc_have_first := true |> <| rc_hdr ::= fun h => splice h 0 hdr |>
                           <| rc_hdr_len := zlen hdr |>
                    else c)
      end.

(** The [memcpy]s of the fragment stay inside [payload] and [hdr]. *)
Definition copy_fits (c : ip_reass_ctx) (off : Z) (hdr data : bytes) : result () :=
  if (off + zlen data <=? zlen (rc_payload c)) && (negb (off =? 0) || (zlen hdr <=? IPV4_HDR_MAX))
  then Ok () else Err OutOfBounds.

Definition ctx_complete (c : ip_reass_ctx) : bool :=
  rc_have_first c && (0 <=? rc_expected_total c) &&
  match rc_ranges c with
  | [(s, e)] => (s =? 0) && (e =? u16 (rc_expected_total c))
  | _ => false
  end.

(** The rebuilt header: fragmentation cleared, length and checksum redone. *)
Definition reass_ih (hdr : bytes) (ih : ipv4_hdr) (total : Z) : ipv4_hdr :=
  let ih := ih <| ih_total_len := pf_htons (u16 (zlen hdr + total)) |> <| ih_frag_off := 0 |>
               <| ih_csum := 0 |> in
  ih <| ih_csum := pf_htons (inet_csum (ip_image ih ++ drop 20 hdr)) |>.

Definition reass_hdr (hdr : bytes) (ih : ipv4_hdr) (total : Z) : bytes :=
  ip_image (reass_ih hdr ih total) ++ drop 20 hdr.

Section reass.
Context (ip_local_deliver : option nat → pkt → ipv4_hdr → PF ()).

Definition deliver_complete (i : nat) : PF () :=
  c ← get_ctx i;
  let total := u16 (rc_expected_total c) in
  let hdr := take (Z.to_nat (rc_hdr_len c)) (rc_hdr c) in
  ih ← lift (read_ip hdr);
  p ← lift (pkt_append pkt_alloc (reass_hdr hdr ih total));
  data ← lift (if total <=? zlen (rc_payload c) then Ok (take (Z.to_nat total) (rc_payload c))
               else Err OutOfBounds);
  p ← lift (pkt_append p data);
  let dev := rc_dev c in
  stat_inc ip_reass_completed;;
  ctx_release i;;
  ih ← lift (read_ip (pkt_bytes p));
  ip_local_deliver dev p ih.

(** A new context for the key of fragment [ih]. *)
Definition ctx_open (dev : nat) (src dst id proto : Z) : PF nat :=
  i ← ctx_alloc;
  now ← pf_now_ms;
  upd_ctx i (fun c => c <| rc_src := src |> <| rc_dst := dst |> <| rc_id := id |>
                        <| rc_proto := proto |> <| rc_dev := Some dev |>
                        <| rc_deadline_ms := u64 (now + IP_REASS_TIMEOUT_MS) |>);;
  mret i.

Definition ip_reass_input (dev : nat) (p : pkt) (ih : ipv4_hdr) : PF () :=
  let frag := pf_ntohs (ih_frag_off ih) in
  let off := u16 (Z.land frag IP_FRAG_OFFMASK * 8) in
  let mf := negb (Z.land frag IP_FRAG_MF =? 0) in
  let ihl := ip_hdr_len ih in
  let paylen := u16 (p_len p - ihl) in
  if (paylen =? 0) || (mf && negb (Z.land paylen 7 =? 0)) then stat_inc ip_reass_bad_frag
  else
    let src := pf_ntohl (ih_saddr ih) in
    let dst := pf_ntohl (ih_daddr ih) in
    let id := pf_ntohs (ih_id ih) in
    r ← get_stack ps_reass;
    i ← match ctx_find r src dst id (ih_proto ih) with
        | Some i => mret i
        | None => ctx_open dev src dst id (ih_proto ih)
        end;
    c ← get_ctx i;
    hdr ← lift (pkt_read p 0 ihl);
    data ← lift (pkt_read p ihl paylen);
    match ip_reass_add c off mf hdr data with
    | FragTooBig => stat_inc ip_reass_too_big;; ctx_release i
    | FragOverlap => stat_inc ip_reass_overlap_drops;; ctx_release i
    | FragKept c =>
        lift (copy_fits c off hdr data);;
        upd_ctx i (fun _ => c);;
        when (ctx_complete c) (deliver_complete i)
    end.

Definition ip_reass_tick_ctx (now_ms : Z) (i : nat) : PF () :=
  c ← get_ctx i;
  if negb (rc_in_use c) || (now_ms <? rc_deadline_ms c) then mret ()
  else
    stat_inc ip_reass_timeouts;;
    when (rc_have_first c)
      (let data8 := match rc_ranges c with
                    | (s, e) :: _ => if s =? 0 then Z.min 8 e else 0
                    | [] => 0
                    end in
       let tmp := take (Z.to_nat (rc_hdr_len c)) (rc_hdr c)
                  ++ take (Z.to_nat data8) (rc_payload c) in
       icmp_send_error tmp (u16 (rc_hdr_len c + data8)) ICMP_TYPE_TIME_EXCEEDED ICMP_TIME_EXC_REASS);;
    ctx_release i.

Definition ip_reass_tick (now_ms : Z) : PF () :=
  for_each (seq 0 IP_REASS_CTXS) (ip_reass_tick_ctx now_ms).
End reass.

(** ** Ranges: sorted, disjoint, never adjacent *)

Fixpoint canon (lo : Z) (l : ranges) : Prop :=
  match l with
  | [] => True
  | (s, e) :: l => lo ≤ s ∧ s < e ∧ canon (e + 1) l
  end.

Fixpoint covered (l : ranges) (x : Z) : Prop :=
  match l with
  | [] => False
  | (s, e) :: l => s ≤ x < e ∨ covered l x
  end.

Lemma canon_weaken lo lo' l : lo' ≤ lo → canon lo l → canon lo' l.
Proof. destruct l as [|[s e] l]; cbn; [done|]. intros ? (? & ? & ?). split_and!; [lia|done..]. Qed.

Lemma canon_covered lo l x : canon lo l → covered l x → lo ≤ x.
Proof.
  revert lo. induction l as [|[s e] l IH]; intros lo; cbn; [done|].
  intros (Hs & Hse & Hl) [H|H]; [lia|]. specialize (IH _ Hl H). lia.
Qed.

Lemma canon_coalesce lo l : canon lo l → ranges_coalesce l = l.
Proof.
  revert lo. induction l as [|[s e] l IH]; intros lo; cbn; [done|].
  intros (Hs & Hse & Hl). rewrite (IH _ Hl). destruct l as [|[s' e'] l]; [done|].
  cbn in Hl. destruct (Z.eqb_spec e s'); [lia|done].
Qed.

(** Putting a range in front of a list that starts no earlier than its end. *)
Lemma coalesce_cons lo s e l :
  lo ≤ s → s < e → canon e (ranges_coalesce l) →
  canon lo (ranges_coalesce ((s, e) :: l)) ∧
  ∀ x, covered (ranges_coalesce ((s, e) :: l)) x ↔ s ≤ x < e ∨ covered (ranges_coalesce l) x.
Proof.
  intros Hlo Hse Hc. cbn. destruct (ranges_coalesce l) as [|[s' e'] l']; cbn in *.
  - split; [done|tauto].
  - destruct Hc as (H1 & H2 & H3). destruct (Z.eqb_spec e s') as [->|Hne]; cbn.
    + split; [split_and!; [lia|lia|done]|]. intros x. intuition lia.
    + split; [split_and!; [lia|lia|lia|done..]|]. intros x. tauto.
Qed.

(** The scan reports an overlap exactly when there is one. *)
Lemma ranges_pos_None lo l s e :
  canon lo l → s < e → ranges_pos l s e = None ↔ ∃ x, covered l x ∧ s ≤ x < e.
Proof.
  revert lo. induction l as [|[a b] l IH]; intros lo; cbn.
  - intros _ _. split; [done|]. by intros (x & [] & _).
  - intros (Ha & Hab & Hl) Hse.
    destruct (Z.ltb_spec s b), (Z.ltb_spec a e); cbn [andb].
    + split; [|done]. intros _. exists (Z.max s a). split; [left|]; lia.
    + destruct (Z.leb_spec e a); [|lia]. split; [done|].
      intros (x & [Hx|Hx] & Hx'); [lia|]. pose proof (canon_covered _ _ _ Hl Hx). lia.
    + destruct (Z.leb_spec e a); [lia|]. rewrite fmap_None, (IH _ Hl Hse).
      split; intros (x & Hx & Hx'); exists x; (split; [|done]); [by right|].
      destruct Hx; [lia|done].
    + destruct (Z.leb_spec e a); [lia|]. lia.
Qed.

Lemma ranges_pos_insert lo l s e pos :
  canon lo l → lo ≤ s → s < e → ranges_pos l s e = Some pos →
  let l' := ranges_coalesce (take pos l ++ (s, e) :: drop pos l) in
  canon lo l' ∧ ∀ x, covered l' x ↔ covered l x ∨ s ≤ x < e.
Proof.
  revert lo pos. induction l as [|[a b] l IH]; intros lo pos; cbn [ranges_pos].
  - intros _ Hs Hse [= <-]. cbn. split; [done|tauto].
  - intros (Ha & Hab & Hl) Hs Hse.
    destruct ((s <? b) && (a <? e)) eqn:Ho; [done|].
    destruct (Z.leb_spec e a) as [Hea|Hea].
    + intros [= <-]. cbn [take drop app].
      assert (canon e ((a, b) :: l)) as Hc by done.
      destruct (coalesce_cons lo s e ((a, b) :: l)) as [H1 H2]; [done|done| |].
      { by rewrite (canon_coalesce _ _ Hc). }
      rewrite (canon_coalesce _ _ Hc) in H2. split; [done|]. intros x. rewrite H2. tauto.
    + intros (pos' & Hp & ->)%fmap_Some. cbn [take drop app].
      assert (b ≤ s) as Hbs by (apply andb_false_iff in Ho; lia).
      destruct (IH b pos') as [H1 H2]; [by eapply canon_weaken; [|exact Hl]; lia|done..|].
      destruct (coalesce_cons lo a b _ Ha Hab H1) as [H3 H4].
      split; [done|]. intros x. rewrite H4, H2. cbn. tauto.
Qed.

(** [ranges_insert] as a specification: it fails on an overlap or a full
    table, and otherwise adds exactly the new bytes. *)
Lemma ranges_insert_spec l s e :
  canon 0 l → 0 ≤ s < e →
  match ranges_insert l s e with
  | Some l' => zlen l < IP_REASS_MAX_RANGES ∧ canon 0 l' ∧ (∀ x, covered l x → ¬ (s ≤ x < e)) ∧
               ∀ x, covered l' x ↔ covered l x ∨ s ≤ x < e
  | None => (∃ x, covered l x ∧ s ≤ x < e) ∨ IP_REASS_MAX_RANGES ≤ zlen l
  end.
Proof.
  intros Hc Hse. unfold ranges_insert. pose proof (ranges_pos_None 0 l s e Hc) as HN.
  destruct (ranges_pos l s e) as [pos|] eqn:Hp; cbn; [|left; apply HN; [lia|done]].
  destruct (Z.leb_spec IP_REASS_MAX_RANGES (zlen l)); [by right|].
  destruct (ranges_pos_insert 0 l s e pos Hc) as [H1 H2]; [lia|lia|done|].
  split_and!; try done. intros x Hx Hx'. assert (Some pos = None) as E; [|done].
  apply HN; [lia|]. eauto.
Qed.

(** A canonical list covering exactly [[0, n)] is one range. *)
Lemma canon_full l n : canon 0 l → 0 < n → (∀ x, covered l x ↔ 0 ≤ x < n) → l = [(0, n)].
Proof.
  intros Hc Hn Hcov. destruct l as [|[s e] l]; [destruct (proj2 (Hcov 0)); lia|].
  destruct Hc as (Hs & Hse & Hl).
  assert (s = 0) as ->.
  { destruct (proj2 (Hcov 0)) as [H|H]; [lia|lia|]. pose proof (canon_covered _ _ _ Hl H). lia. }
  assert (n ≤ e) as Hne.
  { destruct (Z.le_gt_cases n e) as [|Hlt]; [done|]. destruct (proj2 (Hcov e)) as [H|H]; [lia|lia|].
    pose proof (canon_covered _ _ _ Hl H). lia. }
  assert (e = n) as ->.
  { assert (0 ≤ e - 1 < n); [|lia]. apply Hcov. left. lia. }
  f_equal. destruct l as [|[s' e'] l]; [done|]. destruct Hl as (Hs' & Hse' & _).
  assert (0 ≤ s' < n); [|lia]. apply Hcov. right. left. lia.
Qed.

(** Merging never lengthens the list. *)
Lemma length_coalesce l : (length (ranges_coalesce l) ≤ length l)%nat.
Proof.
  induction l as [|[s e] l IH]; cbn; [done|].
  destruct (ranges_coalesce l) as [|[s' e'] l']; cbn in *; [lia|].
  destruct (e =? s'); cbn; lia.
Qed.

Lemma length_ranges_insert l s e l' :
  ranges_insert l s e = Some l' → zlen l' ≤ IP_REASS_MAX_RANGES.
Proof.
  unfold ranges_insert. intros (pos & _ & H)%bind_Some.
  destruct (Z.leb_spec IP_REASS_MAX_RANGES (zlen l)); simplify_eq.
  etrans; [apply inj_le, length_coalesce|]. rewrite length_app, length_take. cbn [length].
  rewrite length_drop. lia.
Qed.

(** ** The invariant *)

(** The header of fragment zero, as saved. *)
Definition saved_hdr (c : ip_reass_ctx) : bytes := take (Z.to_nat (rc_hdr_len c)) (rc_hdr c).

Definition first_ok (c : ip_reass_ctx) (ih : ipv4_hdr) : Prop :=
  read_ip (saved_hdr c) = Ok ih ∧ ip_ok ih ∧ ip_hdr_len ih = rc_hdr_len c ∧
  IPV4_HDR_MIN ≤ rc_hdr_len c ≤ IPV4_HDR_MAX ∧ ih_proto ih = rc_proto c.

(** The largest ICMP message the echo service can answer. *)
Definition ICMP_MAX : Z := PKT_BUF_SIZE - PKT_TX_HEADROOM.
#[local] Hint Unfold ICMP_MAX : ints.

Record ctx_live (ndevs : nat) (c : ip_reass_ctx) : Prop := {
  cl_payload_len : zlen (rc_payload c) = IP_REASS_MAX_PAYLOAD;
  cl_payload_ok : bytes_ok (rc_payload c);
  cl_hdr_len : zlen (rc_hdr c) = IPV4_HDR_MAX;
  cl_hdr_ok : bytes_ok (rc_hdr c);
  cl_canon : canon 0 (rc_ranges c);
  cl_bound : ∀ x, covered (rc_ranges c) x → x < IP_REASS_MAX_PAYLOAD;
  cl_exp : -1 ≤ rc_expected_total c ≤ IP_REASS_MAX_PAYLOAD;
  cl_dev : ∃ d, rc_dev c = Some d ∧ (d < ndevs)%nat;
  cl_first : rc_have_first c = true → ∃ ih, first_ok c ih;
  cl_icmp : rc_proto c = IP_PROTO_ICMP → rc_expected_total c ≤ ICMP_MAX;
}.

Definition ctx_wf (ndevs : nat) (c : ip_reass_ctx) : Prop :=
  if rc_in_use c then ctx_live ndevs c else c = zero_reass_ctx.

Record reass_wf (ndevs : nat) (r : ip_reass) : Prop := {
  rw_len : length r = IP_REASS_CTXS;
  rw_ctxs : Forall (ctx_wf ndevs) r;
}.

Abbreviation reass w := (ps_reass (w_stack w)).

Lemma zero_ctx_wf n : ctx_wf n zero_reass_ctx.
Proof. done. Qed.

Lemma ip_reass_init_wf n : reass_wf n ip_reass_init.
Proof. split; [apply length_replicate|apply Forall_replicate, zero_ctx_wf]. Qed.

Lemma reass_wf_insert n r i c : reass_wf n r → ctx_wf n c → reass_wf n (<[i:=c]> r).
Proof. intros [Hl Hc] Hn. split; [by rewrite length_insert|by apply Forall_insert]. Qed.

(** The state with another context table. *)
Definition set_reass (w : world) (r : ip_reass) : world :=
  w <| w_stack ::= set_field ps_reass (fun _ => r) |>.

Lemma reass_set_reass w r : reass (set_reass w r) = r.
Proof. done. Qed.

Lemma set_reass_twice w r r' : set_reass (set_reass w r) r' = set_reass w r'.
Proof. done. Qed.

Lemma net_wf_set_reass w r : net_wf w → net_wf (set_reass w r).
Proof. intros [[] [] ?]. by split. Qed.

Lemma wp_get_ctx i c (Q : ip_reass_ctx → world → Prop) w :
  reass w !! i = Some c → Q c w → wp (get_ctx i) Q w.
Proof. intros Hi HQ. unfold get_ctx. wp_steps. eapply wp_lift; [by rewrite Hi|done]. Qed.

Lemma wp_upd_ctx i c f (Q : () → world → Prop) w :
  reass w !! i = Some c → Q () (set_reass w (<[i:=f c]> (reass w))) → wp (upd_ctx i f) Q w.
Proof.
  intros Hi HQ. unfold upd_ctx. wp_step. eapply wp_get_ctx; [done|]. apply wp_modify.
  replace (w <| w_stack ::= set_field ps_reass (alter f i) |>)
    with (set_reass w (<[i:=f c]> (reass w))); [done|].
  unfold set_reass, set_field. f_equal. f_equal. symmetry. by apply alter_insert.
Qed.

(** ** Opening a context *)

Definition fresh_ctx (dev : nat) (src dst id proto now : Z) : ip_reass_ctx :=
  mk_reass_ctx true src dst id proto (Some dev) (u64 (now + IP_REASS_TIMEOUT_MS)) false (-1) []
    (replicate (Z.to_nat IPV4_HDR_MAX) 0) 0 (replicate (Z.to_nat IP_REASS_MAX_PAYLOAD) 0).
#[global] Arguments fresh_ctx : simpl never.

Lemma fresh_ctx_live n dev src dst id proto now :
  (dev < n)%nat → ctx_live n (fresh_ctx dev src dst id proto now).
Proof.
  intros Hd. split; try done.
  - apply Forall_replicate. wrap_lia.
  - apply Forall_replicate. wrap_lia.
  - eexists. by split.
Qed.

Definition ctx_scan_ok (r : ip_reass) (x : nat + nat) : Prop :=
  match x with
  | inl i => ∃ c, r !! i = Some c ∧ rc_in_use c = false
  | inr i => ∃ c, r !! i = Some c ∧ Forall (fun c' => rc_in_use c' = true) r ∧
                  Forall (fun c' => rc_deadline_ms c ≤ rc_deadline_ms c') r
  end.

Lemma ctx_scan_post seen r v c :
  (seen ++ r) !! v = Some c → Forall (fun c' => rc_in_use c' = true) seen →
  Forall (fun c' => rc_deadline_ms c ≤ rc_deadline_ms c') seen →
  ctx_scan_ok (seen ++ r) (ctx_scan r (length seen) v (rc_deadline_ms c)).
Proof.
  revert seen v c. induction r as [|x r IH]; intros seen v c Hv Hs Hd; cbn [ctx_scan].
  - cbn. rewrite app_nil_r in *. eauto.
  - assert ((seen ++ x :: r) !! length seen = Some x) as Hx by by apply list_lookup_middle.
    destruct (rc_in_use x) eqn:Hu; cbn [negb]; [|cbn; eauto].
    replace (S (length seen)) with (length (seen ++ [x])) by (rewrite length_app; cbn; lia).
    replace (seen ++ x :: r) with ((seen ++ [x]) ++ r) in * by by rewrite <- app_assoc.
    destruct (Z.ltb_spec (rc_deadline_ms x) (rc_deadline_ms c)).
    + apply IH; [done|by apply Forall_app_2; [|constructor]|].
      apply Forall_app_2; [|constructor; [lia|done]]. eapply Forall_impl; [exact Hd|]. cbn. lia.
    + apply IH; [done| |]; (apply Forall_app_2; [|constructor]); done.
Qed.

Lemma wp_ctx_open dev src dst id proto (Q : nat → world → Prop) w :
  reass_wf (length (devs w)) (reass w) →
  (∀ i w1, erase_tx w = erase_tx w1 → w_wire w1 = w_wire w → (i < IP_REASS_CTXS)%nat →
     Q i (set_reass w1 (<[i:=fresh_ctx dev src dst id proto (w_now w)]> (reass w)))) →
  wp (ctx_open dev src dst id proto) Q w.
Proof.
  intros Hr HQ. unfold ctx_open, ctx_alloc. wp_steps.
  destruct (lookup_lt_is_Some_2 (reass w) 0) as [c0 Hc0]; [rewrite (rw_len _ _ Hr); wrap_lia|].
  eapply wp_lift; [by rewrite Hc0|]. wp_step.
  pose proof (ctx_scan_post [] (reass w) 0 c0 Hc0 ltac:(done) ltac:(done)) as Hp. cbn [app length] in Hp.
  assert (∀ i w1, erase_tx w = erase_tx w1 → w_wire w1 = w_wire w → (i < IP_REASS_CTXS)%nat →
    wp (upd_ctx i (fun c => c <| rc_in_use := true |> <| rc_expected_total := -1 |>
                        <| rc_payload := replicate (Z.to_nat IP_REASS_MAX_PAYLOAD) 0 |>);; mret i)
       (fun a w' => wp (now ← pf_now_ms; upd_ctx a (fun c => c <| rc_src := src |> <| rc_dst := dst |>
          <| rc_id := id |> <| rc_proto := proto |> <| rc_dev := Some dev |>
          <| rc_deadline_ms := u64 (now + IP_REASS_TIMEOUT_MS) |>);; mret a) Q w')
       (set_reass w1 (<[i:=zero_reass_ctx]> (reass w)))) as Hfin.
  { intros i w1 E1 W1 Hi. wp_step.
    assert (<[i:=zero_reass_ctx]> (reass w) !! i = Some zero_reass_ctx) as Hz.
    { apply list_lookup_insert_eq. rewrite (rw_len _ _ Hr). done. }
    eapply wp_upd_ctx; [exact Hz|]. wp_steps.
    eapply wp_upd_ctx; [by eapply lookup_inserted|]. wp_steps.
    assert (w_now w1 = w_now w) as N1.
    { symmetry. by apply erase_icmp_proj, erase_ip_icmp, erase_arp_ip, erase_tx_arp. }
    specialize (HQ i w1 E1 W1 Hi). rewrite <- N1 in HQ.
    rewrite !set_reass_twice, !reass_set_reass, !insert_twice. exact HQ. }
  destruct (ctx_scan _ _ _ _) as [i|i]; cbn [ctx_scan_ok] in Hp.
  - destruct Hp as (c & Hi & Hu). wp_step.
    pose proof (Forall_lookup_1 _ _ _ _ (rw_ctxs _ _ Hr) Hi) as Hc. unfold ctx_wf in Hc.
    rewrite Hu in Hc. subst c. specialize (Hfin i w eq_refl eq_refl).
    rewrite list_insert_id in Hfin by done.
    replace (set_reass w (reass w)) with w in Hfin by by destruct w as [[] ? ?].
    apply Hfin. apply lookup_lt_Some in Hi. by rewrite (rw_len _ _ Hr) in Hi.
  - destruct Hp as (c & Hi & _ & _). wp_step. apply wp_stat_inc. intros w1 E1 W1 _. wp_step.
    assert (reass w = reass w1) as R1.
    { by apply erase_icmp_proj, erase_ip_icmp, erase_arp_ip, erase_tx_arp. }
    eapply wp_upd_ctx; [by rewrite <- R1|]. wp_step. rewrite <- R1. apply Hfin; try done.
    apply lookup_lt_Some in Hi. by rewrite (rw_len _ _ Hr) in Hi.
Qed.

(** ** Adding a fragment *)

(** A fragment as [ip_reass_input] sees it: header, offset, flag and data. *)
Record frag_ok (ih : ipv4_hdr) (hdr : bytes) (off : Z) (data : bytes) : Prop := {
  fk_read : read_ip hdr = Ok ih;
  fk_ok : ip_ok ih;
  fk_hdr : bytes_ok hdr;
  fk_ihl : zlen hdr = ip_hdr_len ih;
  fk_ihl_min : IPV4_HDR_MIN ≤ ip_hdr_len ih;
  fk_off : 0 ≤ off < 65536;
  fk_data : bytes_ok data;
  fk_len : 0 < zlen data < 65536;
}.

Lemma splice_take {A} (l h : list A) : (length h ≤ length l)%nat → take (length h) (splice l 0 h) = h.
Proof. intros. unfold splice. by rewrite take_0, app_nil_l, take_app_length. Qed.

(** A total length, once a last fragment tells it. *)
Lemma ctx_live_expect n c T :
  ctx_live n c → -1 ≤ T ≤ IP_REASS_MAX_PAYLOAD → (rc_proto c = IP_PROTO_ICMP → T ≤ ICMP_MAX) →
  ctx_live n (c <| rc_expected_total := T |>).
Proof. intros [] HT Hi. by split. Qed.

(** The bytes of a fragment, once its range is recorded. *)
Lemma ctx_live_data n c off data rs :
  ctx_live n c → bytes_ok data → 0 ≤ off → off + zlen data ≤ IP_REASS_MAX_PAYLOAD → canon 0 rs →
  (∀ x, covered rs x → covered (rc_ranges c) x ∨ off ≤ x < off + zlen data) →
  ctx_live n (c <| rc_ranges := rs |> <| rc_payload ::= fun b => splice b (Z.to_nat off) data |>).
Proof.
  intros [L1 L2 L3 L4 L5 L6 L7 L8 L9 L10] Hd Ho Hl Hcan Hcov. split; cbn -[splice]; try done.
  - rewrite length_splice; [done|]. lia.
  - by apply splice_ok.
  - intros x [Hx|Hx]%Hcov; [auto|lia].
Qed.

(** The header of the first fragment. *)
Lemma ctx_live_first n c ih hdr data :
  ctx_live n c → frag_ok ih hdr 0 data → ih_proto ih = rc_proto c →
  ctx_live n (c <| rc_have_first := true |> <| rc_hdr ::= fun h => splice h 0 hdr |> <| rc_hdr_len := zlen hdr |>).
Proof.
  intros [L1 L2 L3 L4 L5 L6 L7 L8 L9 L10] [F1 F2 F3 F4 F5 F6 F7 F8] Hproto.
  pose proof (ip_hdr_len_range _ F2) as Hihl. split; cbn -[splice]; try done.
  - rewrite length_splice; [done|]. wrap_lia.
  - by apply splice_ok.
  - intros _. exists ih. unfold first_ok, saved_hdr. cbn -[splice].
    rewrite Nat2Z.id, splice_take by wrap_lia. rewrite F4. split_and!; try done. wrap_lia.
Qed.

Lemma ip_reass_add_live n c ih hdr off mf data c' :
  ctx_live n c → frag_ok ih hdr off data → ih_proto ih = rc_proto c →
  (rc_proto c = IP_PROTO_ICMP → off + zlen data ≤ ICMP_MAX) →
  ip_reass_add c off mf hdr data = FragKept c' →
  ctx_live n c' ∧ copy_fits c' off hdr data = Ok () ∧ rc_in_use c' = rc_in_use c.
Proof.
  intros Hc Hfr Hproto Hicmp. pose proof Hfr as [F1 F2 F3 F4 F5 F6 F7 F8].
  pose proof (ip_hdr_len_range _ F2) as Hihl. unfold ip_reass_add. cbv zeta.
  destruct (Z.ltb_spec IP_REASS_MAX_PAYLOAD (u32 (off + zlen data))) as [|Hsz]; [done|].
  assert (u32 (off + zlen data) = off + zlen data) as Hu by wrap_lia. rewrite Hu in Hsz.
  assert (u16 (off + zlen data) = off + zlen data) as -> by wrap_lia.
  destruct (negb mf && _ && _); [done|].
  set (c1 := if mf then c else c <| rc_expected_total := off + zlen data |>).
  assert (ctx_live n c1 ∧ rc_proto c1 = rc_proto c ∧ rc_in_use c1 = rc_in_use c) as (H1 & Ep & Eu).
  { unfold c1. destruct mf; [done|]. split; [|done]. apply ctx_live_expect; [done|lia|done]. }
  clearbody c1. destruct (_ && _); [done|].
  pose proof (ranges_insert_spec (rc_ranges c1) off (off + zlen data) (cl_canon _ _ H1) ltac:(lia)) as Hins.
  destruct (ranges_insert _ _ _) as [rs|]; [|done]. destruct Hins as (_ & Hcan & _ & Hcov).
  pose proof (ctx_live_data n c1 off data rs H1 ltac:(done) ltac:(lia) Hsz Hcan (fun x => proj1 (Hcov x))) as H2.
  intros [= <-]. set (c2 := c1 <| rc_ranges := _ |> <| rc_payload ::= _ |>) in *.
  assert (rc_proto c2 = rc_proto c ∧ rc_in_use c2 = rc_in_use c) as [Ep2 Eu2] by done. clearbody c2.
  pose proof (cl_payload_len _ _ H2) as HP. unfold copy_fits. destruct (Z.eqb_spec off 0) as [->|Hne].
  - split; [eapply ctx_live_first; [done|done|congruence]|]. split; [|done]. cbn -[splice Z.add Z.leb]. rewrite HP.
    rewrite (proj2 (Z.leb_le (0 + zlen data) _)), (proj2 (Z.leb_le (zlen hdr) _)) by wrap_lia. done.
  - split; [done|]. split; [|done]. rewrite HP, (proj2 (Z.leb_le (off + zlen data) _)) by lia. done.
Qed.

(** ** Delivery *)

(** What the reassembler hands up when [c] is complete. *)
Definition reass_total (c : ip_reass_ctx) : Z := rc_expected_total c.
Definition reass_datagram (c : ip_reass_ctx) (ih : ipv4_hdr) : bytes :=
  reass_hdr (saved_hdr c) ih (reass_total c) ++ take (Z.to_nat (reass_total c)) (rc_payload c).

Lemma reass_ih_ok hdr ih total : ip_ok ih → ip_ok (reass_ih hdr ih total).
Proof. intros []. split; cbn; try done; apply htons_range. Qed.

Lemma length_saved_hdr n c ih : ctx_live n c → first_ok c ih → zlen (saved_hdr c) = rc_hdr_len c.
Proof. intros [] (_ & _ & _ & Hl & _). unfold saved_hdr. rewrite length_take. wrap_lia. Qed.

(** The rebuilt header verifies. *)
Lemma reass_hdr_csum hdr ih total :
  ip_ok ih → bytes_ok hdr → zlen hdr ≤ 60 → inet_csum (reass_hdr hdr ih total) = 0.
Proof.
  intros Hok Hh Hl. unfold reass_hdr. set (h := reass_ih hdr ih total).
  assert (bytes_ok (ip_image h)) as Hi by by apply ip_image_ok, reass_ih_ok.
  rewrite ip_image_csum, <- !app_assoc. unfold inet_csum.
  set (h0 := h <| ih_csum := 0 |>).
  change (ih_csum h) with (pf_htons (inet_csum (ip_image h0 ++ drop 20 hdr))).
  rewrite store16_htons by apply csum_fold_range.
  apply csum_fill_verifies; [by exists 5%nat|by apply Forall_take| | |done|].
  - apply Forall_app_2; by apply Forall_drop.
  - rewrite length_app, !length_drop, length_take, length_ip_image. lia.
  - left. reflexivity.
Qed.

Lemma ctx_complete_total n c :
  ctx_live n c → ctx_complete c = true →
  rc_have_first c = true ∧ 0 < rc_expected_total c ≤ IP_REASS_MAX_PAYLOAD ∧
  rc_ranges c = [(0, rc_expected_total c)].
Proof.
  intros Hl Hc. unfold ctx_complete in Hc. apply andb_true_iff in Hc as [Hc Hr].
  apply andb_true_iff in Hc as [Hf He%Z.leb_le].
  destruct (rc_ranges c) as [|[s e] [|]] eqn:Er; try done.
  apply andb_true_iff in Hr as [->%Z.eqb_eq ->%Z.eqb_eq].
  pose proof (cl_exp _ _ Hl). pose proof (cl_canon _ _ Hl) as Hcan. rewrite Er in *. cbn in Hcan.
  assert (u16 (rc_expected_total c) = rc_expected_total c) as E by wrap_lia. rewrite E in *.
  split_and!; [done|lia|lia|done].
Qed.

Section deliver.
Context (ip_local_deliver : option nat → pkt → ipv4_hdr → PF ()).

(** Completion releases the context and hands up the rebuilt datagram. *)
Lemma wp_deliver_complete n i c ih (Q : () → world → Prop) w :
  reass w !! i = Some c → ctx_live n c → ctx_complete c = true → first_ok c ih →
  (∀ p w1, erase_tx (set_reass w (<[i:=zero_reass_ctx]> (reass w))) = erase_tx w1 →
     w_wire w1 = w_wire w → pkt_bytes p = reass_datagram c ih →
     rx_dgram p (reass_ih (saved_hdr c) ih (reass_total c)) →
     wp (ip_local_deliver (rc_dev c) p (reass_ih (saved_hdr c) ih (reass_total c))) Q w1) →
  wp (deliver_complete ip_local_deliver i) Q w.
Proof.
  intros Hi Hl Hc Hf HQ. destruct (ctx_complete_total _ _ Hl Hc) as (_ & Ht & _).
  pose proof (length_saved_hdr _ _ _ Hl Hf) as Hhl.
  pose proof Hf as (F1 & F2 & F3 & F4 & F5). destruct Hl as [L1 L2 L3 L4 L5 L6 L7 L8 L9 L10].
  unfold deliver_complete. wp_step. eapply wp_get_ctx; [done|].
  assert (u16 (rc_expected_total c) = reass_total c) as -> by (unfold reass_total; wrap_lia).
  fold (saved_hdr c). wp_step. eapply wp_lift; [exact F1|]. wp_step.
  assert (bytes_ok (saved_hdr c)) as Hsok by by apply Forall_take.
  set (h := reass_hdr (saved_hdr c) ih (reass_total c)).
  assert (zlen h = rc_hdr_len c) as Hhlen.
  { unfold h, reass_hdr. rewrite length_app, length_ip_image, length_drop. wrap_lia. }
  assert (bytes_ok h) as Hhok.
  { apply Forall_app_2; [by apply ip_image_ok, reass_ih_ok|by apply Forall_drop]. }
  destruct (pkt_append_ok pkt_alloc h) as (p1 & Hp1 & Hwf1 & Hb1 & Hd1 & Hl1);
    [apply pkt_alloc_wf|done| |].
  { change (zlen h ≤ 4096 - 2 - 0). wrap_lia. }
  eapply wp_lift; [exact Hp1|]. wp_step. unfold reass_total in *.
  rewrite (proj2 (Z.leb_le _ _)) by lia. eapply wp_lift; [done|]. wp_step.
  set (d := take (Z.to_nat (rc_expected_total c)) (rc_payload c)).
  assert (zlen d = rc_expected_total c) as Hdl by (unfold d; rewrite length_take; lia).
  change (p_data pkt_alloc) with 2 in Hd1. change (p_len pkt_alloc) with 0 in Hl1.
  destruct (pkt_append_ok p1 d) as (p & Hp & Hwf & Hb & Hdat & Hlen);
    [done|by apply Forall_take| |].
  { rewrite Hd1, Hl1. wrap_lia. }
  eapply wp_lift; [exact Hp|]. wp_step. apply wp_stat_inc. intros w1 E1 W1 _. wp_step.
  assert (reass w = reass w1) as R1.
  { by apply erase_icmp_proj, erase_ip_icmp, erase_arp_ip, erase_tx_arp. }
  eapply wp_upd_ctx; [by rewrite <- R1|]. wp_step.
  assert (pkt_bytes pkt_alloc = []) as H0 by done.
  rewrite Hb1, H0 in Hb. cbn [app] in Hb.
  set (ih' := reass_ih (saved_hdr c) ih (rc_expected_total c)) in *.
  assert (ip_ok ih') as Hok' by by apply reass_ih_ok.
  assert (read_ip (pkt_bytes p) = Ok ih') as Hread.
  { rewrite Hb. unfold h, reass_hdr. rewrite <- app_assoc. by apply read_ip_image. }
  eapply wp_lift; [exact Hread|]. apply HQ; [|done|done|].
  - rewrite <- R1. assert (∀ r, erase_tx (set_reass w r) = erase_tx (set_reass w1 r)) as ->; [|done].
    intros r. change (set_reass (erase_tx w) r = set_reass (erase_tx w1) r). by rewrite E1.
  - split; [done..|]. change (ip_hdr_len ih') with (ip_hdr_len ih). rewrite F3, Hlen, Hl1. wrap_lia.
Qed.
End deliver.

(** ** Input *)

(** The fragment a received datagram carries. *)
Definition frag_off (ih : ipv4_hdr) : Z := Z.land (pf_ntohs (ih_frag_off ih)) IP_FRAG_OFFMASK * 8.
Definition frag_mf (ih : ipv4_hdr) : bool := negb (Z.land (pf_ntohs (ih_frag_off ih)) IP_FRAG_MF =? 0).
Definition dgram_hdr (p : pkt) (ih : ipv4_hdr) : bytes := take (Z.to_nat (ip_hdr_len ih)) (pkt_bytes p).
Definition frag_bad (p : pkt) (ih : ipv4_hdr) : bool :=
  (zlen (ip_payload p ih) =? 0) || (frag_mf ih && negb (Z.land (zlen (ip_payload p ih)) 7 =? 0)).

Lemma frag_off_range ih : 0 ≤ frag_off ih < 65536.
Proof.
  unfold frag_off, IP_FRAG_OFFMASK. change 0x1fff with (Z.ones 13). rewrite Z.land_ones by lia.
  change (2 ^ 13) with 8192. Z.div_mod_to_equations. lia.
Qed.

Lemma rx_frag_ok p ih :
  rx_dgram p ih → frag_bad p ih = false →
  frag_ok ih (dgram_hdr p ih) (frag_off ih) (ip_payload p ih).
Proof.
  intros Hrx Hb. pose proof (length_ip_payload _ _ Hrx) as Hpl. pose proof Hrx as [Hwf Hr Hok Hihl].
  pose proof (length_pkt_bytes _ Hwf). unfold frag_bad in Hb. apply orb_false_iff in Hb as [Hz%Z.eqb_neq _].
  split; try done.
  - apply read_ip_take; [wrap_lia|done].
  - by apply Forall_take, pkt_bytes_ok.
  - unfold dgram_hdr. rewrite length_take. wrap_lia.
  - lia.
  - apply frag_off_range.
  - by apply ip_payload_ok.
  - destruct Hwf. wrap_lia.
Qed.

(** The context fragment [ih] goes to, found or just opened. *)
Inductive ctx_for (dev : nat) (ih : ipv4_hdr) (w : world) (i : nat) (c : ip_reass_ctx) : world → Prop :=
  | ctx_found :
      ctx_find (reass w) (pf_ntohl (ih_saddr ih)) (pf_ntohl (ih_daddr ih)) (pf_ntohs (ih_id ih))
        (ih_proto ih) = Some i → reass w !! i = Some c → ctx_for dev ih w i c w
  | ctx_opened w0 :
      ctx_find (reass w) (pf_ntohl (ih_saddr ih)) (pf_ntohl (ih_daddr ih)) (pf_ntohs (ih_id ih))
        (ih_proto ih) = None → (i < IP_REASS_CTXS)%nat → erase_tx w = erase_tx w0 →
      w_wire w0 = w_wire w →
      c = fresh_ctx dev (pf_ntohl (ih_saddr ih)) (pf_ntohl (ih_daddr ih)) (pf_ntohs (ih_id ih))
            (ih_proto ih) (w_now w) →
      ctx_for dev ih w i c (set_reass w0 (<[i:=c]> (reass w))).

Lemma ctx_find_Some r src dst id proto i :
  ctx_find r src dst id proto = Some i → ∃ c, r !! i = Some c ∧ ctx_match src dst id proto c.
Proof.
  unfold ctx_find. intros ([j c] & H & ->)%fmap_Some. apply list_find_Some in H as (? & ? & _). eauto.
Qed.

(** The context is live and of the fragment's protocol. *)
Lemma ctx_for_live n dev ih w i c w1 :
  reass_wf n (reass w) → (dev < n)%nat → ctx_for dev ih w i c w1 →
  ctx_live n c ∧ rc_in_use c = true ∧ rc_proto c = ih_proto ih ∧ reass w1 !! i = Some c ∧
  reass_wf n (reass w1).
Proof.
  intros Hr Hd [Hf Hi|w0 Hn Hi E W ->].
  - apply ctx_find_Some in Hf as (c' & Hc' & Hm). rewrite Hi in Hc'. simplify_eq.
    destruct Hm as (Hu & _ & _ & _ & Hp).
    pose proof (Forall_lookup_1 _ _ _ _ (rw_ctxs _ _ Hr) Hi) as Hc. unfold ctx_wf in Hc.
    rewrite Hu in Hc. done.
  - rewrite reass_set_reass. split_and!; try done.
    + by apply fresh_ctx_live.
    + apply list_lookup_insert_eq. by rewrite (rw_len _ _ Hr).
    + apply reass_wf_insert; [done|]. unfold ctx_wf. by apply fresh_ctx_live.
Qed.

Definition icmp_small (p : pkt) (ih : ipv4_hdr) : Prop :=
  ih_proto ih = IP_PROTO_ICMP → zlen (ip_payload p ih) ≤ ICMP_MAX.

(** A fragment that does not make an ICMP message too long to answer. *)
Definition frag_small (p : pkt) (ih : ipv4_hdr) : Prop :=
  ih_proto ih = IP_PROTO_ICMP → frag_off ih + zlen (ip_payload p ih) ≤ ICMP_MAX.

Section input.
Context (ip_local_deliver : option nat → pkt → ipv4_hdr → PF ()).

(** The state after the context [i] was released. *)
Definition released (i : nat) (w1 w2 : world) : Prop :=
  erase_tx (set_reass w1 (<[i:=zero_reass_ctx]> (reass w1))) = erase_tx w2 ∧ w_wire w2 = w_wire w1.

Lemma erase_tx_set_reass w w' r : erase_tx w = erase_tx w' → erase_tx (set_reass w r) = erase_tx (set_reass w' r).
Proof.
  intros E. change (set_reass (erase_tx w) r = set_reass (erase_tx w') r). by rewrite E.
Qed.

Lemma wp_drop_ctx s i c (Q : () → world → Prop) w :
  reass w !! i = Some c → (∀ w2, released i w w2 → Q () w2) → wp (stat_inc s;; ctx_release i) Q w.
Proof.
  intros Hi HQ. wp_step. apply wp_stat_inc. intros w1 E1 W1 _.
  assert (reass w = reass w1) as R1.
  { by apply erase_icmp_proj, erase_ip_icmp, erase_arp_ip, erase_tx_arp. }
  eapply wp_upd_ctx; [by rewrite <- R1|]. apply HQ. split; [|done].
  rewrite <- R1. by apply erase_tx_set_reass.
Qed.

Lemma wp_ip_reass_input_core dev p ih (Q : () → world → Prop) w :
  reass_wf (length (devs w)) (reass w) → (dev < length (devs w))%nat → rx_dgram p ih →
  frag_small p ih →
  (frag_bad p ih = true → ∀ w', erase_tx w = erase_tx w' → w_wire w' = w_wire w → Q () w') →
  (frag_bad p ih = false → ∀ i c w1, ctx_for dev ih w i c w1 →
     match ip_reass_add c (frag_off ih) (frag_mf ih) (dgram_hdr p ih) (ip_payload p ih) with
     | FragKept c' =>
         if ctx_complete c' then
           ∀ ih0 p' w2, first_ok c' ih0 → released i w1 w2 →
             pkt_bytes p' = reass_datagram c' ih0 →
             rx_dgram p' (reass_ih (saved_hdr c') ih0 (reass_total c')) →
             wp (ip_local_deliver (rc_dev c') p' (reass_ih (saved_hdr c') ih0 (reass_total c'))) Q w2
         else Q () (set_reass w1 (<[i:=c']> (reass w1)))
     | _ => ∀ w2, released i w1 w2 → Q () w2
     end) →
  wp (ip_reass_input ip_local_deliver dev p ih) Q w.
Proof.
  intros Hr Hdev Hrx Hsmall Hbad Hgood. pose proof (length_ip_payload _ _ Hrx) as Hpl.
  pose proof (ir_ihl _ _ Hrx) as Hihl. pose proof (frag_off_range ih) as Hoff.
  unfold ip_reass_input. cbv zeta. rewrite (ip_payload_len16 _ _ Hrx), <- Hpl.
  fold (frag_mf ih). fold (frag_off ih). rewrite (u16_small (frag_off ih)) by done.
  fold (frag_bad p ih). destruct (frag_bad p ih) eqn:Hfb.
  { apply wp_stat_inc. intros w1 E1 W1 _. by apply Hbad. }
  pose proof (rx_frag_ok _ _ Hrx Hfb) as Hfk. specialize (Hgood eq_refl). wp_steps.
  eapply (wp_mono _ (fun i w1 => ∃ c, ctx_for dev ih w i c w1)).
  { destruct (ctx_find _ _ _ _ _) as [i|] eqn:Hf; wp_steps.
    - destruct (ctx_find_Some _ _ _ _ _ _ Hf) as (c & Hc & _). exists c. by apply ctx_found.
    - apply wp_ctx_open; [done|]. intros i w1 E1 W1 Hi. eexists. by apply ctx_opened. }
  intros i w1 (c & Hctx). specialize (Hgood i c w1 Hctx).
  destruct (ctx_for_live _ _ _ _ _ _ _ Hr Hdev Hctx) as (Hl & Hu & Hp & Hi & Hr1). wp_step.
  eapply wp_get_ctx; [done|]. wp_step. destruct Hrx as [Hwf Hrd Hok Hih].
  pose proof (length_pkt_bytes _ Hwf) as Hbl.
  eapply wp_lift; [apply pkt_read_ok; [done|lia|wrap_lia|lia]|]. wp_step.
  rewrite drop_0. fold (dgram_hdr p ih). rewrite Hpl.
  eapply wp_lift; [apply ip_payload_read; by split|].
  destruct (ip_reass_add _ _ _ _ _) as [| |c'] eqn:Hadd.
  1, 2: eapply wp_drop_ctx; [exact Hi|exact Hgood].
  assert (rc_proto c = IP_PROTO_ICMP → frag_off ih + zlen (ip_payload p ih) ≤ ICMP_MAX) as Hs
    by (rewrite Hp; exact Hsmall).
  destruct (ip_reass_add_live _ _ _ _ _ _ _ _ Hl Hfk (eq_sym Hp) Hs Hadd) as (Hl' & Hfit & Hu').
  wp_step. eapply wp_lift; [exact Hfit|]. wp_step. eapply wp_upd_ctx; [exact Hi|].
  apply wp_when; intros Hc; rewrite Hc in Hgood; [|done].
  destruct (ctx_complete_total _ _ Hl' Hc) as (Hf & _).
  destruct (cl_first _ _ Hl' Hf) as (ih0 & Hih0).
  eapply wp_deliver_complete; [by eapply lookup_inserted|done..|].
  intros p' w2 E2 W2 Hb2 Hrx2. eapply Hgood; try done. split; [|done].
  by rewrite set_reass_twice, reass_set_reass, insert_twice in E2.
Qed.
End input.

(** ** Safety

    What the reassembler needs of the protocols above it: [twf] is their
    invariant, which depends on nothing below them, and delivery of any
    received datagram preserves it and the network layer's. *)

Class Transport (deliver : option nat → pkt → ipv4_hdr → PF ()) (twf : world → Prop) : Prop := {
  tr_keep : ∀ w w', ps_socks (w_stack w') = ps_socks (w_stack w) →
    ps_tcp (w_stack w') = ps_tcp (w_stack w) → twf w → twf w';
  tr_deliver : ∀ w dev p ih, net_wf w → twf w → rx_dgram p ih → icmp_small p ih →
    wp (deliver dev p ih) (fun _ w' => net_wf w' ∧ twf w' ∧ erase_l4 w = erase_l4 w') w;
}.

Section safety.
Context {deliver : option nat → pkt → ipv4_hdr → PF ()} {twf : world → Prop}.
Context `{HT : !Transport deliver twf}.

(** The invariant of the stack as the reassembler keeps it. *)
Record ip_wf (w : world) : Prop := {
  iw_net : net_wf w;
  iw_reass : reass_wf (length (devs w)) (reass w);
  iw_twf : twf w;
}.

Lemma ip_wf_icmp w w' : ip_wf w → erase_icmp w = erase_icmp w' → net_wf w' → ip_wf w'.
Proof.
  intros [Hn Hr Ht] E Hn'. destruct (erase_icmp_proj _ _ E) as (_ & _ & R & S & T & _).
  split; [done| |].
  - by rewrite <- R, <- (erase_icmp_length _ _ E).
  - by eapply tr_keep; [..|exact Ht].
Qed.

Lemma ip_wf_tx w w' : ip_wf w → erase_tx w = erase_tx w' → ip_wf w'.
Proof. intros Hw E. eapply ip_wf_icmp; [done|frame|]. eapply net_wf_tx; [apply Hw|done]. Qed.

Lemma ip_wf_set_reass w r : ip_wf w → reass_wf (length (devs w)) r → ip_wf (set_reass w r).
Proof.
  intros [Hn Hr Ht] Hr'. split; [by apply net_wf_set_reass|done|]. by eapply tr_keep; [..|exact Ht].
Qed.

Lemma ctx_for_wf dev ih w i c w1 :
  ip_wf w → (dev < length (devs w))%nat → ctx_for dev ih w i c w1 →
  ip_wf w1 ∧ erase_in w = erase_in w1.
Proof.
  intros Hw Hd Hc. destruct (ctx_for_live _ _ _ _ _ _ _ (iw_reass _ Hw) Hd Hc) as (_ & _ & _ & _ & Hr1).
  destruct Hc as [|w0 _ _ E W _]; [done|]. split.
  - apply ip_wf_set_reass; [by eapply ip_wf_tx|].
    assert (erase_icmp w = erase_icmp w0) as E' by frame. by rewrite <- (erase_icmp_length _ _ E').
  - change (erase_in w = erase_in w0). frame.
Qed.

Lemma released_wf i w1 w2 : ip_wf w1 → released i w1 w2 → ip_wf w2 ∧ erase_in w1 = erase_in w2.
Proof.
  intros Hw [E _]. split.
  - eapply ip_wf_tx; [|exact E]. apply ip_wf_set_reass; [done|].
    apply reass_wf_insert; [apply Hw|apply zero_ctx_wf].
  - change (erase_in (set_reass w1 (<[i:=zero_reass_ctx]> (reass w1))) = erase_in w2). frame.
Qed.

Lemma reass_datagram_len n c ih p :
  ctx_live n c → ctx_complete c = true → first_ok c ih → pkt_bytes p = reass_datagram c ih →
  rx_dgram p (reass_ih (saved_hdr c) ih (reass_total c)) →
  ip_payload p (reass_ih (saved_hdr c) ih (reass_total c)) =
  take (Z.to_nat (rc_expected_total c)) (rc_payload c).
Proof.
  intros Hl Hc Hf Hb Hrx. pose proof (length_saved_hdr _ _ _ Hl Hf) as Hs.
  destruct Hf as (_ & _ & F3 & F4 & _). unfold ip_payload. rewrite Hb.
  change (ip_hdr_len (reass_ih _ _ _)) with (ip_hdr_len ih). rewrite F3.
  unfold reass_datagram. rewrite drop_app_ge.
  - unfold reass_hdr. rewrite length_app, length_ip_image, length_drop.
    replace (_ - _)%nat with 0%nat by wrap_lia. done.
  - unfold reass_hdr. rewrite length_app, length_ip_image, length_drop. wrap_lia.
Qed.

Lemma wp_ip_reass_input dev p ih w :
  ip_wf w → (dev < length (devs w))%nat → rx_dgram p ih → frag_small p ih →
  wp (ip_reass_input deliver dev p ih) (fun _ w' => ip_wf w' ∧ erase_in w = erase_in w') w.
Proof.
  intros Hw Hd Hrx Hs. apply wp_ip_reass_input_core; [apply Hw|done..| |].
  { intros _ w' E _. split; [by eapply ip_wf_tx|frame]. }
  intros Hb i c w1 Hc. destruct (ctx_for_wf _ _ _ _ _ _ Hw Hd Hc) as [Hw1 E1].
  destruct (ctx_for_live _ _ _ _ _ _ _ (iw_reass _ Hw) Hd Hc) as (Hl & Hu & Hp & Hi & _).
  destruct (ip_reass_add _ _ _ _ _) as [| |c'] eqn:Hadd.
  1, 2: intros w2 H2; destruct (released_wf _ _ _ Hw1 H2); split; [done|congruence].
  assert (rc_proto c = IP_PROTO_ICMP → frag_off ih + zlen (ip_payload p ih) ≤ ICMP_MAX) as Hs'
    by (rewrite Hp; exact Hs).
  destruct (ip_reass_add_live _ _ _ _ _ _ _ _ Hl (rx_frag_ok _ _ Hrx Hb) (eq_sym Hp) Hs' Hadd)
    as (Hl' & _ & Hu').
  destruct (ctx_complete c') eqn:Hcomp.
  - intros ih0 p' w2 Hf H2 Hbytes Hrx'. destruct (released_wf _ _ _ Hw1 H2) as [Hw2 E2].
    eapply wp_mono; [apply tr_deliver; [apply Hw2|apply Hw2|done|]|].
    + intros Hproto. rewrite (reass_datagram_len _ _ _ _ Hl' Hcomp Hf Hbytes Hrx').
      rewrite length_take. pose proof (cl_icmp _ _ Hl') as Hi'.
      destruct (ctx_complete_total _ _ Hl' Hcomp) as (_ & Ht & _).
      destruct Hf as (_ & _ & _ & _ & F5). change (ih_proto ih0 = IP_PROTO_ICMP) in Hproto.
      rewrite <- F5 in Hi'. specialize (Hi' Hproto). lia.
    + intros _ w3 (Hn3 & Ht3 & E3). split; [|frame]. split; [done| |done].
      rewrite <- (erase_l4_reass _ _ E3). apply erase_l4_in in E3.
      rewrite <- (erase_in_length _ _ E3). apply Hw2.
  - split; [|exact E1]. apply ip_wf_set_reass; [done|]. apply reass_wf_insert; [apply Hw1|].
    unfold ctx_wf. rewrite Hu', Hu, <- (erase_in_length _ _ E1). done.
Qed.

(** ** The timer *)

Lemma wp_ip_reass_tick_ctx now i w :
  ip_wf w → (i < IP_REASS_CTXS)%nat →
  wp (ip_reass_tick_ctx now i) (fun _ w' => ip_wf w' ∧ erase_in w = erase_in w') w.
Proof.
  intros Hw Hi. destruct (lookup_lt_is_Some_2 (reass w) i) as [c Hc];
    [by rewrite (rw_len _ _ (iw_reass _ Hw))|].
  unfold ip_reass_tick_ctx. wp_step. eapply wp_get_ctx; [done|].
  pose proof (Forall_lookup_1 _ _ _ _ (rw_ctxs _ _ (iw_reass _ Hw)) Hc) as Hcw. unfold ctx_wf in Hcw.
  destruct (rc_in_use c) eqn:Hu; cbn [negb orb]; [|by wp_steps].
  destruct (now <? rc_deadline_ms c); [by wp_steps|].
  wp_step. apply wp_stat_inc. intros w1 E1 W1 _. wp_step.
  eapply (wp_mono _ (fun _ w2 => erase_icmp w = erase_icmp w2 ∧ ip_wf w2)).
  - assert (ip_wf w1) as Hw1 by by eapply ip_wf_tx.
    apply wp_when; intros Hf; [|split; [frame|done]].
    destruct (cl_first _ _ Hcw Hf) as (ih & Hih). pose proof (length_saved_hdr _ _ _ Hcw Hih) as Hsl.
    destruct Hih as (_ & _ & _ & F4 & _). cbv zeta.
    set (d8 := match rc_ranges c with [] => 0 | (s, e) :: _ => if s =? 0 then Z.min 8 e else 0 end).
    assert (0 ≤ d8 ≤ 8) as Hd8.
    { unfold d8. pose proof (cl_canon _ _ Hcw) as Hcan. destruct (rc_ranges c) as [|[s e] l]; [lia|].
      destruct (Z.eqb_spec s 0); [|lia]. cbn in Hcan. lia. }
    fold (saved_hdr c).
    assert (zlen (saved_hdr c ++ take (Z.to_nat d8) (rc_payload c)) = rc_hdr_len c + d8) as Hlen.
    { pose proof (cl_payload_len _ _ Hcw). rewrite length_app, length_take. wrap_lia. }
    rewrite u16_small by wrap_lia.
    eapply wp_mono; [apply wp_icmp_send_error; try wrap_lia; [apply Hw1|]|].
    + apply Forall_app_2; apply Forall_take; apply Hcw.
    + intros _ w2 (E2 & Hn2 & _). split; [frame|]. by eapply ip_wf_icmp; [exact Hw1| |].
  - intros _ w2 (E2 & Hw2). destruct (erase_icmp_proj _ _ E2) as (_ & _ & R2 & _).
    eapply wp_upd_ctx; [by rewrite <- R2|]. split.
    + apply ip_wf_set_reass; [done|]. apply reass_wf_insert; [apply Hw2|apply zero_ctx_wf].
    + change (erase_in w = erase_in w2). frame.
Qed.

Lemma wp_ip_reass_tick now w :
  ip_wf w → wp (ip_reass_tick now) (fun _ w' => ip_wf w' ∧ erase_in w = erase_in w') w.
Proof.
  intros Hw. unfold ip_reass_tick.
  apply (wp_for_each (fun w' => ip_wf w' ∧ erase_in w = erase_in w')); [done|].
  intros i w1 Hi [Hw1 E1]. eapply wp_mono; [apply wp_ip_reass_tick_ctx; [done|]|].
  - apply elem_of_seq in Hi. lia.
  - intros _ w2 [Hw2 E2]. split; [done|congruence].
Qed.
End safety.

(** ** Round trip *)

Abbreviation rx := (pkt * ipv4_hdr)%type.

Definition in_frag (q : rx) (x : Z) : Prop :=
  frag_off q.2 ≤ x < frag_off q.2 + zlen (ip_payload q.1 q.2).

(** [q] is a fragment of [data]: its bytes sit at its offset, it is flagged
    unless it is the end, and is 8-byte aligned when flagged. *)
Record frag_of (data : bytes) (q : rx) : Prop := {
  fo_rx : rx_dgram q.1 q.2;
  fo_pos : 0 < zlen (ip_payload q.1 q.2);
  fo_slice : ip_payload q.1 q.2 =
    take (length (ip_payload q.1 q.2)) (drop (Z.to_nat (frag_off q.2)) data);
  fo_end : frag_off q.2 + zlen (ip_payload q.1 q.2) ≤ zlen data;
  fo_mf : frag_mf q.2 = negb (frag_off q.2 + zlen (ip_payload q.1 q.2) =? zlen data);
  fo_align : frag_mf q.2 = true → zlen (ip_payload q.1 q.2) mod 8 = 0;
}.

Definition frag_key (src dst id proto : Z) (q : rx) : Prop :=
  pf_ntohl (ih_saddr q.2) = src ∧ pf_ntohl (ih_daddr q.2) = dst ∧ pf_ntohs (ih_id q.2) = id ∧
  ih_proto q.2 = proto.

Definition frags_disjoint (q q' : rx) : Prop := ∀ x, in_frag q x → ¬ in_frag q' x.

(** The context [c] after the fragments [S] of [data]. *)
Record holds (n dev : nat) (src dst id proto : Z) (data : bytes) (S : list rx) (c : ip_reass_ctx) :
    Prop := {
  ho_live : ctx_live n c;
  ho_key : ctx_match src dst id proto c;
  ho_dev : rc_dev c = Some dev;
  ho_cover : ∀ x, covered (rc_ranges c) x ↔ ∃ q, q ∈ S ∧ in_frag q x;
  ho_count : zlen (rc_ranges c) ≤ zlen S;
  ho_bytes : ∀ x, covered (rc_ranges c) x → rc_payload c !! Z.to_nat x = data !! Z.to_nat x;
  ho_total : (∃ q, q ∈ S ∧ frag_mf q.2 = false) → rc_expected_total c = zlen data;
  ho_no_total : (∀ q, q ∈ S → frag_mf q.2 = true) → rc_expected_total c = -1;
  ho_first : ∀ q, q ∈ S → frag_off q.2 = 0 → rc_have_first c = true ∧ saved_hdr c = dgram_hdr q.1 q.2;
}.

Lemma splice_lookup {A} (l : list A) pos h j :
  (pos + length h ≤ length l)%nat →
  splice l pos h !! j = if decide (pos ≤ j < pos + length h)%nat then h !! (j - pos)%nat else l !! j.
Proof.
  intros Hl. unfold splice. destruct (decide _) as [Hj|Hj].
  - rewrite lookup_app_r, length_take by (rewrite length_take; lia).
    rewrite Nat.min_l, lookup_app_l by lia. done.
  - destruct (decide (j < pos)%nat).
    + rewrite lookup_app_l by (rewrite length_take; lia). by rewrite lookup_take_lt.
    + rewrite lookup_app_r, length_take, Nat.min_l by (rewrite ?length_take; lia).
      rewrite lookup_app_r, lookup_drop by lia. f_equal. lia.
Qed.

Lemma fresh_holds n dev src dst id proto now data :
  (dev < n)%nat → holds n dev src dst id proto data [] (fresh_ctx dev src dst id proto now).
Proof.
  intros Hd. split; try done.
  - by apply fresh_ctx_live.
  - intros x. split; [done|]. intros (q & Hq & _). by apply elem_of_nil in Hq.
  - intros (q & Hq & _). by apply elem_of_nil in Hq.
  - intros q Hq. by apply elem_of_nil in Hq.
Qed.

Lemma length_ranges_insert_S l s e l' : ranges_insert l s e = Some l' → zlen l' ≤ zlen l + 1.
Proof.
  unfold ranges_insert. intros (pos & _ & H)%bind_Some. destruct (_ <=? _); simplify_eq.
  etrans; [apply inj_le, length_coalesce|]. rewrite length_app, length_take. cbn [length].
  rewrite length_drop. lia.
Qed.

Lemma frag_of_not_bad data q : frag_of data q → frag_bad q.1 q.2 = false.
Proof.
  intros [_ Hp _ _ _ Ha]. unfold frag_bad. apply orb_false_iff. split; [lia|].
  destruct (frag_mf q.2); [|done]. specialize (Ha eq_refl). cbn [andb].
  change 7 with (Z.ones 3). rewrite Z.land_ones by lia. change (2 ^ 3) with 8. by rewrite Ha.
Qed.

Lemma ctx_find_spec src dst id proto r i :
  ctx_find r src dst id proto = Some i ↔
  ∃ c, r !! i = Some c ∧ ctx_match src dst id proto c ∧
       ∀ j c', r !! j = Some c' → (j < i)%nat → ¬ ctx_match src dst id proto c'.
Proof.
  unfold ctx_find. split.
  - intros ([j c] & H & ->)%fmap_Some. apply list_find_Some in H. eauto.
  - intros (c & H). apply fmap_Some. exists (i, c). split; [|done]. by apply list_find_Some.
Qed.

Lemma ctx_find_update src dst id proto r i c :
  ctx_find r src dst id proto = Some i → ctx_match src dst id proto c →
  ctx_find (<[i:=c]> r) src dst id proto = Some i.
Proof.
  rewrite !ctx_find_spec. intros (c0 & Hi & _ & Hlt) Hm. exists c.
  split_and!; [by eapply lookup_inserted|done|]. intros j c' Hj Hji.
  rewrite list_lookup_insert_ne in Hj by lia. eauto.
Qed.

Lemma ctx_find_new src dst id proto r i c :
  ctx_find r src dst id proto = None → (i < length r)%nat → ctx_match src dst id proto c →
  ctx_find (<[i:=c]> r) src dst id proto = Some i.
Proof.
  unfold ctx_find at 1. rewrite fmap_None, list_find_None. intros HN Hi Hm.
  apply ctx_find_spec. exists c. split_and!; [by apply list_lookup_insert_eq|done|].
  intros j c' Hj Hji. rewrite list_lookup_insert_ne in Hj by lia. exact (Forall_lookup_1 _ _ _ _ HN Hj).
Qed.
(** The context after a fragment that is kept. *)
Definition add_ctx (c : ip_reass_ctx) (off : Z) (mf : bool) (hdr data : bytes) (rs : ranges) :
    ip_reass_ctx :=
  mk_reass_ctx (rc_in_use c) (rc_src c) (rc_dst c) (rc_id c) (rc_proto c) (rc_dev c)
    (rc_deadline_ms c) (if off =? 0 then true else rc_have_first c)
    (if mf then rc_expected_total c else off + zlen data) rs
    (if off =? 0 then splice (rc_hdr c) 0 hdr else rc_hdr c)
    (if off =? 0 then zlen hdr else rc_hdr_len c) (splice (rc_payload c) (Z.to_nat off) data).

Lemma ip_reass_add_kept c off mf hdr data rs :
  0 ≤ off → off + zlen data ≤ IP_REASS_MAX_PAYLOAD →
  (rc_expected_total c = -1 ∨ mf = true ∧ off + zlen data ≤ rc_expected_total c) →
  ranges_insert (rc_ranges c) off (off + zlen data) = Some rs →
  ip_reass_add c off mf hdr data = FragKept (add_ctx c off mf hdr data rs).
Proof.
  intros Ho Hle Hexp Hins. unfold ip_reass_add. cbv zeta.
  assert (u32 (off + zlen data) = off + zlen data) as -> by wrap_lia.
  assert (u16 (off + zlen data) = off + zlen data) as -> by wrap_lia.
  rewrite (proj2 (Z.ltb_ge _ _)) by lia.
  replace (negb mf && (0 <=? rc_expected_total c) && negb (rc_expected_total c =? off + zlen data))
    with false by (destruct mf; cbn [negb andb]; [done|]; destruct Hexp as [->|[]]; done).
  set (c1 := if mf then c else _).
  assert (rc_expected_total c1 = if mf then rc_expected_total c else off + zlen data) as E1
    by (unfold c1; by destruct mf).
  replace ((0 <=? rc_expected_total c1) && (rc_expected_total c1 <? off + zlen data)) with false.
  2: { symmetry. apply andb_false_iff. rewrite E1, Z.leb_gt, Z.ltb_ge. destruct mf; [|right; lia].
       destruct Hexp as [->|[_ ?]]; [left; lia|right; lia]. }
  assert (rc_ranges c1 = rc_ranges c) as -> by (unfold c1; by destruct mf).
  rewrite Hins. f_equal. unfold c1, add_ctx. destruct c, mf, (off =? 0); done.
Qed.

Section roundtrip.
Context (n dev : nat) (src dst id proto : Z) (data : bytes).
Context (Hlen : zlen data ≤ IP_REASS_MAX_PAYLOAD).
Context (Hicmp : proto = IP_PROTO_ICMP → zlen data ≤ ICMP_MAX).

(** The last fragment fixes the total, once. *)
Lemma holds_expected S c q :
  holds n dev src dst id proto data S c → frag_of data q →
  Forall (frags_disjoint q) S → Forall (frag_of data) S →
  rc_expected_total c = -1 ∨
  frag_mf q.2 = true ∧ frag_off q.2 + zlen (ip_payload q.1 q.2) ≤ rc_expected_total c.
Proof.
  intros [_ _ _ _ _ _ H7 H8 _] [_ Q2 _ Q4 Q5 _] Hdis HS.
  destruct (decide (Exists (fun q' => frag_mf q'.2 = false) S)) as [He|He].
  - apply Exists_exists in He as (q' & Hq' & Hm). right. rewrite H7 by eauto. split; [|done].
    rewrite Q5. apply negb_true_iff, Z.eqb_neq. intros Hend.
    eapply Forall_forall in HS; [|exact Hq']. destruct HS as [_ R2 _ R4 R5 _].
    rewrite Hm in R5. symmetry in R5. apply negb_false_iff, Z.eqb_eq in R5.
    eapply Forall_forall in Hdis; [|exact Hq']. apply (Hdis (zlen data - 1)); unfold in_frag; lia.
  - left. apply H8. intros q' Hq'. destruct (frag_mf q'.2) eqn:Hm; [done|].
    destruct He. apply Exists_exists. eauto.
Qed.

(** Each further fragment is kept. *)
Lemma holds_step S c q :
  holds n dev src dst id proto data S c → frag_of data q → frag_key src dst id proto q →
  Forall (frags_disjoint q) S → Forall (frag_of data) S → zlen S < IP_REASS_MAX_RANGES →
  ∃ c', ip_reass_add c (frag_off q.2) (frag_mf q.2) (dgram_hdr q.1 q.2) (ip_payload q.1 q.2)
        = FragKept c' ∧ holds n dev src dst id proto data (q :: S) c'.
Proof.
  intros Hh Hq Hkey Hdis HS Hcnt. pose proof (holds_expected _ _ _ Hh Hq Hdis HS) as Hexp.
  destruct Hh as [H1 H2 H3 H4 H5 H6 H7 H8 H9]. pose proof Hq as [Q1 Q2 Q3 Q4 Q5 Q6].
  pose proof (rx_frag_ok _ _ Q1 (frag_of_not_bad _ _ Hq)) as Hfk.
  pose proof (frag_off_range q.2) as Hoff.
  pose proof (ranges_insert_spec (rc_ranges c) (frag_off q.2)
    (frag_off q.2 + zlen (ip_payload q.1 q.2)) (cl_canon _ _ H1) ltac:(lia)) as Hins.
  destruct (ranges_insert _ _ _) as [rs|] eqn:Hrs.
  2: { exfalso. destruct Hins as [(x & (q' & Hq' & Hx)%H4 & Hx')|Hfull]; [|lia].
       eapply Forall_forall in Hdis; [|exact Hq']. by apply (Hdis x). }
  destruct Hins as (_ & _ & Hno & Hcov).
  pose proof (ip_reass_add_kept c (frag_off q.2) (frag_mf q.2) (dgram_hdr q.1 q.2)
    (ip_payload q.1 q.2) rs ltac:(lia) ltac:(lia) Hexp Hrs) as Hadd.
  eexists. split; [exact Hadd|]. destruct Hkey as (K1 & K2 & K3 & K4). destruct H2 as (M1 & M2 & M3 & M4 & M5).
  edestruct (ip_reass_add_live n c) as (Hl' & _); [done|exact Hfk|congruence| |exact Hadd|].
  { rewrite M5. intros Hp. specialize (Hicmp Hp). lia. }
  pose proof (cl_payload_len _ _ H1) as Hpl.
  split; [exact Hl'|by split_and!|exact H3| | | | | |]; cbn [add_ctx rc_ranges rc_payload rc_expected_total rc_have_first].
  - intros x. rewrite Hcov, H4. split.
    + intros [(q' & ? & ?)|Hx]; [exists q'; split; [by right|done]|exists q; split; [by left|done]].
    + intros (q' & [->|Hq']%elem_of_cons & Hx); [by right|left; eauto].
  - pose proof (length_ranges_insert_S _ _ _ _ Hrs). cbn [length]. lia.
  - intros x Hx. pose proof (canon_covered _ _ _ (cl_canon _ _ Hl') Hx) as Hx0.
    rewrite splice_lookup by lia. destruct (decide _) as [Hin|Hout].
    + rewrite Q3, lookup_take_lt, lookup_drop by lia. f_equal. lia.
    + apply Hcov in Hx as [Hx|Hx]; [by apply H6|lia].
  - intros (q' & [->|Hq']%elem_of_cons & Hm).
    + rewrite Hm. rewrite Hm in Q5. symmetry in Q5. apply negb_false_iff, Z.eqb_eq in Q5. done.
    + destruct Hexp as [He|[-> _]]; [|eauto]. rewrite H7 in He by eauto. lia.
  - intros Hall. rewrite (Hall q) by by left. apply H8. intros q' Hq'. apply Hall. by right.
  - intros q' [->|Hq']%elem_of_cons Hz.
    + rewrite Hz. split; [done|]. unfold saved_hdr, add_ctx. cbn -[splice].
      rewrite Nat2Z.id. apply splice_take. pose proof (cl_hdr_len _ _ H1).
      destruct Hfk as [_ Fo _ Fl _ _ _ _]. pose proof (ip_hdr_len_range _ Fo). wrap_lia.
    + assert (frag_off q.2 ≠ 0) as Hnz.
      { intros Hz'. eapply Forall_forall in Hdis; [|exact Hq'].
        eapply Forall_forall in HS; [|exact Hq']. destruct HS as [_ R2 _ _ _ _].
        apply (Hdis 0); unfold in_frag; lia. }
      destruct (H9 q' Hq' Hz) as [E1 E2]. rewrite (proj2 (Z.eqb_neq _ _) Hnz). split; [done|].
      rewrite <- E2. unfold saved_hdr, add_ctx. cbn -[splice]. by rewrite (proj2 (Z.eqb_neq _ _) Hnz).
Qed.

(** The fragments [S] make up all of [data]. *)
Definition covers_all (S : list rx) : Prop := ∀ x, 0 ≤ x < zlen data → ∃ q, q ∈ S ∧ in_frag q x.

Lemma holds_incomplete S c q :
  holds n dev src dst id proto data S c → frag_of data q → Forall (frags_disjoint q) S →
  ctx_complete c = false.
Proof.
  intros Hh Hq Hdis. destruct (ctx_complete c) eqn:Hc; [|done]. exfalso.
  destruct (ctx_complete_total _ _ (ho_live _ _ _ _ _ _ _ _ _ Hh) Hc) as (_ & Ht & Hr).
  destruct Hh as [_ _ _ H4 _ _ H7 H8 _]. destruct Hq as [_ Q2 _ Q4 _ _].
  pose proof (frag_off_range q.2) as Hoff.
  assert (rc_expected_total c = zlen data) as He.
  { destruct (decide (Exists (fun q' => frag_mf q'.2 = false) S)) as [Hx|Hx].
    - apply Exists_exists in Hx as (q' & Hq' & Hm). eauto.
    - rewrite H8 in Ht; [lia|]. intros q' Hq'. destruct (frag_mf q'.2) eqn:Hm; [done|].
      destruct Hx. apply Exists_exists. eauto. }
  destruct (proj1 (H4 (frag_off q.2))) as (q' & Hq' & Hx).
  { rewrite Hr, He. cbn. lia. }
  eapply Forall_forall in Hdis; [|exact Hq']. apply (Hdis (frag_off q.2)); [unfold in_frag; lia|done].
Qed.

Lemma holds_complete S c :
  holds n dev src dst id proto data S c → Forall (frag_of data) S → covers_all S → 0 < zlen data →
  ctx_complete c = true ∧ rc_expected_total c = zlen data ∧
  take (Z.to_nat (zlen data)) (rc_payload c) = data.
Proof.
  intros [H1 H2 H3 H4 H5 H6 H7 H8 H9] HS Hall Hpos.
  assert (∀ x, covered (rc_ranges c) x ↔ 0 ≤ x < zlen data) as Hcov.
  { intros x. rewrite H4. split; [|apply Hall]. intros (q & Hq & Hx).
    eapply Forall_forall in HS; [|exact Hq]. destruct HS as [_ _ _ R4 _ _].
    pose proof (frag_off_range q.2). unfold in_frag in Hx. lia. }
  assert (rc_expected_total c = zlen data) as He.
  { destruct (Hall (zlen data - 1)) as (q & Hq & Hx); [lia|]. apply H7. exists q. split; [done|].
    eapply Forall_forall in HS; [|exact Hq]. destruct HS as [_ _ _ R4 R5 _]. rewrite R5.
    apply negb_false_iff, Z.eqb_eq. unfold in_frag in Hx. lia. }
  pose proof (canon_full _ _ (cl_canon _ _ H1) Hpos Hcov) as Hr.
  pose proof (cl_payload_len _ _ H1) as Hpl. split_and!; [|done|].
  - unfold ctx_complete. rewrite He, Hr.
    assert (u16 (zlen data) = zlen data) as -> by wrap_lia. rewrite (Z.eqb_refl (zlen data)).
    destruct (Hall 0) as (q & Hq & Hx); [lia|]. destruct (H9 q Hq) as [-> _].
    { unfold in_frag in Hx. pose proof (frag_off_range q.2). lia. }
    cbn [andb]. rewrite (proj2 (Z.leb_le _ _)) by lia. done.
  - rewrite Nat2Z.id. apply list_eq. intros j. destruct (decide (j < length data)%nat) as [Hj|Hj].
    + rewrite lookup_take_lt by done. rewrite <- (Nat2Z.id j). apply H6, Hcov. lia.
    + rewrite !lookup_ge_None_2; [done|lia|rewrite length_take; lia].
Qed.

End roundtrip.

Section run.
Context (ip_local_deliver : option nat → pkt → ipv4_hdr → PF ()).
Context (dev : nat) (src dst id proto : Z) (data : bytes).
Context (Hlen : 0 < zlen data ≤ IP_REASS_MAX_PAYLOAD).
Context (Hicmp : proto = IP_PROTO_ICMP → zlen data ≤ ICMP_MAX).

Let good (q : rx) : Prop := frag_of data q ∧ frag_key src dst id proto q.

(** What is handed up at the end: the first fragment's header, rebuilt, and
    all of [data]. *)
Definition delivered (fs : list rx) (p' : pkt) (ih' : ipv4_hdr) : Prop :=
  rx_dgram p' ih' ∧ ip_payload p' ih' = data ∧
  ∃ q, q ∈ fs ∧ frag_off q.2 = 0 ∧ ih' = reass_ih (dgram_hdr q.1 q.2) q.2 (zlen data).

Lemma good_small q : good q → frag_small q.1 q.2.
Proof.
  intros [[_ _ _ Q4 _ _] (_ & _ & _ & <-)] Hp. specialize (Hicmp Hp). lia.
Qed.

(** The state with the context of the fragments [S] at [i]. *)
Record waiting (w0 : world) (S : list rx) (i : nat) (w : world) : Prop := {
  wt_wf : reass_wf (length (devs w)) (reass w);
  wt_find : ctx_find (reass w) src dst id proto = Some i;
  wt_holds : ∃ c, reass w !! i = Some c ∧ holds (length (devs w)) dev src dst id proto data S c;
  wt_frame : erase_in w0 = erase_in w;
  wt_wire : w_wire w = w_wire w0;
}.

(** The context found or opened for one of our fragments. *)
Lemma ctx_for_ours w0 w q i c w1 :
  (dev < length (devs w))%nat → reass_wf (length (devs w)) (reass w) → erase_in w0 = erase_in w →
  w_wire w = w_wire w0 → frag_key src dst id proto q → ctx_for dev q.2 w i c w1 →
  length (devs w1) = length (devs w) ∧ reass_wf (length (devs w)) (reass w1) ∧
  reass w1 !! i = Some c ∧ ctx_find (reass w1) src dst id proto = Some i ∧
  erase_in w0 = erase_in w1 ∧ w_wire w1 = w_wire w0.
Proof.
  intros Hd Hr Hf0 Hw0 (K1 & K2 & K3 & K4) Hc.
  destruct (ctx_for_live _ _ _ _ _ _ _ Hr Hd Hc) as (_ & _ & _ & Hi & Hr1).
  destruct Hc as [Hfind Hi'|w2 Hnone Hi' E W ->].
  - rewrite K1, K2, K3, K4 in Hfind. done.
  - rewrite K1, K2, K3, K4 in *. assert (erase_icmp w = erase_icmp w2) as E' by frame.
    split_and!; [symmetry; exact (erase_icmp_length _ _ E')|done|done| | |
      change (w_wire w2 = w_wire w0); congruence].
    + apply ctx_find_new; [done| |done]. by rewrite (rw_len _ _ Hr).
    + change (erase_in w0 = erase_in w2). frame.
Qed.

(** The datagram rebuilt from a context that holds fragments making up all of
    [data]. *)
Lemma holds_delivered n S c ih0 p' :
  holds n dev src dst id proto data S c → Forall (frag_of data) S → covers_all data S → first_ok c ih0 →
  pkt_bytes p' = reass_datagram c ih0 → rx_dgram p' (reass_ih (saved_hdr c) ih0 (reass_total c)) →
  delivered S p' (reass_ih (saved_hdr c) ih0 (reass_total c)).
Proof.
  intros Hh HS Hall Hf Hb Hrx. pose proof (ho_live _ _ _ _ _ _ _ _ _ Hh) as Hl.
  destruct (holds_complete _ _ _ _ _ _ data (proj2 Hlen) S c Hh HS Hall (proj1 Hlen)) as (Hcc & He & Hdata).
  destruct (Hall 0) as (q0 & Hq0 & Hx0); [lia|].
  assert (frag_off q0.2 = 0) as Hz0. { unfold in_frag in Hx0. pose proof (frag_off_range q0.2). lia. }
  destruct (ho_first _ _ _ _ _ _ _ _ _ Hh q0 Hq0 Hz0) as [_ Hsv].
  assert (ih0 = q0.2) as ->.
  { eapply Forall_forall in HS; [|exact Hq0]. destruct HS as [R1' _ _ _ _ _].
    destruct R1' as [Rwf Rrd _ Rihl]. destruct Hf as (Frd & _). rewrite Hsv in Frd.
    assert (read_ip (dgram_hdr q0.1 q0.2) = Ok q0.2) as Hrd by (apply read_ip_take; [wrap_lia|done]).
    congruence. }
  split; [exact Hrx|]. split.
  - rewrite (reass_datagram_len _ _ _ _ Hl Hcc Hf Hb Hrx), He. exact Hdata.
  - exists q0. unfold reass_total. rewrite He, Hsv. done.
Qed.

Lemma wp_reass_frag w0 S q T (Q : () → world → Prop) w :
  (dev < length (devs w))%nat → reass_wf (length (devs w)) (reass w) →
  erase_in w0 = erase_in w → w_wire w = w_wire w0 →
  (∀ i c w1, ctx_for dev q.2 w i c w1 → holds (length (devs w)) dev src dst id proto data S c) →
  good q → Forall good S → Forall (frags_disjoint q) S → zlen S < IP_REASS_MAX_RANGES →
  match T with
  | q' :: _ => good q' ∧ Forall (frags_disjoint q') (q :: S)
  | [] => covers_all data (q :: S)
  end →
  (T ≠ [] → ∀ i w', waiting w0 (q :: S) i w' → Q () w') →
  (T = [] → ∀ p' ih' w', delivered (q :: S) p' ih' → erase_in w0 = erase_in w' →
     w_wire w' = w_wire w0 → wp (ip_local_deliver (Some dev) p' ih') Q w') →
  wp (ip_reass_input ip_local_deliver dev q.1 q.2) Q w.
Proof.
  intros Hd Hr Hf0 Hw0 Hctx [Hq Hk] HS Hdis Hcnt HT Hmore Hlast.
  assert (Forall (frag_of data) S) as HS' by (eapply Forall_impl; [exact HS|]; by intros ? []).
  apply wp_ip_reass_input_core; [done|done|apply Hq|by apply good_small| |].
  { by rewrite (frag_of_not_bad _ _ Hq). }
  intros _ i c w1 Hc. specialize (Hctx _ _ _ Hc).
  destruct (holds_step _ dev src dst id proto data (proj2 Hlen) Hicmp S c q Hctx Hq Hk Hdis HS' Hcnt)
    as (c' & -> & Hh).
  destruct (ctx_for_ours w0 w q i c w1 Hd Hr Hf0 Hw0 Hk Hc) as (L1 & R1 & I1 & F1 & E1 & W1).
  destruct T as [|q' T].
  - assert (Forall (frag_of data) (q :: S)) as HqS by by constructor.
    destruct (holds_complete _ _ _ _ _ _ data (proj2 Hlen) (q :: S) c' Hh HqS HT (proj1 Hlen)) as (-> & _ & _).
    intros ih0 p' w2 Hf [E2 W2] Hb Hrx. pose proof (ho_dev _ _ _ _ _ _ _ _ _ Hh) as ->.
    apply Hlast; [done|by eapply holds_delivered| |congruence].
    apply erase_tx_arp, erase_arp_ip, erase_ip_icmp, erase_icmp_l4, erase_l4_in in E2. rewrite <- E2. exact E1.
  - destruct HT as [[Hq' _] Hd']. rewrite (holds_incomplete _ _ _ _ _ _ _ (q :: S) c' q' Hh Hq' Hd').
    apply (Hmore ltac:(done) i). split.
    + change (reass_wf (length (devs w1)) (<[i:=c']> (reass w1))). rewrite L1.
      apply reass_wf_insert; [done|]. unfold ctx_wf. destruct Hh as [Hl (-> & _) _ _ _ _ _ _ _]. done.
    + apply ctx_find_update; [done|apply Hh].
    + exists c'. split; [by eapply lookup_inserted|]. change (devs (set_reass _ _)) with (devs w1).
      by rewrite L1.
    + exact E1.
    + exact W1.
Qed.

Lemma frags_disjoint_sym q q' : frags_disjoint q q' → frags_disjoint q' q.
Proof. intros H x Hx Hx'. by apply (H x). Qed.

Lemma delivered_mono fs L p' ih' : fs ⊆ L → delivered fs p' ih' → delivered L p' ih'.
Proof. intros Hs (? & ? & q & ? & ? & ?). split_and!; try done. exists q. auto. Qed.

(** The fragments still to come, [T], against those in the context, [S]. *)
Record pending (L S T : list rx) : Prop := {
  pn_S : Forall good S;
  pn_T : Forall good T;
  pn_disj : Forall (fun q => Forall (frags_disjoint q) S) T;
  pn_pairs : ForallOrdPairs frags_disjoint T;
  pn_count : zlen S + zlen T ≤ IP_REASS_MAX_RANGES;
  pn_covers : ∀ x, 0 ≤ x < zlen data → ∃ q, (q ∈ S ∨ q ∈ T) ∧ in_frag q x;
  pn_sub : S ⊆ L ∧ T ⊆ L;
}.

Lemma pending_step L S q T : pending L S (q :: T) → pending L (q :: S) T.
Proof.
  intros [H1 H2 H3 H4 H5 H6 [H7 H8]]. apply Forall_cons in H2 as [Hq HT], H3 as [Hd HdT].
  inversion H4 as [|? ? Hp HpT]; subst. split; try done.
  - by constructor.
  - apply Forall_forall. intros q' Hq'. constructor.
    + apply frags_disjoint_sym. by eapply Forall_forall in Hp.
    + by eapply Forall_forall in HdT; [|exact Hq'].
  - cbn [length] in *. lia.
  - intros x Hx. destruct (H6 x Hx) as (q' & Hor & Hin). exists q'. split; [|done].
    rewrite elem_of_cons in *. tauto.
  - split; intros q' Hq'; [apply elem_of_cons in Hq' as [->|Hq']; [apply H8; by left|by apply H7]|].
    apply H8. by right.
Qed.

Lemma wp_reass_next w0 L S q T (Q : () → world → Prop) w :
  (dev < length (devs w))%nat → reass_wf (length (devs w)) (reass w) →
  erase_in w0 = erase_in w → w_wire w = w_wire w0 →
  (∀ i c w1, ctx_for dev q.2 w i c w1 → holds (length (devs w)) dev src dst id proto data S c) →
  pending L S (q :: T) →
  (T ≠ [] → ∀ i w', waiting w0 (q :: S) i w' → Q () w') →
  (T = [] → ∀ p' ih' w', delivered L p' ih' → erase_in w0 = erase_in w' →
     w_wire w' = w_wire w0 → wp (ip_local_deliver (Some dev) p' ih') Q w') →
  wp (ip_reass_input ip_local_deliver dev q.1 q.2) Q w.
Proof.
  intros Hd Hr E W Hc Hp Hmore Hlast. pose proof (pending_step _ _ _ _ Hp) as Hp'.
  destruct Hp as [H1 H2 H3 _ H5 _ _]. apply Forall_cons in H2 as [Hq _], H3 as [Hdis _].
  eapply (wp_reass_frag w0 S q T); try done.
  - cbn [length] in H5. lia.
  - destruct T as [|q' T].
    + intros x Hx. destruct (pn_covers _ _ _ Hp' x Hx) as (q1 & [?|Hn] & ?); [eauto|].
      by apply elem_of_nil in Hn.
    + destruct Hp' as [_ HT HdT _ _ _ _]. apply Forall_cons in HT as [? _], HdT as [? _]. done.
  - intros HT p' ih' w' Hdel. apply Hlast; [done|]. eapply delivered_mono; [|exact Hdel].
    apply Hp'.
Qed.

(** Once the first fragment has opened the context, the rest follow. *)
Lemma wp_reass_rest w0 L S T i (Q : () → world → Prop) w :
  T ≠ [] → (dev < length (devs w))%nat → waiting w0 S i w → pending L S T →
  (∀ p' ih' w', delivered L p' ih' → erase_in w0 = erase_in w' → w_wire w' = w_wire w0 →
     wp (ip_local_deliver (Some dev) p' ih') Q w') →
  wp (for_each T (fun q => ip_reass_input ip_local_deliver dev q.1 q.2)) Q w.
Proof.
  revert S i w. induction T as [|q T IH]; intros S i w HT Hd [W1 W2 (c & Hc & Hh) W4 W5] Hp HQ; [done|].
  cbn [for_each]. wp_step. eapply (wp_reass_next w0 L S q T); try done.
  - intros i' c' w1 Hctx. pose proof (pn_T _ _ _ Hp) as HgT. apply Forall_cons in HgT as [[_ (K1 & K2 & K3 & K4)] _].
    destruct Hctx as [Hf Hi|w2 Hf _ _ _ _]; rewrite K1, K2, K3, K4, W2 in Hf; [|done].
    injection Hf as <-. assert (c' = c) as -> by congruence. done.
  - intros HT' i' w' Hw'. eapply IH; [done| |exact Hw'|by eapply pending_step|done].
    rewrite <- (erase_in_length w0 w') by apply Hw'. by rewrite (erase_in_length _ _ W4).
  - intros -> p' ih' w' Hdel E' W'. eapply wp_mono; [by apply HQ|]. by intros [] w3 H3.
Qed.

(** All fragments, from a state without a context for them. *)
Lemma wp_reass_all L (Q : () → world → Prop) w :
  (dev < length (devs w))%nat → reass_wf (length (devs w)) (reass w) →
  ctx_find (reass w) src dst id proto = None → pending L [] L →
  (∀ p' ih' w', delivered L p' ih' → erase_in w = erase_in w' → w_wire w' = w_wire w →
     wp (ip_local_deliver (Some dev) p' ih') Q w') →
  wp (for_each L (fun q => ip_reass_input ip_local_deliver dev q.1 q.2)) Q w.
Proof.
  intros Hd Hr Hnone Hp HQ.
  assert (∃ q T, L = q :: T) as (q & T & EL).
  { destruct (pn_covers _ _ _ Hp 0) as (q & [Hq|Hq] & _); [lia|by apply elem_of_nil in Hq|].
    destruct L as [|q0 T]; [by apply elem_of_nil in Hq|eauto]. }
  assert (pending L [] (q :: T)) as Hp1 by by rewrite <- EL.
  rewrite EL. cbn [for_each]. wp_step. eapply (wp_reass_next w L [] q T); try done.
  - intros i c w1 Hctx. pose proof (pn_T _ _ _ Hp1) as HgT.
    apply Forall_cons in HgT as [[_ (K1 & K2 & K3 & K4)] _].
    destruct Hctx as [Hf Hi|w2 Hf Hi E W ->]; rewrite K1, K2, K3, K4 in *; [congruence|].
    by apply fresh_holds.
  - intros HT i w' Hw'. eapply wp_reass_rest; [done| |exact Hw'|by apply pending_step|done].
    by rewrite <- (erase_in_length w w') by apply Hw'.
  - intros -> p' ih' w' Hdel E' W'. eapply wp_mono; [by apply HQ|]. by intros [] w3 H3.
Qed.
End run.

(** ** Our own fragments reassemble *)

Definition in_chunk (c : Z * bool * bytes) (x : Z) : Prop := c.1.1 ≤ x < c.1.1 + zlen c.2.

(** A chunk of [data], which starts at offset [base]. *)
Record chunk_of (base : Z) (data : bytes) (c : Z * bool * bytes) : Prop := {
  co_base : base ≤ c.1.1;
  co_pos : 0 < zlen c.2;
  co_slice : c.2 = take (length c.2) (drop (Z.to_nat (c.1.1 - base)) data);
  co_end : c.1.1 + zlen c.2 ≤ base + zlen data;
  co_more : c.1.2 = negb (c.1.1 + zlen c.2 =? base + zlen data);
  co_align : c.1.2 = true → zlen c.2 mod 8 = 0;
  co_off : c.1.1 mod 8 = 0;
}.

(** A train of fragments cuts its data into disjoint chunks. *)
Lemma train_chunks mtu base cs :
  frags_ok mtu base cs → base mod 8 = 0 → 0 ≤ base → 0 < zlen (concat (frag_data <$> cs)) →
  let data := concat (frag_data <$> cs) in
  Forall (chunk_of base data) cs ∧
  ForallOrdPairs (fun c c' => ∀ x, in_chunk c x → ¬ in_chunk c' x) cs ∧
  (∀ x, base ≤ x < base + zlen data → ∃ c, c ∈ cs ∧ in_chunk c x).
Proof.
  revert base. induction cs as [|[[o m] d] cs IH]; intros base; [done|].
  cbn [frags_ok fmap list_fmap concat frag_data snd]. intros (-> & Hfit & Hrest) Hb Hb0 Hpos.
  destruct cs as [|c cs].
  - destruct Hrest as [-> Hne]. cbn [fmap list_fmap concat] in *. rewrite app_nil_r in *.
    split_and!.
    + constructor; [|constructor]. split; cbn; try done; try lia.
      by rewrite Z.sub_diag, drop_0, firstn_all.
    + by repeat constructor.
    + intros x Hx. exists (base, false, d). split; [by left|done].
  - destruct Hrest as (-> & Hd & Hd8 & Hok). set (rest := c :: cs) in *.
    assert (0 < zlen (concat (frag_data <$> rest))) as Hpos'.
    { unfold rest in *. destruct c as [[o' m'] d']. cbn [frags_ok] in Hok.
      destruct Hok as (_ & _ & Hok). cbn [fmap list_fmap concat frag_data snd]. rewrite length_app.
      destruct cs; [destruct Hok as [_ [?|?]]; lia|]. lia. }
    destruct (IH (base + zlen d) Hok) as (I1 & I2 & I3); [Z.div_mod_to_equations; lia|lia|done|].
    set (data' := concat (frag_data <$> rest)) in *.
    assert (zlen (d ++ data') = zlen d + zlen data') as Hl by (rewrite length_app; lia).
    split_and!.
    + constructor.
      * split; cbn [fst snd]; rewrite ?Hl; try done; try lia.
        by rewrite Z.sub_diag, drop_0, take_app_length.
      * eapply Forall_impl; [exact I1|]. intros [[o' m'] d'] [J1 J2 J3 J4 J5 J6 J7]; cbn [fst snd] in *.
        split; cbn [fst snd]; rewrite ?Hl; try done; try lia.
        -- rewrite drop_app_ge by lia. rewrite J3 at 1. do 2 f_equal. lia.
        -- rewrite J5. do 2 f_equal. lia.
    + constructor; [|done]. eapply Forall_impl; [exact I1|]. intros c' [J1 _ _ _ _ _ _] x.
      unfold in_chunk. cbn. lia.
    + intros x Hx. destruct (decide (x < base + zlen d)).
      * exists (base, true, d). split; [by left|]. unfold in_chunk. cbn. lia.
      * destruct (I3 x) as (c' & ? & ?); [lia|]. exists c'. split; [by right|done].
Qed.

(** Reading back the frag_off field. *)
Lemma frag_word_read src dst proto ttl id off more len :
  0 ≤ off < 65536 → off mod 8 = 0 →
  frag_off (ip_build_hdr src dst proto ttl id (frag_word off more) len) = off ∧
  frag_mf (ip_build_hdr src dst proto ttl id (frag_word off more) len) = more.
Proof.
  intros Ho H8. unfold frag_off, frag_mf. cbn [ip_build_hdr ih_frag_off set_field].
  change (ih_frag_off (ip_build_hdr src dst proto ttl id (frag_word off more) len))
    with (pf_htons (frag_word off more)).
  assert (0 ≤ off / 8 < 8192) as Hr by (Z.div_mod_to_equations; lia).
  assert (0 ≤ frag_word off more < 65536) as Hw.
  { unfold frag_word, IP_FRAG_MF. destruct more; lia. }
  rewrite ntohs_htons by done. unfold frag_word, IP_FRAG_OFFMASK, IP_FRAG_MF.
  split.
  - change 0x1fff with (Z.ones 13). rewrite Z.land_ones by lia. change (2 ^ 13) with 8192.
    destruct more; Z.div_mod_to_equations; lia.
  - set (o := off / 8) in *. destruct more.
    + replace (o + 0x2000) with (Z.lor (Z.shiftl 1 13) o).
      2: { rewrite lor_shiftl_add by (change (2 ^ 13) with 8192; lia). change (2 ^ 13) with 8192. lia. }
      rewrite Z.land_lor_distr_l. change (Z.land (Z.shiftl 1 13) 0x2000) with 0x2000.
      apply negb_true_iff, Z.eqb_neq. intros Hz. apply Z.lor_eq_0_iff in Hz as [? _]. done.
    + rewrite Z.add_0_r. apply negb_false_iff, Z.eqb_eq.
      rewrite <- (Z.mod_small o (2 ^ 13)) by (change (2 ^ 13) with 8192; lia).
      rewrite <- Z.land_ones by lia. rewrite <- Z.land_assoc. by rewrite Z.land_0_r.
Qed.

Lemma fop_perm {A} (R : A → A → Prop) (Rsym : ∀ x y, R x y → R y x) l l' :
  l ≡ₚ l' → ForallOrdPairs R l → ForallOrdPairs R l'.
Proof.
  induction 1 as [|x l l' Hp IH|x y l|l1 l2 l3 _ IH1 _ IH2]; [done| | |auto].
  - inversion 1; subst. constructor; [by rewrite <- Hp|auto].
  - inversion 1 as [|? ? H1 H2]; subst. inversion H2 as [|? ? H3 H4]; subst.
    apply Forall_cons in H1 as [H1 H1']. constructor; [constructor; auto|]. by constructor.
Qed.

Lemma fop_Forall2 {A B} (R : A → A → Prop) (R' : B → B → Prop) (P : A → B → Prop) l k :
  (∀ x y x' y', P x y → P x' y' → R x x' → R' y y') → Forall2 P l k →
  ForallOrdPairs R l → ForallOrdPairs R' k.
Proof.
  intros HR. induction 1 as [|x y l k Hxy Hlk IH]; [constructor|].
  inversion 1 as [|? ? H1 H2]; subst. constructor; [|auto].
  apply Forall_lookup. intros i y' Hy'. destruct (Forall2_lookup_r _ _ _ _ _ Hlk Hy') as (x' & Hx' & ?).
  eapply HR; [done..|]. exact (Forall_lookup_1 _ _ _ _ H1 Hx').
Qed.

Section own.
Context (src dst proto ttl id : Z) (data : bytes).
Context (Hsrc : u32_ok src) (Hdst : u32_ok dst) (Hproto : byte_ok proto) (Httl : byte_ok ttl).
Context (Hid : u16_ok id) (Hlen : 0 < zlen data ≤ IP_REASS_MAX_PAYLOAD).

Definition frag_ih (c : Z * bool * bytes) : ipv4_hdr :=
  ip_build_hdr src dst proto ttl id (frag_word c.1.1 c.1.2) (zlen c.2 + IPV4_HDR_MIN).

(** [q] is the datagram of chunk [c], received. *)
Definition received (c : Z * bool * bytes) (q : rx) : Prop :=
  pkt_wf q.1 ∧ pkt_bytes q.1 = frag_datagram src dst proto ttl id c ∧ q.2 = frag_ih c.

Lemma received_frag c q :
  chunk_of 0 data c → received c q →
  frag_of data q ∧ frag_key src dst id proto q ∧ (∀ x, in_frag q x ↔ in_chunk c x) ∧
  q.2 = frag_ih c.
Proof.
  destruct c as [[o m] d], q as [p ih]. intros [C1 C2 C3 C4 C5 C6 C7] (Hwf & Hb & Hih).
  cbn [fst snd] in *. unfold frag_ih in Hih. cbn [fst snd] in Hih.
  destruct (frag_word_read src dst proto ttl id o m (zlen d + IPV4_HDR_MIN)) as [Fo Fm];
    [wrap_lia|done|]. rewrite <- Hih in Fo, Fm.
  assert (ip_ok ih) as Hok by (rewrite Hih; by apply ip_build_hdr_ok).
  assert (ip_hdr_len ih = 20) as H20 by by rewrite Hih.
  assert (ip_payload p ih = d) as Hpay.
  { unfold ip_payload. rewrite H20, Hb. done. }
  assert (p_len p = 20 + zlen d) as Hpl.
  { rewrite <- (length_pkt_bytes p Hwf), Hb. unfold frag_datagram, ip_datagram.
    rewrite length_app, length_ip_image. lia. }
  assert (rx_dgram p ih) as Hrx.
  { split; [done| |done|rewrite H20; wrap_lia]. rewrite Hb, Hih. unfold frag_datagram, ip_datagram.
    apply read_ip_image. by apply ip_build_hdr_ok. }
  split_and!; [|split_and!|..].
  - split; cbn [fst snd]; rewrite ?Hpay, ?Fo, ?Fm; try done. 
    rewrite C3 at 1. by rewrite Z.sub_0_r.
  - cbn [snd]. rewrite Hih. cbn. by apply ntohl_htonl.
  - cbn [snd]. rewrite Hih. cbn. by apply ntohl_htonl.
  - cbn [snd]. rewrite Hih. cbn. by apply ntohs_htons.
  - cbn [snd]. by rewrite Hih.
  - intros x. unfold in_frag, in_chunk. cbn [fst snd]. by rewrite Hpay, Fo.
  - done.
Qed.

Lemma train_pending mtu cs cs' L :
  frags_ok mtu 0 cs → concat (frag_data <$> cs) = data → cs' ≡ₚ cs → Forall2 received cs' L →
  zlen cs ≤ IP_REASS_MAX_RANGES →
  pending src dst id proto data L [] L.
Proof.
  intros Hok Hcat Hp H2 Hcnt.
  destruct (train_chunks mtu 0 cs Hok eq_refl ltac:(lia)) as (T1 & T2 & T3); [rewrite Hcat; lia|].
  rewrite Hcat in *. rewrite <- Hp in T1.
  assert (∀ c q, c ∈ cs' → received c q → frag_of data q ∧ frag_key src dst id proto q ∧
    (∀ x, in_frag q x ↔ in_chunk c x) ∧ q.2 = frag_ih c) as Hr.
  { intros c q Hc. apply received_frag. by eapply Forall_forall in T1. }
  split; [constructor| |by apply Forall_true| | | |].
  - apply Forall_lookup. intros i q Hq. destruct (Forall2_lookup_r _ _ _ _ _ H2 Hq) as (c & Hc & Hrc).
    destruct (Hr c q) as (? & ? & _); [by eapply list_elem_of_lookup_2|done|]. done.
  - apply (fop_perm _ (fun c c' (H : ∀ x, in_chunk c x → ¬ in_chunk c' x) x H1 H3 => H x H3 H1) _ cs') in T2;
      [|by rewrite Hp].
    assert (Forall2 (fun c q => c ∈ cs' ∧ received c q) cs' L) as H2'.
    { apply Forall2_same_length_lookup_2; [by eapply Forall2_length|]. intros i c q Hc Hq. split.
      - by eapply list_elem_of_lookup_2.
      - by eapply Forall2_lookup_lr. }
    eapply fop_Forall2; [|exact H2'|exact T2]. cbn. intros c q c' q' [Hc Hcq] [Hc' Hcq'] Hd x.
    destruct (Hr c q Hc Hcq) as (_ & _ & -> & _). destruct (Hr c' q' Hc' Hcq') as (_ & _ & -> & _).
    apply Hd.
  - cbn [length]. apply Forall2_length in H2. apply Permutation_length in Hp. lia.
  - intros x Hx. destruct (T3 x ltac:(lia)) as (c & Hc & Hin).
    assert (c ∈ cs') as Hc' by by rewrite Hp.
    apply list_elem_of_lookup in Hc' as [i Hi].
    destruct (Forall2_lookup_l _ _ _ _ _ H2 Hi) as (q & Hq & Hcq). exists q.
    split; [right; by eapply list_elem_of_lookup_2|].
    destruct (Hr c q) as (_ & _ & -> & _); [by eapply list_elem_of_lookup_2|done|]. done.
  - split; [by intros ? ?%elem_of_nil|done].
Qed.
End own.

(** ** Theorems *)

(** C17. The range list of a context is a faithful set of received bytes. On a
    canonical list (sorted, disjoint, not adjacent), [ranges_insert] fails
    exactly when the new range overlaps a received byte or 32 ranges are
    already held; otherwise the result is canonical, has at most 32 ranges and
    covers exactly the old bytes and the new ones. *)
Theorem ranges_insert_correct l s e :
  canon 0 l → 0 ≤ s < e →
  (ranges_insert l s e = None ↔
     (∃ x, covered l x ∧ s ≤ x < e) ∨ IP_REASS_MAX_RANGES ≤ zlen l) ∧
  ∀ l', ranges_insert l s e = Some l' →
    canon 0 l' ∧ zlen l' ≤ IP_REASS_MAX_RANGES ∧ ∀ x, covered l' x ↔ covered l x ∨ s ≤ x < e.
Proof.
  intros Hc Hse. pose proof (ranges_insert_spec l s e Hc Hse) as H.
  destruct (ranges_insert l s e) as [l'|] eqn:E.
  - destruct H as (Hn & Hc' & Hno & Hcov). split.
    + split; [done|]. intros [(x & Hx & Hx')|Hf]; [by destruct (Hno x Hx)|lia].
    + intros l1 [= <-]. split_and!; [done|by eapply length_ranges_insert|done].
  - by split.
Qed.

Lemma ranges_insert_correct_witness :
  ranges_insert [(0, 8); (24, 32)] 8 24 = Some [(0, 32)] ∧
  (ranges_insert [(0, 8); (24, 32)] 8 24 = None ↔
     (∃ x, covered [(0, 8); (24, 32)] x ∧ 8 ≤ x < 24) ∨ IP_REASS_MAX_RANGES ≤ 2).
Proof.
  split; [reflexivity|].
  exact (proj1 (ranges_insert_correct [(0, 8); (24, 32)] 8 24 ltac:(cbn; lia) ltac:(lia))).
Defined.

(** C4. Fragmentation followed by reassembly is the identity. Let [cs] be the
    fragments [ip_output] makes of [data] (at most 32 of them, 4000 bytes in
    all), received in any order [L]. From a state with no context for their
    key, feeding them to [ip_reass_input] hands exactly one datagram to local
    delivery, after the last one: its payload is [data], its addresses and
    protocol are the fragments', and nothing but the context table and
    counters has changed. *)
Theorem frag_reass_roundtrip deliver w dev mtu src dst proto ttl id data cs cs' L
    (Q : () → world → Prop) :
  u32_ok src → u32_ok dst → byte_ok proto → byte_ok ttl → u16_ok id →
  frags_ok mtu 0 cs → concat (frag_data <$> cs) = data →
  0 < zlen data ≤ IP_REASS_MAX_PAYLOAD → (proto = IP_PROTO_ICMP → zlen data ≤ ICMP_MAX) →
  zlen cs ≤ IP_REASS_MAX_RANGES → cs' ≡ₚ cs → Forall2 (received src dst proto ttl id) cs' L →
  (dev < length (devs w))%nat → reass_wf (length (devs w)) (reass w) →
  ctx_find (reass w) src dst id proto = None →
  (∀ p' ih' w', rx_dgram p' ih' → ip_payload p' ih' = data →
     pf_ntohl (ih_saddr ih') = src → pf_ntohl (ih_daddr ih') = dst → ih_proto ih' = proto →
     erase_in w = erase_in w' → w_wire w' = w_wire w → wp (deliver (Some dev) p' ih') Q w') →
  wp (for_each L (fun q => ip_reass_input deliver dev q.1 q.2)) Q w.
Proof.
  intros Hs Hd Hpr Ht Hid Hok Hcat Hlen Hic Hcnt Hp H2 Hdev Hr Hnone HQ.
  pose proof (train_pending src dst proto ttl id data Hs Hd Hpr Ht Hid Hlen mtu cs cs' L Hok Hcat Hp H2
    Hcnt) as Hpend.
  eapply (wp_reass_all deliver dev src dst id proto data Hlen Hic L); try done.
  intros p' ih' w' (Hrx & Hpay & q & Hq & Hz & ->) E W.
  pose proof (pn_T _ _ _ _ _ _ _ _ Hpend) as HT. eapply Forall_forall in HT as [_ (K1 & K2 & _ & K4)]; [|exact Hq].
  by apply HQ.
Qed.

(** Two fragments of a 2000-byte payload over a 1500-byte MTU, last one first. *)
Definition demo_chunks : list (Z * bool * bytes) :=
  [(0, true, replicate 1480 1); (1480, false, replicate 520 2)].

Definition demo_frags : list rx :=
  (fun c => (mk_rx (frag_datagram 0x0a000002 0x0a000001 IP_PROTO_UDP 64 9 c),
             frag_ih 0x0a000002 0x0a000001 IP_PROTO_UDP 64 9 c)) <$> rev demo_chunks.

Lemma demo_received c :
  bytes_ok c.2 → zlen c.2 ≤ 4060 →
  received 0x0a000002 0x0a000001 IP_PROTO_UDP 64 9 c
    (mk_rx (frag_datagram 0x0a000002 0x0a000001 IP_PROTO_UDP 64 9 c),
     frag_ih 0x0a000002 0x0a000001 IP_PROTO_UDP 64 9 c).
Proof.
  destruct c as [[o m] d]. cbn [snd]. intros Hok Hl.
  destruct (mk_rx_wf (frag_datagram 0x0a000002 0x0a000001 IP_PROTO_UDP 64 9 (o, m, d))) as [Hwf Hb].
  - apply ip_datagram_ok; try lia; try wrap_lia. done.
  - unfold frag_datagram, ip_datagram. rewrite length_app, length_ip_image. lia.
  - by split_and!.
Qed.

Lemma demo_frags_received :
  Forall2 (received 0x0a000002 0x0a000001 IP_PROTO_UDP 64 9) (rev demo_chunks) demo_frags.
Proof.
  apply Forall2_fmap_r, Forall_Forall2_diag.
  apply Forall_cons_2; [|apply Forall_cons_2; [|done]].
  - apply demo_received; cbn [snd]; [apply Forall_replicate; wrap_lia|].
    rewrite length_replicate. lia.
  - apply demo_received; cbn [snd]; [apply Forall_replicate; wrap_lia|].
    rewrite length_replicate. lia.
Qed.

Lemma frag_reass_roundtrip_witness :
  wp (for_each demo_frags (fun q => ip_reass_input (fun _ _ _ => mret ()) 0 q.1 q.2))
     (fun _ w' => w_wire w' = []) demo.
Proof.
  apply (frag_reass_roundtrip (fun _ _ _ => mret ()) demo 0 1500 0x0a000002 0x0a000001 IP_PROTO_UDP 64 9
    (concat (frag_data <$> demo_chunks)) demo_chunks (rev demo_chunks) demo_frags);
    [lia|lia|wrap_lia|wrap_lia|lia| |reflexivity|vm_compute; split; [done|discriminate]|done|done
    |symmetry; apply Permutation_rev|apply demo_frags_received|cbn; lia|apply ip_reass_init_wf
    |reflexivity|].
  - vm_compute. by split_and!; try right.
  - intros p' ih' w' _ _ _ _ _ _ Hw. by apply wp_ret.
Defined.
