(* ===== verification/Sock.v ===== *)
(** * Sockets

    Models the socket table of [udp/sock.c]: allocation, lookup, binding and
    ephemeral ports. The datagram calls are in [Udp], the stream calls and
    [pf_close] in [TcpSock]. *)

From S2P Require Import Prelude Pf Checksum Pkt Fib Headers Stats Stack Link Arp IpOut.
Import Checksum Pkt Fib Stats.

(** ** Operations *)

Definition pf_socktab_init : pf_socktab := mk_socktab (replicate PF_SOCK_MAX zero_sock) PF_EPHEMERAL_BASE.

Definition pf_socktab_fini (t : pf_socktab) : pf_socktab :=
  t <| st_socks ::= fmap (set_field sk_rxq (fun _ => [])) |>.

Abbreviation socks w := (st_socks (ps_socks (w_stack w))).

Definition get_sock (i : nat) : PF pf_sock :=
  t ← get_stack ps_socks; lift (in_bounds (st_socks t !! i)).
Definition upd_sock (i : nat) (f : pf_sock → pf_sock) : PF () :=
  _ ← get_sock i; upd_stack (set_field ps_socks (set_field st_socks (alter f i))).

(** The handle check: [None] is the NULL return. *)
Definition pf_sock_get (sock : Z) : PF (option nat) :=
  if (sock <? 0) || (Z.of_nat PF_SOCK_MAX <=? sock) then mret None
  else
    s ← get_sock (Z.to_nat sock);
    mret (if decide (sk_type s = PF_SOCK_NONE) then None else Some (Z.to_nat sock)).

(** One socket blocks [(type, ip, port)]. *)
Definition sock_blocks (type : pf_sock_type) (ip port : Z) (s : pf_sock) : bool :=
  bool_decide (sk_type s = type) && (sk_local_port s =? port)
  && ((sk_local_ip s =? 0) || (ip =? 0) || (sk_local_ip s =? ip)).

Definition pf_sock_port_in_use (type : pf_sock_type) (ip port : Z) : PF bool :=
  t ← get_stack ps_socks;
  mret (existsb (sock_blocks type ip port) (st_socks t)).

Fixpoint ephemeral_loop (tries : nat) : PF Z :=
  match tries with
  | O => mret 0
  | S tries =>
      port ← get_stack (fun s => st_ephemeral_next (ps_socks s));
      upd_stack (set_field ps_socks (set_field st_ephemeral_next
        (fun n => let n := u16 (n + 1) in if n =? 0 then PF_EPHEMERAL_BASE else n)));;
      if PF_EPHEMERAL_BASE <=? port then
        u ← pf_sock_port_in_use PF_SOCK_UDP 0 port;
        if u : bool then ephemeral_loop tries
        else
          t ← pf_sock_port_in_use PF_SOCK_TCP 0 port;
          if t : bool then ephemeral_loop tries else mret port
      else ephemeral_loop tries
  end.

Definition EPHEMERAL_TRIES : nat := Z.to_nat 16384.

Definition pf_sock_ephemeral_port : PF Z := ephemeral_loop EPHEMERAL_TRIES.

Definition sock_free (s : pf_sock) : Prop := sk_type s = PF_SOCK_NONE.
#[global] Instance sock_free_dec s : Decision (sock_free s).
Proof. unfold sock_free. apply _. Defined.

Definition pf_socket (type : pf_sock_type) : PF Z :=
  if decide (type = PF_SOCK_NONE) then mret (-1)
  else
    t ← get_stack ps_socks;
    match list_find sock_free (st_socks t) with
    | Some (i, _) => upd_sock i (fun _ => zero_sock <| sk_type := type |>);; mret (Z.of_nat i)
    | None => mret (-1)
    end.

Definition pf_bind (sock local_ip port : Z) : PF Z :=
  s ← pf_sock_get sock;
  match s with
  | None => mret (-1)
  | Some i =>
      if port =? 0 then mret (-1)
      else
        s ← get_sock i;
        used ← pf_sock_port_in_use (sk_type s) local_ip port;
        if used : bool then mret (-1)
        else upd_sock i (fun s => s <| sk_local_ip := local_ip |> <| sk_local_port := port |>);; mret 0
  end.

(** The scan of [pf_sock_lookup_udp] from index [i]: an exact match ends it,
    the last wildcard match is kept. *)
Fixpoint lookup_udp_scan (l : list pf_sock) (i : nat) (dst_ip dport : Z) (wildcard : option nat) :
    option nat :=
  match l with
  | [] => wildcard
  | s :: l =>
      if negb (bool_decide (sk_type s = PF_SOCK_UDP)) || negb (sk_local_port s =? dport)
      then lookup_udp_scan l (S i) dst_ip dport wildcard
      else if sk_local_ip s =? dst_ip then Some i
      else lookup_udp_scan l (S i) dst_ip dport (if sk_local_ip s =? 0 then Some i else wildcard)
  end.

Definition pf_sock_lookup_udp (dst_ip dport : Z) : PF (option nat) :=
  t ← get_stack ps_socks;
  mret (lookup_udp_scan (st_socks t) 0 dst_ip dport None).

(** ** Invariant *)

(** A datagram in a receive queue, with the address of its sender. *)
Definition rx_queued (p : pkt) : Prop := pkt_wf p ∧ u32_ok (p_meta_ip p).

Record sock_wf (s : pf_sock) : Prop := {
  sw_ip : u32_ok (sk_local_ip s);
  sw_rxq : Forall rx_queued (sk_rxq s);
  sw_rxq_len : zlen (sk_rxq s) ≤ PF_SOCK_RXQ_CAP;
  sw_type : sk_type s ≠ PF_SOCK_TCP → sk_tcb s = None;
}.

Record socktab_wf (t : pf_socktab) : Prop := {
  tw_len : length (st_socks t) = PF_SOCK_MAX;
  tw_socks : Forall sock_wf (st_socks t);
  tw_eph : PF_EPHEMERAL_BASE ≤ st_ephemeral_next t < 65536;
}.

Lemma zero_sock_wf : sock_wf zero_sock.
Proof. split; cbn; try lia; try done. Qed.

Lemma sock_wf_pop k p q : sock_wf k → sk_rxq k = p :: q → rx_queued p ∧ sock_wf (k <| sk_rxq := q |>).
Proof.
  intros [H1 H2 H3 H4] Hq. rewrite Hq in H2, H3. apply Forall_cons in H2 as [Hp Hq']. split; [done|].
  split; [done|done|cbn in *; lia|done].
Qed.

Lemma pf_socktab_init_wf : socktab_wf pf_socktab_init.
Proof.
  split; [apply length_replicate|apply Forall_replicate, zero_sock_wf|cbn; wrap_lia].
Qed.

(** The state with another socket table. *)
Definition set_socks (w : world) (t : pf_socktab) : world :=
  w <| w_stack ::= set_field ps_socks (fun _ => t) |>.

Lemma net_wf_set_socks w t : net_wf w → net_wf (set_socks w t).
Proof. intros [[] [] ?]. by split. Qed.

Lemma wp_get_sock i s (Q : pf_sock → world → Prop) w :
  socks w !! i = Some s → Q s w → wp (get_sock i) Q w.
Proof. intros Hi HQ. unfold get_sock. wp_steps. eapply wp_lift; [by rewrite Hi|done]. Qed.

Definition put_sock (t : pf_socktab) (i : nat) (s : pf_sock) : pf_socktab :=
  mk_socktab (<[i:=s]> (st_socks t)) (st_ephemeral_next t).

Lemma wp_upd_sock i s f (Q : () → world → Prop) w :
  socks w !! i = Some s → Q () (set_socks w (put_sock (ps_socks (w_stack w)) i (f s))) →
  wp (upd_sock i f) Q w.
Proof.
  intros Hi HQ. unfold upd_sock. wp_step. eapply wp_get_sock; [done|]. apply wp_modify.
  replace (w <| w_stack ::= _ |>) with (set_socks w (put_sock (ps_socks (w_stack w)) i (f s))); [done|].
  unfold set_socks, put_sock, set_field. do 3 f_equal. symmetry. by apply alter_insert.
Qed.

Lemma put_sock_wf t i s : socktab_wf t → sock_wf s → socktab_wf (put_sock t i s).
Proof.
  intros [H1 H2 H3] Hs. split; cbn; [by rewrite length_insert|by apply Forall_insert|done].
Qed.

(** ** Demultiplexing *)

Definition udp_bound (ip port : Z) (s : pf_sock) : Prop :=
  sk_type s = PF_SOCK_UDP ∧ sk_local_port s = port ∧ sk_local_ip s = ip.

Lemma lookup_udp_scan_spec seen l ip port wc :
  (∀ j s, seen !! j = Some s → ¬ udp_bound ip port s) →
  match wc with
  | Some i => ∃ s, seen !! i = Some s ∧ udp_bound 0 port s
  | None => ∀ j s, seen !! j = Some s → ¬ udp_bound 0 port s
  end →
  match lookup_udp_scan l (length seen) ip port wc with
  | Some i => ∃ s, (seen ++ l) !! i = Some s ∧
      (udp_bound ip port s ∨
       udp_bound 0 port s ∧ ∀ j s', (seen ++ l) !! j = Some s' → ¬ udp_bound ip port s')
  | None => ∀ j s, (seen ++ l) !! j = Some s → ¬ udp_bound ip port s ∧ ¬ udp_bound 0 port s
  end.
Proof.
  revert seen wc. induction l as [|s l IH]; intros seen wc Hex Hwc; cbn [lookup_udp_scan].
  - rewrite app_nil_r. destruct wc as [i|]; [|eauto]. destruct Hwc as (s & Hs & Hb). eauto 10.
  - assert ((seen ++ s :: l) !! length seen = Some s) as Hx by by apply list_lookup_middle.
    replace (S (length seen)) with (length (seen ++ [s])) by (rewrite length_app; cbn; lia).
    replace (seen ++ s :: l) with ((seen ++ [s]) ++ l) in * by by rewrite <- app_assoc.
    assert (∀ P : pf_sock → Prop, (∀ j s', seen !! j = Some s' → P s') → P s →
      ∀ j s', (seen ++ [s]) !! j = Some s' → P s') as Hsnoc.
    { intros P HP Ps j s' [Hj|(_ & Hj)]%lookup_app_Some; [eauto|].
      apply list_lookup_singleton_Some in Hj as [_ <-]. done. }
    destruct (bool_decide_reflect (sk_type s = PF_SOCK_UDP)) as [Ht|Ht]; cbn [negb orb].
    2: { apply IH; [apply Hsnoc; [done|by intros []]|].
         destruct wc as [i|]; [|apply Hsnoc; [done|by intros []]].
         destruct Hwc as (s0 & Hs0 & ?). exists s0. split; [|done]. by apply lookup_app_l_Some. }
    destruct (Z.eqb_spec (sk_local_port s) port) as [Hp|Hp]; cbn [negb].
    2: { apply IH; [apply Hsnoc; [done|by intros (_ & ? & _)]|].
         destruct wc as [i|]; [|apply Hsnoc; [done|by intros (_ & ? & _)]].
         destruct Hwc as (s0 & Hs0 & ?). exists s0. split; [|done]. by apply lookup_app_l_Some. }
    destruct (Z.eqb_spec (sk_local_ip s) ip) as [Hip|Hip].
    { exists s. split; [done|]. left. done. }
    apply IH; [apply Hsnoc; [done|by intros (_ & _ & ?)]|].
    destruct (Z.eqb_spec (sk_local_ip s) 0) as [H0|H0].
    { exists s. split; [by apply list_lookup_middle|done]. }
    destruct wc as [i|]; [|apply Hsnoc; [done|by intros (_ & _ & ?)]].
    destruct Hwc as (s0 & Hs0 & ?). exists s0. split; [|done]. by apply lookup_app_l_Some.
Qed.

(** ** Ephemeral ports *)

(** No socket of either type uses the port. *)
Definition port_free (t : pf_socktab) (port : Z) : Prop :=
  existsb (sock_blocks PF_SOCK_UDP 0 port) (st_socks t) = false ∧
  existsb (sock_blocks PF_SOCK_TCP 0 port) (st_socks t) = false.

(** The port tried after [k] failures from [s], cycling through the range. *)
Definition eph_port (s : Z) (k : nat) : Z :=
  PF_EPHEMERAL_BASE + (s - PF_EPHEMERAL_BASE + Z.of_nat k) mod 16384.

Definition eph_next (s : Z) : Z := let n := u16 (s + 1) in if n =? 0 then PF_EPHEMERAL_BASE else n.

Lemma eph_next_range s : PF_EPHEMERAL_BASE ≤ s < 65536 → PF_EPHEMERAL_BASE ≤ eph_next s < 65536.
Proof.
  intros Hs. unfold eph_next. cbv zeta. destruct (Z.eqb_spec (u16 (s + 1)) 0); wrap_lia.
Qed.

Lemma eph_port_next s k :
  PF_EPHEMERAL_BASE ≤ s < 65536 → eph_port (eph_next s) k = eph_port s (S k).
Proof.
  intros Hs. unfold eph_port, eph_next. cbv zeta.
  destruct (Z.eqb_spec (u16 (s + 1)) 0); wrap_lia.
Qed.

Lemma eph_port_0 s : PF_EPHEMERAL_BASE ≤ s < 65536 → eph_port s 0 = s.
Proof. intros Hs. unfold eph_port. wrap_lia. Qed.

Lemma eph_port_inj s j k :
  Z.of_nat j < 16384 → Z.of_nat k < 16384 → eph_port s j = eph_port s k → j = k.
Proof. intros Hj Hk. unfold eph_port. wrap_lia. Qed.

Definition set_eph (w : world) (n : Z) : world :=
  set_socks w (mk_socktab (socks w) n).

Lemma wp_ephemeral_loop tries w (Q : Z → world → Prop) :
  PF_EPHEMERAL_BASE ≤ st_ephemeral_next (ps_socks (w_stack w)) < 65536 →
  (∃ k, (k < tries)%nat ∧
        port_free (ps_socks (w_stack w)) (eph_port (st_ephemeral_next (ps_socks (w_stack w))) k)) →
  (∀ port n, PF_EPHEMERAL_BASE ≤ port < 65536 → PF_EPHEMERAL_BASE ≤ n < 65536 →
     port_free (ps_socks (w_stack w)) port → Q port (set_eph w n)) →
  wp (ephemeral_loop tries) Q w.
Proof.
  revert w. induction tries as [|tries IH]; intros w Hr (k & Hk & Hfree) HQ; [lia|].
  set (s := st_ephemeral_next (ps_socks (w_stack w))) in *.
  cbn [ephemeral_loop]. wp_steps. fold s. apply wp_modify.
  match goal with |- wp _ _ ?w1 => replace w1 with (set_eph w (eph_next s)) end.
  2: { destruct w as [[] ? ?]. done. }
  rewrite (proj2 (Z.leb_le _ _)) by lia.
  assert (¬ port_free (ps_socks (w_stack w)) s → wp (ephemeral_loop tries) Q (set_eph w (eph_next s)))
    as Hrest.
  { intros Hn. destruct k as [|k]; [destruct Hn; by rewrite eph_port_0 in Hfree|].
    apply IH; [by apply eph_next_range| |].
    - exists k. split; [lia|]. change (st_ephemeral_next _) with (eph_next s). by rewrite eph_port_next.
    - intros port n Hp Hn' Hf. by apply HQ. }
  unfold port_free in Hrest. wp_step. unfold pf_sock_port_in_use. wp_steps.
  destruct (existsb (sock_blocks PF_SOCK_UDP 0 s) _) eqn:Hu; [apply Hrest; by intros []|]. wp_steps.
  destruct (existsb (sock_blocks PF_SOCK_TCP 0 s) _) eqn:Ht; [apply Hrest; by intros []|]. wp_steps.
  apply HQ; [done|by apply eph_next_range|by split].
Qed.

(** A used port belongs to a socket. *)
Lemma port_used_elem t port :
  ¬ port_free t port → port ∈ sk_local_port <$> st_socks t.
Proof.
  intros Hn. assert (∃ type, existsb (sock_blocks type 0 port) (st_socks t) = true) as [type Hb].
  { unfold port_free in Hn. destruct (existsb (sock_blocks PF_SOCK_UDP 0 port) _) eqn:E; [eauto|].
    destruct (existsb (sock_blocks PF_SOCK_TCP 0 port) _) eqn:E'; [eauto|]. by destruct Hn. }
  apply existsb_exists in Hb as (s & Hs & Hb). unfold sock_blocks in Hb.
  rewrite !andb_true_iff in Hb. destruct Hb as [[_ Hp%Z.eqb_eq] _].
  apply list_elem_of_fmap. exists s. split; [done|]. by apply list_elem_of_In.
Qed.

(** With 32 sockets, 33 consecutive candidates always include a free one. *)
Lemma ephemeral_exists t s :
  socktab_wf t → ∃ k, (k < 33)%nat ∧ port_free t (eph_port s k).
Proof.
  intros Ht. destruct (decide (Exists (fun k => port_free t (eph_port s k)) (seq 0 33))) as [He|He].
  { apply Exists_exists in He as (k & Hk%elem_of_seq & Hf). exists k. split; [lia|done]. }
  exfalso. apply not_Exists_Forall in He; [|intros k; unfold port_free; apply _].
  assert (NoDup (eph_port s <$> seq 0 33)) as Hnd.
  { apply NoDup_fmap_2_strong; [|apply NoDup_seq].
    intros j k Hj%elem_of_seq Hk%elem_of_seq. apply eph_port_inj; lia. }
  assert (length (eph_port s <$> seq 0 33) ≤ length (sk_local_port <$> st_socks t))%nat as Hle.
  { apply submseteq_length, NoDup_submseteq; [done|].
    intros port (k & -> & Hk)%list_elem_of_fmap. apply port_used_elem.
    exact (proj1 (Forall_forall _ _) He k Hk). }
  rewrite !length_fmap, length_seq, (tw_len _ Ht) in Hle. unfold PF_SOCK_MAX in Hle. lia.
Qed.

Lemma wp_pf_sock_ephemeral_port w (Q : Z → world → Prop) :
  socktab_wf (ps_socks (w_stack w)) →
  (∀ port n, PF_EPHEMERAL_BASE ≤ port < 65536 → PF_EPHEMERAL_BASE ≤ n < 65536 →
     port_free (ps_socks (w_stack w)) port → Q port (set_eph w n)) →
  wp pf_sock_ephemeral_port Q w.
Proof.
  intros Ht HQ. apply wp_ephemeral_loop; [apply Ht| |done].
  destruct (ephemeral_exists _ (st_ephemeral_next (ps_socks (w_stack w))) Ht) as (k & Hk & Hf).
  exists k. split; [|done]. unfold EPHEMERAL_TRIES. lia.
Qed.

(** ** Theorems *)

(** C38. Ephemeral port selection never fails: whatever the table, it returns
    a port of the dynamic range that no UDP or TCP socket uses, and changes
    only the cursor, which stays in range. *)
Theorem ephemeral_port_found w :
  socktab_wf (ps_socks (w_stack w)) →
  ∃ port n, pf_sock_ephemeral_port w = Ok (port, set_eph w n) ∧
    49152 ≤ port < 65536 ∧ 49152 ≤ n < 65536 ∧
    ∀ s, s ∈ socks w → sk_type s ≠ PF_SOCK_NONE → sk_local_port s ≠ port.
Proof.
  intros Ht.
  assert (wp pf_sock_ephemeral_port (fun port w' => ∃ n, w' = set_eph w n ∧
    49152 ≤ port < 65536 ∧ 49152 ≤ n < 65536 ∧ port_free (ps_socks (w_stack w)) port) w) as H.
  { apply wp_pf_sock_ephemeral_port; [done|]. intros port n Hp Hn Hf. exists n. wrap_lia || done. }
  apply wp_run in H as (port & w' & Hrun & n & -> & Hp & Hn & Hu & Htc).
  exists port, n. split_and!; try done; try lia. intros s Hs Hty E.
  assert (∀ type, existsb (sock_blocks type 0 port) (socks w) = false → sk_type s ≠ type) as Hno.
  { intros type Hx Heq. apply not_true_iff_false in Hx. apply Hx. apply existsb_exists.
    exists s. split; [by apply list_elem_of_In|]. unfold sock_blocks.
    rewrite bool_decide_eq_true_2, E, Z.eqb_refl, orb_true_r by done. done. }
  destruct (sk_type s) eqn:Ety; [done|by apply (Hno _ Hu)|by apply (Hno _ Htc)].
Qed.

Lemma ephemeral_port_found_witness :
  ∃ port n, pf_sock_ephemeral_port (demo_world demo_fib) = Ok (port, set_eph (demo_world demo_fib) n) ∧
            49152 ≤ port < 65536.
Proof.
  destruct (ephemeral_port_found (demo_world demo_fib) pf_socktab_init_wf) as (port & n & ? & ? & _).
  eauto.
Defined.

(** UDP demultiplexing is most-specific-first: the socket found is bound
    to the destination port and either to exactly the destination address, or
    to the wildcard when no socket is bound to exactly that address; nothing
    is found only if neither kind exists. The table is not changed. *)
Lemma lookup_udp_specific w ip port :
  ∃ r, pf_sock_lookup_udp ip port w = Ok (r, w) ∧
  match r with
  | Some i => ∃ s, socks w !! i = Some s ∧
      (udp_bound ip port s ∨
       udp_bound 0 port s ∧ ∀ j s', socks w !! j = Some s' → ¬ udp_bound ip port s')
  | None => ∀ j s, socks w !! j = Some s → ¬ udp_bound ip port s ∧ ¬ udp_bound 0 port s
  end.
Proof.
  eexists. split; [reflexivity|]. exact (lookup_udp_scan_spec [] (socks w) ip port None ltac:(done) ltac:(done)).
Qed.

(** Binding to [(ip, port)] would clash with [s]. *)
Definition conflicts (type : pf_sock_type) (ip port : Z) (s : pf_sock) : Prop :=
  sk_type s = type ∧ sk_local_port s = port ∧ (sk_local_ip s = 0 ∨ ip = 0 ∨ sk_local_ip s = ip).
#[global] Instance conflicts_dec type ip port s : Decision (conflicts type ip port s).
Proof. unfold conflicts. apply _. Defined.

Lemma port_in_use_conflicts type ip port l :
  existsb (sock_blocks type ip port) l = true ↔ Exists (conflicts type ip port) l.
Proof.
  rewrite existsb_exists, Exists_exists.
  split; intros (s & Hs & Hb); exists s; rewrite list_elem_of_In in *; (split; [done|]);
    unfold sock_blocks, conflicts in *.
  - rewrite !andb_true_iff, !orb_true_iff, bool_decide_eq_true, !Z.eqb_eq in Hb. tauto.
  - rewrite !andb_true_iff, !orb_true_iff, bool_decide_eq_true, !Z.eqb_eq. tauto.
Qed.

(** [pf_bind] succeeds exactly for a live handle, a nonzero port and an
    address/port no socket of the same type blocks (a wildcard on either side
    blocks everything); it then records the binding and nothing else, and
    otherwise changes nothing. *)
Theorem pf_bind_spec w sock ip port s :
  0 ≤ sock < 32 → socks w !! Z.to_nat sock = Some s →
  pf_bind sock ip port w =
  if decide (sk_type s = PF_SOCK_NONE ∨ port = 0 ∨ Exists (conflicts (sk_type s) ip port) (socks w))
  then Ok (-1, w)
  else Ok (0, set_socks w (put_sock (ps_socks (w_stack w)) (Z.to_nat sock)
                (s <| sk_local_ip := ip |> <| sk_local_port := port |>))).
Proof.
  intros Hr Hs.
  assert (get_sock (Z.to_nat sock) w = Ok (s, w)) as Hget.
  { unfold get_sock. eapply run_bind; [reflexivity|]. apply run_lift. by rewrite Hs. }
  unfold pf_bind, pf_sock_get.
  rewrite (proj2 (Z.ltb_ge sock 0)), (proj2 (Z.leb_gt _ sock)) by (unfold PF_SOCK_MAX; lia). cbn [orb].
  destruct (decide (sk_type s = PF_SOCK_NONE)) as [Hn|Hn].
  { rewrite decide_True by auto. eapply run_bind; [eapply run_bind; [exact Hget|reflexivity]|].
    by rewrite decide_True. }
  eapply run_bind; [eapply run_bind; [exact Hget|reflexivity]|]. rewrite decide_False by done.
  destruct (Z.eqb_spec port 0) as [->|Hp]; [rewrite decide_True by auto; done|].
  eapply run_bind; [exact Hget|]. eapply run_bind; [reflexivity|].
  destruct (existsb _ _) eqn:Hu.
  - apply port_in_use_conflicts in Hu. by rewrite decide_True by auto.
  - rewrite decide_False.
    2: { intros [?|[?|Hx%port_in_use_conflicts]]; [done|done|congruence]. }
    assert (wp (upd_sock (Z.to_nat sock) (fun s => s <| sk_local_ip := ip |> <| sk_local_port := port |>))
      (fun _ w' => w' = set_socks w (put_sock (ps_socks (w_stack w)) (Z.to_nat sock)
                (s <| sk_local_ip := ip |> <| sk_local_port := port |>))) w) as Hupd
      by by eapply wp_upd_sock.
    apply wp_run in Hupd as ([] & w' & Hrun & ->). eapply run_bind; [exact Hrun|reflexivity].
Qed.

Lemma pf_bind_spec_witness :
  pf_bind 0 0 53 (demo_world demo_fib) = Ok (-1, demo_world demo_fib).
Proof.
  rewrite (pf_bind_spec (demo_world demo_fib) 0 0 53 zero_sock ltac:(lia) eq_refl).
  by rewrite decide_True by (left; reflexivity).
Defined.
