(* ===== verification/Udp.v ===== *)
(** * UDP

    Models [udp/udp.c] and the datagram calls of [udp/sock.c]
    ([pf_sendto], [pf_recvfrom]). The event loop the blocking call pumps
    ([stack->poll_fn]) is a parameter of the definition that uses it. *)

From S2P Require Import Prelude Pf Checksum Pkt Fib Headers Stats Stack Link Arp IpOut Icmp Reass Sock.
Import Checksum Pkt Fib Stats.

Definition UDP_HDR_LEN : Z := 8.
#[global] Hint Unfold UDP_HDR_LEN : ints.

(** ** Operations *)

(** The checksum test of [udp_input]; a zero field means none was computed. *)
Definition udp_verify (uh : udp_hdr) (src dst ulen : Z) (l4 : bytes) : PF bool :=
  if uh_csum uh =? 0 then stat_inc udp_rx_nocsum;; mret true
  else
    let sum := csum_pseudo src dst IP_PROTO_UDP ulen in
    if negb (csum_fold (csum_partial (take (Z.to_nat ulen) l4) sum) =? 0)
    then stat_inc udp_rx_bad_csum;; mret false
    else mret true.

(** Queueing on socket [i] with data at the payload and the peer recorded. *)
Definition udp_deliver (i : nat) (p : pkt) (ihl ulen src sport : Z) : PF () :=
  s ← get_sock i;
  if PF_SOCK_RXQ_CAP <=? zlen (sk_rxq s) then stat_inc udp_rx_q_drops
  else
    p ← lift (pkt_pull p (u16 (ihl + UDP_HDR_LEN)));
    p ← lift (pkt_trim p (u16 (ulen - UDP_HDR_LEN)));
    let p := p <| p_meta_ip := src |> <| p_meta_port := sport |> in
    upd_sock i (set_field sk_rxq (fun q => q ++ [p]));;
    stat_inc udp_rx_delivered.

Definition udp_input (p : pkt) (ih : ipv4_hdr) : PF () :=
  stat_inc udp_rx;;
  let ihl := ip_hdr_len ih in
  let l4len := u16 (p_len p - ihl) in
  if l4len <? UDP_HDR_LEN then stat_inc udp_rx_malformed
  else
    l4 ← lift (pkt_read p ihl l4len);
    uh ← lift (read_udp l4);
    let ulen := pf_ntohs (uh_len uh) in
    if (ulen <? UDP_HDR_LEN) || (l4len <? ulen) then stat_inc udp_rx_malformed
    else
      let src := pf_ntohl (ih_saddr ih) in
      let dst := pf_ntohl (ih_daddr ih) in
      ok ← udp_verify uh src dst ulen l4;
      if negb ok then mret ()
      else
        sk ← pf_sock_lookup_udp dst (pf_ntohs (uh_dport uh));
        match sk with
        | None =>
            stat_inc udp_rx_no_sock;;
            icmp_send_error (pkt_bytes p) (p_len p) ICMP_TYPE_DEST_UNREACH ICMP_UNREACH_PORT
        | Some i => udp_deliver i p ihl ulen src (pf_ntohs (uh_sport uh))
        end.

(** The tail of [udp_output], once the source address is known. *)
Definition udp_send (src_ip dst_ip ulen : Z) (p : pkt) : PF Z :=
  seg ← lift (pkt_read p 0 ulen);
  let sum := csum_pseudo src_ip dst_ip IP_PROTO_UDP ulen in
  let c := csum_fold (csum_partial seg sum) in
  p ← lift (buf_write p (p_data p + 6) (store16 (pf_htons (if c =? 0 then 0xffff else c))));
  stat_inc udp_tx;;
  ip_output src_ip dst_ip IP_PROTO_UDP IP_DEFAULT_TTL p.

Definition udp_output (src_ip sport dst_ip dport : Z) (p : pkt) : PF Z :=
  let ulen := u16 (p_len p + UDP_HDR_LEN) in
  p ← lift (pkt_prepend p (udp_image (mk_udp (pf_htons sport) (pf_htons dport) (pf_htons ulen) 0)));
  if src_ip =? 0 then
    route ← ip_route_lookup dst_ip;
    match route with
    | None => stat_inc ip_tx_no_route;; mret (-1)
    | Some (dev, _) => nd ← get_dev dev; udp_send (nd_ip nd) dst_ip ulen p
    end
  else udp_send src_ip dst_ip ulen p.

(** Auto-binding of an unbound sender. *)
Definition sock_autobind (i : nat) : PF bool :=
  s ← get_sock i;
  if sk_local_port s =? 0 then
    port ← pf_sock_ephemeral_port;
    if port =? 0 then mret false
    else upd_sock i (set_field sk_local_port (fun _ => port));; mret true
  else mret true.

Definition pf_sendto (sock : Z) (buf : bytes) (dst_ip dst_port : Z) : PF Z :=
  h ← pf_sock_get sock;
  match h with
  | None => mret (-1)
  | Some i =>
      s ← get_sock i;
      if negb (bool_decide (sk_type s = PF_SOCK_UDP)) || (dst_port =? 0) then mret (-1)
      else if PKT_BUF_SIZE - PKT_TX_HEADROOM <? zlen buf then mret (-1)
      else
        bound ← sock_autobind i;
        if negb bound then mret (-1)
        else
          p ← lift (pkt_reserve pkt_alloc PKT_TX_HEADROOM);
          p ← (if zlen buf =? 0 then mret p else lift (pkt_append p buf));
          s ← get_sock i;
          udp_output (sk_local_ip s) (sk_local_port s) dst_ip dst_port p
  end.

(** The result of [pf_recvfrom]: the return value and, for a datagram, the
    bytes copied out and the peer. *)
Inductive recv_result :=
  | RecvErr
  | RecvNone
  | RecvData (data : bytes) (src_ip src_port : Z).

(** The wait loop, [fuel] pumps at most; [poll] is [stack->poll_fn]. *)
Fixpoint recvfrom_loop (fuel : nat) (poll : option (PF ())) (i : nat) (cap deadline : Z) : PF recv_result :=
  s ← get_sock i;
  match sk_rxq s with
  | [] =>
      now ← pf_now_ms;
      match poll with
      | None => mret RecvNone
      | Some pump =>
          if deadline <=? now then mret RecvNone
          else match fuel with
               | O => lift (Err OutOfFuel)
               | S fuel => pump;; recvfrom_loop fuel poll i cap deadline
               end
      end
  | p :: q =>
      upd_sock i (set_field sk_rxq (fun _ => q));;
      mret (RecvData (take (Z.to_nat (Z.min (p_len p) cap)) (pkt_bytes p)) (p_meta_ip p) (p_meta_port p))
  end.

Definition pf_recvfrom (fuel : nat) (poll : option (PF ())) (sock cap timeout_ms : Z) : PF recv_result :=
  h ← pf_sock_get sock;
  match h with
  | None => mret RecvErr
  | Some i =>
      s ← get_sock i;
      if negb (bool_decide (sk_type s = PF_SOCK_UDP)) then mret RecvErr
      else
        now ← pf_now_ms;
        let deadline := if timeout_ms <? 0 then 2 ^ 64 - 1 else u64 (now + timeout_ms) in
        recvfrom_loop fuel poll i cap deadline
  end.

(** ** The wire format *)

(** A UDP datagram with its checksum over the pseudo-header. *)
Definition udp_message (src sport dst dport : Z) (data : bytes) : bytes :=
  let ulen := zlen data + UDP_HDR_LEN in
  let h := mk_udp (pf_htons sport) (pf_htons dport) (pf_htons ulen) 0 in
  let c := csum_fold (csum_partial (udp_image h ++ data) (csum_pseudo src dst IP_PROTO_UDP ulen)) in
  udp_image (h <| uh_csum := pf_htons (if c =? 0 then 0xffff else c) |>) ++ data.

Lemma length_udp_message src sport dst dport data :
  zlen (udp_message src sport dst dport data) = zlen data + UDP_HDR_LEN.
Proof. unfold udp_message. rewrite length_app. cbn [length udp_image store16 app]. wrap_lia. Qed.

Lemma udp_image_ok h : bytes_ok (udp_image h).
Proof. unfold udp_image. rewrite !Forall_app. auto using store16_ok. Qed.

Lemma udp_message_ok src sport dst dport data :
  bytes_ok data → bytes_ok (udp_message src sport dst dport data).
Proof. intros. apply Forall_app_2; [apply udp_image_ok|done]. Qed.

(** The receiver's sum over a message is zero. *)
Lemma udp_message_csum src sport dst dport data :
  u32_ok src → u32_ok dst → u16_ok sport → u16_ok dport → bytes_ok data → zlen data ≤ 65000 →
  csum_fold (csum_partial (udp_message src sport dst dport data)
    (csum_pseudo src dst IP_PROTO_UDP (zlen data + UDP_HDR_LEN))) = 0.
Proof.
  intros Hs Hd Hsp Hdp Hok Hl. unfold udp_message. cbv zeta.
  set (ulen := zlen data + UDP_HDR_LEN). set (sum := csum_pseudo src dst IP_PROTO_UDP ulen).
  set (h := mk_udp _ _ _ 0). set (c := csum_fold (csum_partial (udp_image h ++ data) sum)).
  assert (0 ≤ c < 65536) as Hc by apply csum_fold_range.
  set (f := if c =? 0 then 0xffff else c). 
  assert (0 ≤ f < 65536) as Hf by (unfold f; destruct (c =? 0); lia).
  set (pre := store16 (pf_htons sport) ++ store16 (pf_htons dport) ++ store16 (pf_htons ulen)).
  change (udp_image (h <| uh_csum := pf_htons f |>)) with (pre ++ store16 (pf_htons f)).
  rewrite store16_htons, <- app_assoc by done.
  apply csum_fill_verifies; [by exists 3%nat| |done|cbn; lia| |].
  - unfold pre. rewrite !Forall_app. auto using store16_ok.
  - apply csum_pseudo_range; try done; unfold ulen; wrap_lia.
  - assert (c = csum_fold (csum_partial (pre ++ [0; 0] ++ data) sum)) as Ec by reflexivity.
    unfold f. destruct (Z.eqb_spec c 0) as [Hz|Hz]; [right|left]; [split; congruence|done].
Qed.

(** The fields of a message, read back. *)
Lemma udp_message_read src sport dst dport data :
  u16_ok sport → u16_ok dport → zlen data ≤ 65000 →
  ∃ uh, read_udp (udp_message src sport dst dport data) = Ok uh ∧
    pf_ntohs (uh_sport uh) = sport ∧ pf_ntohs (uh_dport uh) = dport ∧
    pf_ntohs (uh_len uh) = zlen data + UDP_HDR_LEN ∧ u16_ok (uh_csum uh).
Proof.
  intros Hs Hd Hl. unfold udp_message. cbv zeta.
  match goal with |- context [set_field uh_csum (fun _ => pf_htons ?x)] => generalize x end. intros f.
  set (uh := mk_udp (pf_htons sport) (pf_htons dport) (pf_htons (zlen data + UDP_HDR_LEN)) (pf_htons f)).
  exists uh. split; [apply (read_udp_image uh); split; apply htons_range|].
  cbn [uh uh_sport uh_dport uh_len uh_csum]. rewrite !ntohs_htons by wrap_lia.
  split_and!; try done; apply htons_range.
Qed.

(** ** Input *)

(** A socket without its queue: what UDP input never changes. *)
Definition sock_ctl (s : pf_sock) : pf_sock := s <| sk_rxq := [] |>.

Lemma erase_tx_socks w w' : erase_tx w = erase_tx w' → ps_socks (w_stack w) = ps_socks (w_stack w').
Proof. intros E. by apply erase_icmp_proj, erase_ip_icmp, erase_arp_ip, erase_tx_arp. Qed.

Lemma erase_tx_tcp w w' : erase_tx w = erase_tx w' → ps_tcp (w_stack w) = ps_tcp (w_stack w').
Proof. intros E. by apply erase_icmp_proj, erase_ip_icmp, erase_arp_ip, erase_tx_arp. Qed.

(** The packet a UDP datagram becomes in the receive queue. *)
Record udp_queued (data : bytes) (src sport : Z) (p : pkt) : Prop := {
  uq_wf : pkt_wf p;
  uq_data : pkt_bytes p = data;
  uq_ip : p_meta_ip p = src;
  uq_port : p_meta_port p = sport;
}.

Lemma wp_udp_deliver i s p ihl ulen src sport (Q : () → world → Prop) w :
  socks w !! i = Some s → pkt_wf p → 0 ≤ ihl → UDP_HDR_LEN ≤ ulen → ihl + ulen ≤ p_len p →
  (PF_SOCK_RXQ_CAP ≤ zlen (sk_rxq s) → ∀ w', erase_tx w = erase_tx w' → w_wire w' = w_wire w → Q () w') →
  (zlen (sk_rxq s) < PF_SOCK_RXQ_CAP → ∀ p' w',
     udp_queued (take (Z.to_nat (ulen - UDP_HDR_LEN))
                   (drop (Z.to_nat (ihl + UDP_HDR_LEN)) (pkt_bytes p))) src sport p' →
     erase_tx (set_socks w (put_sock (ps_socks (w_stack w)) i (s <| sk_rxq ::= fun q => q ++ [p'] |>)))
       = erase_tx w' → w_wire w' = w_wire w → Q () w') →
  wp (udp_deliver i p ihl ulen src sport) Q w.
Proof.
  intros Hi Hp Hihl Hulen Hfit Hfull Hq. pose proof (wf_fits _ Hp). pose proof (wf_data _ Hp).
  unfold udp_deliver. wp_step. eapply wp_get_sock; [done|].
  destruct (Z.leb_spec PF_SOCK_RXQ_CAP (zlen (sk_rxq s))) as [Hf|Hf].
  { apply wp_stat_inc. intros w1 E1 W1 _. by apply Hfull. }
  wp_step. rewrite !u16_small by wrap_lia.
  destruct (pkt_pull_ok p (ihl + UDP_HDR_LEN) Hp) as (p1 & Hp1 & Hwf1 & Hb1 & _ & Hl1); [wrap_lia|].
  eapply wp_lift; [exact Hp1|]. wp_step.
  destruct (pkt_trim_ok p1 (ulen - UDP_HDR_LEN) Hwf1) as (p2 & Hp2 & Hwf2 & Hb2 & _); [wrap_lia|].
  eapply wp_lift; [exact Hp2|]. wp_step. eapply wp_upd_sock; [done|].
  apply wp_stat_inc. intros w1 E1 W1 _. eapply (Hq Hf); [|exact E1|done].
  split; try done.
  - by destruct Hwf2.
  - change (pkt_bytes p2 = take (Z.to_nat (ulen - UDP_HDR_LEN))
      (drop (Z.to_nat (ihl + UDP_HDR_LEN)) (pkt_bytes p))). by rewrite Hb2, Hb1.
Qed.

Lemma put_sock_ctl t i s f :
  st_socks t !! i = Some s → (∀ s, sock_ctl (f s) = sock_ctl s) →
  sock_ctl <$> st_socks (put_sock t i (f s)) = sock_ctl <$> st_socks t.
Proof.
  intros Hi Hf. cbn. rewrite list_fmap_insert, Hf. apply list_insert_id.
  by rewrite list_lookup_fmap, Hi.
Qed.

(** What UDP input leaves behind. *)
Record udp_step (w w' : world) : Prop := {
  us_net : net_wf w';
  us_socks : socktab_wf (ps_socks (w_stack w'));
  us_ctl : sock_ctl <$> socks w' = sock_ctl <$> socks w;
  us_tcp : ps_tcp (w_stack w') = ps_tcp (w_stack w);
  us_frame : erase_l4 w = erase_l4 w';
}.

Lemma udp_step_icmp w w' :
  socktab_wf (ps_socks (w_stack w)) → net_wf w' → erase_icmp w = erase_icmp w' → udp_step w w'.
Proof.
  intros Hs Hn E. destruct (erase_icmp_proj _ _ E) as (_ & _ & _ & S & T & _).
  split; [done|by rewrite <- S|by rewrite S|done|frame].
Qed.

Lemma udp_step_from w w1 w' : erase_tx w = erase_tx w1 → udp_step w1 w' → udp_step w w'.
Proof.
  intros E [H1 H2 H3 H4 H5]. split; [done|done| | |frame].
  - by rewrite H3, <- (erase_tx_socks _ _ E).
  - by rewrite H4, <- (erase_tx_tcp _ _ E).
Qed.

Lemma lookup_udp_scan_lt l ip port i :
  lookup_udp_scan l 0 ip port None = Some i → ∃ s, l !! i = Some s.
Proof.
  intros H. pose proof (lookup_udp_scan_spec [] l ip port None ltac:(done) ltac:(done)) as Hs.
  cbn [app length] in Hs. rewrite H in Hs. destruct Hs as (s & ? & _). eauto.
Qed.

Lemma wp_udp_verify uh src dst ulen l4 w :
  wp (udp_verify uh src dst ulen l4) (fun _ w' => erase_tx w = erase_tx w') w.
Proof.
  unfold udp_verify. destruct (uh_csum uh =? 0); [wp_step; apply wp_stat_inc; intros w1 E1 _ _; by wp_step|].
  cbv zeta. destruct (negb _); wp_step; [|done]. apply wp_stat_inc. intros w1 E1 _ _. by wp_step.
Qed.

(** One more datagram in the queue of a socket that has room. *)
Lemma udp_step_queued w w' i s q :
  net_wf w → socktab_wf (ps_socks (w_stack w)) → socks w !! i = Some s → zlen (sk_rxq s) < PF_SOCK_RXQ_CAP →
  pkt_wf q → u32_ok (p_meta_ip q) →
  erase_tx (set_socks w (put_sock (ps_socks (w_stack w)) i (s <| sk_rxq ::= fun l => l ++ [q] |>))) = erase_tx w' →
  udp_step w w'.
Proof.
  intros Hn Hs Hi Hroom Hq Hip E. set (t' := put_sock _ _ _) in E.
  assert (sock_wf s) as Hsw by exact (Forall_lookup_1 _ _ _ _ (tw_socks _ Hs) Hi).
  assert (socktab_wf t') as Ht'.
  { apply put_sock_wf; [done|]. destruct Hsw. split; cbn; try done.
    - apply Forall_app_2; [done|]. by apply Forall_singleton.
    - rewrite length_app. cbn. lia. }
  split.
  - eapply net_wf_tx; [|exact E]. by apply net_wf_set_socks.
  - by rewrite <- (erase_tx_socks _ _ E).
  - rewrite <- (erase_tx_socks _ _ E). by apply (put_sock_ctl _ i s).
  - by rewrite <- (erase_tx_tcp _ _ E).
  - change (erase_l4 (set_socks w t') = erase_l4 w'). frame.
Qed.

Lemma wp_udp_input p ih w :
  net_wf w → socktab_wf (ps_socks (w_stack w)) → rx_dgram p ih →
  wp (udp_input p ih) (fun _ w' => udp_step w w') w.
Proof.
  intros Hn Hs Hrx. pose proof (length_ip_payload _ _ Hrx) as Hpl.
  pose proof Hrx as [Hwf _ Hok Hihl]. pose proof (wf_fits _ Hwf). pose proof (wf_data _ Hwf).
  assert (∀ w', erase_tx w = erase_tx w' → udp_step w w') as Hskip.
  { intros w' E. apply udp_step_icmp; [done|by eapply net_wf_tx|frame]. }
  unfold udp_input. wp_step. apply wp_stat_inc. intros w1 E1 W1 _. cbv zeta.
  rewrite (ip_payload_len16 _ _ Hrx), <- Hpl.
  destruct (Z.ltb_spec (zlen (ip_payload p ih)) UDP_HDR_LEN).
  { apply wp_stat_inc. intros w2 E2 _ _. apply Hskip. congruence. }
  wp_step. rewrite Hpl. eapply wp_lift; [by apply ip_payload_read|]. wp_step.
  destruct (read_udp_ok (ip_payload p ih)) as (uh & Huh & Huok & _); [by apply ip_payload_ok|wrap_lia|].
  eapply wp_lift; [exact Huh|].
  destruct (_ || _) eqn:Hbad.
  { apply wp_stat_inc. intros w2 E2 _ _. apply Hskip. congruence. }
  apply orb_false_iff in Hbad as [Hb1%Z.ltb_ge Hb2%Z.ltb_ge].
  wp_step. eapply wp_mono; [apply wp_udp_verify|].
  intros ok w2 E2'. assert (erase_tx w = erase_tx w2) as E2 by congruence. destruct ok; cbn [negb]; [|wp_steps; by apply Hskip].
  wp_step. unfold pf_sock_lookup_udp. wp_steps.
  destruct (lookup_udp_scan _ _ _ _ _) as [i|] eqn:Hl.
  - destruct (lookup_udp_scan_lt _ _ _ _ Hl) as [s Hi].
    eapply wp_udp_deliver; [done|done|wrap_lia|done|lia| |].
    { intros _ w3 E3 _. apply Hskip. congruence. }
    intros Hroom q w3 [Qwf _ Qip _] E3 _. pose proof (erase_tx_socks _ _ E2) as S2.
    eapply udp_step_from; [exact E2|]. eapply (udp_step_queued w2 w3 i s q); try done.
    + by eapply net_wf_tx.
    + by rewrite <- S2.
    + rewrite Qip. apply ntohl_u32, Hrx.
  - wp_step. apply wp_stat_inc. intros w3 E3 _ _.
    eapply wp_mono; [apply wp_icmp_send_error; try wrap_lia|].
    + eapply net_wf_tx; [done|congruence].
    + by apply pkt_bytes_ok.
    + rewrite (length_pkt_bytes _ Hwf). pose proof (wf_len _ Hwf). lia.
    + intros _ w4 (E4 & Hn4 & _). apply udp_step_icmp; [done|done|]. frame.
Qed.

(** ** Output *)

Lemma wp_udp_send src sport dst dport data p w :
  net_wf w → u32_ok src → u32_ok dst → bytes_ok data →
  let ulen := zlen data + UDP_HDR_LEN in
  pkt_wf p → IPV4_HDR_MIN + ETH_HDR_LEN ≤ p_data p → p_len p ≤ PKT_BUF_SIZE - PKT_TX_HEADROOM + 8 →
  pkt_bytes p = udp_image (mk_udp (pf_htons sport) (pf_htons dport) (pf_htons ulen) 0) ++ data →
  wp (udp_send src dst ulen p)
     (fun _ w' => erase_ip w = erase_ip w' ∧ net_wf w' ∧
        ip_output_post w src dst IP_PROTO_UDP IP_DEFAULT_TTL (udp_message src sport dst dport data) w') w.
Proof.
  intros Hn Hs Hd Hdok ulen Hp Hroom Hplen Hb. pose proof (length_pkt_bytes p Hp) as Hl.
  assert (p_len p = ulen) as Hul.
  { rewrite <- Hl, Hb, length_app. unfold ulen. cbn [length udp_image store16 app]. wrap_lia. }
  unfold udp_send. wp_step. eapply wp_lift.
  { apply pkt_read_ok; [done|lia|unfold ulen; wrap_lia|lia]. }
  rewrite drop_0, take_ge by lia. rewrite Hb.
  set (c := csum_fold _). set (f := if c =? 0 then 0xffff else c).
  destruct (pkt_patch_ok p 6 (store16 (pf_htons f))) as (p' & Hp' & Hwf' & Hb' & Hd' & Hl');
    [done|apply store16_ok|lia|cbn; unfold ulen in Hul; wrap_lia|].
  wp_step. eapply wp_lift; [exact Hp'|]. wp_step. apply wp_stat_inc. intros w1 E1 W1 _.
  eapply wp_mono; [apply wp_ip_output; try done|].
  - by eapply net_wf_tx.
  - split; [done|lia|lia].
  - intros _ w2 (E2 & Hn2 & Hpost). split_and!; [frame|done|].
    eapply ip_output_post_tx; [done..|]. rewrite Hb' in Hpost.
    assert (splice (pkt_bytes p) (Z.to_nat 6) (store16 (pf_htons f)) =
            udp_message src sport dst dport data) as <-; [|done].
    rewrite Hb. reflexivity.
Qed.

Definition udp_output_post (w : world) (src sport dst dport : Z) (data : bytes) (w' : world) : Prop :=
  let send s := ip_output_post w s dst IP_PROTO_UDP IP_DEFAULT_TTL (udp_message s sport dst dport data) w' in
  if src =? 0 then
    match ip_route (ps_fib (w_stack w)) dst with
    | None => arpc w' = arpc w ∧ w_wire w' = w_wire w
    | Some (dev, _) => ∃ nd, devs w !! dev = Some nd ∧ send (nd_ip nd)
    end
  else send src.

Lemma wp_udp_output src sport dst dport p w :
  net_wf w → u32_ok src → u32_ok dst → pkt_wf p →
  UDP_HDR_LEN + IPV4_HDR_MIN + ETH_HDR_LEN ≤ p_data p → p_len p ≤ PKT_BUF_SIZE - PKT_TX_HEADROOM →
  wp (udp_output src sport dst dport p)
     (fun _ w' => erase_ip w = erase_ip w' ∧ net_wf w' ∧
                  udp_output_post w src sport dst dport (pkt_bytes p) w') w.
Proof.
  intros Hn Hs Hd Hp Hroom Hlen. pose proof (length_pkt_bytes p Hp) as Hl. pose proof (wf_len _ Hp).
  unfold udp_output, udp_output_post. cbv zeta.
  assert (u16 (p_len p + UDP_HDR_LEN) = zlen (pkt_bytes p) + UDP_HDR_LEN) as -> by wrap_lia.
  set (h := udp_image _). assert (zlen h = 8) as Hh by done.
  destruct (pkt_prepend_ok p h) as (p' & Hp' & Hwf' & Hb' & Hd' & Hl');
    [done|apply udp_image_ok|wrap_lia|].
  wp_step. eapply wp_lift; [exact Hp'|].
  assert (∀ s, u32_ok s → wp (udp_send s dst (zlen (pkt_bytes p) + UDP_HDR_LEN) p')
    (fun _ w' => erase_ip w = erase_ip w' ∧ net_wf w' ∧ ip_output_post w s dst IP_PROTO_UDP
       IP_DEFAULT_TTL (udp_message s sport dst dport (pkt_bytes p)) w') w) as Hsend.
  { intros s Hsok. apply wp_udp_send; try done; [by apply pkt_bytes_ok|wrap_lia|wrap_lia]. }
  destruct (src =? 0); [|by apply Hsend].
  wp_step. apply wp_ip_route_lookup; [done|]. intros r Hr Hdev. rewrite Hr.
  destruct r as [[dev nh]|].
  - destruct (Hdev _ _ eq_refl) as [nd Hnd]. pose proof (dev_at_of_lookup _ _ _ Hnd) as Hda.
    wp_step. eapply wp_get_dev; [done|]. intros nd' (_ & -> & _)%clear_st_proj.
    eapply wp_mono; [apply Hsend, (dw_ip _ (dev_at_wf _ _ _ (nw_link _ Hn) Hda))|].
    intros _ w' (? & ? & ?). eauto.
  - wp_step. apply wp_stat_inc. intros w1 E1 W1 _. wp_steps.
    split_and!; [frame|by eapply net_wf_tx|symmetry; by apply erase_tx_arp_eq|done].
Qed.

(** ** Theorems *)

(** [udp_output] of up to 3968 bytes returns, keeps the network invariant
    and hands IP exactly one datagram: the given ports, the right length, the
    data, and a checksum over the pseudo-header with the source address that
    IP will use (the egress interface's when none is given); without a route
    nothing is sent. *)
Theorem udp_output_spec w src sport dst dport p :
  net_wf w → u32_ok src → u32_ok dst → pkt_wf p →
  UDP_HDR_LEN + IPV4_HDR_MIN + ETH_HDR_LEN ≤ p_data p → p_len p ≤ PKT_BUF_SIZE - PKT_TX_HEADROOM →
  ∃ rc w', udp_output src sport dst dport p w = Ok (rc, w') ∧ erase_ip w = erase_ip w' ∧ net_wf w' ∧
           udp_output_post w src sport dst dport (pkt_bytes p) w'.
Proof.
  intros Hn Hs Hd Hp Hr Hl.
  destruct (wp_run _ _ _ (wp_udp_output src sport dst dport p w Hn Hs Hd Hp Hr Hl)) as (rc & w' & ?).
  eauto.
Qed.

Lemma udp_output_spec_witness :
  ∃ rc w', udp_output 0 5000 0x0a000002 53 tx_pkt demo = Ok (rc, w') ∧ net_wf w'.
Proof.
  destruct (udp_output_spec demo 0 5000 0x0a000002 53 tx_pkt demo_net_wf ltac:(lia) ltac:(lia)
    tx_pkt_wf ltac:(vm_compute; discriminate) ltac:(vm_compute; discriminate)) as (rc & w' & H1 & _ & H2 & _).
  eauto.
Defined.

(** C37. A datagram as [udp_output] builds it is always accepted by
    [udp_input] (the checksum verifies, also when it was 0 and went out as
    0xffff): if the addressed socket has room, exactly its data and the
    sender's address and port are appended to that socket's queue; if not,
    the datagram is dropped and no socket changes. *)
Theorem udp_message_delivered w p ih src sport dst dport data i s :
  rx_dgram p ih → ip_payload p ih = udp_message src sport dst dport data →
  pf_ntohl (ih_saddr ih) = src → pf_ntohl (ih_daddr ih) = dst → u16_ok sport → u16_ok dport →
  lookup_udp_scan (socks w) 0 dst dport None = Some i → socks w !! i = Some s →
  ∃ w', udp_input p ih w = Ok ((), w') ∧ w_wire w' = w_wire w ∧
  if zlen (sk_rxq s) <? PF_SOCK_RXQ_CAP
  then ∃ q, udp_queued data src sport q ∧ socks w' = <[i:=s <| sk_rxq ::= fun l => l ++ [q] |>]> (socks w)
  else socks w' = socks w.
Proof.
  intros Hrx Hpay Hsrc Hdst Hsp Hdp Hl Hi. pose proof (length_ip_payload _ _ Hrx) as Hpl.
  pose proof Hrx as [Hwf _ Hok Hihl]. pose proof (wf_fits _ Hwf). pose proof (wf_data _ Hwf).
  pose proof (length_udp_message src sport dst dport data) as Hml. rewrite <- Hpay, Hpl in Hml.
  assert (zlen data ≤ 65000) as Hdl by wrap_lia.
  assert (bytes_ok data) as Hdok.
  { pose proof (ip_payload_ok _ _ Hrx) as Hall. rewrite Hpay in Hall. by apply Forall_app in Hall as [_ ?]. }
  assert (u32_ok src ∧ u32_ok dst) as [Hsok Hdok'].
  { rewrite <- Hsrc, <- Hdst. split; apply ntohl_u32; apply Hok. }
  cut (wp (udp_input p ih) (fun _ w' => w_wire w' = w_wire w ∧
    if zlen (sk_rxq s) <? PF_SOCK_RXQ_CAP
    then ∃ q, udp_queued data src sport q ∧ socks w' = <[i:=s <| sk_rxq ::= fun l => l ++ [q] |>]> (socks w)
    else socks w' = socks w) w).
  { intros ([] & w' & Hrun & ?)%wp_run. eauto. }
  destruct (udp_message_read src sport dst dport data Hsp Hdp Hdl) as (uh & Huh & U1 & U2 & U3 & U4).
  unfold udp_input. wp_step. apply wp_stat_inc. intros w1 E1 W1 _. cbv zeta.
  rewrite (ip_payload_len16 _ _ Hrx). rewrite (proj2 (Z.ltb_ge _ UDP_HDR_LEN)) by lia.
  wp_step. eapply wp_lift; [by apply ip_payload_read|]. wp_step. rewrite Hpay.
  eapply wp_lift; [exact Huh|]. rewrite U1, U2, U3, Hsrc, Hdst.
  rewrite (proj2 (Z.ltb_ge _ UDP_HDR_LEN)), (proj2 (Z.ltb_ge _ (zlen data + UDP_HDR_LEN))) by lia.
  cbn [orb]. wp_step.
  eapply (wp_mono _ (fun ok w2 => ok = true ∧ erase_tx w = erase_tx w2 ∧ w_wire w2 = w_wire w)).
  { unfold udp_verify. destruct (uh_csum uh =? 0).
    - wp_step. apply wp_stat_inc. intros w2 E2 W2 _. wp_steps. split_and!; [done|congruence..].
    - cbv zeta. rewrite take_ge by (pose proof (length_udp_message src sport dst dport data); lia).
      rewrite udp_message_csum by done. cbn [negb Z.eqb]. wp_steps. done. }
  intros ok w2 (-> & E2 & W2). cbn [negb]. wp_step. unfold pf_sock_lookup_udp. wp_steps.
  pose proof (erase_tx_socks _ _ E2) as S2. rewrite <- S2, Hl.
  eapply wp_udp_deliver; [by rewrite <- S2|done|wrap_lia|wrap_lia|lia| |].
  - intros Hf w3 E3 W3. rewrite (proj2 (Z.ltb_ge _ _)) by done.
    rewrite <- (erase_tx_socks _ _ E3), <- S2. split; [congruence|done].
  - intros Hroom q w3 Hq E3 W3. rewrite (proj2 (Z.ltb_lt _ _)) by done. split; [congruence|].
    exists q. rewrite <- S2 in E3. split.
    + replace (take _ _) with data in Hq; [done|].
      replace (drop _ (pkt_bytes p)) with (drop 8 (ip_payload p ih)).
      2: { unfold ip_payload. rewrite drop_drop. f_equal. wrap_lia. }
      rewrite Hpay. change (drop 8 (udp_message src sport dst dport data)) with data.
      symmetry. apply take_ge. wrap_lia.
    + by rewrite <- (erase_tx_socks _ _ E3).
Qed.

(** A bound receiver for the witnesses: socket 0 on port 53, any address. *)
Definition demo_rx_world : world :=
  set_socks demo (put_sock pf_socktab_init 0 (mk_sock PF_SOCK_UDP 0 53 [] None 0)).

Definition demo_udp : bytes := udp_message 0x0a000002 5000 0x0a000001 53 [104; 105].

Lemma demo_udp_rx :
  rx_dgram (mk_rx (ip_datagram 0x0a000002 0x0a000001 IP_PROTO_UDP 64 1 0 demo_udp))
    (ip_build_hdr 0x0a000002 0x0a000001 IP_PROTO_UDP 64 1 0 (zlen demo_udp + IPV4_HDR_MIN)).
Proof.
  apply mk_rx_datagram; [lia|lia|wrap_lia|wrap_lia| |].
  - apply udp_message_ok. solve_bytes_ok.
  - unfold demo_udp. rewrite length_udp_message. cbn. wrap_lia.
Qed.

Lemma udp_message_delivered_witness :
  ∃ w' q, udp_input (mk_rx (ip_datagram 0x0a000002 0x0a000001 IP_PROTO_UDP 64 1 0 demo_udp))
      (ip_build_hdr 0x0a000002 0x0a000001 IP_PROTO_UDP 64 1 0 (zlen demo_udp + IPV4_HDR_MIN))
      demo_rx_world = Ok ((), w') ∧ udp_queued [104; 105] 0x0a000002 5000 q.
Proof.
  destruct (udp_message_delivered demo_rx_world
    (mk_rx (ip_datagram 0x0a000002 0x0a000001 IP_PROTO_UDP 64 1 0 demo_udp))
    (ip_build_hdr 0x0a000002 0x0a000001 IP_PROTO_UDP 64 1 0 (zlen demo_udp + IPV4_HDR_MIN))
    0x0a000002 5000 0x0a000001 53 [104; 105] 0 (mk_sock PF_SOCK_UDP 0 53 [] None 0)
    demo_udp_rx ltac:(vm_compute; reflexivity) ltac:(vm_compute; reflexivity)
    ltac:(vm_compute; reflexivity) ltac:(lia) ltac:(lia) ltac:(vm_compute; reflexivity) eq_refl)
    as (w' & H1 & _ & H2).
  destruct H2 as (q & Hq & _). eauto.
Defined.

(** [pf_recvfrom] is first-in first-out: on a UDP socket with datagrams
    queued it returns the oldest one's leading bytes (as many as fit the
    buffer) with its peer, without waiting, and removes exactly that one; on
    an empty queue without an event loop it returns 0 and changes nothing. *)
Lemma pf_recvfrom_fifo fuel poll sock cap timeout w s :
  0 ≤ sock < 32 → socks w !! Z.to_nat sock = Some s → sk_type s = PF_SOCK_UDP →
  match sk_rxq s with
  | p :: q =>
      pf_recvfrom fuel poll sock cap timeout w =
        Ok (RecvData (take (Z.to_nat (Z.min (p_len p) cap)) (pkt_bytes p)) (p_meta_ip p) (p_meta_port p),
            set_socks w (put_sock (ps_socks (w_stack w)) (Z.to_nat sock) (s <| sk_rxq := q |>)))
  | [] => pf_recvfrom fuel None sock cap timeout w = Ok (RecvNone, w)
  end.
Proof.
  intros Hr Hs Ht.
  assert (get_sock (Z.to_nat sock) w = Ok (s, w)) as Hget.
  { unfold get_sock. eapply run_bind; [reflexivity|]. apply run_lift. by rewrite Hs. }
  assert (pf_sock_get sock w = Ok (Some (Z.to_nat sock), w)) as Hh.
  { unfold pf_sock_get.
    rewrite (proj2 (Z.ltb_ge sock 0)), (proj2 (Z.leb_gt _ sock)) by (unfold PF_SOCK_MAX; lia). cbn [orb].
    eapply run_bind; [exact Hget|]. by rewrite decide_False by (by rewrite Ht). }
  assert (∀ poll r, (∀ d, recvfrom_loop fuel poll (Z.to_nat sock) cap d w = r) →
    pf_recvfrom fuel poll sock cap timeout w = r) as Hloop.
  { intros poll' r Hd. unfold pf_recvfrom. eapply run_bind; [exact Hh|]. eapply run_bind; [exact Hget|].
    rewrite bool_decide_eq_true_2 by done. cbn [negb]. eapply run_bind; [reflexivity|]. apply Hd. }
  destruct (sk_rxq s) as [|p q] eqn:Hq; apply Hloop; intros d; destruct fuel as [|fuel];
    cbn [recvfrom_loop]; (eapply run_bind; [exact Hget|]); rewrite Hq; try reflexivity.
  all: assert (wp (upd_sock (Z.to_nat sock) (set_field sk_rxq (fun _ => q))) (fun _ w' =>
      w' = set_socks w (put_sock (ps_socks (w_stack w)) (Z.to_nat sock) (s <| sk_rxq := q |>))) w) as Hupd
      by (by eapply wp_upd_sock).
  all: apply wp_run in Hupd as ([] & w' & Hrun & ->); eapply run_bind; [exact Hrun|reflexivity].
Qed.

Lemma pf_recvfrom_fifo_witness :
  pf_recvfrom 0 None 0 100 0 demo_rx_world = Ok (RecvNone, demo_rx_world).
Proof.
  exact (pf_recvfrom_fifo 0 None 0 100 0 demo_rx_world (mk_sock PF_SOCK_UDP 0 53 [] None 0)
    ltac:(lia) eq_refl eq_refl).
Defined.
