(* ===== verification/Tcb.v ===== *)
(** * TCP control blocks

    Models the parts of [tcp/tcp.h], [tcp/tcp.c] and [tcp/tcp_out.c] that
    work on a single control block: sequence-number comparison, the byte
    rings, the receive window, RFC 6298 timing, the congestion window, option
    parsing and the out-of-order queue. *)

From S2P Require Import Prelude Pf Pkt Headers Stats Stack.
Import Pkt Stats.

(** ** Constants *)

Definition TCP_HDR_MIN : Z := 20.
Definition TCP_FIN : Z := 0x01.
Definition TCP_SYN : Z := 0x02.
Definition TCP_RST : Z := 0x04.
Definition TCP_PSH : Z := 0x08.
Definition TCP_ACK : Z := 0x10.
Definition TCP_OPT_END : Z := 0.
Definition TCP_OPT_NOP : Z := 1.
Definition TCP_OPT_MSS : Z := 2.
Definition TCP_DEFAULT_MSS : Z := 536.
Definition TCP_OUR_MSS : Z := 1460.
Definition TCP_OOO_MAX : Z := 16.
Definition TCP_ACCEPT_QLEN : Z := 8.
Definition TCP_RTO_MIN_MS : Z := 200.
Definition TCP_RTO_MAX_MS : Z := 60000.
Definition TCP_RTO_INITIAL_MS : Z := 1000.
Definition TCP_CLOCK_G_MS : Z := 10.
Definition TCP_MAX_RTX : Z := 10.
Definition TCP_MSL_MS : Z := 5000.
Definition TCP_DELACK_MS : Z := 40.
Definition PF_ECONNRESET : Z := 1.
Definition PF_ECONNREFUSED : Z := 2.
Definition PF_ETIMEDOUT : Z := 3.
#[global] Hint Unfold TCP_HDR_MIN TCP_FIN TCP_SYN TCP_RST TCP_PSH TCP_ACK TCP_DEFAULT_MSS
  TCP_OUR_MSS TCP_OOO_MAX TCP_ACCEPT_QLEN TCP_RTO_MIN_MS TCP_RTO_MAX_MS TCP_RTO_INITIAL_MS
  TCP_CLOCK_G_MS TCP_MAX_RTX TCP_MSL_MS TCP_DELACK_MS : ints.

Definition tcp_hdr_len (th : tcp_hdr) : Z := u8 (Z.shiftr (th_doff th) 4 * 4).

(** [flags & f]. *)
Definition has_flag (flags f : Z) : bool := negb (Z.land flags f =? 0).

(** ** Sequence numbers *)

Definition seq_lt (a b : Z) : bool := s32 (a - b) <? 0.
Definition seq_le (a b : Z) : bool := s32 (a - b) <=? 0.
Definition seq_gt (a b : Z) : bool := 0 <? s32 (a - b).
Definition seq_ge (a b : Z) : bool := 0 <=? s32 (a - b).

(** ** Rings *)

(** [memcpy] to and from a heap buffer; outside it is undefined. *)
Definition mem_write (buf : bytes) (pos : Z) (h : bytes) : result bytes :=
  if (0 <=? pos) && (pos + zlen h <=? zlen buf) then Ok (splice buf (Z.to_nat pos) h)
  else Err OutOfBounds.
Definition mem_read (buf : bytes) (pos n : Z) : result bytes :=
  if (0 <=? pos) && (0 <=? n) && (pos + n <=? zlen buf)
  then Ok (take (Z.to_nat n) (drop (Z.to_nat pos) buf))
  else Err OutOfBounds.

(** The pair of copies around the end of a ring of [size] bytes, into it at
    [w] and out of it from [start]. *)
Definition ring_put (size : Z) (buf : bytes) (w : Z) (data : bytes) : result bytes :=
  let first := Z.min (zlen data) (size - w) in
  buf ← mem_write buf w (take (Z.to_nat first) data);
  mem_write buf 0 (drop (Z.to_nat first) data).
Definition ring_get (size : Z) (buf : bytes) (start n : Z) : result bytes :=
  let first := Z.min n (size - start) in
  a ← mem_read buf start first;
  b ← mem_read buf 0 (n - first);
  Ok (a ++ b).

(** The [data]/[len] pair of the source is the list of those bytes. *)
Definition rcv_ring_put (t : tcp_cb) (data : bytes) : result (tcp_cb * Z) :=
  let space := u32 (TCP_RCVBUF - tc_rcv_len t) in
  let len := Z.min (zlen data) space in
  let w := u32 (tc_rcv_head t + tc_rcv_len t) mod TCP_RCVBUF in
  buf ← ring_put TCP_RCVBUF (tc_rcvbuf t) w (take (Z.to_nat len) data);
  Ok (t <| tc_rcvbuf := buf |> <| tc_rcv_len := u32 (tc_rcv_len t + len) |>, len).

Definition ring_copy_out (ring : bytes) (start n : Z) : result bytes :=
  ring_get TCP_SNDBUF ring (start mod TCP_SNDBUF) n.

Definition tcp_snd_space (t : tcp_cb) : Z := u32 (TCP_SNDBUF - tc_snd_len t).

(** ** Window, timers, congestion control *)

Definition tcp_rcv_window (t : tcp_cb) : Z :=
  let freeb := u32 (TCP_RCVBUF - tc_rcv_len t) in u16 (Z.min freeb 0xffff).

Definition tcp_arm_rto (now : Z) (t : tcp_cb) : tcp_cb :=
  if tc_rto_deadline t =? 0 then t <| tc_rto_deadline := u64 (now + tc_rto_ms t) |> else t.

Definition tcp_cwnd_init (t : tcp_cb) : tcp_cb :=
  t <| tc_cwnd := Z.min (4 * tc_mss t) (Z.max (2 * tc_mss t) 4380) |>
    <| tc_ssthresh := 0xffffffff |>.

Definition tcp_enter_timewait (now : Z) (t : tcp_cb) : tcp_cb :=
  t <| tc_state := TCP_TIME_WAIT |>
    <| tc_timewait_deadline := u64 (now + 2 * TCP_MSL_MS) |>
    <| tc_rto_deadline := 0 |> <| tc_delack_deadline := 0 |>.

(** The new SRTT and RTTVAR; C's division truncates. *)
Definition rtt_smooth (srtt rttvar r_ms : Z) : Z * Z :=
  if srtt <? 0 then (r_ms, Z.quot r_ms 2)
  else (Z.quot (7 * srtt + r_ms) 8, Z.quot (3 * rttvar + Z.abs (srtt - r_ms)) 4).

Definition tcp_rtt_sample (r_ms : Z) (t : tcp_cb) : tcp_cb :=
  let '(srtt, rttvar) := rtt_smooth (tc_srtt_ms t) (tc_rttvar_ms t) r_ms in
  let rto := srtt + Z.max TCP_CLOCK_G_MS (4 * rttvar) in
  let rto := if rto <? TCP_RTO_MIN_MS then TCP_RTO_MIN_MS else rto in
  let rto := if TCP_RTO_MAX_MS <? rto then TCP_RTO_MAX_MS else rto in
  t <| tc_srtt_ms := srtt |> <| tc_rttvar_ms := rttvar |> <| tc_rto_ms := u32 rto |>.

Definition tcp_apply_mss (peer_mss : Z) (t : tcp_cb) : tcp_cb :=
  t <| tc_mss := if peer_mss =? 0 then TCP_DEFAULT_MSS else u16 (Z.min peer_mss TCP_OUR_MSS) |>.

Definition tcp_data_in_flight (t : tcp_cb) : Z :=
  let fl := u32 (tc_snd_nxt t - tc_snd_una t) in
  if tc_fin_sent t && (0 <? fl) then fl - 1 else fl.

(** The growth of the congestion window on an ACK of [dbytes] new bytes. *)
Definition cwnd_on_ack (dbytes : Z) (t : tcp_cb) : result Z :=
  if 3 <=? tc_dupacks t then Ok (tc_ssthresh t)
  else if tc_cwnd t <? tc_ssthresh t then Ok (u32 (tc_cwnd t + Z.min dbytes (tc_mss t)))
  else if tc_cwnd t =? 0 then Err DivByZero
  else Ok (u32 (tc_cwnd t + Z.max 1 (u32 (tc_mss t * tc_mss t) / tc_cwnd t))).

(** ** Options

    [o] is what is left of the option bytes; the result is the MSS found and
    whether the list was malformed. Every round consumes a byte. *)
Fixpoint parse_mss_loop (fuel : nat) (o : bytes) (mss : Z) : result (Z * bool) :=
  match fuel with
  | O => Err OutOfFuel
  | S fuel =>
      match o with
      | [] => Ok (mss, false)
      | kind :: rest =>
          if kind =? TCP_OPT_END then Ok (mss, false)
          else if kind =? TCP_OPT_NOP then parse_mss_loop fuel rest mss
          else match rest with
               | [] => Ok (mss, true)
               | len :: body =>
                   if (len <? 2) || (zlen o <? len) then Ok (mss, true)
                   else
                     mss ← (if (kind =? TCP_OPT_MSS) && (len =? 4)
                            then match body with
                                 | b0 :: b1 :: _ => Ok (pf_get_be16 b0 b1)
                                 | _ => Err OutOfBounds
                                 end
                            else Ok mss);
                     parse_mss_loop fuel (drop (Z.to_nat len) o) mss
               end
      end
  end.

(** [seg] is the segment, the header first. *)
Definition tcp_parse_mss (seg : bytes) (th : tcp_hdr) : PF Z :=
  opts ← lift (mem_read seg TCP_HDR_MIN (tcp_hdr_len th - TCP_HDR_MIN));
  '(mss, bad) ← lift (parse_mss_loop (S (length opts)) opts 0);
  when bad (stat_inc tcp_rx_bad_opts);;
  mret mss.

(** ** Out-of-order segments

    [p_u32] of a parked packet is its sequence number. *)

(** The loop of [tcp_ooo_drain] on the queue [q]; counts the bytes moved to
    the ring. *)
Fixpoint ooo_drain (q : list pkt) (t : tcp_cb) : result (tcp_cb * Z) :=
  match q with
  | [] => Ok (t, 0)
  | p :: q =>
      let qseq := p_u32 p in
      if seq_gt qseq (tc_rcv_nxt t) then Ok (t, 0)
      else
        let t := t <| tc_ooo := q |> in
        if seq_lt (u32 (qseq + p_len p)) (tc_rcv_nxt t) || (u32 (qseq + p_len p) =? tc_rcv_nxt t)
        then ooo_drain q t
        else
          let skip := u32 (tc_rcv_nxt t - qseq) in
          let want := u32 (p_len p - skip) in
          data ← pkt_read p skip want;
          '(t, taken) ← rcv_ring_put t data;
          let t := t <| tc_rcv_nxt := u32 (tc_rcv_nxt t + taken) |> in
          if taken <? want then Ok (t, taken)
          else '(t, n) ← ooo_drain q t; Ok (t, taken + n)
  end.

(** A parked segment [p] overlaps [len] bytes from [seq]. *)
Definition ooo_overlaps (seq len : Z) (p : pkt) : bool :=
  seq_lt seq (u32 (p_u32 p + p_len p)) && seq_lt (p_u32 p) (u32 (seq + len)).

(** The sorted insert. *)
Fixpoint ooo_place (q : pkt) (l : list pkt) : list pkt :=
  match l with
  | p :: l' => if seq_lt (p_u32 p) (p_u32 q) then p :: ooo_place q l' else q :: l
  | [] => [q]
  end.

(** The new queue, or [None] when the segment is declined. *)
Definition ooo_insert (seq : Z) (data : bytes) (t : tcp_cb) : result (option (list pkt)) :=
  if TCP_OOO_MAX <=? zlen (tc_ooo t) then Ok None
  else if existsb (ooo_overlaps seq (zlen data)) (tc_ooo t) then Ok None
  else
    q ← pkt_append pkt_alloc data;
    Ok (Some (ooo_place (q <| p_u32 := seq |>) (tc_ooo t))).

(** ** Sequence numbers are ordered on any half of the space *)

Lemma seq_lt_iff a b : seq_lt a b = true ↔ 1 ≤ u32 (b - a) ≤ 2 ^ 31.
Proof. unfold seq_lt, s32. rewrite Z.ltb_lt. repeat case_match; wrap_lia. Qed.

Lemma seq_gt_iff a b : seq_gt a b = true ↔ 1 ≤ u32 (a - b) < 2 ^ 31.
Proof. unfold seq_gt, s32. rewrite Z.ltb_lt. repeat case_match; wrap_lia. Qed.

Lemma seq_le_iff a b : seq_le a b = true ↔ 0 ≤ u32 (b - a) ≤ 2 ^ 31.
Proof. unfold seq_le, s32. rewrite Z.leb_le. repeat case_match; wrap_lia. Qed.

Lemma seq_ge_iff a b : seq_ge a b = true ↔ 0 ≤ u32 (a - b) < 2 ^ 31.
Proof. unfold seq_ge, s32. rewrite Z.leb_le. repeat case_match; wrap_lia. Qed.

(** On any window of 2^31 consecutive sequence numbers, wherever it
    starts (also across the wrap at 2^32), the four comparisons are exactly
    the order of the positions in the window. *)
Theorem seq_window_order base i j :
  0 ≤ i < 2 ^ 31 → 0 ≤ j < 2 ^ 31 →
  seq_lt (u32 (base + i)) (u32 (base + j)) = (i <? j) ∧
  seq_le (u32 (base + i)) (u32 (base + j)) = (i <=? j) ∧
  seq_gt (u32 (base + i)) (u32 (base + j)) = (j <? i) ∧
  seq_ge (u32 (base + i)) (u32 (base + j)) = (j <=? i).
Proof.
  intros Hi Hj. split_and!; apply eq_true_iff_eq;
    rewrite ?seq_lt_iff, ?seq_le_iff, ?seq_gt_iff, ?seq_ge_iff, ?Z.ltb_lt, ?Z.leb_le; wrap_lia.
Qed.

Lemma seq_window_order_witness :
  seq_lt (u32 (0xfffffff0 + 8)) (u32 (0xfffffff0 + 32)) = true.
Proof. apply (seq_window_order 0xfffffff0 8 32); lia. Defined.

(** ** Rings as queues *)

(** The [n] bytes of ring [buf] from [head]. *)
Definition ring_data (buf : bytes) (head n : Z) : bytes :=
  take (Z.to_nat n) (drop (Z.to_nat head) (buf ++ buf)).

Definition ring_idx (size x : Z) : Z := if x <? size then x else x - size.

Lemma ring_idx_mod size x : 0 ≤ x < 2 * size → x mod size = ring_idx size x.
Proof.
  intros Hx. unfold ring_idx. destruct (Z.ltb_spec x size); [apply Z.mod_small; lia|].
  symmetry. apply (Z.mod_unique _ _ 1); lia.
Qed.

Lemma length_ring_data buf head n :
  0 ≤ head < zlen buf → 0 ≤ n ≤ zlen buf → zlen (ring_data buf head n) = n.
Proof. intros. unfold ring_data. rewrite length_take, length_drop, length_app. lia. Qed.

Lemma lookup_ring buf head n i :
  0 ≤ head < zlen buf → 0 ≤ Z.of_nat i < n → n ≤ zlen buf →
  ring_data buf head n !! i = buf !! Z.to_nat (ring_idx (zlen buf) (head + Z.of_nat i)).
Proof.
  intros Hh Hi Hn. unfold ring_data, ring_idx. rewrite lookup_take_lt by lia. rewrite lookup_drop.
  destruct (Z.ltb_spec (head + Z.of_nat i) (zlen buf)).
  - rewrite lookup_app_l by lia. f_equal. lia.
  - rewrite lookup_app_r by lia. f_equal. lia.
Qed.

Lemma ring_data_ok buf head n : bytes_ok buf → bytes_ok (ring_data buf head n).
Proof. intros. apply Forall_take, Forall_drop, Forall_app_2; done. Qed.

(** Two rings of data of one length agree when their elements do. *)
Lemma list_eq_lookup_lt {A} (l1 l2 : list A) :
  length l1 = length l2 → (∀ i, (i < length l1)%nat → l1 !! i = l2 !! i) → l1 = l2.
Proof.
  intros Hl H. apply list_eq. intros i. destruct (decide (i < length l1)%nat) as [Hi|Hi]; [auto|].
  rewrite !lookup_ge_None_2; [done|lia|lia].
Qed.

Lemma lookup_splice {A} (l : list A) pos h j :
  (pos + length h ≤ length l)%nat →
  splice l pos h !! j =
    if decide (pos ≤ j ∧ j < pos + length h)%nat then h !! (j - pos)%nat else l !! j.
Proof.
  intros Hf. unfold splice. destruct (decide (j < pos)%nat) as [Hj|Hj].
  { rewrite lookup_app_l by (rewrite length_take; lia). rewrite lookup_take_lt by done.
    rewrite decide_False by lia. done. }
  rewrite lookup_app_r by (rewrite length_take; lia). rewrite length_take, Nat.min_l by lia.
  case_decide as Hin.
  - rewrite lookup_app_l by lia. done.
  - rewrite lookup_app_r by lia. rewrite lookup_drop. f_equal. lia.
Qed.

Lemma mem_write_ok buf pos h :
  0 ≤ pos → pos + zlen h ≤ zlen buf → mem_write buf pos h = Ok (splice buf (Z.to_nat pos) h).
Proof. intros. unfold mem_write. by rewrite (proj2 (Z.leb_le 0 _)), (proj2 (Z.leb_le _ (zlen buf))). Qed.

Lemma mem_read_ok buf pos n :
  0 ≤ pos → 0 ≤ n → pos + n ≤ zlen buf →
  mem_read buf pos n = Ok (take (Z.to_nat n) (drop (Z.to_nat pos) buf)).
Proof. intros. unfold mem_read. by rewrite !(proj2 (Z.leb_le 0 _)), (proj2 (Z.leb_le _ (zlen buf))). Qed.

(** Writing at the tail appends to the queue. *)
Lemma ring_put_ok buf head n data :
  bytes_ok buf → bytes_ok data → 0 ≤ head < zlen buf → 0 ≤ n → n + zlen data ≤ zlen buf →
  ∃ buf', ring_put (zlen buf) buf ((head + n) mod zlen buf) data = Ok buf' ∧
    length buf' = length buf ∧ bytes_ok buf' ∧
    ring_data buf' head (n + zlen data) = ring_data buf head n ++ data.
Proof.
  intros Hok Hd Hh Hn Hfit. rewrite ring_idx_mod by lia. set (size := zlen buf) in *.
  set (w := ring_idx size (head + n)).
  assert (0 ≤ w < size ∧ (w = head + n ∨ w = head + n - size)) as [Hw Hw'].
  { unfold w, ring_idx. destruct (Z.ltb_spec (head + n) size); lia. }
  unfold ring_put. set (first := Z.min (zlen data) (size - w)).
  set (d1 := take (Z.to_nat first) data). set (d2 := drop (Z.to_nat first) data).
  assert (zlen d1 = first ∧ zlen d2 = zlen data - first) as [H1 H2].
  { unfold d1, d2. rewrite length_take, length_drop. lia. }
  rewrite (mem_write_ok buf) by lia. cbn [mbind result_bind]. set (buf1 := splice buf (Z.to_nat w) d1).
  assert (length buf1 = length buf) as Hl1 by (apply length_splice; lia).
  rewrite mem_write_ok by lia.
  set (buf2 := splice buf1 (Z.to_nat 0) d2).
  assert (length buf2 = length buf) as Hl2 by (unfold buf2; rewrite length_splice; lia).
  exists buf2. split_and!; [done|done|by repeat apply splice_ok; try apply Forall_take; try apply Forall_drop|].
  apply list_eq_lookup_lt.
  { apply Nat2Z.inj. rewrite length_app, Nat2Z.inj_add, !length_ring_data by lia. done. }
  intros i Hi. apply Nat2Z.inj_lt in Hi. rewrite length_ring_data in Hi by lia.
  rewrite lookup_ring by lia. rewrite Hl2. fold size. set (j := ring_idx size (head + Z.of_nat i)).
  assert (0 ≤ j < size ∧ (j = head + Z.of_nat i ∨ j = head + Z.of_nat i - size)) as [Hj Hj'].
  { unfold j, ring_idx. destruct (Z.ltb_spec (head + Z.of_nat i) size); lia. }
  unfold buf2. rewrite lookup_splice by lia. unfold buf1. rewrite lookup_splice by lia.
  destruct (Z.lt_ge_cases (Z.of_nat i) n) as [Hin|Hin].
  - rewrite lookup_app_l. 2: { apply Nat2Z.inj_lt. rewrite length_ring_data; lia. }
    rewrite lookup_ring by lia. fold size j. rewrite !decide_False by lia. done.
  - rewrite lookup_app_r. 2: { apply Nat2Z.inj_le. rewrite length_ring_data; lia. }
    assert (length (ring_data buf head n) = Z.to_nat n) as Hlr.
    { apply Nat2Z.inj. rewrite length_ring_data; lia. }
    rewrite Hlr. case_decide as Hc.
    + unfold d2. rewrite lookup_drop. f_equal. lia.
    + rewrite decide_True by lia. unfold d1. rewrite lookup_take_lt by lia. f_equal. lia.
Qed.

(** Reading from the head yields the first bytes of the queue. *)
Lemma ring_get_ok buf head n :
  0 ≤ head < zlen buf → 0 ≤ n ≤ zlen buf →
  ring_get (zlen buf) buf head n = Ok (ring_data buf head n).
Proof.
  intros Hh Hn. unfold ring_get. set (size := zlen buf) in *.
  set (first := Z.min n (size - head)). rewrite !mem_read_ok by lia.
  cbn [mbind result_bind]. f_equal. apply list_eq_lookup_lt.
  { apply Nat2Z.inj. rewrite length_ring_data by lia.
    rewrite length_app, !length_take, !length_drop. lia. }
  intros i Hi. rewrite length_app, !length_take, !length_drop in Hi.
  rewrite lookup_ring by lia. fold size. unfold ring_idx.
  destruct (Z.ltb_spec (head + Z.of_nat i) size).
  - rewrite lookup_app_l by (rewrite length_take, length_drop; lia).
    rewrite lookup_take_lt, lookup_drop by lia. f_equal. lia.
  - rewrite lookup_app_r by (rewrite length_take, length_drop; lia).
    rewrite length_take, length_drop, lookup_take_lt, lookup_drop by lia. f_equal. lia.
Qed.

(** Advancing the head removes them. *)
Lemma ring_advance buf head n k :
  0 ≤ head < zlen buf → 0 ≤ k ≤ n → n ≤ zlen buf →
  0 ≤ (head + k) mod zlen buf < zlen buf ∧
  ring_data buf ((head + k) mod zlen buf) (n - k) = drop (Z.to_nat k) (ring_data buf head n).
Proof.
  intros Hh Hk Hn. rewrite ring_idx_mod by lia. set (h' := ring_idx _ _).
  assert (0 ≤ h' < zlen buf ∧ (h' = head + k ∨ h' = head + k - zlen buf)) as [Hr Hc].
  { unfold h', ring_idx. destruct (Z.ltb_spec (head + k) (zlen buf)); lia. }
  split; [done|]. apply list_eq_lookup_lt.
  { apply Nat2Z.inj. rewrite length_drop, Nat2Z.inj_sub_max, !length_ring_data by lia. lia. }
  intros i Hi. apply Nat2Z.inj_lt in Hi. rewrite length_ring_data in Hi by lia.
  rewrite lookup_drop, !lookup_ring by lia. f_equal. f_equal. unfold ring_idx.
  destruct (Z.ltb_spec (h' + Z.of_nat i) (zlen buf)),
    (Z.ltb_spec (head + Z.of_nat (Z.to_nat k + i)) (zlen buf)); lia.
Qed.

Lemma take_ring_data buf head n k :
  0 ≤ k ≤ n → take (Z.to_nat k) (ring_data buf head n) = ring_data buf head k.
Proof. intros. unfold ring_data. rewrite take_take. f_equal. lia. Qed.

(** ** Round-trip timing *)

(** What the smoothed estimates are before and after any sample: -1 for
    none, and otherwise small enough that the source's [int64_t] arithmetic
    never overflows. *)
Definition rtt_ok (t : tcp_cb) : Prop :=
  tc_srtt_ms t = -1 ∨ (0 ≤ tc_srtt_ms t < 2 ^ 32 ∧ 0 ≤ tc_rttvar_ms t < 2 ^ 32).

(** RFC 6298, section 2, in whole milliseconds with fractions dropped: the
    first measurement R gives SRTT = R and RTTVAR = R/2, a later one
    SRTT = 7/8 SRTT + 1/8 R and RTTVAR = 3/4 RTTVAR + 1/4 |SRTT - R|, the
    latter with the SRTT before the measurement. [None] is no estimate yet. *)
Inductive rfc6298 (r : Z) : option (Z * Z) → Z * Z → Prop :=
  | rfc6298_first var' : 2 * var' ≤ r < 2 * var' + 2 → rfc6298 r None (r, var')
  | rfc6298_next srtt var srtt' var' :
      8 * srtt' ≤ 7 * srtt + r < 8 * srtt' + 8 →
      4 * var' ≤ 3 * var + Z.abs (srtt - r) < 4 * var' + 4 →
      rfc6298 r (Some (srtt, var)) (srtt', var').

(** The estimate a block holds. *)
Definition rtt_estimate (t : tcp_cb) : option (Z * Z) :=
  if tc_srtt_ms t =? -1 then None else Some (tc_srtt_ms t, tc_rttvar_ms t).

Lemma rtt_smooth_rfc6298 r t :
  rtt_ok t → 0 ≤ r < 2 ^ 32 → rfc6298 r (rtt_estimate t) (rtt_smooth (tc_srtt_ms t) (tc_rttvar_ms t) r).
Proof.
  intros Ht Hr. unfold rtt_smooth, rtt_estimate.
  destruct Ht as [-> |[H1 H2]]; cbn [Z.eqb Z.ltb].
  - change (-1 <? 0) with true. cbv iota. rewrite Z.quot_div_nonneg by lia. constructor. wrap_lia.
  - rewrite (proj2 (Z.eqb_neq _ _)), (proj2 (Z.ltb_ge _ _)) by lia. rewrite !Z.quot_div_nonneg by lia.
    constructor; wrap_lia.
Qed.

(** The clamps do not depend on the estimates. *)
Lemma rtt_sample_rto r t :
  let '(srtt, var) := rtt_smooth (tc_srtt_ms t) (tc_rttvar_ms t) r in
  tcp_rtt_sample r t =
    t <| tc_srtt_ms := srtt |> <| tc_rttvar_ms := var |>
      <| tc_rto_ms := Z.max 200 (Z.min 60000 (srtt + Z.max 10 (4 * var))) |>.
Proof.
  unfold tcp_rtt_sample. destruct (rtt_smooth _ _ r) as [srtt var]. cbv zeta.
  match goal with |- set_field _ (fun _ => ?a) _ = set_field _ (fun _ => ?b) _ =>
    assert (a = b) as E; [|by rewrite E] end.
  repeat case_match; wrap_lia.
Qed.

Lemma rtt_estimate_ok t x y :
  rtt_ok t → rtt_estimate t = Some (x, y) → 0 ≤ x < 2 ^ 32 ∧ 0 ≤ y < 2 ^ 32.
Proof.
  intros Ht. unfold rtt_estimate. destruct (Z.eqb_spec (tc_srtt_ms t) (-1)); intros [=]; subst.
  destruct Ht; lia.
Qed.

Lemma rfc6298_range r t srtt var :
  rtt_ok t → rfc6298 r (rtt_estimate t) (srtt, var) → 0 ≤ r < 2 ^ 32 →
  0 ≤ srtt < 2 ^ 32 ∧ 0 ≤ var < 2 ^ 32.
Proof.
  intros Ht H Hr. pose proof (λ x y, rtt_estimate_ok t x y Ht) as He.
  inversion H as [|x y ? ? ? ? E]; subst; [lia|]. destruct (He x y); [done|]. lia.
Qed.

Lemma rtt_sample_ok r t :
  rtt_ok t → 0 ≤ r < 2 ^ 32 →
  rtt_ok (tcp_rtt_sample r t) ∧ TCP_RTO_MIN_MS ≤ tc_rto_ms (tcp_rtt_sample r t) ≤ TCP_RTO_MAX_MS.
Proof.
  intros Ht Hr. pose proof (rtt_smooth_rfc6298 r t Ht Hr) as Hs. pose proof (rtt_sample_rto r t) as E.
  destruct (rtt_smooth _ _ r) as [srtt var]. pose proof (rfc6298_range r t srtt var Ht Hs Hr). rewrite E.
  split; [by right|]. change (tc_rto_ms _) with (Z.max 200 (Z.min 60000 (srtt + Z.max 10 (4 * var)))). wrap_lia.
Qed.

(** C39. Round-trip timing is RFC 6298's. From any estimate the stack can
    hold, one measurement moves (SRTT, RTTVAR) to exactly the pair the RFC
    prescribes, fractions of a millisecond dropped; the timeout becomes
    SRTT + max(G, 4 RTTVAR) with G = 10, clamped to [200, 60000] ms; both
    estimates stay non-negative and within 32 bits; nothing else in the block
    changes. *)
Theorem tcp_rtt_sample_bounds r t :
  rtt_ok t → 0 ≤ r < 2 ^ 32 →
  ∃ srtt var,
    rfc6298 r (rtt_estimate t) (srtt, var) ∧ 0 ≤ srtt < 2 ^ 32 ∧ 0 ≤ var < 2 ^ 32 ∧
    tcp_rtt_sample r t =
      t <| tc_srtt_ms := srtt |> <| tc_rttvar_ms := var |>
        <| tc_rto_ms := Z.max 200 (Z.min 60000 (srtt + Z.max 10 (4 * var))) |>.
Proof.
  intros Ht Hr. pose proof (rtt_smooth_rfc6298 r t Ht Hr) as Hs. pose proof (rtt_sample_rto r t) as E.
  destruct (rtt_smooth _ _ r) as [srtt var]. exists srtt, var.
  by destruct (rfc6298_range r t srtt var Ht Hs Hr).
Qed.

(** A second measurement of 300 ms after a first of 100 ms. *)
Lemma tcp_rtt_sample_bounds_witness :
  let t := zero_tcb <| tc_srtt_ms := 100 |> <| tc_rttvar_ms := 50 |> in
  rfc6298 300 (Some (100, 50)) (125, 87) ∧ tc_rto_ms (tcp_rtt_sample 300 t) = 473.
Proof.
  cbv zeta. destruct (tcp_rtt_sample_bounds 300 (zero_tcb <| tc_srtt_ms := 100 |> <| tc_rttvar_ms := 50 |>))
    as (srtt & var & H1 & _ & _ & ->); [right; cbn; lia|lia|].
  change (rtt_estimate _) with (Some (100, 50)) in H1. inversion H1; subst.
  assert (srtt = 125) as -> by lia. assert (var = 87) as -> by lia. split; [done|reflexivity].
Defined.

(** ** Options *)

Lemma parse_mss_ok fuel o mss :
  (length o < fuel)%nat → bytes_ok o → u16_ok mss →
  ∃ m bad, parse_mss_loop fuel o mss = Ok (m, bad) ∧ u16_ok m.
Proof.
  revert o mss. induction fuel as [|fuel IH]; intros o mss Hl Hok Hm; [lia|].
  cbn [parse_mss_loop]. destruct o as [|kind rest]; [eauto|]. byte_hyps. cbn [length] in Hl.
  destruct (kind =? TCP_OPT_END); [eauto|].
  destruct (kind =? TCP_OPT_NOP); [apply IH; [lia|done|done]|].
  destruct rest as [|len body]; [eauto|]. byte_hyps.
  destruct ((len <? 2) || _) eqn:Hb; [eauto|].
  apply orb_false_iff in Hb as [Hb1%Z.ltb_ge Hb2%Z.ltb_ge]. cbn [length] in Hl, Hb2.
  assert (∀ m, u16_ok m → ∃ m' bad, parse_mss_loop fuel
    (drop (Z.to_nat len) (kind :: len :: body)) m = Ok (m', bad) ∧ u16_ok m') as Hrec.
  { intros m Hm'. apply IH; [rewrite length_drop; cbn [length]; lia| |done].
    by apply Forall_drop; repeat apply Forall_cons_2. }
  destruct ((kind =? TCP_OPT_MSS) && (len =? 4)) eqn:Hk; [|by apply Hrec].
  apply andb_true_iff in Hk as [_ ->%Z.eqb_eq].
  destruct body as [|b0 [|b1 body]]; [cbn [length] in Hb2; lia..|].
  apply Hrec, u16_range.
Qed.

(** Option parsing terminates on every option area, however malformed,
    never reads outside it, and yields a 16-bit MSS (0 when there is none);
    it reads back the MSS option the stack itself sends. *)
Lemma parse_mss_total opts mss :
  bytes_ok opts → u16_ok mss →
  (∃ m bad, parse_mss_loop (S (length opts)) opts mss = Ok (m, bad) ∧ u16_ok m) ∧
  parse_mss_loop 5 ([TCP_OPT_MSS; 4] ++ pf_put_be16 mss) 0 = Ok (mss, false).
Proof.
  intros Hok Hm. split.
  - apply parse_mss_ok; [lia|done|done].
  - cbn -[pf_get_be16 u8 Z.shiftr]. rewrite pf_get_be16_eq by (apply u8_range).
    rewrite shiftr_div by lia. do 2 f_equal. wrap_lia.
Qed.

Lemma parse_mss_total_witness :
  (∃ m bad, parse_mss_loop 4 [1; 1; 9] 0 = Ok (m, bad) ∧ u16_ok m) ∧
  parse_mss_loop 5 ([TCP_OPT_MSS; 4] ++ pf_put_be16 1460) 0 = Ok (1460, false).
Proof.
  split.
  - apply (parse_mss_total [1; 1; 9] 0); [solve_bytes_ok|lia].
  - apply (parse_mss_total [] 1460); [done|lia].
Defined.

(** ** The receive side of a control block *)

Record rcv_wf (t : tcp_cb) : Prop := {
  rv_buf : zlen (tc_rcvbuf t) = TCP_RCVBUF;
  rv_buf_ok : bytes_ok (tc_rcvbuf t);
  rv_head : 0 ≤ tc_rcv_head t < TCP_RCVBUF;
  rv_len : 0 ≤ tc_rcv_len t ≤ TCP_RCVBUF;
  rv_nxt : u32_ok (tc_rcv_nxt t);
  rv_ooo : Forall (fun p => pkt_wf p ∧ u32_ok (p_u32 p)) (tc_ooo t);
}.

(** The bytes the application can read. *)
Definition rcv_data (t : tcp_cb) : bytes := ring_data (tc_rcvbuf t) (tc_rcv_head t) (tc_rcv_len t).

(** The control block with other receive state. *)
Definition set_rcv (buf : bytes) (len nxt : Z) (ooo : list pkt) (t : tcp_cb) : tcp_cb :=
  t <| tc_rcvbuf := buf |> <| tc_rcv_len := len |> <| tc_rcv_nxt := nxt |> <| tc_ooo := ooo |>.

Definition rcv_only (t t' : tcp_cb) : Prop := ∃ buf len nxt ooo, t' = set_rcv buf len nxt ooo t.

Lemma rcv_only_refl t : rcv_only t t.
Proof. exists (tc_rcvbuf t), (tc_rcv_len t), (tc_rcv_nxt t), (tc_ooo t). by destruct t. Qed.

Lemma rcv_only_trans t1 t2 t3 : rcv_only t1 t2 → rcv_only t2 t3 → rcv_only t1 t3.
Proof.
  intros (b & l & n & o & ->) (b' & l' & n' & o' & ->). exists b', l', n', o'. by destruct t1.
Qed.

(** Data at [seq] agrees with a stream [f] that assigns a byte to every
    sequence number. *)
Definition agrees (f : Z → Z) (seq : Z) (data : bytes) : Prop :=
  ∀ k b, data !! k = Some b → f (u32 (seq + Z.of_nat k)) = b.

Lemma agrees_app f seq d1 d2 :
  agrees f seq d1 → agrees f (u32 (seq + zlen d1)) d2 → agrees f seq (d1 ++ d2).
Proof.
  intros H1 H2 k b [Hk|(Hl & Hk)]%lookup_app_Some; [by apply H1|].
  rewrite <- (H2 _ _ Hk). f_equal. wrap_lia.
Qed.

Lemma agrees_take f seq d n : agrees f seq d → agrees f seq (take n d).
Proof. intros H k b [Hk _]%lookup_take_Some. by apply H. Qed.

Lemma agrees_drop f seq d n : agrees f seq d → agrees f (u32 (seq + Z.of_nat n)) (drop n d).
Proof.
  intros H k b Hk. rewrite lookup_drop in Hk. rewrite <- (H _ _ Hk). f_equal. wrap_lia.
Qed.

Lemma agrees_u32 f seq seq' d : u32 seq = u32 seq' → agrees f seq d → agrees f seq' d.
Proof. intros E H k b Hk. rewrite <- (H k b Hk). by rewrite <- (u32_u32_add_l seq), E, u32_u32_add_l. Qed.

(** Everything held for the receiver agrees with [f]: the readable bytes,
    which end just before [rcv_nxt], and the parked segments. *)
Definition rcv_agrees (f : Z → Z) (t : tcp_cb) : Prop :=
  agrees f (tc_rcv_nxt t - tc_rcv_len t) (rcv_data t) ∧
  Forall (fun p => agrees f (p_u32 p) (pkt_bytes p)) (tc_ooo t).

Lemma length_rcv_data t : rcv_wf t → zlen (rcv_data t) = tc_rcv_len t.
Proof. intros [H1 _ H2 H3 _ _]. apply length_ring_data; lia. Qed.

(** [rcv_ring_put] followed by the advance of [rcv_nxt] its callers do. *)
Lemma rcv_ring_put_ok t data :
  rcv_wf t → bytes_ok data →
  let n := Z.min (zlen data) (TCP_RCVBUF - tc_rcv_len t) in
  ∃ t1, rcv_ring_put t data = Ok (t1, n) ∧ tc_rcv_nxt t1 = tc_rcv_nxt t ∧
    let t' := t1 <| tc_rcv_nxt := u32 (tc_rcv_nxt t + n) |> in
    rcv_only t t' ∧ rcv_wf t' ∧ tc_ooo t' = tc_ooo t ∧ tc_rcv_len t' = tc_rcv_len t + n ∧
    rcv_data t' = rcv_data t ++ take (Z.to_nat n) data.
Proof.
  intros [Hb Hbok Hh Hl Hn Ho] Hd. cbv zeta. set (n := Z.min _ _).
  unfold rcv_ring_put. rewrite (u32_small (TCP_RCVBUF - tc_rcv_len t)) by wrap_lia. fold n.
  rewrite (u32_small (tc_rcv_head t + tc_rcv_len t)), (u32_small (tc_rcv_len t + n)) by wrap_lia.
  destruct (ring_put_ok (tc_rcvbuf t) (tc_rcv_head t) (tc_rcv_len t) (take (Z.to_nat n) data))
    as (buf & Hput & Hbl & Hbok' & Hdata);
    [done|by apply Forall_take|lia|lia|rewrite length_take; lia|].
  rewrite Hb in Hput. rewrite Hput. cbn [mbind result_bind]. eexists. split; [reflexivity|].
  assert (zlen (take (Z.to_nat n) data) = n) as Ht by (rewrite length_take; lia).
  rewrite Ht in Hdata. split; [done|]. split_and!.
  - exists buf, (tc_rcv_len t + n), (u32 (tc_rcv_nxt t + n)), (tc_ooo t). by destruct t.
  - split; cbn; try done; [by rewrite Hbl|lia|apply u32_range].
  - done.
  - done.
  - done.
Qed.

Lemma rcv_agrees_append f t t' d :
  rcv_wf t → rcv_agrees f t → agrees f (tc_rcv_nxt t) d →
  tc_rcv_nxt t' = u32 (tc_rcv_nxt t + zlen d) → tc_rcv_len t' = tc_rcv_len t + zlen d →
  rcv_data t' = rcv_data t ++ d →
  agrees f (tc_rcv_nxt t' - tc_rcv_len t') (rcv_data t').
Proof.
  intros Hwf [Ha _] Hd En El ->. apply agrees_app.
  - eapply agrees_u32; [|exact Ha]. rewrite En, El. wrap_lia.
  - eapply agrees_u32; [|exact Hd]. rewrite En, El, length_rcv_data by done. wrap_lia.
Qed.

(** What the queue head contributes when it reaches past [rcv_nxt]. *)
Lemma ooo_head_fresh seq len nxt :
  u32_ok seq → u32_ok nxt → 0 ≤ len ≤ PKT_BUF_SIZE →
  seq_gt seq nxt = false →
  seq_lt (u32 (seq + len)) nxt || (u32 (seq + len) =? nxt) = false →
  u32 (nxt - seq) < len ∧ u32 (len - u32 (nxt - seq)) = len - u32 (nxt - seq) ∧
  u32 (seq + u32 (nxt - seq)) = nxt.
Proof.
  intros Hs Hn Hl Hgt [Hlt Heq%Z.eqb_neq]%orb_false_iff.
  apply not_true_iff_false in Hgt. rewrite seq_gt_iff in Hgt.
  apply not_true_iff_false in Hlt. rewrite seq_lt_iff in Hlt. wrap_lia.
Qed.

(** [n] parked bytes become readable: nothing but the receive state changes,
    and whatever stream was agreed with still is. *)
Record drains (n : Z) (t t' : tcp_cb) : Prop := {
  dr_only : rcv_only t t';
  dr_wf : rcv_wf t';
  dr_pos : 0 ≤ n;
  dr_nxt : tc_rcv_nxt t' = u32 (tc_rcv_nxt t + n);
  dr_len : tc_rcv_len t' = tc_rcv_len t + n;
  dr_prefix : rcv_data t `prefix_of` rcv_data t';
  dr_ooo : zlen (tc_ooo t') ≤ zlen (tc_ooo t);
  dr_agrees f : rcv_agrees f t → rcv_agrees f t';
}.

Lemma drains_refl t : rcv_wf t → drains 0 t t.
Proof. intros H. pose proof (rv_nxt _ H). split; try done; [apply rcv_only_refl|wrap_lia|lia]. Qed.

Lemma drains_trans n m t1 t2 t3 : drains n t1 t2 → drains m t2 t3 → drains (n + m) t1 t3.
Proof.
  intros [A1 A2 A3 A4 A5 A6 A7 A8] [B1 B2 B3 B4 B5 B6 B7 B8]. split; [by eapply rcv_only_trans|done|lia| |lia|by etrans|lia|auto].
  rewrite B4, A4, u32_u32_add_l. f_equal. lia.
Qed.

(** Dropping the head of the queue. *)
Lemma drains_pop t p q : rcv_wf t → tc_ooo t = p :: q → drains 0 t (t <| tc_ooo := q |>).
Proof.
  intros Hwf Hq. pose proof Hwf as [Hb Hbok Hh Hl Hn Ho]. rewrite Hq in Ho. apply Forall_cons in Ho as [_ Ho].
  split; try done; [|change (tc_rcv_nxt t = u32 (tc_rcv_nxt t + 0)); wrap_lia|change (tc_rcv_len t = tc_rcv_len t + 0); lia|
    rewrite Hq; cbn; lia|].
  - exists (tc_rcvbuf t), (tc_rcv_len t), (tc_rcv_nxt t), q. clear. by destruct t.
  - intros f [Ha1 Ha2]. rewrite Hq in Ha2. apply Forall_cons in Ha2 as [_ Ha3]. done.
Qed.

(** The head of the queue continues the readable bytes: the rest of it goes to
    the ring. *)
Lemma ooo_take_ok t p q :
  rcv_wf t → tc_ooo t = p :: q → seq_gt (p_u32 p) (tc_rcv_nxt t) = false →
  seq_lt (u32 (p_u32 p + p_len p)) (tc_rcv_nxt t) || (u32 (p_u32 p + p_len p) =? tc_rcv_nxt t) = false →
  let skip := u32 (tc_rcv_nxt t - p_u32 p) in
  ∃ data t2 n, pkt_read p skip (u32 (p_len p - skip)) = Ok data ∧
    rcv_ring_put (t <| tc_ooo := q |>) data = Ok (t2, n) ∧ tc_ooo t2 = q ∧
    drains n t (t2 <| tc_rcv_nxt := u32 (tc_rcv_nxt t2 + n) |>).
Proof.
  intros Hwf Hq Hgt Hdup skip. pose proof Hwf as [Hb Hbok Hh Hl Hn Ho]. rewrite Hq in Ho.
  apply Forall_cons in Ho as [[Hp Hps] Ho]. pose proof (wf_fits _ Hp). pose proof (wf_data _ Hp). pose proof (wf_len _ Hp).
  destruct (drains_pop t p q Hwf Hq) as [Ho1 Hwf1 _ _ _ _ _ Hag1]. set (t1 := t <| tc_ooo := q |>) in *.
  destruct (ooo_head_fresh _ (p_len p) _ Hps Hn ltac:(lia) Hgt Hdup) as (Hskip & Hwant & Hpos). fold skip in Hskip, Hwant, Hpos.
  pose proof (u32_range (tc_rcv_nxt t - p_u32 p)) as Hsr. fold skip in Hsr.
  rewrite Hwant, (pkt_read_ok _ _ _ Hp) by lia. set (data := take _ (drop _ (pkt_bytes p))).
  assert (bytes_ok data) as Hdok by (by apply Forall_take, Forall_drop, pkt_bytes_ok).
  destruct (rcv_ring_put_ok t1 data Hwf1 Hdok) as (t2 & Hput & Hnx & Honly & Hwf2 & Hooo & Hlen & Hdat).
  set (n := Z.min _ _) in *. exists data, t2, n. split; [done|]. split; [done|]. split; [exact Hooo|]. rewrite Hnx.
  change (tc_rcv_nxt t1) with (tc_rcv_nxt t) in *. change (tc_rcv_len t1) with (tc_rcv_len t) in *.
  assert (zlen (take (Z.to_nat n) data) = n) as Htl by (rewrite length_take; lia).
  split; try done.
  - lia.
  - rewrite Hdat. by apply prefix_app_r.
  - rewrite Hooo, Hq. cbn. lia.
  - intros f Hf. pose proof (Hag1 f Hf) as Hf1. destruct Hf as [_ Hf2]. rewrite Hq in Hf2.
    apply Forall_cons in Hf2 as [Hpf _]. split; [|rewrite Hooo; apply Hf1].
    eapply (rcv_agrees_append f t1); try done; [|by rewrite Htl..].
    apply agrees_take, agrees_take. eapply agrees_u32; [|by apply agrees_drop].
    rewrite Z2Nat.id by lia. change (tc_rcv_nxt t1) with (tc_rcv_nxt t). rewrite Hpos. wrap_lia.
Qed.

(** Draining always returns; it only appends to the readable bytes, advances
    [rcv_nxt] by what it appends, and keeps the agreement with the stream. *)
Lemma ooo_drain_ok t : rcv_wf t → ∃ t' n, ooo_drain (tc_ooo t) t = Ok (t', n) ∧ drains n t t'.
Proof.
  remember (tc_ooo t) as q eqn:Hq. symmetry in Hq. revert t Hq.
  induction q as [|p q IH]; intros t Hq Hwf; cbn [ooo_drain]; [exists t, 0; eauto using drains_refl|].
  destruct (seq_gt (p_u32 p) (tc_rcv_nxt t)) eqn:Hgt; [exists t, 0; eauto using drains_refl|]. cbv zeta.
  pose proof (drains_pop t p q Hwf Hq) as H1. set (t1 := t <| tc_ooo := q |>) in *.
  change (tc_rcv_nxt t1) with (tc_rcv_nxt t). destruct (_ || _) eqn:Hdup.
  { destruct (IH t1 eq_refl (dr_wf _ _ _ H1)) as (t' & n & Hr & H2). exists t', n. split; [done|].
    exact (drains_trans _ _ _ _ _ H1 H2). }
  destruct (ooo_take_ok t p q Hwf Hq Hgt Hdup) as (data & t2 & n & Hrd & Hput & Ho2 & H3).
  rewrite Hrd. cbn [mbind result_bind]. fold t1 in Hput. rewrite Hput. cbn [mbind result_bind].
  set (t3 := t2 <| tc_rcv_nxt := _ |>) in *. destruct (_ <? _); [by exists t3, n|].
  destruct (IH t3 Ho2 (dr_wf _ _ _ H3)) as (t' & m & Hr & H4). rewrite Hr. cbn [mbind result_bind].
  exists t', (n + m). split; [done|]. by eapply drains_trans.
Qed.

(** ** Parking an out-of-order segment *)

Lemma ooo_place_perm q l : ooo_place q l ≡ₚ q :: l.
Proof.
  induction l as [|p l IH]; cbn; [done|]. destruct (seq_lt _ _); [|done].
  rewrite IH. apply Permutation_swap.
Qed.

Lemma ooo_insert_ok seq data t :
  rcv_wf t → bytes_ok data → zlen data ≤ PKT_BUF_SIZE - PKT_RX_OFFSET → u32_ok seq →
  ∃ r, ooo_insert seq data t = Ok r ∧
  match r with
  | None => TCP_OOO_MAX ≤ zlen (tc_ooo t) ∨ existsb (ooo_overlaps seq (zlen data)) (tc_ooo t) = true
  | Some l => zlen (tc_ooo t) < TCP_OOO_MAX ∧ existsb (ooo_overlaps seq (zlen data)) (tc_ooo t) = false ∧
      ∃ q, l = ooo_place q (tc_ooo t) ∧ pkt_wf q ∧ p_u32 q = seq ∧ p_len q = zlen data ∧
           pkt_bytes q = data
  end.
Proof.
  intros Hwf Hd Hl Hs. unfold ooo_insert.
  destruct (Z.leb_spec TCP_OOO_MAX (zlen (tc_ooo t))); [exists None; auto|].
  destruct (existsb _ _) eqn:Ho; [exists None; auto|].
  destruct (pkt_append_ok pkt_alloc data pkt_alloc_wf Hd) as (q & Hq & Hqw & Hqb & _ & Hql).
  { cbn. lia. }
  rewrite Hq. cbn [mbind result_bind]. eexists. split; [done|]. cbn. split_and!; [done|done|].
  eexists. split_and!; [done|by destruct Hqw|done|exact Hql|exact Hqb].
Qed.

(** Parked segments in order and disjoint, each within one window of [base];
    [lo] is where the next may start. *)
Fixpoint ooo_sorted (base lo : Z) (l : list pkt) : Prop :=
  match l with
  | [] => True
  | p :: l =>
      lo ≤ u32 (p_u32 p - base) ∧ 0 < p_len p ∧ u32 (p_u32 p - base) + p_len p ≤ TCP_RCVBUF ∧
      ooo_sorted base (u32 (p_u32 p - base) + p_len p) l
  end.

Lemma ooo_place_sorted base lo q l :
  ooo_sorted base lo l → lo ≤ u32 (p_u32 q - base) → 0 < p_len q →
  u32 (p_u32 q - base) + p_len q ≤ TCP_RCVBUF →
  existsb (ooo_overlaps (p_u32 q) (p_len q)) l = false →
  ooo_sorted base lo (ooo_place q l).
Proof.
  intros Hl Hlo Hq Hfit. revert lo Hl Hlo. induction l as [|p l IH]; intros lo; cbn; [done|].
  intros (H1 & H2 & H3 & H4) Hlo [Hov Hrest]%orb_false_iff.
  unfold ooo_overlaps in Hov. apply andb_false_iff in Hov.
  rewrite <- !not_true_iff_false, !seq_lt_iff in Hov.
  destruct (seq_lt (p_u32 p) (p_u32 q)) eqn:Hlt.
  - apply seq_lt_iff in Hlt. cbn. split_and!; [done..|]. apply IH; [done| |done].
    unfold TCP_RCVBUF in *. destruct Hov; wrap_lia.
  - apply not_true_iff_false in Hlt. rewrite seq_lt_iff in Hlt. cbn. split_and!; try done.
    unfold TCP_RCVBUF in *. destruct Hov; wrap_lia.
Qed.

(** Parking a segment that lies in the window either declines it (the
    queue is full, or it overlaps a parked segment) or adds exactly that
    segment; the queue stays sorted by sequence number and pairwise disjoint. *)
Theorem ooo_insert_sorted seq data t :
  rcv_wf t → ooo_sorted (tc_rcv_nxt t) 0 (tc_ooo t) → bytes_ok data →
  0 < zlen data ≤ PKT_BUF_SIZE - PKT_RX_OFFSET → u32_ok seq →
  u32 (seq - tc_rcv_nxt t) + zlen data ≤ TCP_RCVBUF →
  ∃ r, ooo_insert seq data t = Ok r ∧
  match r with
  | None => TCP_OOO_MAX ≤ zlen (tc_ooo t) ∨ existsb (ooo_overlaps seq (zlen data)) (tc_ooo t) = true
  | Some l => ∃ q, l ≡ₚ q :: tc_ooo t ∧ p_u32 q = seq ∧ pkt_bytes q = data ∧
                   zlen l ≤ TCP_OOO_MAX ∧ ooo_sorted (tc_rcv_nxt t) 0 l
  end.
Proof.
  intros Hwf Hs Hd Hl Hseq Hfit.
  destruct (ooo_insert_ok seq data t Hwf Hd ltac:(lia) Hseq) as (r & Hr & Hpost). exists r.
  split; [done|]. destruct r as [l|]; [|done].
  destruct Hpost as (Hn & Ho & q & -> & Hq & Es & El & Eb). exists q.
  pose proof (ooo_place_perm q (tc_ooo t)) as Hp. split_and!; try done.
  - rewrite Hp. cbn [length]. lia.
  - rewrite <- Es, <- El in Ho. apply ooo_place_sorted; try done; rewrite ?Es, ?El; try lia.
    apply u32_range.
Qed.

(** A block with an empty ring and room in it. *)
Definition demo_tcb : tcp_cb :=
  zero_tcb <| tc_rcvbuf := replicate (Z.to_nat TCP_RCVBUF) 0 |> <| tc_rcv_nxt := 1000 |>.

Lemma demo_tcb_rcv : rcv_wf demo_tcb.
Proof.
  split; try (cbn; wrap_lia).
  - change (zlen (replicate (Z.to_nat TCP_RCVBUF) 0) = TCP_RCVBUF). rewrite length_replicate. wrap_lia.
  - apply Forall_replicate. wrap_lia.
  - apply Forall_nil_2.
Qed.

Lemma ooo_insert_sorted_witness :
  ∃ r, ooo_insert 1010 [1; 2; 3] demo_tcb = Ok r ∧
  match r with
  | None => TCP_OOO_MAX ≤ zlen (tc_ooo demo_tcb) ∨
            existsb (ooo_overlaps 1010 (zlen [1; 2; 3])) (tc_ooo demo_tcb) = true
  | Some l => ∃ q, l ≡ₚ q :: tc_ooo demo_tcb ∧ p_u32 q = 1010 ∧ pkt_bytes q = [1; 2; 3] ∧
                   zlen l ≤ TCP_OOO_MAX ∧ ooo_sorted (tc_rcv_nxt demo_tcb) 0 l
  end.
Proof.
  apply (ooo_insert_sorted 1010 [1; 2; 3] demo_tcb); [apply demo_tcb_rcv|exact I|solve_bytes_ok|..];
    cbn; wrap_lia.
Defined.
