(* ===== verification/TcpOut.v ===== *)
(** * TCP output

    Models [tcp/tcp_out.c]: segment construction, control segments, resets,
    the send engine [tcp_output] and retransmission. A [struct tcp_cb *] is
    the index of the control block in [stack->tcp.tcbs]. *)

From S2P Require Import Prelude Pf Checksum Pkt Fib Headers Stats Stack Link Arp IpOut Icmp Reass Sock.
From S2P Require Import Tcb.
Import Checksum Pkt Fib Stats.

Abbreviation tcbs w := (tg_tcbs (ps_tcp (w_stack w))).

Definition get_tcb (i : nat) : PF tcp_cb :=
  g ← get_stack ps_tcp; lift (in_bounds (tg_tcbs g !! i)).
Definition upd_tcb (i : nat) (f : tcp_cb → tcp_cb) : PF () :=
  _ ← get_tcb i; upd_stack (set_field ps_tcp (set_field tg_tcbs (alter f i))).

(** ** Operations *)

(** The fixed header, checksum still zero. *)
Definition tcp_seg_hdr (t : tcp_cb) (flags seq : Z) : tcp_hdr :=
  let optlen := if has_flag flags TCP_SYN then 4 else 0 in
  mk_tcp (pf_htons (tc_local_port t)) (pf_htons (tc_remote_port t)) (pf_htonl seq)
    (if has_flag flags TCP_ACK then pf_htonl (tc_rcv_nxt t) else 0)
    (u8 (Z.shiftl ((TCP_HDR_MIN + optlen) / 4) 4)) flags (pf_htons (tcp_rcv_window t)) 0 0.

(** The MSS option on a SYN. *)
Definition tcp_seg_opts (flags : Z) : bytes :=
  if has_flag flags TCP_SYN then [TCP_OPT_MSS; 4] ++ pf_put_be16 TCP_OUR_MSS else [].

(** The state an ACK-bearing segment leaves. *)
Definition tcp_seg_sent (flags : Z) (t : tcp_cb) : tcp_cb :=
  if has_flag flags TCP_ACK
  then t <| tc_delack_pending := 0 |> <| tc_delack_deadline := 0 |>
         <| tc_rcv_wnd_advertised := tcp_rcv_window t |>
  else t.

Definition tcp_send_segment (i : nat) (flags seq ring_off paylen : Z) : PF () :=
  t ← get_tcb i;
  p ← lift (pkt_reserve pkt_alloc PKT_TX_HEADROOM);
  p ← lift (pkt_append p (tcp_image (tcp_seg_hdr t flags seq) ++ tcp_seg_opts flags));
  p ← (if paylen =? 0 then mret p
       else
         data ← lift (ring_copy_out (tc_sndbuf t) (u32 (tc_snd_head t + ring_off)) paylen);
         lift (pkt_append p data));
  let optlen := if has_flag flags TCP_SYN then 4 else 0 in
  let seglen := u16 (TCP_HDR_MIN + optlen + paylen) in
  seg ← lift (pkt_read p 0 seglen);
  let sum := csum_pseudo (tc_local_ip t) (tc_remote_ip t) IP_PROTO_TCP seglen in
  p ← lift (buf_write p (p_data p + 16) (store16 (pf_htons (csum_fold (csum_partial seg sum)))));
  upd_tcb i (tcp_seg_sent flags);;
  stat_inc tcp_tx_segs;;
  stat_add tcp_tx_bytes paylen;;
  _ ← ip_output (tc_local_ip t) (tc_remote_ip t) IP_PROTO_TCP IP_DEFAULT_TTL p;
  mret ().

Definition tcp_send_probe (i : nat) : PF () :=
  t ← get_tcb i;
  tcp_send_segment i TCP_ACK (tc_snd_nxt t) (u32 (tc_snd_nxt t - tc_snd_una t)) 1;;
  upd_tcb i (set_field tc_snd_nxt (fun n => u32 (n + 1))).

Definition tcp_send_ctl (i : nat) (flags : Z) : PF () :=
  t ← get_tcb i;
  let seq := if has_flag flags TCP_SYN then tc_iss t else tc_snd_nxt t in
  when (has_flag flags TCP_RST) (stat_inc tcp_rst_tx);;
  tcp_send_segment i flags seq 0 0.

(** The reset that answers a segment matching no connection. *)
Definition tcp_reset_hdr (th : tcp_hdr) (seg_paylen : Z) : tcp_hdr :=
  let flag f := if has_flag (th_flags th) f then 1 else 0 in
  let seglen := u32 (seg_paylen + flag TCP_SYN + flag TCP_FIN) in
  let doff := Z.shiftl (TCP_HDR_MIN / 4) 4 in
  if has_flag (th_flags th) TCP_ACK
  then mk_tcp (th_dport th) (th_sport th) (th_ack th) 0 doff TCP_RST 0 0 0
  else mk_tcp (th_dport th) (th_sport th) 0 (pf_htonl (u32 (pf_ntohl (th_seq th) + seglen))) doff
         (Z.lor TCP_RST TCP_ACK) 0 0 0.

Definition tcp_send_reset_for (ih : ipv4_hdr) (th : tcp_hdr) (seg_paylen : Z) : PF () :=
  if has_flag (th_flags th) TCP_RST then mret ()
  else
    p ← lift (pkt_reserve pkt_alloc PKT_TX_HEADROOM);
    let r := tcp_reset_hdr th seg_paylen in
    let src := pf_ntohl (ih_daddr ih) in
    let dst := pf_ntohl (ih_saddr ih) in
    let sum := csum_pseudo src dst IP_PROTO_TCP TCP_HDR_MIN in
    let r := r <| th_csum := pf_htons (csum_fold (csum_partial (tcp_image r) sum)) |> in
    p ← lift (pkt_append p (tcp_image r));
    stat_inc tcp_rst_tx;;
    _ ← ip_output src dst IP_PROTO_TCP IP_DEFAULT_TTL p;
    mret ().

(** [snd_nxt], the RTT sample and the retransmission timer after [chunk]
    bytes went out. *)
Definition output_sent (now chunk : Z) (t : tcp_cb) : tcp_cb :=
  let t := t <| tc_snd_nxt ::= fun n => u32 (n + chunk) |> in
  let t := if tc_rtt_timing t then t
           else t <| tc_rtt_timing := true |> <| tc_rtt_seq := tc_snd_nxt t |>
                  <| tc_rtt_start_ms := now |> in
  tcp_arm_rto now t.

(** The size of the next segment [tcp_output] may send, 0 for none. *)
Definition output_chunk (wnd : Z) (t : tcp_cb) : Z :=
  let in_flight := u32 (tc_snd_nxt t - tc_snd_una t) in
  let sent_data := tcp_data_in_flight t in
  let avail := u32 (tc_snd_len t - sent_data) in
  if (avail =? 0) || tc_fin_sent t then 0
  else if wnd <=? in_flight then 0
  else
    let chunk := u16 (Z.min (Z.min avail (tc_mss t)) (wnd - in_flight)) in
    if negb (tc_nodelay t) && (0 <? sent_data) && (chunk <? tc_mss t) && (chunk =? avail) then 0
    else chunk.

(** The [for (;;)] of [tcp_output]. Every round sends at least one byte and
    stays within [wnd], so [wnd] rounds are enough. *)
Fixpoint tcp_output_loop (fuel : nat) (i : nat) (now wnd : Z) : PF () :=
  t ← get_tcb i;
  let chunk := output_chunk wnd t in
  if chunk =? 0 then mret ()
  else
    match fuel with
    | O => lift (Err OutOfFuel)
    | S fuel =>
        let sent_data := tcp_data_in_flight t in
        let avail := u32 (tc_snd_len t - sent_data) in
        let flags := if chunk =? avail then Z.lor TCP_ACK TCP_PSH else TCP_ACK in
        tcp_send_segment i flags (tc_snd_nxt t) sent_data chunk;;
        upd_tcb i (output_sent now chunk);;
        tcp_output_loop fuel i now wnd
    end.

(** The FIN went out; it occupies one sequence number. *)
Definition fin_emit (now : Z) (t : tcp_cb) : tcp_cb :=
  tcp_arm_rto now (t <| tc_fin_sent := true |> <| tc_snd_nxt ::= fun n => u32 (n + 1) |>).

Definition output_state (s : tcp_state) : bool :=
  bool_decide (s ∈ [TCP_ESTABLISHED; TCP_CLOSE_WAIT; TCP_FIN_WAIT_1; TCP_LAST_ACK]).

Definition tcp_output (i : nat) : PF () :=
  t ← get_tcb i;
  if negb (output_state (tc_state t)) then mret ()
  else
    now ← pf_now_ms;
    let wnd := Z.min (tc_snd_wnd t) (tc_cwnd t) in
    tcp_output_loop (Z.to_nat wnd) i now wnd;;
    t ← get_tcb i;
    if tc_fin_queued t && negb (tc_fin_sent t) && (tc_snd_len t =? tcp_data_in_flight t) then
      tcp_send_segment i (Z.lor TCP_FIN TCP_ACK) (tc_snd_nxt t) 0 0;;
      upd_tcb i (fin_emit now)
    else mret ().

Definition tcp_retransmit (i : nat) : PF () :=
  stat_inc tcp_rtx_segs;;
  upd_tcb i (set_field tc_rtt_timing (fun _ => false));;
  t ← get_tcb i;
  match tc_state t with
  | TCP_SYN_SENT => tcp_send_ctl i TCP_SYN
  | TCP_SYN_RCVD => tcp_send_ctl i (Z.lor TCP_SYN TCP_ACK)
  | _ =>
      let sent_data := tcp_data_in_flight t in
      if 0 <? sent_data then
        let chunk := u16 (Z.min sent_data (tc_mss t)) in
        let flags := Z.lor TCP_ACK (if chunk =? tc_snd_len t then TCP_PSH else 0) in
        tcp_send_segment i flags (tc_snd_una t) 0 chunk
      else if tc_fin_sent t && seq_lt (tc_snd_una t) (tc_snd_nxt t) then
        tcp_send_segment i (Z.lor TCP_FIN TCP_ACK) (tc_snd_una t) 0 0
      else mret ()
  end.

(** ** The invariant of a connection *)

(** The send sequence space, by state. Before the handshake completes only
    the SYN is out. Afterwards [snd_nxt - snd_una] is the number of ring bytes
    in flight, plus one for an unacknowledged FIN; the FIN goes out only when
    the ring has been sent completely. *)
Definition snd_ok (t : tcp_cb) : Prop :=
  let fl := u32 (tc_snd_nxt t - tc_snd_una t) in
  u32_ok (tc_snd_una t) ∧ u32_ok (tc_snd_nxt t) ∧ 0 ≤ tc_snd_len t ≤ TCP_SNDBUF ∧
  match tc_state t with
  | TCP_CLOSED | TCP_LISTEN => True
  | TCP_SYN_SENT | TCP_SYN_RCVD =>
      tc_snd_una t = tc_iss t ∧ fl = 1 ∧ tc_snd_len t = 0 ∧
      tc_fin_sent t = false ∧ tc_fin_queued t = false
  | TCP_ESTABLISHED | TCP_CLOSE_WAIT =>
      tc_fin_sent t = false ∧ tc_fin_queued t = false ∧ fl ≤ tc_snd_len t
  | _ =>
      tc_fin_queued t = true ∧
      if tc_fin_sent t then (fl = 0 ∧ tc_snd_len t = 0) ∨ fl = tc_snd_len t + 1
      else fl ≤ tc_snd_len t
  end.

Record tcb_wf (t : tcp_cb) : Prop := {
  tb_state : tc_state t ≠ TCP_CLOSED;
  tb_sndbuf : zlen (tc_sndbuf t) = TCP_SNDBUF;
  tb_sndbuf_ok : bytes_ok (tc_sndbuf t);
  tb_head : 0 ≤ tc_snd_head t < TCP_SNDBUF;
  tb_rcv : rcv_wf t;
  tb_ooo : zlen (tc_ooo t) ≤ TCP_OOO_MAX;
  tb_ips : u32_ok (tc_local_ip t) ∧ u32_ok (tc_remote_ip t);
  tb_mss : 1 ≤ tc_mss t ≤ TCP_OUR_MSS;
  tb_cwnd : u32_ok (tc_cwnd t) ∧ 2 ≤ tc_ssthresh t < 2 ^ 32;
  tb_wnd : u16_ok (tc_snd_wnd t);
  tb_snd : snd_ok t;
  tb_rtt : rtt_ok t ∧ TCP_RTO_MIN_MS ≤ tc_rto_ms t ≤ TCP_RTO_MAX_MS;
  tb_accept : zlen (tc_acceptq t) ≤ tc_backlog t ≤ TCP_ACCEPT_QLEN;
  tb_acceptq : Forall (fun c => c < TCP_MAX_CONNS)%nat (tc_acceptq t);
  tb_listener : ∀ l, tc_listener t = Some l → (l < TCP_MAX_CONNS)%nat ∧ tc_state t ≠ TCP_LISTEN;
  tb_sock : -1 ≤ tc_sock_idx t < Z.of_nat PF_SOCK_MAX;
}.

(** A slot of the table: a well-formed connection, or unused. *)
Definition slot_wf (t : tcp_cb) : Prop :=
  if tc_active t then tcb_wf t
  else (tc_state t = TCP_CLOSED ∧ tc_backlog t = 0 ∧ tc_rcv_len t = 0 ∧ tc_acceptq t = []) ∧
       -1 ≤ tc_sock_idx t < Z.of_nat PF_SOCK_MAX ∧ u32_ok (tc_local_ip t) ∧ u32_ok (tc_remote_ip t).

Record tcp_wf (s : pf_socktab) (g : tcp_globals) : Prop := {
  tp_len : length (tg_tcbs g) = TCP_MAX_CONNS;
  tp_slots : Forall slot_wf (tg_tcbs g);
  tp_iss : u32_ok (tg_iss_next g);
  tp_socktab : socktab_wf s;
  tp_socks : Forall (fun k => ∀ i, sk_tcb k = Some i → i < TCP_MAX_CONNS)%nat (st_socks s);
}.

(** ** Steps of the transport layer

    [l4_step w w' s g]: from [w] to [w'] the sockets became [s] and the
    connections [g]; below, only what transmission may change did. *)
Record l4_step (w w' : world) (s : pf_socktab) (g : tcp_globals) : Prop := {
  ls_net : net_wf w';
  ls_frame : erase_l4 w = erase_l4 w';
  ls_socks : ps_socks (w_stack w') = s;
  ls_tcp : ps_tcp (w_stack w') = g;
}.

Definition set_tcp (w : world) (g : tcp_globals) : world :=
  w <| w_stack ::= set_field ps_tcp (fun _ => g) |>.

Definition put_tcb (g : tcp_globals) (i : nat) (t : tcp_cb) : tcp_globals :=
  mk_tcpg (<[i:=t]> (tg_tcbs g)) (tg_iss_next g).

Abbreviation w_socks w := (ps_socks (w_stack w)).
Abbreviation w_tcp w := (ps_tcp (w_stack w)).

Lemma l4_step_refl w : net_wf w → l4_step w w (w_socks w) (w_tcp w).
Proof. by split. Qed.

Lemma l4_step_trans w1 w2 w3 s2 g2 s3 g3 :
  l4_step w1 w2 s2 g2 → l4_step w2 w3 s3 g3 → l4_step w1 w3 s3 g3.
Proof. intros [] []. split; [done|congruence|done|done]. Qed.

Lemma l4_step_icmp w w' : net_wf w' → erase_icmp w = erase_icmp w' → l4_step w w' (w_socks w) (w_tcp w).
Proof.
  intros Hn E. destruct (erase_icmp_proj _ _ E) as (_ & _ & _ & S & T & _). split; try done. frame.
Qed.

Lemma l4_step_tx w w' : net_wf w → erase_tx w = erase_tx w' → l4_step w w' (w_socks w) (w_tcp w).
Proof. intros Hn E. apply l4_step_icmp; [by eapply net_wf_tx|frame]. Qed.

Lemma net_wf_set_tcp w g : net_wf w → net_wf (set_tcp w g).
Proof. intros [[] [] ?]. by split. Qed.

Lemma l4_step_set_tcp w g : net_wf w → l4_step w (set_tcp w g) (w_socks w) g.
Proof. intros. split; [by apply net_wf_set_tcp|done..]. Qed.

Lemma l4_step_set_socks w s : net_wf w → l4_step w (set_socks w s) s (w_tcp w).
Proof. intros. split; [by apply net_wf_set_socks|done..]. Qed.

Lemma l4_step_now w w' s g : l4_step w w' s g → w_now w' = w_now w.
Proof. intros [_ E _ _]. symmetry. eapply erase_in_proj. frame. Qed.

(** ** Access to the table *)

Lemma wp_get_tcb i t (Q : tcp_cb → world → Prop) w :
  tcbs w !! i = Some t → Q t w → wp (get_tcb i) Q w.
Proof. intros Hi HQ. unfold get_tcb. wp_steps. eapply wp_lift; [by rewrite Hi|done]. Qed.

Lemma wp_upd_tcb i t f (Q : () → world → Prop) w :
  tcbs w !! i = Some t → Q () (set_tcp w (put_tcb (w_tcp w) i (f t))) → wp (upd_tcb i f) Q w.
Proof.
  intros Hi HQ. unfold upd_tcb. wp_step. eapply wp_get_tcb; [done|]. apply wp_modify.
  replace (w <| w_stack ::= _ |>) with (set_tcp w (put_tcb (w_tcp w) i (f t))); [done|].
  unfold set_tcp, put_tcb, set_field. do 3 f_equal. symmetry. by apply alter_insert.
Qed.

(** ** The wire format *)

(** A segment with its checksum over the pseudo-header. *)
Definition tcp_segment (src dst : Z) (h : tcp_hdr) (rest : bytes) : bytes :=
  let len := zlen rest + TCP_HDR_MIN in
  let c := csum_fold (csum_partial (tcp_image h ++ rest) (csum_pseudo src dst IP_PROTO_TCP len)) in
  tcp_image (h <| th_csum := pf_htons c |>) ++ rest.

(** The segment connection [t] sends. *)
Definition tcp_message (t : tcp_cb) (flags seq : Z) (data : bytes) : bytes :=
  tcp_segment (tc_local_ip t) (tc_remote_ip t) (tcp_seg_hdr t flags seq) (tcp_seg_opts flags ++ data).

Lemma length_tcp_image h : length (tcp_image h) = 20%nat.
Proof. done. Qed.

Lemma tcp_image_ok h : byte_ok (th_doff h) → byte_ok (th_flags h) → bytes_ok (tcp_image h).
Proof.
  intros. unfold tcp_image. rewrite !Forall_app. repeat split; auto using store16_ok, store32_ok.
Qed.

Lemma tcp_seg_opts_ok flags :
  bytes_ok (tcp_seg_opts flags) ∧ zlen (tcp_seg_opts flags) = if has_flag flags TCP_SYN then 4 else 0.
Proof. unfold tcp_seg_opts. destruct (has_flag _ _); split; try done. cbn. solve_bytes_ok. Qed.

Lemma tcp_csum_patch h v rest :
  splice (tcp_image h ++ rest) 16 (store16 v) = tcp_image (h <| th_csum := v |>) ++ rest.
Proof. by destruct h. Qed.

(** The receiver's sum over a segment is zero. *)
Lemma tcp_segment_csum src dst h rest :
  u32_ok src → u32_ok dst → byte_ok (th_doff h) → byte_ok (th_flags h) → th_csum h = 0 →
  bytes_ok rest → zlen rest ≤ 65000 →
  csum_fold (csum_partial (tcp_segment src dst h rest)
    (csum_pseudo src dst IP_PROTO_TCP (zlen rest + TCP_HDR_MIN))) = 0.
Proof.
  intros Hs Hd Ho Hf Hz Hr Hl. unfold tcp_segment. cbv zeta.
  set (sum := csum_pseudo src dst IP_PROTO_TCP _).
  set (c := csum_fold (csum_partial (tcp_image h ++ rest) sum)).
  assert (0 ≤ c < 65536) as Hc by apply csum_fold_range.
  pose proof (tcp_image_ok h Ho Hf) as Hok. destruct h as [sp dp sq ak do fl wn cs ur]. cbn in Hz. subst cs.
  set (pre := take 16 (tcp_image (mk_tcp sp dp sq ak do fl wn 0 ur))).
  change (tcp_image _ ++ rest) with (pre ++ store16 (pf_htons c) ++ store16 ur ++ rest).
  rewrite store16_htons by done.
  apply csum_fill_verifies; [by exists 8%nat|by apply Forall_take| | | |].
  - apply Forall_app_2; [apply store16_ok|done].
  - cbn [length pre take tcp_image store16 store32 app]. lia.
  - apply csum_pseudo_range; try done; wrap_lia.
  - left. done.
Qed.

Lemma tcp_segment_ok src dst h rest :
  byte_ok (th_doff h) → byte_ok (th_flags h) → bytes_ok rest → bytes_ok (tcp_segment src dst h rest).
Proof. intros. apply Forall_app_2; [by apply tcp_image_ok|done]. Qed.

Lemma length_tcp_segment src dst h rest : zlen (tcp_segment src dst h rest) = zlen rest + TCP_HDR_MIN.
Proof. unfold tcp_segment. rewrite length_app, length_tcp_image. wrap_lia. Qed.

Lemma tcp_seg_hdr_doff t flags seq :
  th_doff (tcp_seg_hdr t flags seq) = if has_flag flags TCP_SYN then 96 else 80.
Proof. cbn. by destruct (has_flag _ _). Qed.

(** The ring bytes a segment carries. *)
Definition snd_slice (t : tcp_cb) (off n : Z) : bytes :=
  ring_data (tc_sndbuf t) (u32 (tc_snd_head t + off) mod TCP_SNDBUF) n.

Lemma snd_slice_ok t off n :
  tcb_wf t → 0 ≤ n ≤ TCP_OUR_MSS →
  ring_copy_out (tc_sndbuf t) (u32 (tc_snd_head t + off)) n = Ok (snd_slice t off n) ∧
  bytes_ok (snd_slice t off n) ∧ zlen (snd_slice t off n) = n.
Proof.
  intros Hwf Hn. pose proof (tb_sndbuf _ Hwf) as Hb. unfold ring_copy_out, snd_slice.
  assert (0 ≤ u32 (tc_snd_head t + off) mod TCP_SNDBUF < zlen (tc_sndbuf t)) as Hs.
  { rewrite Hb. apply Z.mod_pos_bound. done. }
  rewrite <- Hb at 1. rewrite ring_get_ok; [|done|rewrite Hb; wrap_lia].
  split_and!; [done|apply ring_data_ok, Hwf|]. apply length_ring_data; [done|rewrite Hb; wrap_lia].
Qed.

(** The packet [tcp_send_segment] hands to IP. *)
Lemma tcp_packet_ready t flags seq data :
  byte_ok flags → bytes_ok data → zlen data ≤ TCP_OUR_MSS →
  ∃ p p', pkt_append tx_pkt (tcp_image (tcp_seg_hdr t flags seq) ++ tcp_seg_opts flags) = Ok p ∧
    (data = [] → p' = p) ∧ (data ≠ [] → pkt_append p data = Ok p') ∧
    let seglen := u16 (TCP_HDR_MIN + (if has_flag flags TCP_SYN then 4 else 0) + zlen data) in
    ∃ seg, pkt_read p' 0 seglen = Ok seg ∧ seglen = zlen (tcp_seg_opts flags ++ data) + TCP_HDR_MIN ∧
      seg = tcp_image (tcp_seg_hdr t flags seq) ++ tcp_seg_opts flags ++ data ∧
      ∀ v, ∃ p'', buf_write p' (p_data p' + 16) (store16 v) = Ok p'' ∧ ip_tx_ready p'' ∧
        pkt_bytes p'' = tcp_image (tcp_seg_hdr t flags seq <| th_csum := v |>) ++ tcp_seg_opts flags ++ data.
Proof.
  intros Hf Hd Hl. destruct (tcp_seg_opts_ok flags) as [Hook Hol].
  set (opts := tcp_seg_opts flags) in *. set (h := tcp_seg_hdr t flags seq).
  assert (bytes_ok (tcp_image h)) as Hhok.
  { apply tcp_image_ok; [|done]. unfold h. rewrite tcp_seg_hdr_doff. destruct (has_flag _ _); wrap_lia. }
  assert (zlen opts ≤ 4) as Hol4 by (rewrite Hol; destruct (has_flag _ _); lia).
  destruct (tx_append_ok (tcp_image h ++ opts)) as (p & Hp & Hwf & Hb & Hdat & Hlen);
    [by apply Forall_app_2|rewrite length_app, length_tcp_image; wrap_lia|].
  assert (∃ p', (data = [] → p' = p) ∧ (data ≠ [] → pkt_append p data = Ok p') ∧ pkt_wf p' ∧
    pkt_bytes p' = tcp_image h ++ opts ++ data ∧ p_data p' = PKT_TX_HEADROOM) as
    (p' & Hp1 & Hp2 & Hwf' & Hb' & Hdat').
  { destruct data as [|b data].
    - exists p. split_and!; try done. by rewrite app_nil_r.
    - destruct (pkt_append_ok p (b :: data) Hwf Hd) as (p' & Hp' & Hwf' & Hb' & Hd' & _).
      { rewrite Hdat, Hlen, length_app, length_tcp_image. wrap_lia. }
      exists p'. split_and!; try done. rewrite Hb', Hb. by rewrite <- app_assoc. congruence. }
  exists p, p'. split_and!; try done. cbv zeta.
  pose proof (length_pkt_bytes _ Hwf') as Hl'. rewrite Hb', !length_app, length_tcp_image in Hl'.
  assert (u16 (TCP_HDR_MIN + (if has_flag flags TCP_SYN then 4 else 0) + zlen data) = p_len p') as Hseg.
  { rewrite <- Hol. wrap_lia. }
  rewrite Hseg. eexists. split_and!.
  - apply pkt_read_ok; [done|lia|apply Hwf'|lia].
  - rewrite length_app. wrap_lia.
  - rewrite drop_0, take_ge; [done|]. pose proof (length_pkt_bytes _ Hwf'). lia.
  - intros v. destruct (pkt_patch_ok p' 16 (store16 v) Hwf') as (p'' & Hp'' & Hwf'' & Hb'' & Hd'' & Hl'');
      [apply store16_ok|lia|cbn [length store16]; lia|].
    exists p''. split; [done|]. split.
    + split; [done|rewrite Hd'', Hdat'; done|rewrite Hl''; wrap_lia].
    + rewrite Hb'', Hb'. apply tcp_csum_patch.
Qed.

(** Sending a segment: exactly that segment is handed to IP, and of the
    connection only the acknowledgement state changes. *)
Lemma wp_tcp_send_any i t flags seq off n (Q : () → world → Prop) w :
  net_wf w → tcbs w !! i = Some t → u32_ok (tc_local_ip t) → u32_ok (tc_remote_ip t) →
  (n ≠ 0 → tcb_wf t) → byte_ok flags → 0 ≤ n ≤ TCP_OUR_MSS →
  (∀ w', l4_step w w' (w_socks w) (put_tcb (w_tcp w) i (tcp_seg_sent flags t)) →
     ip_output_post w (tc_local_ip t) (tc_remote_ip t) IP_PROTO_TCP IP_DEFAULT_TTL
       (tcp_message t flags seq (if n =? 0 then [] else snd_slice t off n)) w' → Q () w') →
  wp (tcp_send_segment i flags seq off n) Q w.
Proof.
  intros Hn Hi Hlip Hrip Hwf Hf Hl HQ.
  set (data := if n =? 0 then [] else snd_slice t off n) in *.
  assert (bytes_ok data ∧ zlen data = n ∧ (n = 0 → data = []) ∧
    (n ≠ 0 → ring_copy_out (tc_sndbuf t) (u32 (tc_snd_head t + off)) n = Ok data ∧ data ≠ []))
    as (Hdok & Hdl & Hdz & Hdn).
  { unfold data. destruct (Z.eqb_spec n 0) as [->|Hne]; [done|].
    destruct (snd_slice_ok t off n (Hwf Hne) Hl) as (Hcopy & Hsok & Hslen). split_and!; [done..|].
    intros _. split; [done|]. intros E. rewrite E in Hslen. cbn in Hslen. lia. }
  clearbody data.
  destruct (tcp_packet_ready t flags seq data Hf Hdok ltac:(lia)) as
    (p & p' & Hp & Hz & Hnz & seg & Hseg & Hsl & Eseg & Hpatch).
  unfold tcp_send_segment. wp_step. eapply wp_get_tcb; [done|]. wp_step.
  eapply wp_lift; [apply pkt_reserve_tx|]. wp_step. eapply wp_lift; [exact Hp|]. wp_step.
  eapply (wp_mono _ (fun q w' => q = p' ∧ w' = w)).
  { destruct (Z.eqb_spec n 0) as [E|E].
    - wp_step. split; [|done]. symmetry. apply Hz. by apply Hdz.
    - destruct (Hdn E) as [Hcopy Hne]. wp_step. eapply wp_lift; [exact Hcopy|].
      eapply wp_lift; [by apply Hnz|done]. }
  intros q w' [-> ->]. cbv zeta. rewrite Hdl in *. wp_step. eapply wp_lift; [exact Hseg|].
  rewrite Hsl. subst seg.
  set (c := csum_fold _). destruct (Hpatch (pf_htons c)) as (p'' & Hp'' & Hready & Hbytes).
  wp_step. eapply wp_lift; [exact Hp''|]. wp_step. eapply wp_upd_tcb; [done|].
  set (w1 := set_tcp w _). assert (net_wf w1) as Hn1 by by apply net_wf_set_tcp.
  wp_step. apply wp_stat_inc. intros w2 E2 W2 _. wp_step. apply wp_stat_add. intros w3 E3 W3.
  assert (erase_tx w1 = erase_tx w3) as E13 by congruence.
  wp_step.
  eapply wp_mono; [apply wp_ip_output; try done; [by eapply net_wf_tx|wrap_lia..]|].
  intros rc w4 (E4 & Hn4 & Hpost). wp_steps. apply HQ.
  - eapply l4_step_trans; [by apply l4_step_set_tcp|]. fold w1.
    apply (l4_step_icmp w1); [done|frame].
  - rewrite Hbytes in Hpost.
    apply (ip_output_post_tx w1) in Hpost; [|done|congruence]. 
    eapply (ip_output_post_from w w1); try done.
Qed.

Lemma wp_tcp_send_segment i t flags seq off n (Q : () → world → Prop) w :
  net_wf w → tcbs w !! i = Some t → tcb_wf t → byte_ok flags → 0 ≤ n ≤ TCP_OUR_MSS →
  (∀ w', l4_step w w' (w_socks w) (put_tcb (w_tcp w) i (tcp_seg_sent flags t)) →
     ip_output_post w (tc_local_ip t) (tc_remote_ip t) IP_PROTO_TCP IP_DEFAULT_TTL
       (tcp_message t flags seq (if n =? 0 then [] else snd_slice t off n)) w' → Q () w') →
  wp (tcp_send_segment i flags seq off n) Q w.
Proof. intros Hn Hi Hwf. destruct (tb_ips _ Hwf). by apply wp_tcp_send_any. Qed.

(** ** What sending changes in a connection *)

(** Everything but the fields the send engine writes. *)
Definition out_erase (t : tcp_cb) : tcp_cb :=
  t <| tc_snd_nxt := 0 |> <| tc_fin_sent := false |> <| tc_rtt_timing := false |>
    <| tc_rtt_seq := 0 |> <| tc_rtt_start_ms := 0 |> <| tc_rto_deadline := 0 |>
    <| tc_delack_pending := 0 |> <| tc_delack_deadline := 0 |> <| tc_rcv_wnd_advertised := 0 |>.

(** A field the send engine does not write, from an equality of erasures. *)
Abbreviation out_field E f := (f_equal f E) (only parsing).

Lemma rcv_wf_out t t' : out_erase t = out_erase t' → rcv_wf t → rcv_wf t'.
Proof.
  intros E [H1 H2 H3 H4 H5 H6].
  pose proof (out_field E tc_rcvbuf) as E1. pose proof (out_field E tc_rcv_head) as E2.
  pose proof (out_field E tc_rcv_len) as E3. pose proof (out_field E tc_rcv_nxt) as E4.
  pose proof (out_field E tc_ooo) as E5.
  change (tc_rcvbuf t = tc_rcvbuf t') in E1. change (tc_rcv_head t = tc_rcv_head t') in E2.
  change (tc_rcv_len t = tc_rcv_len t') in E3. change (tc_rcv_nxt t = tc_rcv_nxt t') in E4.
  change (tc_ooo t = tc_ooo t') in E5. split; congruence.
Qed.

Lemma tcb_wf_out t t' : out_erase t = out_erase t' → snd_ok t' → tcb_wf t → tcb_wf t'.
Proof.
  intros E Hs Hwf.
  assert (∀ {A} (f : tcp_cb → A), (∀ t, f (out_erase t) = f t) → f t = f t') as Hf.
  { intros A f Hf. rewrite <- (Hf t), <- (Hf t'). by rewrite E. }
  split; rewrite <- ?(Hf _ tc_state), <- ?(Hf _ tc_sndbuf), <- ?(Hf _ tc_snd_head), <- ?(Hf _ tc_ooo),
    <- ?(Hf _ tc_local_ip), <- ?(Hf _ tc_remote_ip), <- ?(Hf _ tc_mss), <- ?(Hf _ tc_cwnd),
    <- ?(Hf _ tc_ssthresh), <- ?(Hf _ tc_snd_wnd), <- ?(Hf _ rtt_ok), <- ?(Hf _ tc_rto_ms),
    <- ?(Hf _ tc_acceptq), <- ?(Hf _ tc_backlog), <- ?(Hf _ tc_listener), <- ?(Hf _ tc_sock_idx);
    try apply Hwf; try done.
  by eapply rcv_wf_out; [|apply Hwf].
Qed.

Lemma out_erase_seg_sent flags t : out_erase (tcp_seg_sent flags t) = out_erase t.
Proof. unfold tcp_seg_sent. destruct (has_flag _ _); [|done]. by destruct t. Qed.

Lemma out_erase_arm now t : out_erase (tcp_arm_rto now t) = out_erase t.
Proof. unfold tcp_arm_rto. destruct (_ =? 0); [|done]. by destruct t. Qed.

Lemma out_erase_sent now chunk t : out_erase (output_sent now chunk t) = out_erase t.
Proof.
  unfold output_sent. rewrite out_erase_arm. destruct (tc_rtt_timing _); by destruct t.
Qed.

(** The fields of the send sequence space, which [snd_ok] is about. *)
Definition snd_fields (t : tcp_cb) : tcp_state * (Z * Z * Z * Z) * (bool * bool) :=
  (tc_state t, (tc_iss t, tc_snd_una t, tc_snd_nxt t, tc_snd_len t), (tc_fin_sent t, tc_fin_queued t)).

Lemma snd_ok_fields t t' : snd_fields t' = snd_fields t → snd_ok t → snd_ok t'.
Proof.
  unfold snd_fields, snd_ok. intros E. injection E as -> -> -> -> -> -> ->. done.
Qed.

Lemma snd_fields_seg_sent flags t : snd_fields (tcp_seg_sent flags t) = snd_fields t.
Proof. unfold tcp_seg_sent. by destruct (has_flag _ _). Qed.

Lemma snd_fields_arm now t : snd_fields (tcp_arm_rto now t) = snd_fields t.
Proof. unfold tcp_arm_rto. by destruct (_ =? 0). Qed.

Lemma tcb_wf_seg_sent flags t : tcb_wf t → tcb_wf (tcp_seg_sent flags t).
Proof.
  intros H. eapply tcb_wf_out; [symmetry; apply out_erase_seg_sent| |done].
  eapply snd_ok_fields; [apply snd_fields_seg_sent|apply H].
Qed.

Lemma tcb_wf_arm now t : tcb_wf t → tcb_wf (tcp_arm_rto now t).
Proof.
  intros H. eapply tcb_wf_out; [symmetry; apply out_erase_arm| |done].
  eapply snd_ok_fields; [apply snd_fields_arm|apply H].
Qed.

(** A table with one block replaced. *)
Lemma put_tcb_lookup g i t t0 : tg_tcbs g !! i = Some t0 → tg_tcbs (put_tcb g i t) !! i = Some t.
Proof. intros H. apply list_lookup_insert_eq. by eapply lookup_lt_Some. Qed.

Lemma put_tcb_put g i t t' : put_tcb (put_tcb g i t) i t' = put_tcb g i t'.
Proof. unfold put_tcb. cbn. by rewrite list_insert_insert_eq. Qed.

Lemma put_tcb_id g i t : tg_tcbs g !! i = Some t → put_tcb g i t = g.
Proof. intros H. unfold put_tcb. rewrite list_insert_id by done. by destruct g. Qed.

(** A step that replaced block [i]. *)
Definition tcb_step (i : nat) (w w' : world) (t' : tcp_cb) : Prop :=
  l4_step w w' (w_socks w) (put_tcb (w_tcp w) i t').

Lemma tcb_step_lookup i w w' t t' : tcbs w !! i = Some t → tcb_step i w w' t' → tcbs w' !! i = Some t'.
Proof. intros Hi H. rewrite (ls_tcp _ _ _ _ H). by eapply put_tcb_lookup. Qed.

Lemma tcb_step_trans i w w1 w' t1 t' :
  tcb_step i w w1 t1 → tcb_step i w1 w' t' → tcb_step i w w' t'.
Proof.
  unfold tcb_step. intros H1 H2. pose proof (l4_step_trans _ _ _ _ _ _ _ H1 H2) as H.
  rewrite (ls_socks _ _ _ _ H1), (ls_tcp _ _ _ _ H1), put_tcb_put in H. done.
Qed.

Lemma tcb_step_set i w t' : net_wf w → tcb_step i w (set_tcp w (put_tcb (w_tcp w) i t')) t'.
Proof. apply l4_step_set_tcp. Qed.

Lemma tcb_step_same i w w' t : tcbs w !! i = Some t → net_wf w' → erase_tx w = erase_tx w' → tcb_step i w w' t.
Proof.
  intros Hi Hn E. unfold tcb_step. rewrite put_tcb_id by done. apply l4_step_icmp; [done|frame].
Qed.

Lemma wp_tcp_send_ctl_any i t flags (Q : () → world → Prop) w :
  net_wf w → tcbs w !! i = Some t → u32_ok (tc_local_ip t) → u32_ok (tc_remote_ip t) → byte_ok flags →
  (∀ w', tcb_step i w w' (tcp_seg_sent flags t) →
     ip_output_post w (tc_local_ip t) (tc_remote_ip t) IP_PROTO_TCP IP_DEFAULT_TTL
       (tcp_message t flags (if has_flag flags TCP_SYN then tc_iss t else tc_snd_nxt t) []) w' → Q () w') →
  wp (tcp_send_ctl i flags) Q w.
Proof.
  intros Hn Hi Hlip Hrip Hf HQ. unfold tcp_send_ctl. wp_step. eapply wp_get_tcb; [done|]. wp_step.
  eapply (wp_mono _ (fun _ w1 => erase_tx w = erase_tx w1 ∧ w_wire w1 = w_wire w)).
  { apply wp_when; [|done]. intros _. apply wp_stat_inc. done. }
  intros _ w1 [E1 W1]. pose proof (tcb_step_same _ _ _ _ Hi ltac:(by eapply net_wf_tx) E1) as H1.
  eapply wp_tcp_send_any; [apply H1|by eapply tcb_step_lookup|done|done|done|done|wrap_lia|].
  intros w2 H2 P2. apply HQ; [by eapply tcb_step_trans|]. by eapply ip_output_post_tx.
Qed.

Lemma wp_tcp_send_ctl i t flags (Q : () → world → Prop) w :
  net_wf w → tcbs w !! i = Some t → tcb_wf t → byte_ok flags →
  (∀ w', tcb_step i w w' (tcp_seg_sent flags t) →
     ip_output_post w (tc_local_ip t) (tc_remote_ip t) IP_PROTO_TCP IP_DEFAULT_TTL
       (tcp_message t flags (if has_flag flags TCP_SYN then tc_iss t else tc_snd_nxt t) []) w' → Q () w') →
  wp (tcp_send_ctl i flags) Q w.
Proof. intros Hn Hi Hwf. destruct (tb_ips _ Hwf). by apply wp_tcp_send_ctl_any. Qed.

Lemma wp_tcp_send_probe i t (Q : () → world → Prop) w :
  net_wf w → tcbs w !! i = Some t → tcb_wf t →
  (∀ w', tcb_step i w w' (tcp_seg_sent TCP_ACK t <| tc_snd_nxt ::= fun n => u32 (n + 1) |>) → Q () w') →
  wp (tcp_send_probe i) Q w.
Proof.
  intros Hn Hi Hwf HQ. unfold tcp_send_probe. wp_step. eapply wp_get_tcb; [done|]. wp_step.
  eapply wp_tcp_send_segment; [done|done|done|wrap_lia|wrap_lia|]. intros w1 H1 _.
  eapply wp_upd_tcb; [by eapply (tcb_step_lookup i w)|]. apply HQ.
  eapply tcb_step_trans; [exact H1|]. apply tcb_step_set, H1.
Qed.

(** Resets for segments that match no connection touch no connection. *)
Lemma wp_tcp_send_reset_for ih th n (Q : () → world → Prop) w :
  net_wf w → ip_ok ih →
  (∀ w', l4_step w w' (w_socks w) (w_tcp w) → Q () w') →
  wp (tcp_send_reset_for ih th n) Q w.
Proof.
  intros Hn Hih HQ. unfold tcp_send_reset_for. destruct (has_flag _ _).
  { wp_step. apply HQ, l4_step_refl, Hn. }
  wp_step. eapply wp_lift; [apply pkt_reserve_tx|]. cbv zeta. wp_step.
  match goal with |- context [tcp_image ?x] =>
    lazymatch x with set_field th_csum _ _ => set (r := x) end end.
  assert (bytes_ok (tcp_image r)) as Hr.
  { unfold r, tcp_reset_hdr. destruct (has_flag _ _); apply tcp_image_ok; by vm_compute. }
  destruct (tx_append_ready (tcp_image r)) as (p & Hp & Hready & _); [done|by rewrite length_tcp_image|].
  eapply wp_lift; [exact Hp|]. wp_step. apply wp_stat_inc. intros w1 E1 _ _. wp_step.
  eapply wp_mono; [apply wp_ip_output;
    [by eapply net_wf_tx|apply ntohl_u32, Hih|apply ntohl_u32, Hih|wrap_lia|wrap_lia|done]|].
  intros rc w2 (E2 & Hn2 & _). wp_steps. apply HQ, l4_step_icmp; [done|frame].
Qed.

(** ** The send engine *)

(** Sequence numbers in flight. *)
Definition snd_flight (t : tcp_cb) : Z := u32 (tc_snd_nxt t - tc_snd_una t).

(** In the states that send, before the FIN: flight is ring data. *)
Lemma snd_ok_output t :
  snd_ok t → output_state (tc_state t) = true → tc_fin_sent t = false →
  tcp_data_in_flight t = snd_flight t ∧ 0 ≤ snd_flight t ≤ tc_snd_len t ∧ tc_snd_len t ≤ TCP_SNDBUF.
Proof.
  intros (_ & _ & Hl & Hst) Ho Hf. unfold tcp_data_in_flight, snd_flight. rewrite Hf in *. cbn [andb].
  pose proof (u32_range (tc_snd_nxt t - tc_snd_una t)).
  destruct (tc_state t); try done; destruct Hst as (? & ?); lia.
Qed.

Lemma output_chunk_spec wnd t :
  tcb_wf t → output_state (tc_state t) = true → wnd < 65536 → output_chunk wnd t ≠ 0 →
  tc_fin_sent t = false ∧ 0 < output_chunk wnd t ≤ tc_mss t ∧
  snd_flight t + output_chunk wnd t ≤ wnd ∧ snd_flight t + output_chunk wnd t ≤ tc_snd_len t.
Proof.
  intros Hwf Ho Hw. pose proof (tb_mss _ Hwf) as Hm. unfold output_chunk. fold (snd_flight t).
  destruct (tc_fin_sent t) eqn:Hf; [by rewrite orb_true_r|].
  destruct (snd_ok_output t (tb_snd _ Hwf) Ho Hf) as (-> & H1 & H2).
  rewrite orb_false_r, (u32_small (tc_snd_len t - snd_flight t)) by wrap_lia.
  destruct (Z.eqb_spec (tc_snd_len t - snd_flight t) 0); [done|].
  destruct (Z.leb_spec wnd (snd_flight t)); [done|]. cbv zeta.
  rewrite u16_small by wrap_lia. destruct (_ && _); [done|]. intros _. split; [done|]. wrap_lia.
Qed.

Lemma output_chunk_fin wnd t : tc_fin_sent t = true → output_chunk wnd t = 0.
Proof. intros Hf. unfold output_chunk. by rewrite Hf, orb_true_r. Qed.

Lemma snd_ok_sent now chunk t :
  snd_ok t → output_state (tc_state t) = true → tc_fin_sent t = false → 0 ≤ chunk →
  snd_flight t + chunk ≤ tc_snd_len t →
  snd_ok (output_sent now chunk t) ∧ snd_flight (output_sent now chunk t) = snd_flight t + chunk ∧
  tc_fin_sent (output_sent now chunk t) = false.
Proof.
  intros Hs Ho Hf Hc Hfit. destruct (snd_ok_output t Hs Ho Hf) as (_ & H1 & H2).
  assert (snd_fields (output_sent now chunk t) = snd_fields (t <| tc_snd_nxt ::= fun n => u32 (n + chunk) |>))
    as E.
  { unfold output_sent. rewrite snd_fields_arm. by destruct (tc_rtt_timing _). }
  assert (snd_flight (output_sent now chunk t) = snd_flight t + chunk) as Hfl.
  { unfold snd_flight in *. injection E as _ _ -> -> _ _ _. cbn. wrap_lia. }
  split; [|split; [done|by injection E as _ _ _ _ _ -> _]].
  eapply snd_ok_fields; [exact E|]. unfold snd_ok, snd_flight in *. cbn.
  injection E as _ _ E1 E2 _ _ _. rewrite E1, E2 in Hfl. cbn in Hfl. rewrite Hfl.
  destruct Hs as (Hu & _ & Hl & Hst). split_and!; [apply Hu|apply Hu|apply u32_range|apply u32_range|apply Hl|apply Hl|].
  rewrite Hf in *. destruct (tc_state t); try done; destruct Hst as (? & ?); try done; tauto.
Qed.

(** ** The segments of the send engine *)

(** The bytes queued and not yet acknowledged. *)
Definition snd_data (t : tcp_cb) : bytes := ring_data (tc_sndbuf t) (tc_snd_head t) (tc_snd_len t).

Lemma length_snd_data t : tcb_wf t → zlen (snd_data t) = tc_snd_len t.
Proof.
  intros H. pose proof (tb_snd _ H) as (_ & _ & Hl & _). pose proof (tb_head _ H). pose proof (tb_sndbuf _ H).
  apply length_ring_data; lia.
Qed.

(** The oldest unacknowledged sequence number and the queued bytes from it on. *)
Definition snd_view (t : tcp_cb) : Z * bytes := (tc_snd_una t, snd_data t).

(** Flags of a segment that carries data and an acknowledgement, and nothing
    else. *)
Definition data_flags (flags : Z) : Prop :=
  byte_ok flags ∧ has_flag flags TCP_ACK = true ∧ has_flag flags TCP_SYN = false ∧
  has_flag flags TCP_RST = false ∧ has_flag flags TCP_FIN = false.

(** Nothing changed that [ip_output] reads or writes. *)
Definition net_same (w w' : world) : Prop :=
  arpc w' = arpc w ∧ w_wire w' = w_wire w ∧ ps_ip_id (w_stack w') = ps_ip_id (w_stack w) ∧ erase_l4 w = erase_l4 w'.

(** Segments handed to IP one after the other. *)
Fixpoint hands (src dst : Z) (w : world) (segs : list bytes) (w' : world) : Prop :=
  match segs with
  | [] => net_same w w'
  | seg :: segs => ∃ w1, ip_output_post w src dst IP_PROTO_TCP IP_DEFAULT_TTL seg w1 ∧
                         erase_l4 w = erase_l4 w1 ∧ hands src dst w1 segs w'
  end.

Lemma hands_from src dst w w1 segs w' : net_same w w1 → hands src dst w1 segs w' → hands src dst w segs w'.
Proof.
  intros (A & W & I & E). destruct segs as [|seg segs]; cbn.
  - intros (A' & W' & I' & E'). unfold net_same. split_and!; congruence.
  - intros (w2 & H1 & H2 & H3). exists w2. split_and!; [|congruence|done].
    destruct (erase_in_proj _ _ (erase_l4_in _ _ E)) as (_ & F & _ & _ & D).
    by eapply (ip_output_post_from w w1).
Qed.

Lemma hands_set_tcp src dst w g segs w' : hands src dst (set_tcp w g) segs w' → hands src dst w segs w'.
Proof. apply hands_from. done. Qed.

Lemma hands_app src dst w segs1 w1 segs2 w2 :
  hands src dst w segs1 w1 → hands src dst w1 segs2 w2 → hands src dst w (segs1 ++ segs2) w2.
Proof.
  revert w. induction segs1 as [|seg segs1 IH]; intros w; cbn; [apply hands_from|].
  intros (w' & H1 & H2 & H3) H. exists w'. split_and!; [done|done|]. by apply IH.
Qed.

(** Consecutive segments that carry the queued bytes from [off] on; of each
    its flags and length. *)
Fixpoint train (t : tcp_cb) (off : Z) (cs : list (Z * Z)) : list bytes :=
  match cs with
  | [] => []
  | (flags, n) :: cs =>
      tcp_message t flags (u32 (tc_snd_una t + off)) (take (Z.to_nat n) (drop (Z.to_nat off) (snd_data t)))
        :: train t (off + n) cs
  end.

Definition train_len (cs : list (Z * Z)) : Z := foldr (fun c n => c.2 + n) 0 cs.

Definition train_ok (t : tcp_cb) (cs : list (Z * Z)) : Prop :=
  Forall (fun c => data_flags c.1 ∧ 0 < c.2 ≤ tc_mss t) cs.

Lemma train_out t t' off cs : out_erase t' = out_erase t → train t' off cs = train t off cs.
Proof.
  intros E. revert off. induction cs as [|[flags n] cs IH]; intros off; cbn [train]; [done|].
  f_equal; [|apply IH].
  exact (out_field E (fun t => tcp_message t flags (u32 (tc_snd_una t + off))
    (take (Z.to_nat n) (drop (Z.to_nat off) (snd_data t))))).
Qed.

Lemma snd_slice_data t off n :
  tcb_wf t → 0 ≤ off → 0 ≤ n → off + n ≤ tc_snd_len t → tc_snd_len t ≤ TCP_SNDBUF →
  snd_slice t off n = take (Z.to_nat n) (drop (Z.to_nat off) (snd_data t)).
Proof.
  intros Hwf Ho Hn Hl Hs. pose proof (tb_sndbuf _ Hwf) as Hb. pose proof (tb_head _ Hwf) as Hh.
  unfold snd_slice, snd_data. rewrite u32_small by wrap_lia.
  destruct (ring_advance (tc_sndbuf t) (tc_snd_head t) (tc_snd_len t) off) as [_ E]; [lia..|].
  rewrite Hb in E. rewrite <- E, take_ring_data by lia. done.
Qed.

(** The segment [tcp_output] sends next. *)
Lemma output_segment t chunk flags :
  tcb_wf t → output_state (tc_state t) = true → tc_fin_sent t = false → 0 ≤ chunk →
  snd_flight t + chunk ≤ tc_snd_len t →
  tcp_message t flags (tc_snd_nxt t) (snd_slice t (tcp_data_in_flight t) chunk) =
  tcp_message t flags (u32 (tc_snd_una t + snd_flight t))
    (take (Z.to_nat chunk) (drop (Z.to_nat (snd_flight t)) (snd_data t))).
Proof.
  intros Hwf Ho Hf Hc Hl. destruct (snd_ok_output t (tb_snd _ Hwf) Ho Hf) as (-> & H1 & H2).
  rewrite snd_slice_data by (done || lia). f_equal. pose proof (tb_snd _ Hwf) as (_ & Hn & _).
  unfold snd_flight. wrap_lia.
Qed.

(** What a call to the send engine may do to a connection: put more of the
    ring in flight, up to [wnd] or what was in flight already. *)
Record out_step (wnd : Z) (t t' : tcp_cb) : Prop := {
  os_rest : out_erase t' = out_erase t;
  os_wf : tcb_wf t';
  os_flight : snd_flight t ≤ snd_flight t' ≤ Z.max (snd_flight t) wnd;
  os_fin : tc_fin_sent t' = tc_fin_sent t;
}.

Lemma wp_tcp_output_loop fuel i t now wnd (Q : () → world → Prop) w :
  net_wf w → tcbs w !! i = Some t → tcb_wf t → output_state (tc_state t) = true →
  wnd < 65536 → wnd - snd_flight t ≤ Z.of_nat fuel →
  (∀ w' t' cs, tcb_step i w w' t' → out_step wnd t t' → output_chunk wnd t' = 0 →
     hands (tc_local_ip t) (tc_remote_ip t) w (train t (snd_flight t) cs) w' → train_ok t cs →
     snd_flight t' = snd_flight t + train_len cs → Q () w') →
  wp (tcp_output_loop fuel i now wnd) Q w.
Proof.
  revert t w. induction fuel as [|fuel IH]; intros t w Hn Hi Hwf Ho Hw Hfu HQ; cbn [tcp_output_loop];
    (wp_step; eapply wp_get_tcb; [done|]); destruct (Z.eqb_spec (output_chunk wnd t) 0) as [Hz|Hz];
    try (wp_step; apply (HQ w t []); [by apply tcb_step_same|split; [done..|lia|done]|done|done|apply Forall_nil_2|cbn; lia]);
    destruct (output_chunk_spec wnd t Hwf Ho Hw Hz) as (Hf & Hc & Hcw & Hcl); [lia|].
  set (chunk := output_chunk wnd t) in *. pose proof (tb_mss _ Hwf). cbv zeta.
  set (flags := if chunk =? _ then Z.lor TCP_ACK TCP_PSH else TCP_ACK).
  assert (data_flags flags) as Hfl by (unfold flags; destruct (chunk =? _); by vm_compute).
  wp_step. eapply wp_tcp_send_segment; [done..|apply Hfl|lia|]. intros w1 H1 P1. wp_step.
  set (t1 := tcp_seg_sent flags t) in *. pose proof (tcb_step_lookup i w w1 t t1 Hi H1) as Hi1.
  eapply wp_upd_tcb; [done|]. set (t2 := output_sent now chunk t1). set (w2 := set_tcp _ _).
  assert (tcb_step i w w2 t2) as H2 by (eapply tcb_step_trans; [exact H1|apply tcb_step_set, H1]).
  pose proof (snd_fields_seg_sent flags t) as Es. fold t1 in Es.
  pose proof (snd_ok_fields _ _ Es (tb_snd _ Hwf)) as Hs1.
  injection Es as Est _ Eu Enx El Efs _.
  assert (snd_flight t1 = snd_flight t) as Efl by (unfold snd_flight; congruence).
  destruct (snd_ok_sent now chunk t1) as (Hs2 & Hfl2 & Hf2); [done|congruence|congruence|lia|lia|].
  fold t2 in Hs2, Hfl2, Hf2.
  assert (out_erase t2 = out_erase t) as E2 by (unfold t2, t1; by rewrite out_erase_sent, out_erase_seg_sent).
  assert (tcb_wf t2) as Hwf2 by (by eapply tcb_wf_out).
  assert (tc_state t2 = tc_state t) as Est2 by exact (out_field E2 tc_state).
  eapply (IH t2); [apply H2|exact (tcb_step_lookup i w w2 t t2 Hi H2)|done|by rewrite Est2|done|lia|].
  intros w3 t3 cs H3 [O1 O2 O3 O4] Hz3 S3 C3 F3. apply (HQ w3 t3 ((flags, chunk) :: cs));
    [by eapply tcb_step_trans|split; [congruence|done|lia|congruence]|done| | |].
  - exists w1. split_and!; [|apply H1|].
    + rewrite (proj2 (Z.eqb_neq chunk 0)) in P1 by lia.
      by rewrite (output_segment t chunk flags Hwf Ho Hf ltac:(lia) ltac:(lia)) in P1.
    + apply (hands_set_tcp _ _ _ (put_tcb (w_tcp w1) i t2)). fold w2.
      rewrite (train_out t t2 _ cs E2), Hfl2, Efl in S3.
      by rewrite (out_field E2 tc_local_ip : tc_local_ip t2 = tc_local_ip t),
        (out_field E2 tc_remote_ip : tc_remote_ip t2 = tc_remote_ip t) in S3.
  - apply Forall_cons_2; [by split; [|cbn; lia]|]. unfold train_ok in C3.
    by rewrite (out_field E2 tc_mss : tc_mss t2 = tc_mss t) in C3.
  - change (train_len ((flags, chunk) :: cs)) with (chunk + train_len cs). lia.
Qed.

(** What [tcp_output] does to a connection. *)
Record out_done (t t' : tcp_cb) : Prop := {
  od_rest : out_erase t' = out_erase t;
  od_wf : tcb_wf t';
  od_flight : snd_flight t ≤ snd_flight t';
  od_window : snd_flight t' ≤ Z.max (snd_flight t) (Z.min (tc_snd_wnd t) (tc_cwnd t))
                + (if tc_fin_sent t' && negb (tc_fin_sent t) then 1 else 0);
  od_fin : tc_fin_sent t = true → tc_fin_sent t' = true;
}.

Lemma out_done_refl t : tcb_wf t → out_done t t.
Proof.
  intros H. split; [done|done|lia| |done]. destruct (tc_fin_sent t); cbn; lia.
Qed.

Lemma od_state t t' : out_done t t' → tc_state t' = tc_state t.
Proof. intros [E _ _ _ _]. exact (out_field E tc_state). Qed.

Lemma out_erase_fin now t : out_erase (fin_emit now t) = out_erase t.
Proof. unfold fin_emit. rewrite out_erase_arm. by destruct t. Qed.

Lemma fin_emit_ok now t :
  snd_ok t → output_state (tc_state t) = true → tc_fin_sent t = false → tc_fin_queued t = true →
  tc_snd_len t = tcp_data_in_flight t →
  snd_ok (fin_emit now t) ∧ snd_flight (fin_emit now t) = snd_flight t + 1 ∧ tc_fin_sent (fin_emit now t) = true.
Proof.
  intros Hs Ho Hf Hq Hlen. destruct (snd_ok_output t Hs Ho Hf) as (Hd & H1 & H2).
  rewrite Hd in Hlen. unfold fin_emit. set (t1 := t <| tc_fin_sent := true |> <| tc_snd_nxt ::= _ |>).
  pose proof (snd_fields_arm now t1) as E.
  assert (snd_flight t1 = snd_flight t + 1) as Hfl.
  { unfold snd_flight in *. cbn. wrap_lia. }
  assert (snd_ok t1) as Hs1.
  { unfold snd_ok. fold (snd_flight t1). rewrite Hfl. destruct Hs as (Hu & _ & Hl & Hst). cbn.
    split_and!; [apply Hu|apply Hu|apply u32_range|apply u32_range|apply Hl|apply Hl|].
    rewrite Hf, Hq in Hst. destruct (tc_state t); try done; try (by destruct Hst as (_ & ? & _)).
    all: split; [done|right; lia]. }
  split; [by eapply snd_ok_fields|].
  rewrite <- Hfl. unfold tcp_arm_rto. by destruct (_ =? 0).
Qed.

(** Whether this call sent the FIN. *)
Definition fin_new (t t' : tcp_cb) : bool := tc_fin_sent t' && negb (tc_fin_sent t).

Lemma fin_new_same t t' : tc_fin_sent t' = tc_fin_sent t → fin_new t t' = false.
Proof. unfold fin_new. intros ->. by destruct (tc_fin_sent t). Qed.

(** The segments [tcp_output] hands to IP: the queued bytes from [snd_nxt] on,
    cut into chunks, and the FIN after the last of them. *)
Record out_sent (w : world) (t : tcp_cb) (cs : list (Z * Z)) (t' : tcp_cb) (w' : world) : Prop := {
  ot_hands : hands (tc_local_ip t) (tc_remote_ip t) w
    (train t (snd_flight t) cs ++
     if fin_new t t' then [tcp_message t (Z.lor TCP_FIN TCP_ACK) (u32 (tc_snd_una t + (snd_flight t + train_len cs))) []]
     else []) w';
  ot_ok : train_ok t cs;
  ot_flight : snd_flight t' = snd_flight t + train_len cs + (if fin_new t t' then 1 else 0);
  ot_fin : fin_new t t' = true → snd_flight t + train_len cs = tc_snd_len t;
  ot_rest : output_state (tc_state t) = true → output_chunk (Z.min (tc_snd_wnd t) (tc_cwnd t)) t' = 0;
  ot_close : output_state (tc_state t) = true → tc_fin_queued t = true →
    snd_flight t + train_len cs = tc_snd_len t → tc_fin_sent t' = true;
}.

Lemma out_sent_no_fin w t cs t' w' :
  hands (tc_local_ip t) (tc_remote_ip t) w (train t (snd_flight t) cs) w' → train_ok t cs →
  snd_flight t' = snd_flight t + train_len cs → tc_fin_sent t' = tc_fin_sent t →
  (output_state (tc_state t) = true → output_chunk (Z.min (tc_snd_wnd t) (tc_cwnd t)) t' = 0) →
  (output_state (tc_state t) = true → tc_fin_queued t = true → snd_flight t + train_len cs = tc_snd_len t →
   tc_fin_sent t' = true) → out_sent w t cs t' w'.
Proof.
  intros H1 H2 H3 H4%fin_new_same H5 H6. split; rewrite ?H4; [|done|lia|done|done|done]. by rewrite app_nil_r.
Qed.

(** With nothing left to send a queued FIN has gone out. *)
Lemma fin_unsent wnd t t1 :
  out_step wnd t t1 → output_state (tc_state t) = true → tc_fin_queued t = true → snd_flight t1 = tc_snd_len t →
  tc_fin_queued t1 && negb (tc_fin_sent t1) && (tc_snd_len t1 =? tcp_data_in_flight t1) = false → tc_fin_sent t1 = true.
Proof.
  intros [O1 O2 _ _] Ho Hq Hl Hn. destruct (tc_fin_sent t1) eqn:Hf; [done|].
  destruct (snd_ok_output t1 (tb_snd _ O2)) as (Hd & _);
    [by rewrite (out_field O1 tc_state : tc_state t1 = tc_state t)|done|].
  rewrite (out_field O1 tc_fin_queued : tc_fin_queued t1 = tc_fin_queued t), Hq, Hd, Hl,
    (out_field O1 tc_snd_len : tc_snd_len t1 = tc_snd_len t), Z.eqb_refl in Hn. done.
Qed.

(** The FIN, after the loop left [t1]. *)
Lemma fin_step t t1 now :
  let flags := Z.lor TCP_FIN TCP_ACK in
  let t2 := fin_emit now (tcp_seg_sent flags t1) in
  out_step (Z.min (tc_snd_wnd t) (tc_cwnd t)) t t1 → output_state (tc_state t) = true →
  tc_fin_queued t1 = true → tc_fin_sent t1 = false → tc_snd_len t1 = tcp_data_in_flight t1 →
  out_done t t2 ∧ snd_flight t2 = snd_flight t1 + 1 ∧
  tcp_message t1 flags (tc_snd_nxt t1) [] = tcp_message t flags (u32 (tc_snd_una t + snd_flight t1)) [] ∧
  fin_new t t2 = true ∧ tc_fin_sent t2 = true ∧ snd_flight t1 = tc_snd_len t.
Proof.
  cbv zeta. set (flags := Z.lor TCP_FIN TCP_ACK). intros [O1 O2 O3 O4] Ho Hq Hf Hlen. clearbody flags.
  pose proof (out_field O1 tc_state : tc_state t1 = tc_state t) as Est1.
  destruct (snd_ok_output t1 (tb_snd _ O2) ltac:(by rewrite Est1) Hf) as (Hd1 & _).
  set (t2 := tcp_seg_sent flags t1) in *. pose proof (snd_fields_seg_sent flags t1) as Es. fold t2 in Es.
  pose proof (snd_ok_fields _ _ Es (tb_snd _ O2)) as Hs2. pose proof Es as E. injection E as Est _ Eu En El Ef Eq.
  destruct (fin_emit_ok now t2) as (Hs3 & Hfl3 & Hf3); [done|congruence|congruence|congruence| |].
  { rewrite El, Hlen. unfold tcp_data_in_flight. by rewrite Eu, En, Ef. }
  assert (snd_flight t2 = snd_flight t1) as Efl by (unfold snd_flight; congruence).
  assert (out_erase (fin_emit now t2) = out_erase t) as Hrest.
  { unfold t2. rewrite out_erase_fin, out_erase_seg_sent. exact O1. }
  assert (fin_new t (fin_emit now t2) = true) as Hnew by (unfold fin_new; by rewrite Hf3, <- O4, Hf).
  split_and!; [|lia| |done|done|].
  - split; [done|eapply (tcb_wf_out t1); [congruence|done|done]|lia| |done]. fold (fin_new t (fin_emit now t2)). rewrite Hnew. lia.
  - transitivity (tcp_message t flags (tc_snd_nxt t1) []).
    + exact (out_field O1 (fun t => tcp_message t flags (tc_snd_nxt t1) [])).
    + f_equal. pose proof (tb_snd _ O2) as (_ & Hn1 & _). unfold snd_flight.
      rewrite (out_field O1 tc_snd_una : tc_snd_una t1 = tc_snd_una t). wrap_lia.
  - rewrite <- (out_field O1 tc_snd_len : tc_snd_len t1 = tc_snd_len t), Hlen. by symmetry.
Qed.

Lemma wp_tcp_output_segs i t (Q : () → world → Prop) w :
  net_wf w → tcbs w !! i = Some t → tcb_wf t →
  (∀ w' t' cs, tcb_step i w w' t' → out_done t t' → out_sent w t cs t' w' → Q () w') →
  wp (tcp_output i) Q w.
Proof.
  intros Hn Hi Hwf HQ. unfold tcp_output. wp_step. eapply wp_get_tcb; [done|].
  destruct (output_state (tc_state t)) eqn:Ho; cbn [negb].
  2: { wp_step. apply (HQ w t []); [by apply tcb_step_same|by apply out_done_refl|].
       apply out_sent_no_fin; [done|apply Forall_nil_2|cbn [train_len foldr]; lia|done|by rewrite Ho|by rewrite Ho]. }
  wp_step. wp_step. pose proof (tb_wnd _ Hwf). pose proof (tb_cwnd _ Hwf) as [? _].
  pose proof (u32_range (tc_snd_nxt t - tc_snd_una t)) as Hfr. fold (snd_flight t) in Hfr.
  cbv zeta. set (wnd := Z.min _ _). set (now := w_now w).
  wp_step. eapply wp_tcp_output_loop; [done..|lia|lia|].
  intros w1 t1 cs H1 O Z1 S1 C1 F1. pose proof O as [O1 O2 O3 O4]. wp_step.
  pose proof (tcb_step_lookup i w w1 t t1 Hi H1) as Hi1. eapply wp_get_tcb; [done|].
  destruct (tc_fin_queued t1 && negb (tc_fin_sent t1) && _) eqn:Hfin.
  2: { wp_step. eapply HQ; [done| |apply out_sent_no_fin; try done].
       2: { intros _ Hq Hl. eapply fin_unsent; [exact O|done|done|lia|done]. } split; [done|done|lia| |by rewrite O4].
       rewrite O4. fold wnd. destruct (tc_fin_sent t); cbn; lia. }
  apply andb_true_iff in Hfin as [[Hq Hf%negb_true_iff]%andb_true_iff Hlen%Z.eqb_eq].
  wp_step. eapply wp_tcp_send_segment; [apply H1|done|done|by vm_compute|wrap_lia|].
  intros w2 H2 P2. eapply wp_upd_tcb; [exact (tcb_step_lookup i w1 w2 t1 _ Hi1 H2)|].
  destruct (fin_step t t1 now O Ho Hq Hf Hlen) as (D2 & F2 & L2 & N2 & G2 & K2).
  set (t3 := fin_emit now _) in *. clearbody t3.
  eapply HQ; [|exact D2|].
  - eapply tcb_step_trans; [exact H1|]. eapply tcb_step_trans; [exact H2|]. apply tcb_step_set, H2.
  - split; rewrite ?N2; [|done|lia|lia|intros _; by apply output_chunk_fin|done].
    eapply hands_app; [exact S1|].
    exists w2. split_and!; [|apply H2|done]. rewrite <- F1, <- L2.
    rewrite <- (out_field O1 tc_local_ip : tc_local_ip t1 = tc_local_ip t),
      <- (out_field O1 tc_remote_ip : tc_remote_ip t1 = tc_remote_ip t). exact P2.
Qed.

Lemma wp_tcp_output i t (Q : () → world → Prop) w :
  net_wf w → tcbs w !! i = Some t → tcb_wf t →
  (∀ w' t', tcb_step i w w' t' → out_done t t' → Q () w') →
  wp (tcp_output i) Q w.
Proof. intros Hn Hi Hwf HQ. eapply wp_tcp_output_segs; [done..|]. eauto. Qed.

(** ** Retransmission *)

(** What retransmission sends: the SYN again, or the oldest bytes in flight
    in one segment, or, when those are all acknowledged, the FIN. *)
Definition rtx_len (t : tcp_cb) : Z := Z.min (tcp_data_in_flight t) (tc_mss t).

Definition rtx_segs (t : tcp_cb) : list bytes :=
  match tc_state t with
  | TCP_SYN_SENT => [tcp_message t TCP_SYN (tc_iss t) []]
  | TCP_SYN_RCVD => [tcp_message t (Z.lor TCP_SYN TCP_ACK) (tc_iss t) []]
  | _ =>
      if 0 <? tcp_data_in_flight t then
        [tcp_message t (Z.lor TCP_ACK (if rtx_len t =? tc_snd_len t then TCP_PSH else 0)) (tc_snd_una t)
           (take (Z.to_nat (rtx_len t)) (snd_data t))]
      else if tc_fin_sent t && seq_lt (tc_snd_una t) (tc_snd_nxt t) then
        [tcp_message t (Z.lor TCP_FIN TCP_ACK) (tc_snd_una t) []]
      else []
  end.

Lemma data_in_flight_le t :
  snd_ok t → tc_state t ∉ [TCP_CLOSED; TCP_LISTEN; TCP_SYN_SENT; TCP_SYN_RCVD] →
  tcp_data_in_flight t ≤ tc_snd_len t ≤ TCP_SNDBUF.
Proof.
  intros (_ & _ & Hl & Hst) Hn. unfold tcp_data_in_flight.
  pose proof (u32_range (tc_snd_nxt t - tc_snd_una t)).
  destruct (tc_fin_sent t), (Z.ltb_spec 0 (u32 (tc_snd_nxt t - tc_snd_una t))); cbn [andb];
    destruct (tc_state t); try (destruct Hst as (? & ?); lia); destruct Hn; set_solver.
Qed.

Lemma net_same_tx w w' : erase_tx w = erase_tx w' → w_wire w' = w_wire w → net_same w w'.
Proof.
  intros E W. split_and!; [symmetry; by apply erase_tx_arp_eq|done| |frame].
  symmetry. apply erase_arp_ip_id. frame.
Qed.

Lemma net_same_trans w1 w2 w3 : net_same w1 w2 → net_same w2 w3 → net_same w1 w3.
Proof. intros (? & ? & ? & ?) (? & ? & ? & ?). split_and!; congruence. Qed.

Lemma hands_one src dst w seg w' :
  ip_output_post w src dst IP_PROTO_TCP IP_DEFAULT_TTL seg w' → erase_l4 w = erase_l4 w' → hands src dst w [seg] w'.
Proof. intros H E. exists w'. by split_and!. Qed.

Lemma rtx_segs_out t t' :
  out_erase t' = out_erase t → snd_fields t' = snd_fields t → rtx_segs t' = rtx_segs t.
Proof.
  intros E Es. injection Es as E1 E2 E3 E4 E5 E6 E7. unfold rtx_segs, rtx_len, tcp_data_in_flight.
  rewrite E1, E2, E3, E4, E5, E6. rewrite (out_field E tc_mss : tc_mss t' = tc_mss t).
  rewrite (out_field E snd_data : snd_data t' = snd_data t).
  assert (∀ flags seq data, tcp_message t' flags seq data = tcp_message t flags seq data) as Hm.
  { intros flags seq data. exact (out_field E (fun t => tcp_message t flags seq data)). }
  by rewrite !Hm.
Qed.

(** The outcome of a retransmission. *)
Definition rtx_post (i : nat) (t : tcp_cb) (w w' : world) : Prop :=
  ∃ t', tcb_step i w w' t' ∧ out_erase t' = out_erase t ∧ snd_fields t' = snd_fields t ∧ tcb_wf t' ∧
    (tc_state t ≠ TCP_LISTEN → hands (tc_local_ip t) (tc_remote_ip t) w (rtx_segs t) w').

Lemma rtx_post_sent i t flags w w' :
  tcb_wf t → tcb_step i w w' (tcp_seg_sent flags t) →
  (tc_state t ≠ TCP_LISTEN → hands (tc_local_ip t) (tc_remote_ip t) w (rtx_segs t) w') → rtx_post i t w w'.
Proof.
  intros Hwf H1 H2. exists (tcp_seg_sent flags t).
  split_and!; [done|apply out_erase_seg_sent|apply snd_fields_seg_sent|by apply tcb_wf_seg_sent|done].
Qed.

Lemma wp_rtx_syn i t flags w :
  net_wf w → tcbs w !! i = Some t → tcb_wf t → byte_ok flags → has_flag flags TCP_SYN = true →
  rtx_segs t = [tcp_message t flags (tc_iss t) []] → wp (tcp_send_ctl i flags) (fun _ => rtx_post i t w) w.
Proof.
  intros Hn Hi Hwf Hf Hs E. eapply wp_tcp_send_ctl; [done..|]. intros w1 H1 P1. eapply rtx_post_sent; [done..|].
  intros _. rewrite E. rewrite Hs in P1. apply hands_one; [done|apply H1].
Qed.

Lemma wp_rtx_data i t w :
  net_wf w → tcbs w !! i = Some t → tcb_wf t → tc_state t ∉ [TCP_SYN_SENT; TCP_SYN_RCVD] →
  wp (if 0 <? tcp_data_in_flight t then
        tcp_send_segment i (Z.lor TCP_ACK (if u16 (rtx_len t) =? tc_snd_len t then TCP_PSH else 0)) (tc_snd_una t)
          0 (u16 (rtx_len t))
      else if tc_fin_sent t && seq_lt (tc_snd_una t) (tc_snd_nxt t) then
        tcp_send_segment i (Z.lor TCP_FIN TCP_ACK) (tc_snd_una t) 0 0
      else mret ()) (fun _ => rtx_post i t w) w.
Proof.
  intros Hn Hi Hwf Hst. pose proof (tb_mss _ Hwf) as Hm. pose proof (tb_state _ Hwf) as Hc.
  assert (rtx_segs t = if 0 <? tcp_data_in_flight t then
    [tcp_message t (Z.lor TCP_ACK (if rtx_len t =? tc_snd_len t then TCP_PSH else 0)) (tc_snd_una t)
       (take (Z.to_nat (rtx_len t)) (snd_data t))]
    else if tc_fin_sent t && seq_lt (tc_snd_una t) (tc_snd_nxt t) then
      [tcp_message t (Z.lor TCP_FIN TCP_ACK) (tc_snd_una t) []] else []) as E.
  { unfold rtx_segs. destruct (tc_state t); try done; set_solver. }
  destruct (Z.ltb_spec 0 (tcp_data_in_flight t)) as [Hd|Hd].
  - assert (0 < rtx_len t ≤ tc_mss t) as Hr by (unfold rtx_len; lia). rewrite u16_small by (unfold TCP_OUR_MSS in *; lia).
    eapply wp_tcp_send_segment; [done..|destruct (_ =? _); by vm_compute|lia|]. intros w1 H1 P1.
    eapply rtx_post_sent; [done..|]. intros Hl. rewrite E. apply hands_one; [|apply H1].
    rewrite (proj2 (Z.eqb_neq (rtx_len t) 0)) in P1 by lia.
    destruct (data_in_flight_le t (tb_snd _ Hwf)) as [H2 H3]; [set_solver|].
    rewrite snd_slice_data in P1 by (done || unfold rtx_len; lia). exact P1.
  - destruct (_ && _) eqn:Hf.
    + eapply wp_tcp_send_segment; [done..|by vm_compute|wrap_lia|]. intros w1 H1 P1.
      eapply rtx_post_sent; [done..|]. intros _. rewrite E. apply hands_one; [done|apply H1].
    + wp_step. exists t. split_and!; [by apply tcb_step_same|done..|]. intros _. by rewrite E.
Qed.

(** Retransmission sends from what is already in flight. *)
Lemma wp_tcp_retransmit i t (Q : () → world → Prop) w :
  net_wf w → tcbs w !! i = Some t → tcb_wf t →
  (∀ w' t', tcb_step i w w' t' → out_erase t' = out_erase t → snd_fields t' = snd_fields t →
     tcb_wf t' → (tc_state t ≠ TCP_LISTEN → hands (tc_local_ip t) (tc_remote_ip t) w (rtx_segs t) w') → Q () w') →
  wp (tcp_retransmit i) Q w.
Proof.
  intros Hn Hi Hwf HQ. unfold tcp_retransmit. wp_step. apply wp_stat_inc. intros w1 E1 W1 _.
  pose proof (tcb_step_same _ _ _ _ Hi ltac:(by eapply net_wf_tx) E1) as H1.
  pose proof (tcb_step_lookup i w w1 t t Hi H1) as Hi1.
  wp_step. eapply wp_upd_tcb; [done|]. set (t2 := t <| tc_rtt_timing := _ |>). set (w2 := set_tcp _ _).
  assert (tcb_step i w w2 t2) as H2 by (eapply tcb_step_trans; [exact H1|apply tcb_step_set, H1]).
  assert (net_same w w2) as N2 by (eapply net_same_trans; [by apply net_same_tx|done]).
  pose proof (tcb_step_lookup i w w2 t t2 Hi H2) as Hi2.
  assert (out_erase t2 = out_erase t) as Er by done.
  assert (snd_fields t2 = snd_fields t) as Es by done.
  assert (tcb_wf t2) as Hwf2.
  { eapply tcb_wf_out; [by symmetry| |done]. eapply snd_ok_fields; [exact Es|apply Hwf]. }
  rewrite <- (rtx_segs_out t t2 Er Es), <- (eq_refl : tc_state t2 = tc_state t) in HQ. wp_step. eapply wp_get_tcb; [done|].
  assert (tc_local_ip t2 = tc_local_ip t ∧ tc_remote_ip t2 = tc_remote_ip t) as [El Em] by done.
  rewrite <- El, <- Em in HQ. clearbody t2 w2.
  eapply (wp_mono _ (fun _ => rtx_post i t2 w2)).
  { pose proof (fun H => wp_rtx_data i t2 w2 (ls_net _ _ _ _ H2) Hi2 Hwf2 H) as Hdat.
    destruct (tc_state t2) eqn:Hst; try (apply Hdat; rewrite !not_elem_of_cons; split_and!; [done..|apply not_elem_of_nil]);
      (apply wp_rtx_syn; [apply H2|done|done|by vm_compute|by vm_compute|unfold rtx_segs; by rewrite Hst]). }
  intros [] w3 (t3 & H3 & O3 & S3 & W3 & P3). apply (HQ w3 t3); [by eapply tcb_step_trans|congruence|congruence|done|].
  intros Hl. eapply hands_from; [exact N2|]. by apply P3.
Qed.

(** ** Example *)

(** An established connection from 10.0.0.1:80 to 10.0.0.2:5000 with three
    bytes to send. *)
Definition demo_conn : tcp_cb :=
  demo_tcb <| tc_active := true |> <| tc_state := TCP_ESTABLISHED |> <| tc_sock_idx := 0 |>
    <| tc_local_ip := 0x0a000001 |> <| tc_remote_ip := 0x0a000002 |> <| tc_local_port := 80 |>
    <| tc_remote_port := 5000 |> <| tc_snd_una := 5000 |> <| tc_snd_nxt := 5000 |>
    <| tc_snd_wnd := 1000 |> <| tc_mss := TCP_DEFAULT_MSS |> <| tc_cwnd := 2144 |>
    <| tc_ssthresh := 0xffffffff |> <| tc_srtt_ms := -1 |> <| tc_rto_ms := TCP_RTO_INITIAL_MS |>
    <| tc_sndbuf := replicate (Z.to_nat TCP_SNDBUF) 7 |> <| tc_snd_len := 3 |>.

Lemma demo_conn_wf : tcb_wf demo_conn.
Proof.
  destruct demo_tcb_rcv as [R1 R2 R3 R4 R5 R6]. split.
  - change (TCP_ESTABLISHED ≠ TCP_CLOSED). done.
  - change (zlen (replicate (Z.to_nat TCP_SNDBUF) 7) = TCP_SNDBUF). rewrite length_replicate. wrap_lia.
  - change (bytes_ok (replicate (Z.to_nat TCP_SNDBUF) 7)). apply Forall_replicate. wrap_lia.
  - change (0 ≤ 0 < TCP_SNDBUF). wrap_lia.
  - split; [exact R1|exact R2|exact R3|exact R4|exact R5|exact R6].
  - change (0 ≤ TCP_OOO_MAX). done.
  - change (u32_ok 0x0a000001 ∧ u32_ok 0x0a000002). lia.
  - change (1 ≤ TCP_DEFAULT_MSS ≤ TCP_OUR_MSS). wrap_lia.
  - change (u32_ok 2144 ∧ 2 ≤ 0xffffffff < 2 ^ 32). lia.
  - change (u16_ok 1000). lia.
  - change (u32_ok 5000 ∧ u32_ok 5000 ∧ 0 ≤ 3 ≤ TCP_SNDBUF ∧ false = false ∧ false = false ∧ u32 (5000 - 5000) ≤ 3).
    split_and!; done.
  - split; [by left|]. change (TCP_RTO_MIN_MS ≤ TCP_RTO_INITIAL_MS ≤ TCP_RTO_MAX_MS). wrap_lia.
  - change (0 ≤ 0 ≤ TCP_ACCEPT_QLEN). wrap_lia.
  - change (Forall (fun c => c < TCP_MAX_CONNS)%nat []). apply Forall_nil_2.
  - intros l E. change (None = Some l) in E. done.
  - change (-1 ≤ 0 < Z.of_nat PF_SOCK_MAX). done.
Qed.

Definition demo_sock : pf_sock := mk_sock PF_SOCK_TCP 0x0a000001 80 [] (Some 0%nat) 0.

Definition demo_tcp : tcp_globals := mk_tcpg (demo_conn :: replicate 15 zero_tcb) 0x1f2e3d4c.

Definition demo_tcp_world : world :=
  set_tcp (set_socks demo (put_sock pf_socktab_init 0 demo_sock)) demo_tcp.

Lemma demo_tcp_wf : tcp_wf (w_socks demo_tcp_world) (w_tcp demo_tcp_world).
Proof.
  change (tcp_wf (put_sock pf_socktab_init 0 demo_sock) demo_tcp). split.
  - reflexivity.
  - apply Forall_cons_2; [exact demo_conn_wf|]. apply Forall_replicate. by vm_compute.
  - cbn. lia.
  - apply put_sock_wf; [apply pf_socktab_init_wf|]. split; cbn; try lia; done.
  - cbn [put_sock st_socks]. apply Forall_insert; [by apply Forall_replicate|].
    intros i [= <-]. unfold TCP_MAX_CONNS. lia.
Qed.

Lemma demo_tcp_net : net_wf demo_tcp_world.
Proof. apply net_wf_set_tcp, net_wf_set_socks, demo_net_wf. Qed.

Lemma demo_tcp_at : tcbs demo_tcp_world !! 0%nat = Some demo_conn.
Proof. reflexivity. Qed.

(** ** Properties *)

(** [tcp_send_segment] returns and hands IP exactly one segment from the
    connection's address to its peer: the header with the given flags and
    sequence number, the MSS option on a SYN, and [n] ring bytes from the
    given offset, with a checksum the receiver's test accepts; of the
    connection only the acknowledgement bookkeeping changes. *)
Theorem tcp_send_segment_wire w i t flags seq off n :
  net_wf w → tcbs w !! i = Some t → tcb_wf t → byte_ok flags → 0 ≤ n ≤ TCP_OUR_MSS →
  ∃ w', tcp_send_segment i flags seq off n w = Ok ((), w') ∧
    let seg := tcp_message t flags seq (if n =? 0 then [] else snd_slice t off n) in
    ip_output_post w (tc_local_ip t) (tc_remote_ip t) IP_PROTO_TCP IP_DEFAULT_TTL seg w' ∧
    csum_fold (csum_partial seg (csum_pseudo (tc_local_ip t) (tc_remote_ip t) IP_PROTO_TCP (zlen seg))) = 0 ∧
    tcbs w' = <[i:=tcp_seg_sent flags t]> (tcbs w).
Proof.
  intros Hn Hi Hwf Hf Hl. destruct (snd_slice_ok t off n Hwf Hl) as (_ & Hsok & Hslen).
  cut (wp (tcp_send_segment i flags seq off n) (fun _ w' =>
    l4_step w w' (w_socks w) (put_tcb (w_tcp w) i (tcp_seg_sent flags t)) ∧
    ip_output_post w (tc_local_ip t) (tc_remote_ip t) IP_PROTO_TCP IP_DEFAULT_TTL
      (tcp_message t flags seq (if n =? 0 then [] else snd_slice t off n)) w') w).
  2: { eapply wp_tcp_send_segment; [done..|]. auto. }
  intros ([] & w' & Hrun & H & Hpost)%wp_run. exists w'. cbv zeta. split_and!; [done|done| |].
  - set (data := if n =? 0 then [] else snd_slice t off n). destruct (tcp_seg_opts_ok flags) as [Hook Hol].
    assert (bytes_ok data ∧ zlen data ≤ TCP_OUR_MSS) as [Hdok Hdl].
    { unfold data. destruct (n =? 0); [split; [done|cbn; wrap_lia]|]. split; [done|lia]. }
    unfold tcp_message. rewrite length_tcp_segment. apply tcp_segment_csum; try apply Hwf; try done.
    + rewrite tcp_seg_hdr_doff. destruct (has_flag _ _); wrap_lia.
    + by apply Forall_app_2.
    + rewrite length_app, Nat2Z.inj_add, Hol. destruct (has_flag _ _); wrap_lia.
  - by rewrite (ls_tcp _ _ _ _ H).
Qed.

Lemma tcp_send_segment_wire_witness :
  ∃ w', tcp_send_segment 0 TCP_ACK 5000 0 3 demo_tcp_world = Ok ((), w') ∧
    tcbs w' = <[0%nat:=tcp_seg_sent TCP_ACK demo_conn]> (tcbs demo_tcp_world).
Proof.
  destruct (tcp_send_segment_wire demo_tcp_world 0 demo_conn TCP_ACK 5000 0 3 demo_tcp_net demo_tcp_at
    demo_conn_wf ltac:(wrap_lia) ltac:(wrap_lia)) as (w' & H1 & _ & _ & H2).
  exact (ex_intro _ w' (conj H1 H2)).
Defined.

(** C16. [tcp_output] always returns; it touches no other connection, keeps
    this one's invariant, state, unacknowledged edge and ring, and never puts
    more in flight than was there already or the smaller of the peer's window
    and the congestion window allow, the FIN aside; all of it is ring data. *)
Theorem tcp_output_window w i t :
  net_wf w → tcbs w !! i = Some t → tcb_wf t →
  ∃ w' t', tcp_output i w = Ok ((), w') ∧ net_wf w' ∧ tcbs w' = <[i:=t']> (tcbs w) ∧ tcb_wf t' ∧
    tc_state t' = tc_state t ∧ tc_snd_una t' = tc_snd_una t ∧
    tc_sndbuf t' = tc_sndbuf t ∧ tc_snd_len t' = tc_snd_len t ∧
    snd_flight t ≤ snd_flight t' ≤ Z.max (snd_flight t) (Z.min (tc_snd_wnd t) (tc_cwnd t))
      + (if tc_fin_sent t' && negb (tc_fin_sent t) then 1 else 0).
Proof.
  intros Hn Hi Hwf.
  cut (wp (tcp_output i) (fun _ w' => ∃ t', tcb_step i w w' t' ∧ out_done t t') w).
  2: { eapply wp_tcp_output; [done..|]. eauto. }
  intros ([] & w' & Hrun & t' & H & [E1 E2 E3 E4 _])%wp_run. exists w', t'. split_and!; try done.
  - apply H.
  - by rewrite (ls_tcp _ _ _ _ H).
  - exact (out_field E1 tc_state).
  - exact (out_field E1 tc_snd_una).
  - exact (out_field E1 tc_sndbuf).
  - exact (out_field E1 tc_snd_len).
Qed.

Lemma tcp_output_window_witness :
  ∃ w' t', tcp_output 0 demo_tcp_world = Ok ((), w') ∧ tcbs w' = <[0%nat:=t']> (tcbs demo_tcp_world).
Proof.
  destruct (tcp_output_window demo_tcp_world 0 demo_conn demo_tcp_net demo_tcp_at demo_conn_wf)
    as (w' & t' & H1 & _ & H2 & _).
  exact (ex_intro _ w' (ex_intro _ t' (conj H1 H2))).
Defined.

(** Why nothing more is sent: the FIN is out, so is every queued byte, the
    window [wnd] is full, or the rest is less than a segment, would fit, and
    waits for the bytes in flight to be acknowledged (Nagle). *)
Inductive output_idle (wnd : Z) (t : tcp_cb) : Prop :=
  | idle_fin : tc_fin_sent t = true → output_idle wnd t
  | idle_sent : snd_flight t = tc_snd_len t → output_idle wnd t
  | idle_window : wnd ≤ snd_flight t → output_idle wnd t
  | idle_nagle : tc_nodelay t = false → 0 < snd_flight t → tc_snd_len t - snd_flight t < tc_mss t →
      tc_snd_len t ≤ wnd → output_idle wnd t.

Lemma output_chunk_idle wnd t :
  tcb_wf t → output_state (tc_state t) = true → wnd < 65536 → output_chunk wnd t = 0 → output_idle wnd t.
Proof.
  intros Hwf Ho Hw. pose proof (tb_mss _ Hwf) as Hm. unfold output_chunk. fold (snd_flight t).
  destruct (tc_fin_sent t) eqn:Hf; [by constructor|].
  destruct (snd_ok_output t (tb_snd _ Hwf) Ho Hf) as (-> & H1 & H2).
  rewrite orb_false_r, (u32_small (tc_snd_len t - snd_flight t)) by wrap_lia.
  destruct (Z.eqb_spec (tc_snd_len t - snd_flight t) 0); [intros _; apply idle_sent; lia|].
  destruct (Z.leb_spec wnd (snd_flight t)); [intros _; by apply idle_window|]. cbv zeta.
  rewrite u16_small by wrap_lia. destruct (_ && _) eqn:Hn; [intros _|wrap_lia].
  rewrite !andb_true_iff, negb_true_iff, !Z.ltb_lt, Z.eqb_eq in Hn. destruct Hn as (((Hn1 & Hn2) & Hn3) & Hn4).
  apply idle_nagle; [done|done|lia|lia].
Qed.

(** C26. What [tcp_output] sends is the byte stream: the queued bytes from
    [snd_nxt] on, as many as it puts in flight, go to IP in order, cut into
    segments of at most [mss] bytes whose sequence numbers are those of the
    bytes; the FIN follows once every queued byte is out. In a state that sends
    it stops only when the FIN is out, every queued byte is in flight, the
    smaller of the peer's window and the congestion window is full, or what is
    left is less than a segment, data is in flight and Nagle's rule is on. *)
Theorem tcp_output_stream w i t :
  net_wf w → tcbs w !! i = Some t → tcb_wf t →
  ∃ w' t' cs, tcp_output i w = Ok ((), w') ∧ tcbs w' = <[i:=t']> (tcbs w) ∧ out_sent w t cs t' w' ∧
    (output_state (tc_state t) = true → output_idle (Z.min (tc_snd_wnd t) (tc_cwnd t)) t').
Proof.
  intros Hn Hi Hwf.
  cut (wp (tcp_output i) (fun _ w' => ∃ t' cs, tcb_step i w w' t' ∧ out_done t t' ∧ out_sent w t cs t' w') w).
  2: { eapply wp_tcp_output_segs; [done..|]. eauto 10. }
  intros ([] & w' & Hrun & t' & cs & H & Hd & Hs)%wp_run. exists w', t', cs. split_and!; try done.
  - by rewrite (ls_tcp _ _ _ _ H).
  - intros Ho. apply output_chunk_idle; [apply Hd|by rewrite (od_state _ _ Hd)| |by apply Hs].
    pose proof (tb_wnd _ Hwf). lia.
Qed.

Lemma tcp_output_stream_witness :
  ∃ w' t' cs, tcp_output 0 demo_tcp_world = Ok ((), w') ∧ tcbs w' = <[0%nat:=t']> (tcbs demo_tcp_world) ∧
    out_sent demo_tcp_world demo_conn cs t' w'.
Proof.
  destruct (tcp_output_stream demo_tcp_world 0 demo_conn demo_tcp_net demo_tcp_at demo_conn_wf)
    as (w' & t' & cs & H1 & H2 & H3 & _).
  exact (ex_intro _ w' (ex_intro _ t' (ex_intro _ cs (conj H1 (conj H2 H3))))).
Defined.
