(* ===== verification/Tcp.v ===== *)
(** * TCP connections

    Models the connection management of [tcp/tcp.c]: control-block allocation
    and release, connection open, close and abort, demultiplexing, and the
    processing of received data ([tcp_rx_payload]). *)

From S2P Require Import Prelude Pf Checksum Pkt Fib Headers Stats Stack Link Arp IpOut Icmp Reass Sock.
From S2P Require Import Tcb TcpOut.
Import Checksum Pkt Fib Stats.

(** ** Control blocks *)

Definition tcp_init : tcp_globals := mk_tcpg (replicate TCP_MAX_CONNS zero_tcb) 0x1f2e3d4c.

Definition tcp_fini (g : tcp_globals) : tcp_globals :=
  g <| tg_tcbs ::= fmap (fun t => if tc_active t then zero_tcb else t) |>.

(** A fresh block; [malloc]ed rings are modelled zero-filled. *)
Definition tcb_fresh : tcp_cb :=
  zero_tcb <| tc_active := true |> <| tc_sock_idx := -1 |> <| tc_mss := TCP_DEFAULT_MSS |>
    <| tc_srtt_ms := -1 |> <| tc_rttvar_ms := -1 |> <| tc_rto_ms := TCP_RTO_INITIAL_MS |>
    <| tc_ssthresh := 0xffffffff |> <| tc_cwnd := 4 * TCP_DEFAULT_MSS |>
    <| tc_sndbuf := replicate (Z.to_nat TCP_SNDBUF) 0 |>
    <| tc_rcvbuf := replicate (Z.to_nat TCP_RCVBUF) 0 |>.

Definition tcb_unused (t : tcp_cb) : Prop := tc_active t = false.
#[global] Instance tcb_unused_dec t : Decision (tcb_unused t).
Proof. unfold tcb_unused. apply _. Defined.

Definition tcb_alloc : PF (option nat) :=
  g ← get_stack ps_tcp;
  match list_find tcb_unused (tg_tcbs g) with
  | Some (i, _) => upd_tcb i (fun _ => tcb_fresh);; mret (Some i)
  | None => mret None
  end.

Definition tcb_detach_sock (i : nat) (err : Z) : PF () :=
  t ← get_tcb i;
  if 0 <=? tc_sock_idx t then
    upd_sock (Z.to_nat (tc_sock_idx t)) (fun s => s <| sk_tcb := None |> <| sk_err := err |>);;
    upd_tcb i (set_field tc_sock_idx (fun _ => -1))
  else mret ().

(** Whether block [j], in state [c], is a child the listener [i] takes down. *)
Definition child_of (i j : nat) (c : tcp_cb) : bool :=
  tc_active c && negb (bool_decide (j = i)) && bool_decide (tc_listener c = Some i).

(** The recursion is on the children of a listener. *)
Fixpoint tcb_free_rec (depth : nat) (i : nat) : PF () :=
  match depth with
  | O => lift (Err OutOfFuel)
  | S depth =>
      t ← get_tcb i;
      (if bool_decide (tc_state t = TCP_LISTEN) then
         for_each (seq 0 TCP_MAX_CONNS) (fun j =>
           c ← get_tcb j;
           if child_of i j c
           then tcp_send_ctl j (Z.lor TCP_RST TCP_ACK);; tcb_free_rec depth j
           else mret ())
       else mret ());;
      tcb_detach_sock i 0;;
      upd_tcb i (fun _ => zero_tcb)
  end.

Definition tcb_free (i : nat) : PF () := tcb_free_rec (S TCP_MAX_CONNS) i.

Definition tcp_gen_iss : PF Z :=
  now ← pf_now_ms;
  upd_stack (set_field ps_tcp (set_field tg_iss_next
    (fun n => u32 (n + 64000 + Z.land now 0x3ff))));;
  get_stack (fun s => tg_iss_next (ps_tcp s)).

(** The scan of [tcb_lookup] from index [i]: a connection ends it, the last
    matching listener is kept. *)
Fixpoint tcb_scan (l : list tcp_cb) (i : nat) (lip lport rip rport : Z) (listener : option nat) :
    option nat :=
  match l with
  | [] => listener
  | t :: l =>
      if negb (tc_active t) then tcb_scan l (S i) lip lport rip rport listener
      else if bool_decide (tc_state t = TCP_LISTEN) then
        tcb_scan l (S i) lip lport rip rport
          (if (tc_local_port t =? lport) && ((tc_local_ip t =? 0) || (tc_local_ip t =? lip))
           then Some i else listener)
      else if (tc_local_ip t =? lip) && (tc_local_port t =? lport) && (tc_remote_ip t =? rip)
              && (tc_remote_port t =? rport)
      then Some i
      else tcb_scan l (S i) lip lport rip rport listener
  end.

Definition tcb_lookup (lip lport rip rport : Z) : PF (option nat) :=
  g ← get_stack ps_tcp;
  mret (tcb_scan (tg_tcbs g) 0 lip lport rip rport None).

(** ** Opening and closing *)

Definition tcp_open_listen (sock_idx ip port backlog : Z) : PF (option nat) :=
  r ← tcb_alloc;
  match r with
  | None => mret None
  | Some i =>
      upd_tcb i (fun t =>
        t <| tc_state := TCP_LISTEN |> <| tc_sock_idx := sock_idx |> <| tc_local_ip := ip |>
          <| tc_local_port := port |>
          <| tc_backlog := u16 (Z.min (if backlog =? 0 then 1 else backlog) TCP_ACCEPT_QLEN) |>);;
      mret (Some i)
  end.

(** The connection an active open creates; the SYN occupies one sequence
    number. *)
Definition tcp_syn_sent (sock_idx lip lport rip rport iss : Z) (t : tcp_cb) : tcp_cb :=
  t <| tc_sock_idx := sock_idx |> <| tc_local_ip := lip |> <| tc_local_port := lport |>
    <| tc_remote_ip := rip |> <| tc_remote_port := rport |> <| tc_iss := iss |>
    <| tc_snd_una := iss |> <| tc_snd_nxt := u32 (iss + 1) |> <| tc_state := TCP_SYN_SENT |>.

Definition tcp_open_active (sock_idx lip lport rip rport : Z) : PF (option nat) :=
  r ← tcb_alloc;
  match r with
  | None => mret None
  | Some i =>
      iss ← tcp_gen_iss;
      upd_tcb i (tcp_syn_sent sock_idx lip lport rip rport iss);;
      stat_inc tcp_active_opens;;
      tcp_send_ctl i TCP_SYN;;
      now ← pf_now_ms;
      upd_tcb i (tcp_arm_rto now);;
      mret (Some i)
  end.

Definition tcp_app_close (i : nat) : PF () :=
  t ← get_tcb i;
  let close s :=
    upd_tcb i (fun t => t <| tc_state := s |> <| tc_fin_queued := true |>);; tcp_output i in
  match tc_state t with
  | TCP_LISTEN | TCP_SYN_SENT => tcb_free i
  | TCP_SYN_RCVD | TCP_ESTABLISHED => close TCP_FIN_WAIT_1
  | TCP_CLOSE_WAIT => close TCP_LAST_ACK
  | _ => mret ()
  end.

Definition tcp_app_abort (i : nat) : PF () :=
  t ← get_tcb i;
  when (negb (bool_decide (tc_state t = TCP_LISTEN)) && negb (bool_decide (tc_state t = TCP_SYN_SENT)))
    (tcp_send_ctl i (Z.lor TCP_RST TCP_ACK));;
  tcb_free i.

Definition tcp_conn_error (i : nat) (err : Z) : PF () :=
  stat_inc tcp_conns_reset;;
  tcb_detach_sock i err;;
  tcb_free i.

(** ** Payload *)

Definition tcp_ooo_drain (i : nat) : PF () :=
  t ← get_tcb i;
  '(t', n) ← lift (ooo_drain (tc_ooo t) t);
  upd_tcb i (fun _ => t');;
  stat_add tcp_rx_bytes n.

Definition tcp_ooo_insert (i : nat) (seq : Z) (data : bytes) : PF () :=
  t ← get_tcb i;
  r ← lift (ooo_insert seq data t);
  match r with
  | None => stat_inc tcp_ooo_dropped
  | Some l => upd_tcb i (set_field tc_ooo (fun _ => l));; stat_inc tcp_ooo_queued
  end.

(** The trims of [tcp_rx_payload]: the head already received, then the tail
    beyond the window. [inl] is the pure duplicate that is re-acknowledged,
    [inr] what is left, from its sequence number. *)
Definition rx_trim (seq : Z) (data : bytes) (t : tcp_cb) : () + Z * bytes :=
  let window seq data :=
    let wnd_end := u32 (tc_rcv_nxt t + tcp_rcv_window t) in
    if seq_ge seq wnd_end then inr (seq, [])
    else if seq_gt (u32 (seq + zlen data)) wnd_end
    then inr (seq, take (Z.to_nat (u32 (wnd_end - seq))) data)
    else inr (seq, data) in
  if seq_lt seq (tc_rcv_nxt t) then
    let skip := u32 (tc_rcv_nxt t - seq) in
    if zlen data <=? skip then inl () else window (tc_rcv_nxt t) (drop (Z.to_nat skip) data)
  else window seq data.

(** In-order data: to the ring, then whatever it makes contiguous. *)
Definition rx_in_order (i : nat) (data : bytes) : PF () :=
  t ← get_tcb i;
  '(t', taken) ← lift (rcv_ring_put t data);
  upd_tcb i (fun _ => t' <| tc_rcv_nxt := u32 (tc_rcv_nxt t' + taken) |>);;
  stat_add tcp_rx_bytes taken;;
  tcp_ooo_drain i.

(** Delayed acknowledgement: at once for every second segment. *)
Definition rx_delack (i : nat) (now : Z) : PF () :=
  upd_tcb i (set_field tc_delack_pending (fun n => u8 (n + 1)));;
  t ← get_tcb i;
  if 2 <=? tc_delack_pending t then tcp_send_ctl i TCP_ACK
  else if tc_delack_deadline t =? 0
  then upd_tcb i (set_field tc_delack_deadline (fun _ => u64 (now + TCP_DELACK_MS)))
  else mret ().

Definition tcp_rx_payload (i : nat) (seq : Z) (data : bytes) (now : Z) : PF () :=
  t ← get_tcb i;
  match rx_trim seq data t with
  | inl _ => tcp_send_ctl i TCP_ACK
  | inr (seq, data) =>
      if zlen data =? 0 then mret ()
      else if seq =? tc_rcv_nxt t then rx_in_order i data;; rx_delack i now
      else tcp_ooo_insert i seq data;; tcp_send_ctl i TCP_ACK
  end.

(** ** The table *)

Lemma tcp_wf_slot s g i t : tcp_wf s g → tg_tcbs g !! i = Some t → slot_wf t.
Proof. intros H Hi. exact (Forall_lookup_1 _ _ _ _ (tp_slots _ _ H) Hi). Qed.

Lemma tcp_wf_active s g i t : tcp_wf s g → tg_tcbs g !! i = Some t → tc_active t = true → tcb_wf t.
Proof. intros H Hi Ha. pose proof (tcp_wf_slot _ _ _ _ H Hi) as Hs. unfold slot_wf in Hs. by rewrite Ha in Hs. Qed.

Lemma slot_wf_active t : tc_active t = true → tcb_wf t → slot_wf t.
Proof. intros Ha Hw. unfold slot_wf. by rewrite Ha. Qed.

Lemma tcp_wf_put s g i t : tcp_wf s g → slot_wf t → tcp_wf s (put_tcb g i t).
Proof.
  intros [H1 H2 H3 H4 H5] Ht. split; cbn; [by rewrite length_insert|by apply Forall_insert|done..].
Qed.

Lemma zero_tcb_slot : slot_wf zero_tcb.
Proof. by vm_compute. Qed.

Lemma tcp_wf_lookup s g i : tcp_wf s g → (i < TCP_MAX_CONNS)%nat → ∃ t, tg_tcbs g !! i = Some t.
Proof. intros H Hi. apply lookup_lt_is_Some. by rewrite (tp_len _ _ H). Qed.

Lemma tcp_wf_index s g i t : tcp_wf s g → tg_tcbs g !! i = Some t → (i < TCP_MAX_CONNS)%nat.
Proof. intros H Hi. rewrite <- (tp_len _ _ H). by eapply lookup_lt_Some. Qed.

Lemma slot_sock t : slot_wf t → -1 ≤ tc_sock_idx t < Z.of_nat PF_SOCK_MAX.
Proof. unfold slot_wf. destruct (tc_active t); [apply tb_sock|tauto]. Qed.

Lemma tcp_init_wf : tcp_wf pf_socktab_init tcp_init.
Proof.
  split; [apply length_replicate|apply Forall_replicate, zero_tcb_slot|cbn; lia|apply pf_socktab_init_wf|].
  by apply Forall_replicate.
Qed.

Lemma tcb_fresh_rcv : rcv_wf tcb_fresh.
Proof.
  split; try (cbn; wrap_lia).
  - change (zlen (replicate (Z.to_nat TCP_RCVBUF) 0) = TCP_RCVBUF). rewrite length_replicate. wrap_lia.
  - apply Forall_replicate. wrap_lia.
  - apply Forall_nil_2.
Qed.

(** ** Release *)

(** The sockets after the owner of [t] was detached with [err]. *)
Definition detach_socks (s : pf_socktab) (t : tcp_cb) (err : Z) : pf_socktab :=
  if 0 <=? tc_sock_idx t then
    mk_socktab (alter (fun k => k <| sk_tcb := None |> <| sk_err := err |>) (Z.to_nat (tc_sock_idx t))
                  (st_socks s)) (st_ephemeral_next s)
  else s.

Definition detach_tcb (t : tcp_cb) : tcp_cb :=
  if 0 <=? tc_sock_idx t then t <| tc_sock_idx := -1 |> else t.

Lemma detach_wf s g t err : tcp_wf s g → tcp_wf (detach_socks s t err) g.
Proof.
  unfold detach_socks. destruct (0 <=? tc_sock_idx t); [|done].
  intros [H1 H2 H3 [S1 S2 S3] H5]. split; [done..| |].
  - split; cbn; [by rewrite length_alter| |done].
    apply Forall_alter; [done|]. intros k _ []. by split.
  - cbn. apply Forall_alter; [done|]. intros k _ _ i. done.
Qed.

(** What a step that sends nothing leaves alone. *)
Definition silent (w w' : world) : Prop := arpc w' = arpc w ∧ w_wire w' = w_wire w.

Lemma silent_trans w1 w2 w3 : silent w1 w2 → silent w2 w3 → silent w1 w3.
Proof. intros [] []. split; congruence. Qed.

Lemma wp_tcb_detach_sock_silent i t err (Q : () → world → Prop) w :
  net_wf w → tcp_wf (w_socks w) (w_tcp w) → tcbs w !! i = Some t →
  (∀ w', l4_step w w' (detach_socks (w_socks w) t err) (put_tcb (w_tcp w) i (detach_tcb t)) →
     silent w w' → Q () w') →
  wp (tcb_detach_sock i err) Q w.
Proof.
  intros Hn Hw Hi HQ. unfold tcb_detach_sock. wp_step. eapply wp_get_tcb; [done|].
  unfold detach_socks, detach_tcb in HQ. destruct (Z.leb_spec 0 (tc_sock_idx t)) as [Hs|Hs].
  2: { wp_step. apply HQ; [|done]. rewrite put_tcb_id by done. by apply l4_step_refl. }
  pose proof (slot_sock _ (tcp_wf_slot _ _ _ _ Hw Hi)) as Hr.
  destruct (lookup_lt_is_Some_2 (socks w) (Z.to_nat (tc_sock_idx t))) as [k Hk].
  { rewrite (tw_len _ (tp_socktab _ _ Hw)). lia. }
  wp_step. eapply wp_upd_sock; [done|]. set (w1 := set_socks w _).
  eapply (wp_upd_tcb i t); [done|]. apply HQ; [|done]. rewrite (alter_insert _ _ _ _ Hk).
  eapply l4_step_trans; [by apply l4_step_set_socks|].
  apply (l4_step_set_tcp w1). by apply net_wf_set_socks.
Qed.

Lemma wp_tcb_detach_sock i t err (Q : () → world → Prop) w :
  net_wf w → tcp_wf (w_socks w) (w_tcp w) → tcbs w !! i = Some t →
  (∀ w', l4_step w w' (detach_socks (w_socks w) t err) (put_tcb (w_tcp w) i (detach_tcb t)) → Q () w') →
  wp (tcb_detach_sock i err) Q w.
Proof. intros Hn Hw Hi HQ. eapply wp_tcb_detach_sock_silent; eauto. Qed.

Lemma detach_tcb_sock s t err : detach_socks s (detach_tcb t) err = s.
Proof.
  unfold detach_tcb. destruct (0 <=? tc_sock_idx t) eqn:E; unfold detach_socks; [done|by rewrite E].
Qed.

(** Releasing a connection (not a listener) clears its block, detaches its
    socket and sends nothing. *)
Lemma wp_tcb_free_conn_silent d i t (Q : () → world → Prop) w :
  net_wf w → tcp_wf (w_socks w) (w_tcp w) → tcbs w !! i = Some t → tc_state t ≠ TCP_LISTEN →
  (∀ w', l4_step w w' (detach_socks (w_socks w) t 0) (put_tcb (w_tcp w) i zero_tcb) → silent w w' → Q () w') →
  wp (tcb_free_rec (S d) i) Q w.
Proof.
  intros Hn Hw Hi Hs HQ. cbn [tcb_free_rec]. wp_step. eapply wp_get_tcb; [done|].
  rewrite bool_decide_eq_false_2 by done. wp_steps.
  eapply wp_tcb_detach_sock_silent; [done..|]. intros w1 H1 Q1.
  eapply wp_upd_tcb; [rewrite (ls_tcp _ _ _ _ H1); by eapply put_tcb_lookup|]. apply HQ.
  2: { eapply silent_trans; [exact Q1|done]. }
  pose proof (l4_step_set_tcp w1 (put_tcb (w_tcp w1) i zero_tcb) (ls_net _ _ _ _ H1)) as H2.
  rewrite (ls_socks _ _ _ _ H1), (ls_tcp _ _ _ _ H1), put_tcb_put in H2 at 1.
  rewrite (ls_tcp _ _ _ _ H1), put_tcb_put.
  eapply l4_step_trans; [exact H1|]. rewrite (ls_tcp _ _ _ _ H1), put_tcb_put in H2. exact H2.
Qed.

Lemma wp_tcb_free_conn d i t (Q : () → world → Prop) w :
  net_wf w → tcp_wf (w_socks w) (w_tcp w) → tcbs w !! i = Some t → tc_state t ≠ TCP_LISTEN →
  (∀ w', l4_step w w' (detach_socks (w_socks w) t 0) (put_tcb (w_tcp w) i zero_tcb) → Q () w') →
  wp (tcb_free_rec (S d) i) Q w.
Proof. intros Hn Hw Hi Hs HQ. eapply wp_tcb_free_conn_silent; eauto. Qed.

(** A connection reset: the owner sees [err]. *)
Lemma wp_tcp_conn_error i t err (Q : () → world → Prop) w :
  net_wf w → tcp_wf (w_socks w) (w_tcp w) → tcbs w !! i = Some t → slot_wf (detach_tcb t) →
  tc_state t ≠ TCP_LISTEN →
  (∀ w', l4_step w w' (detach_socks (w_socks w) t err) (put_tcb (w_tcp w) i zero_tcb) → Q () w') →
  wp (tcp_conn_error i err) Q w.
Proof.
  intros Hn Hw Hi Hd Hs HQ. unfold tcp_conn_error. wp_step. apply wp_stat_inc. intros w1 E1 _ _.
  pose proof (l4_step_tx _ _ Hn E1) as H1.
  wp_step. eapply (wp_tcb_detach_sock i t).
  { apply H1. } { by rewrite (ls_socks _ _ _ _ H1), (ls_tcp _ _ _ _ H1). } { by rewrite (ls_tcp _ _ _ _ H1). }
  rewrite (ls_socks _ _ _ _ H1), (ls_tcp _ _ _ _ H1). intros w2 H2.
  assert (tcbs w2 !! i = Some (detach_tcb t)) as Hi2.
  { rewrite (ls_tcp _ _ _ _ H2). by eapply put_tcb_lookup. }
  eapply (wp_tcb_free_conn _ i (detach_tcb t)); [apply H2| |done| |].
  { rewrite (ls_socks _ _ _ _ H2), (ls_tcp _ _ _ _ H2). by apply tcp_wf_put, Hd; apply detach_wf. }
  { unfold detach_tcb. by destruct (0 <=? _). }
  intros w3 H3. apply HQ. rewrite (ls_socks _ _ _ _ H2), (ls_tcp _ _ _ _ H2), put_tcb_put, detach_tcb_sock in H3.
  eapply l4_step_trans; [exact H1|]. by eapply l4_step_trans.
Qed.

Lemma detach_tcb_wf t : tcb_wf t → tcb_wf (detach_tcb t).
Proof.
  unfold detach_tcb. destruct (0 <=? tc_sock_idx t); [|done]. intros [? ? ? ? [] ? ? ? ? ? ? ? ? ? ? ?].
  split; try done. all: cbn; wrap_lia.
Qed.

(** ** Steps that only close connections *)

Definition states (w : world) : list tcp_state := tc_state <$> tcbs w.

Definition closes (s s' : tcp_state) : Prop := s' = s ∨ s' = TCP_CLOSED.
#[global] Instance closes_preorder : PreOrder closes.
Proof.
  split; [by left|]. intros x y z [-> | ->]; [done|]. intros [-> | ->]; by right.
Qed.

(** From [w] to [w'] the invariants hold again and every connection is in
    the state it was in, or closed. *)
Record closing_step (w w' : world) : Prop := {
  cs_net : net_wf w';
  cs_frame : erase_l4 w = erase_l4 w';
  cs_wf : tcp_wf (w_socks w') (w_tcp w');
  cs_states : Forall2 closes (states w) (states w');
}.

Lemma closing_refl w : net_wf w → tcp_wf (w_socks w) (w_tcp w) → closing_step w w.
Proof. intros. by split. Qed.

Lemma closing_trans w1 w2 w3 : closing_step w1 w2 → closing_step w2 w3 → closing_step w1 w3.
Proof.
  intros [_ F1 _ S1] [N2 F2 W2 S2]. split; [done|congruence|done|by etrans].
Qed.

Lemma states_put w w' i t s t' :
  tcbs w !! i = Some t → l4_step w w' s (put_tcb (w_tcp w) i t') →
  states w' = <[i:=tc_state t']> (states w).
Proof. intros Hi H. unfold states. rewrite (ls_tcp _ _ _ _ H). cbn. by rewrite list_fmap_insert. Qed.

Lemma closing_put w w' i t s t' :
  l4_step w w' s (put_tcb (w_tcp w) i t') → tcp_wf s (put_tcb (w_tcp w) i t') →
  tcbs w !! i = Some t → tc_state t' = tc_state t ∨ tc_state t' = TCP_CLOSED → closing_step w w'.
Proof.
  intros H Hw Hi Hs. split; [apply H|apply H|by rewrite (ls_socks _ _ _ _ H), (ls_tcp _ _ _ _ H)|].
  rewrite (states_put _ _ _ _ _ _ Hi H). apply Forall2_same_length_lookup_2.
  { by rewrite length_insert. }
  intros j x y Hx Hy. apply list_lookup_insert_Some in Hy as [(-> & <- & _)|[_ Hy]].
  - unfold states in Hx. rewrite list_lookup_fmap, Hi in Hx. injection Hx as <-. done.
  - left. congruence.
Qed.

(** One child of a closing listener [i]: it is reset and released. *)
Lemma wp_free_child d i j t w0 w :
  closing_step w0 w → tcbs w !! i = Some t → (j < TCP_MAX_CONNS)%nat →
  wp (c ← get_tcb j;
      if child_of i j c then tcp_send_ctl j (Z.lor TCP_RST TCP_ACK);; tcb_free_rec (S d) j else mret ())
    (fun _ w' => closing_step w0 w' ∧ tcbs w' !! i = Some t) w.
Proof.
  intros C1 Hi1 Hj. destruct (tcp_wf_lookup _ _ j (cs_wf _ _ C1)) as [c Hc]; [lia|].
  wp_step. eapply wp_get_tcb; [done|]. destruct (child_of i j c) eqn:Hch; [|wp_step; done].
  apply andb_true_iff in Hch as [[Ha Hne%negb_true_iff]%andb_true_iff Hli%bool_decide_eq_true].
  apply bool_decide_eq_false in Hne.
  pose proof (tcp_wf_active _ _ _ _ (cs_wf _ _ C1) Hc Ha) as Hcw.
  destruct (tb_listener _ Hcw _ Hli) as [_ Hcs].
  set (flags := Z.lor TCP_RST TCP_ACK). assert (byte_ok flags) as Hf by by vm_compute. clearbody flags.
  wp_step. eapply wp_tcp_send_ctl; [apply C1|done..|]. intros w2 H2 _.
  set (c2 := tcp_seg_sent flags c) in *.
  assert (tc_state c2 = tc_state c ∧ tc_active c2 = true) as [Es Ea].
  { unfold c2, tcp_seg_sent. by destruct (has_flag _ _). }
  assert (tcp_wf (w_socks w2) (w_tcp w2)) as Hw2.
  { rewrite (ls_socks _ _ _ _ H2), (ls_tcp _ _ _ _ H2). apply tcp_wf_put; [apply C1|].
    apply slot_wf_active; [done|]. by apply tcb_wf_seg_sent. }
  assert (closing_step w0 w2) as C2.
  { eapply closing_trans; [exact C1|]. eapply closing_put; [exact H2| |exact Hc|by left].
    by rewrite (ls_socks _ _ _ _ H2), (ls_tcp _ _ _ _ H2) in Hw2. }
  assert (tcbs w2 !! j = Some c2) as Hc2 by (by eapply tcb_step_lookup).
  assert (tcbs w2 !! i = Some t) as Hi2.
  { rewrite (ls_tcp _ _ _ _ H2). cbn. by rewrite list_lookup_insert_ne. }
  eapply wp_tcb_free_conn; [apply H2|done|done|by rewrite Es|].
  intros w3 H3. split.
  - eapply closing_trans; [exact C2|]. eapply closing_put; [exact H3| |done|by right].
    apply tcp_wf_put, zero_tcb_slot. by apply detach_wf.
  - rewrite (ls_tcp _ _ _ _ H3). cbn. by rewrite list_lookup_insert_ne.
Qed.

(** Releasing any active block, a listener with its children included. *)
Lemma wp_tcb_free i t w :
  net_wf w → tcp_wf (w_socks w) (w_tcp w) → tcbs w !! i = Some t →
  wp (tcb_free i) (fun _ w' => closing_step w w' ∧ tcbs w' !! i = Some zero_tcb) w.
Proof.
  intros Hn Hw Hi. unfold tcb_free.
  destruct (decide (tc_state t = TCP_LISTEN)) as [Hl|Hl].
  2: { eapply wp_tcb_free_conn; [done..|]. intros w1 H1. split.
       - eapply closing_put; [exact H1| |done|by right].
         apply tcp_wf_put, zero_tcb_slot. by apply detach_wf.
       - rewrite (ls_tcp _ _ _ _ H1). by eapply put_tcb_lookup. }
  cbn [tcb_free_rec]. wp_step. eapply wp_get_tcb; [done|]. rewrite bool_decide_eq_true_2 by done.
  wp_step. eapply wp_mono.
  { apply (wp_for_each (fun w1 => closing_step w w1 ∧ tcbs w1 !! i = Some t)).
    { split; [by apply closing_refl|done]. }
    intros j w1 Hj [C1 Hi1]. apply list_elem_of_In, in_seq in Hj.
    change TCP_MAX_CONNS with (S 15). apply wp_free_child; [done|done|lia]. }
  intros _ w1 [C1 Hi1]. wp_step. eapply wp_tcb_detach_sock; [apply C1|apply C1|done|]. intros w2 H2.
  assert (tcbs w2 !! i = Some (detach_tcb t)) as Hi2.
  { rewrite (ls_tcp _ _ _ _ H2). by eapply put_tcb_lookup. }
  eapply wp_upd_tcb; [exact Hi2|]. set (w3 := set_tcp w2 _).
  assert (l4_step w1 w3 (detach_socks (w_socks w1) t 0) (put_tcb (w_tcp w1) i zero_tcb)) as H3.
  { eapply l4_step_trans; [exact H2|]. pose proof (l4_step_set_tcp w2 (put_tcb (w_tcp w2) i zero_tcb)
      (ls_net _ _ _ _ H2)) as H. fold w3 in H. clearbody w3.
    by rewrite (ls_tcp _ _ _ _ H2), (ls_socks _ _ _ _ H2), put_tcb_put in H. }
  split; [|rewrite (ls_tcp _ _ _ _ H3); by eapply put_tcb_lookup].
  eapply closing_trans; [exact C1|]. eapply closing_put; [exact H3| |done|by right].
  apply tcp_wf_put, zero_tcb_slot. apply detach_wf, C1.
Qed.

(** ** Payload *)

Lemma tcp_rcv_window_eq t : rcv_wf t → tcp_rcv_window t = TCP_RCVBUF - tc_rcv_len t.
Proof. intros H. pose proof (rv_len _ H). unfold tcp_rcv_window. rewrite u32_small, u16_small; wrap_lia. Qed.

(** What is left after the trims lies in the receive window and agrees with
    whatever stream the segment agreed with. *)
Lemma rx_trim_spec seq data t seq' data' :
  rcv_wf t → u32_ok seq → bytes_ok data → zlen data < 65536 →
  rx_trim seq data t = inr (seq', data') →
  u32_ok seq' ∧ bytes_ok data' ∧ zlen data' ≤ zlen data ∧
  (data' ≠ [] → u32 (seq' - tc_rcv_nxt t) + zlen data' ≤ tcp_rcv_window t) ∧
  ∀ f, agrees f seq data → agrees f seq' data'.
Proof.
  intros Hwf Hs Hd Hl. pose proof (tcp_rcv_window_eq t Hwf) as Hw. pose proof (rv_len _ Hwf).
  pose proof (rv_nxt _ Hwf) as Hn. unfold rx_trim. set (W := tcp_rcv_window t) in *.
  assert (∀ s d, u32_ok s → bytes_ok d → zlen d ≤ zlen data → u32 (s - tc_rcv_nxt t) < 2 ^ 31 →
    (∀ f, agrees f seq data → agrees f s d) →
    (let wnd_end := u32 (tc_rcv_nxt t + W) in
     if seq_ge s wnd_end then inr (s, [])
     else if seq_gt (u32 (s + zlen d)) wnd_end
     then inr (s, take (Z.to_nat (u32 (wnd_end - s))) d)
     else inr (s, d)) = (inr (seq', data') : () + Z * bytes) →
    u32_ok seq' ∧ bytes_ok data' ∧ zlen data' ≤ zlen data ∧
    (data' ≠ [] → u32 (seq' - tc_rcv_nxt t) + zlen data' ≤ W) ∧
    ∀ f, agrees f seq data → agrees f seq' data') as Hwin.
  { intros s d Hs' Hd' Hl' Hpos Hag. cbv zeta. unfold TCP_RCVBUF in *.
    destruct (seq_ge s _) eqn:Hge; [|destruct (seq_gt _ _) eqn:Hgt]; intros E; injection E as <- <-.
    - split_and!; [apply Hs'|apply Hs'|apply Forall_nil_2|cbn; lia|done|]. intros f _ k b Hk. done.
    - apply not_true_iff_false in Hge. rewrite seq_ge_iff in Hge. rewrite seq_gt_iff in Hgt.
      split_and!; [apply Hs'|apply Hs'|by apply Forall_take|rewrite length_take; lia| |].
      + intros _. rewrite length_take. wrap_lia.
      + intros f Hf. by apply agrees_take, Hag.
    - apply not_true_iff_false in Hge. rewrite seq_ge_iff in Hge.
      apply not_true_iff_false in Hgt. rewrite seq_gt_iff in Hgt.
      split_and!; [apply Hs'|apply Hs'|done|lia| |done]. intros _. wrap_lia. }
  destruct (seq_lt seq (tc_rcv_nxt t)) eqn:Hlt.
  - apply seq_lt_iff in Hlt. destruct (Z.leb_spec (zlen data) (u32 (tc_rcv_nxt t - seq))); [done|].
    apply Hwin; [done|by apply Forall_drop|rewrite length_drop; lia|by rewrite Z.sub_diag|].
    intros f Hf. eapply agrees_u32; [|by apply agrees_drop]. wrap_lia.
  - apply not_true_iff_false in Hlt. rewrite seq_lt_iff in Hlt. apply Hwin; try done. wrap_lia.
Qed.

(** The part of a segment that continues what is readable, as far as the
    window reaches. *)
Definition rx_taken (seq : Z) (data : bytes) (t : tcp_cb) : bytes :=
  let k := u32 (tc_rcv_nxt t - seq) in
  if k <? zlen data then take (Z.to_nat (tcp_rcv_window t)) (drop (Z.to_nat k) data) else [].

(** [d] became readable, and if nothing was parked then nothing else did. *)
Definition rx_extends (d : bytes) (t t' : tcp_cb) : Prop :=
  rcv_data t ++ d `prefix_of` rcv_data t' ∧
  (d ≠ [] → tc_ooo t = [] → rcv_data t' = rcv_data t ++ d ∧ tc_ooo t' = []).

Lemma take_window {A} (l : list A) (W : Z) : 0 ≤ W → take (Z.to_nat (Z.min (zlen l) W)) l = take (Z.to_nat W) l.
Proof.
  intros HW. destruct (Z.le_ge_cases (zlen l) W); [|by rewrite Z.min_r].
  rewrite Z.min_l by done. rewrite !take_ge by lia. done.
Qed.

(** The trims leave exactly that part, if there is one. *)
Lemma rx_trim_taken seq data t :
  rcv_wf t → u32_ok seq → zlen data < 65536 → rx_taken seq data t ≠ [] →
  rx_trim seq data t = inr (tc_rcv_nxt t, rx_taken seq data t).
Proof.
  intros Hwf Hs Hl. pose proof (tcp_rcv_window_eq t Hwf) as Hw. pose proof (rv_len _ Hwf).
  pose proof (rv_nxt _ Hwf) as Hn. unfold rx_taken, rx_trim. unfold TCP_RCVBUF in *.
  set (W := tcp_rcv_window t) in *. set (k := u32 (tc_rcv_nxt t - seq)).
  destruct (Z.ltb_spec k (zlen data)) as [Hk|]; [|done]. intros Hne.
  assert (0 < W) as HW. { destruct (Z.leb_spec W 0); [|done]. destruct Hne. by rewrite Z2Nat.nonpos. }
  assert (∀ d, (if seq_ge (tc_rcv_nxt t) (u32 (tc_rcv_nxt t + W)) then inr (tc_rcv_nxt t, [])
    else if seq_gt (u32 (tc_rcv_nxt t + zlen d)) (u32 (tc_rcv_nxt t + W))
    then inr (tc_rcv_nxt t, take (Z.to_nat (u32 (u32 (tc_rcv_nxt t + W) - tc_rcv_nxt t))) d)
    else inr (tc_rcv_nxt t, d)) = (inr (tc_rcv_nxt t, take (Z.to_nat W) d) : () + Z * bytes) ∨ 65536 ≤ zlen d) as Hwin.
  { intros d. destruct (Z.leb_spec 65536 (zlen d)); [by right|left].
    destruct (seq_ge _ _) eqn:Hge; [apply seq_ge_iff in Hge; wrap_lia|].
    replace (u32 (u32 (tc_rcv_nxt t + W) - tc_rcv_nxt t)) with W by wrap_lia.
    destruct (seq_gt _ _) eqn:Hgt; [done|]. apply not_true_iff_false in Hgt. rewrite seq_gt_iff in Hgt.
    rewrite take_ge; [done|wrap_lia]. }
  destruct (seq_lt seq (tc_rcv_nxt t)) eqn:Hlt; fold k.
  - destruct (Z.leb_spec (zlen data) k); [lia|]. destruct (Hwin (drop (Z.to_nat k) data)) as [->|Hx]; [done|].
    rewrite length_drop in Hx. lia.
  - apply not_true_iff_false in Hlt. rewrite seq_lt_iff in Hlt.
    assert (k = 0 ∧ seq = tc_rcv_nxt t) as [Hk0 ->] by (unfold k in *; wrap_lia). rewrite Hk0, drop_0. by destruct (Hwin data) as [->|Hx]; [|lia].
Qed.

(** Everything of a connection but its receive state and what sending may
    change. *)
Definition rx_erase (t : tcp_cb) : tcp_cb := set_rcv [] 0 0 [] (out_erase t).

Lemma rx_erase_out t t' : out_erase t' = out_erase t → rx_erase t' = rx_erase t.
Proof. unfold rx_erase. by intros ->. Qed.

Lemma rx_erase_rcv t t' : rcv_only t t' → rx_erase t' = rx_erase t.
Proof. intros (b & l & n & o & ->). by destruct t. Qed.

Lemma tcb_wf_rcv t t' :
  rcv_only t t' → rcv_wf t' → zlen (tc_ooo t') ≤ TCP_OOO_MAX → tcb_wf t → tcb_wf t'.
Proof. intros (b & l & n & o & ->) Hr Ho [? ? ? ? _ _ ? ? ? ? ? ? ? ? ? ?]. by split. Qed.

(** What received data may do to a connection: the readable bytes grow at the
    end by as much as [rcv_nxt] advances, and a stream that the segment
    [data] at [seq] and everything held agreed with is still agreed with. *)
Record rx_post (seq : Z) (data : bytes) (t t' : tcp_cb) : Prop := {
  rp_wf : tcb_wf t';
  rp_rest : rx_erase t' = rx_erase t;
  rp_prefix : rcv_data t `prefix_of` rcv_data t';
  rp_advance : tc_rcv_nxt t' = u32 (tc_rcv_nxt t + (zlen (rcv_data t') - zlen (rcv_data t)));
  rp_agrees : ∀ f, agrees f seq data → rcv_agrees f t → rcv_agrees f t';
}.

Lemma rx_post_refl seq data t : tcb_wf t → rx_post seq data t t.
Proof. intros H. pose proof (rv_nxt _ (tb_rcv _ H)). split; try done. wrap_lia. Qed.

(** The receive state survives sending. *)
Lemma rcv_out t t' :
  out_erase t' = out_erase t →
  rcv_data t' = rcv_data t ∧ tc_rcv_nxt t' = tc_rcv_nxt t ∧ tc_rcv_len t' = tc_rcv_len t ∧ tc_ooo t' = tc_ooo t.
Proof.
  intros E. split_and!; [exact (out_field E rcv_data)|exact (out_field E tc_rcv_nxt)|
    exact (out_field E tc_rcv_len)|exact (out_field E tc_ooo)].
Qed.

Lemma rx_post_out seq data t t1 t' :
  rx_post seq data t t1 → out_erase t' = out_erase t1 → snd_ok t' → rx_post seq data t t'.
Proof.
  intros [H1 H2 H3 H4 H5] E Hs. destruct (rcv_out _ _ E) as (Ed & En & El & Eo).
  split; [by eapply tcb_wf_out| | | |].
  - by rewrite (rx_erase_out _ _ E).
  - by rewrite Ed.
  - by rewrite En, Ed.
  - intros f Hf Ht. unfold rcv_agrees. rewrite Ed, En, El, Eo. by apply H5.
Qed.

Lemma rx_post_seg_sent seq data t t1 flags :
  rx_post seq data t t1 → rx_post seq data t (tcp_seg_sent flags t1).
Proof.
  intros H. eapply rx_post_out; [exact H|apply out_erase_seg_sent|].
  eapply snd_ok_fields; [apply snd_fields_seg_sent|apply H].
Qed.

(** In-order data. *)
Lemma wp_rx_in_order i t seq data (Q : () → world → Prop) w :
  net_wf w → tcbs w !! i = Some t → tcb_wf t → bytes_ok data → seq = tc_rcv_nxt t →
  (∀ w' t', tcb_step i w w' t' → rx_post seq data t t' →
     rx_extends (take (Z.to_nat (tcp_rcv_window t)) data) t t' → Q () w') →
  wp (rx_in_order i data) Q w.
Proof.
  intros Hn Hi Hwf Hd -> HQ. unfold rx_in_order. wp_step. eapply wp_get_tcb; [done|].
  pose proof (tb_rcv _ Hwf) as Hr. pose proof (rv_len _ Hr). pose proof (tb_ooo _ Hwf) as Hoo.
  destruct (rcv_ring_put_ok t data Hr Hd) as (t1 & Hput & Hnx & Honly & Hr2 & Hooo & Hlen & Hdat).
  set (n := Z.min _ _) in *. wp_step. eapply wp_lift; [exact Hput|]. cbv beta iota. rewrite Hnx.
  set (t2 := t1 <| tc_rcv_nxt := _ |>) in *. wp_step. eapply wp_upd_tcb; [done|].
  set (w2 := set_tcp _ _). assert (tcb_step i w w2 t2) as H2 by by apply tcb_step_set.
  wp_step. apply wp_stat_add. intros w3 E3 _.
  pose proof (tcb_step_lookup i w w2 t t2 Hi H2) as Hi2.
  pose proof (tcb_step_same i w2 w3 t2 Hi2 ltac:(eapply net_wf_tx; [apply H2|done]) E3) as H3.
  pose proof (tcb_step_lookup i w2 w3 t2 t2 Hi2 H3) as Hi3.
  unfold tcp_ooo_drain. wp_step. eapply wp_get_tcb; [done|].
  destruct (ooo_drain_ok t2 Hr2) as (t4 & m & Hdr & [Ho4 Hr4 Hm Hn4 Hl4 Hp4 Hoo4 Hag4]).
  wp_step. eapply wp_lift; [exact Hdr|]. cbv beta iota. wp_step. eapply wp_upd_tcb; [done|].
  set (w4 := set_tcp _ _). apply wp_stat_add. intros w5 E5 _.
  assert (tcb_step i w w4 t4) as H4.
  { eapply tcb_step_trans; [exact H2|]. eapply tcb_step_trans; [exact H3|]. apply tcb_step_set, H3. }
  assert (zlen (take (Z.to_nat n) data) = n) as Htl by (rewrite length_take; lia).
  eapply HQ.
  { eapply tcb_step_trans; [exact H4|]. apply tcb_step_same; [|eapply net_wf_tx; [apply H4|done]|done].
    exact (tcb_step_lookup i w w4 t t4 Hi H4). }
  2: { unfold rx_extends. rewrite <- take_window by (rewrite tcp_rcv_window_eq by done; lia).
       rewrite tcp_rcv_window_eq by done. fold n. rewrite <- Hdat. split; [done|]. intros _ Hno.
       rewrite Hno in Hooo. rewrite Hooo in Hdr. by injection Hdr as <- _. }
  split.
  - eapply tcb_wf_rcv; [eapply rcv_only_trans; [exact Honly|exact Ho4]|done|rewrite Hooo in Hoo4; lia|done].
  - by rewrite (rx_erase_rcv _ _ Ho4), (rx_erase_rcv _ _ Honly).
  - etrans; [|exact Hp4]. rewrite Hdat. by apply prefix_app_r.
  - rewrite Hn4, !length_rcv_data by done. rewrite Hl4, Hlen. cbn [t2].
    change (tc_rcv_nxt t2) with (u32 (tc_rcv_nxt t + n)). wrap_lia.
  - intros f Hf Ht. apply Hag4. split; [|rewrite Hooo; apply Ht].
    eapply (rcv_agrees_append f t); [done|done|by apply agrees_take|..|exact Hdat].
    + rewrite Htl. done.
    + rewrite Htl. exact Hlen.
Qed.

Lemma rx_post_delack seq data t t' f :
  rx_post seq data t t' →
  (∀ t, out_erase (f t) = out_erase t ∧ snd_fields (f t) = snd_fields t) → rx_post seq data t (f t').
Proof.
  intros H Hf. destruct (Hf t') as [E Es]. eapply rx_post_out; [exact H|exact E|].
  eapply snd_ok_fields; [exact Es|apply H].
Qed.

Lemma wp_rx_delack i t0 seq data t now (Q : () → world → Prop) w :
  net_wf w → tcbs w !! i = Some t → rx_post seq data t0 t →
  (∀ w' t', tcb_step i w w' t' → rx_post seq data t0 t' → rcv_data t' = rcv_data t → tc_ooo t' = tc_ooo t → Q () w') →
  wp (rx_delack i now) Q w.
Proof.
  intros Hn Hi Hp HQ. unfold rx_delack. wp_step. eapply wp_upd_tcb; [done|].
  set (t1 := t <| tc_delack_pending ::= _ |>). set (w1 := set_tcp _ _).
  assert (tcb_step i w w1 t1) as H1 by by apply tcb_step_set.
  pose proof (tcb_step_lookup i w w1 t t1 Hi H1) as Hi1.
  assert (rx_post seq data t0 t1) as Hp1 by (apply (rx_post_delack _ _ _ t); [done|]; by intros []).
  wp_step. eapply wp_get_tcb; [done|]. destruct (2 <=? _).
  - eapply wp_tcp_send_ctl; [apply H1|done|apply Hp1|by vm_compute|]. intros w2 H2 _.
    destruct (rcv_out t1 _ (out_erase_seg_sent TCP_ACK t1)) as (Ed & _ & _ & Eo).
    eapply HQ; [by eapply tcb_step_trans|by apply rx_post_seg_sent|exact Ed|exact Eo].
  - destruct (_ =? 0); [|wp_step; by eapply HQ]. eapply wp_upd_tcb; [done|]. eapply HQ.
    + eapply tcb_step_trans; [exact H1|]. apply tcb_step_set, H1.
    + apply (rx_post_delack _ _ _ t1); [done|]. by intros [].
    + done.
    + done.
Qed.

Lemma wp_tcp_ooo_insert i t seq data (Q : () → world → Prop) w :
  net_wf w → tcbs w !! i = Some t → tcb_wf t → bytes_ok data → u32_ok seq →
  zlen data ≤ PKT_BUF_SIZE - PKT_RX_OFFSET →
  (∀ w' t', tcb_step i w w' t' → rx_post seq data t t' → Q () w') →
  wp (tcp_ooo_insert i seq data) Q w.
Proof.
  intros Hn Hi Hwf Hd Hs Hl HQ. unfold tcp_ooo_insert. wp_step. eapply wp_get_tcb; [done|].
  pose proof (tb_rcv _ Hwf) as Hr.
  destruct (ooo_insert_ok seq data t Hr Hd Hl Hs) as (r & Hins & Hpost).
  wp_step. eapply wp_lift; [exact Hins|]. destruct r as [l|].
  2: { apply wp_stat_inc. intros w1 E1 _ _.
       eapply HQ; [apply tcb_step_same; [done|by eapply net_wf_tx|done]|by apply rx_post_refl]. }
  destruct Hpost as (Hlt & _ & q & -> & Hq & Eq & El & Eb).
  wp_step. eapply wp_upd_tcb; [done|]. set (t1 := t <| tc_ooo := _ |>). set (w1 := set_tcp _ _).
  assert (tcb_step i w w1 t1) as H1 by by apply tcb_step_set.
  apply wp_stat_inc. intros w2 E2 _ _.
  pose proof (ooo_place_perm q (tc_ooo t)) as Hperm.
  assert (rcv_only t t1) as Honly.
  { exists (tc_rcvbuf t), (tc_rcv_len t), (tc_rcv_nxt t), (ooo_place q (tc_ooo t)).
    unfold t1. clear. by destruct t. }
  eapply HQ.
  { eapply tcb_step_trans; [exact H1|]. apply tcb_step_same; [|eapply net_wf_tx; [apply H1|done]|done].
    exact (tcb_step_lookup i w w1 t t1 Hi H1). }
  split.
  - eapply tcb_wf_rcv; [exact Honly| | |done].
    + destruct Hr as [? ? ? ? ? Ho]. split; try done. change (tc_ooo t1) with (ooo_place q (tc_ooo t)).
      rewrite Hperm. apply Forall_cons_2; [|done]. by rewrite Eq.
    + change (tc_ooo t1) with (ooo_place q (tc_ooo t)). rewrite Hperm. cbn [length]. lia.
  - by apply rx_erase_rcv.
  - done.
  - change (rcv_data t1) with (rcv_data t). change (tc_rcv_nxt t1) with (tc_rcv_nxt t).
    pose proof (rv_nxt _ Hr). wrap_lia.
  - intros f Hf [Ha1 Ha2]. split; [done|]. change (tc_ooo t1) with (ooo_place q (tc_ooo t)).
    rewrite Hperm. apply Forall_cons_2; [|done]. by rewrite Eq, Eb.
Qed.

Lemma wp_tcp_rx_payload i t seq data now (Q : () → world → Prop) w :
  net_wf w → tcbs w !! i = Some t → tcb_wf t → bytes_ok data → u32_ok seq →
  zlen data ≤ PKT_BUF_SIZE - PKT_RX_OFFSET →
  (∀ w' t', tcb_step i w w' t' → rx_post seq data t t' →
     rx_extends (rx_taken seq data t) t t' → Q () w') →
  wp (tcp_rx_payload i seq data now) Q w.
Proof.
  intros Hn Hi Hwf Hd Hs Hl HQ. unfold tcp_rx_payload. wp_step. eapply wp_get_tcb; [done|].
  pose proof (rx_trim_taken seq data t (tb_rcv _ Hwf) Hs ltac:(wrap_lia)) as Htk.
  assert (∀ w' t', (rx_taken seq data t ≠ [] → False) → tcb_step i w w' t' → rx_post seq data t t' → Q () w') as HN.
  { intros w' t' E H P. apply HQ with t'; [done|done|]. destruct (rx_taken seq data t); [|by destruct E].
    split; [rewrite app_nil_r; apply P|done]. }
  destruct (rx_trim seq data t) as [|[seq' data']] eqn:Ht.
  { eapply wp_tcp_send_ctl; [done..|by vm_compute|]. intros w1 H1 _. eapply HN; [by intros H%Htk|done|].
    by apply rx_post_seg_sent, rx_post_refl. }
  destruct (rx_trim_spec _ _ _ _ _ (tb_rcv _ Hwf) Hs Hd ltac:(wrap_lia) Ht) as (Hs' & Hd' & Hl' & Hin & Hag).
  assert (∀ t', rx_post seq' data' t t' → rx_post seq data t t') as Hw.
  { intros t' [H1 H2 H3 H4 H5]. split; try done. intros f Hf. by apply H5, Hag. }
  destruct (Z.eqb_spec (zlen data') 0) as [Hz|Hz].
  { wp_step. eapply HN; [|by apply tcb_step_same|by apply rx_post_refl]. intros H. specialize (Htk H).
    injection Htk as _ E. destruct H. rewrite <- E. by destruct data'. }
  destruct (Z.eqb_spec seq' (tc_rcv_nxt t)) as [E|Hne]; wp_step.
  - eapply wp_rx_in_order; [done..|]. intros w1 t1 H1 P1 T1.
    eapply (wp_rx_delack i t); [apply H1|exact (tcb_step_lookup i w w1 t t1 Hi H1)|exact P1|].
    intros w2 t2 H2 P2 D2 O2. eapply HQ; [by eapply tcb_step_trans|by apply Hw|]. unfold rx_extends. rewrite D2, O2.
    destruct (decide (rx_taken seq data t = [])) as [->|Ht0]; [split; [rewrite app_nil_r; apply P1|done]|].
    specialize (Htk Ht0). injection Htk as _ <-. rewrite take_ge in T1; [exact T1|].
    specialize (Hin ltac:(by intros ->)). wrap_lia.
  - eapply wp_tcp_ooo_insert; [done..|lia|]. intros w1 t1 H1 P1.
    eapply wp_tcp_send_ctl; [apply H1|exact (tcb_step_lookup i w w1 t t1 Hi H1)|apply P1|by vm_compute|].
    intros w2 H2 _. eapply HN; [|by eapply tcb_step_trans|by apply Hw, rx_post_seg_sent].
    intros H. specialize (Htk H). by injection Htk as E _.
Qed.
