(* ===== verification/TcpInput.v ===== *)
(** * TCP segment input

    Models [tcp_input] of [tcp/tcp.c], whose stages (the RFC 9293 SEGMENT
    ARRIVES steps) are one definition each; a stage that ends in [goto out]
    returns [false]. Shows that every received segment is processed safely,
    preserves the connection invariant, and moves at most one connection,
    along an edge of the TCP state diagram. *)

From S2P Require Import Prelude Pf Checksum Pkt Fib Headers Stats Stack Link Arp IpOut Icmp Reass Sock.
From S2P Require Import Tcb TcpOut Tcp.
Import Checksum Pkt Fib Stats.

(** ** Segment input *)

(** The received segment as the stages read it: its TCP bytes, the header,
    and the fields in host order. *)
Record segment := mk_seg {
  sg_ih : ipv4_hdr; sg_th : tcp_hdr; sg_bytes : bytes;
  sg_seq : Z; sg_ack : Z; sg_wnd : Z; sg_flags : Z; sg_payload : bytes;
}.

Definition sg_paylen (s : segment) : Z := zlen (sg_payload s).
Definition sg_seqlen (s : segment) : Z :=
  sg_paylen s + (if has_flag (sg_flags s) TCP_SYN then 1 else 0)
              + (if has_flag (sg_flags s) TCP_FIN then 1 else 0).
Abbreviation flag_set s f := (has_flag (sg_flags s) f).

(** The embryonic connection a SYN creates under listener [l]. *)
Definition tcp_child (l : nat) (lip lport rip iss : Z) (s : segment) (c : tcp_cb) : tcp_cb :=
  c <| tc_local_ip := lip |> <| tc_local_port := lport |>
    <| tc_remote_ip := rip |> <| tc_remote_port := pf_ntohs (th_sport (sg_th s)) |>
    <| tc_irs := sg_seq s |> <| tc_rcv_nxt := u32 (sg_seq s + 1) |> <| tc_iss := iss |>
    <| tc_snd_una := iss |> <| tc_snd_nxt := u32 (iss + 1) |> <| tc_snd_wnd := sg_wnd s |>
    <| tc_snd_wl1 := sg_seq s |> <| tc_snd_wl2 := iss |> <| tc_listener := Some l |>.

Definition tcp_input_listen (l : nat) (s : segment) : PF () :=
  if flag_set s TCP_RST then mret ()
  else if flag_set s TCP_ACK then tcp_send_reset_for (sg_ih s) (sg_th s) (sg_paylen s)
  else if negb (flag_set s TCP_SYN) then mret ()
  else
    t ← get_tcb l;
    if tc_backlog t <=? zlen (tc_acceptq t) then stat_inc tcp_accept_drops
    else
      r ← tcb_alloc;
      match r with
      | None => stat_inc tcp_accept_drops
      | Some c =>
          stat_inc tcp_passive_opens;;
          iss ← tcp_gen_iss;
          let lip := pf_ntohl (ih_daddr (sg_ih s)) in
          let rip := pf_ntohl (ih_saddr (sg_ih s)) in
          upd_tcb c (tcp_child l lip (tc_local_port t) rip iss s);;
          mss ← tcp_parse_mss (sg_bytes s) (sg_th s);
          upd_tcb c (fun c => tcp_apply_mss mss c <| tc_state := TCP_SYN_RCVD |>);;
          tcp_send_ctl c (Z.lor TCP_SYN TCP_ACK);;
          now ← pf_now_ms;
          upd_tcb c (tcp_arm_rto now)
      end.

(** The state a completed handshake leaves. *)
Definition tcp_established (s : segment) (t : tcp_cb) : tcp_cb :=
  tcp_cwnd_init (t <| tc_state := TCP_ESTABLISHED |> <| tc_snd_wnd := sg_wnd s |>
    <| tc_snd_wl1 := sg_seq s |> <| tc_snd_wl2 := sg_ack s |>)
    <| tc_rto_deadline := 0 |> <| tc_rtx_count := 0 |>.

(** The SYN of the peer arrives in SYN-SENT. *)
Definition tcp_input_syn_open (i : nat) (s : segment) : PF () :=
  upd_tcb i (fun t => t <| tc_irs := sg_seq s |> <| tc_rcv_nxt := u32 (sg_seq s + 1) |>);;
  mss ← tcp_parse_mss (sg_bytes s) (sg_th s);
  upd_tcb i (fun t =>
    let t := tcp_apply_mss mss t in
    if flag_set s TCP_ACK then t <| tc_snd_una := sg_ack s |> else t);;
  t ← get_tcb i;
  if seq_gt (tc_snd_una t) (tc_iss t) then
    stat_inc tcp_conns_established;;
    upd_tcb i (tcp_established s);;
    tcp_send_ctl i TCP_ACK
  else
    upd_tcb i (set_field tc_state (fun _ => TCP_SYN_RCVD));;
    tcp_send_ctl i (Z.lor TCP_SYN TCP_ACK);;
    now ← pf_now_ms;
    upd_tcb i (tcp_arm_rto now).

Definition tcp_input_syn_sent (i : nat) (s : segment) : PF () :=
  t ← get_tcb i;
  if flag_set s TCP_ACK && (seq_le (sg_ack s) (tc_iss t) || seq_gt (sg_ack s) (tc_snd_nxt t)) then
    if flag_set s TCP_RST then mret () else tcp_send_reset_for (sg_ih s) (sg_th s) (sg_paylen s)
  else if flag_set s TCP_RST then
    stat_inc tcp_rst_rx;;
    if flag_set s TCP_ACK then tcp_conn_error i PF_ECONNREFUSED else mret ()
  else if flag_set s TCP_SYN then tcp_input_syn_open i s
  else mret ().

(** First: sequence-number acceptability. *)
Definition tcp_acceptable (t : tcp_cb) (s : segment) : bool :=
  let rcvw := tcp_rcv_window t in
  let seq := sg_seq s in
  let in_win x := seq_ge x (tc_rcv_nxt t) && seq_lt x (u32 (tc_rcv_nxt t + rcvw)) in
  if sg_seqlen s =? 0 then if rcvw =? 0 then seq =? tc_rcv_nxt t else in_win seq
  else (0 <? rcvw) && (in_win seq || in_win (u32 (seq + sg_seqlen s - 1))).

(** Second: RST. *)
Definition tcp_input_rst (i : nat) (s : segment) : PF () :=
  stat_inc tcp_rst_rx;;
  t ← get_tcb i;
  if sg_seq s =? tc_rcv_nxt t then
    if (bool_decide (tc_state t = TCP_SYN_RCVD) && bool_decide (is_Some (tc_listener t)))
       || bool_decide (tc_state t ∈ [TCP_CLOSING; TCP_LAST_ACK; TCP_TIME_WAIT])
    then tcb_free i
    else tcp_conn_error i PF_ECONNRESET
  else
    stat_inc tcp_challenge_acks_tx;;
    tcp_send_ctl i TCP_ACK.

(** Handing a connection to its listener's accept queue. *)
Definition tcp_accept_push (l i : nat) : PF () :=
  lt ← get_tcb l;
  lift (if zlen (tc_acceptq lt) <? TCP_ACCEPT_QLEN then Ok () else Err OutOfBounds);;
  upd_tcb l (set_field tc_acceptq (fun q => q ++ [i])).

(** Fifth, in SYN-RCVD. *)
Definition tcp_input_syn_rcvd (i : nat) (s : segment) : PF bool :=
  t ← get_tcb i;
  if seq_lt (tc_snd_una t) (sg_ack s) && seq_le (sg_ack s) (tc_snd_nxt t) then
    stat_inc tcp_conns_established;;
    upd_tcb i (fun t => tcp_established s (t <| tc_snd_una := sg_ack s |>));;
    match tc_listener t with
    | None => mret true
    | Some l =>
        lt ← get_tcb l;
        if zlen (tc_acceptq lt) <? tc_backlog lt then tcp_accept_push l i;; mret true
        else stat_inc tcp_accept_drops;; tcp_app_abort i;; mret false
    end
  else
    tcp_send_reset_for (sg_ih s) (sg_th s) (sg_paylen s);;
    mret false.

(** The send state after [s] acknowledged new data; [cwnd] is the new
    congestion window. *)
Definition tcp_acked (now : Z) (s : segment) (dbytes cwnd : Z) (t : tcp_cb) : tcp_cb :=
  let t := t <| tc_snd_head := u32 (tc_snd_head t + dbytes) mod TCP_SNDBUF |>
             <| tc_snd_len := u32 (tc_snd_len t - dbytes) |> <| tc_snd_una := sg_ack s |> in
  let t := if tc_rtt_timing t && seq_ge (sg_ack s) (tc_rtt_seq t)
           then tcp_rtt_sample (u32 (now - tc_rtt_start_ms t)) t <| tc_rtt_timing := false |>
           else t in
  let t := t <| tc_rtx_count := 0 |> <| tc_cwnd := cwnd |> <| tc_dupacks := 0 |> in
  t <| tc_rto_deadline := if tc_snd_una t =? tc_snd_nxt t then 0 else u64 (now + tc_rto_ms t) |>.

(** The state change once our FIN is acknowledged, then more output. *)
Definition tcp_after_ack (i : nat) (fin_acked : bool) (now : Z) : PF bool :=
  t ← get_tcb i;
  let finish := tcp_output i;; mret true in
  if fin_acked then
    match tc_state t with
    | TCP_FIN_WAIT_1 => upd_tcb i (set_field tc_state (fun _ => TCP_FIN_WAIT_2));; finish
    | TCP_CLOSING => upd_tcb i (tcp_enter_timewait now);; finish
    | TCP_LAST_ACK => tcb_free i;; mret false
    | _ => finish
    end
  else finish.

(** New data acknowledged. *)
Definition tcp_new_ack (i : nat) (s : segment) (now : Z) : PF bool :=
  t ← get_tcb i;
  let acked := u32 (sg_ack s - tc_snd_una t) in
  let fin_acked := tc_fin_sent t && (sg_ack s =? tc_snd_nxt t) in
  let dbytes := u32 (acked - if fin_acked then 1 else 0) in
  cwnd ← lift (cwnd_on_ack dbytes t);
  when (tc_rtt_timing t && seq_ge (sg_ack s) (tc_rtt_seq t)) (stat_inc tcp_rtt_samples);;
  upd_tcb i (tcp_acked now s dbytes cwnd);;
  tcp_after_ack i fin_acked now.

(** Whether [s] is a duplicate ACK (RFC 5681). *)
Definition tcp_is_dupack (t : tcp_cb) (s : segment) : bool :=
  (sg_ack s =? tc_snd_una t) && (sg_paylen s =? 0) && (sg_seqlen s =? 0)
  && (sg_wnd s =? tc_snd_wnd t) && seq_lt (tc_snd_una t) (tc_snd_nxt t).

Definition tcp_dupack (i : nat) : PF () :=
  stat_inc tcp_dupacks_rx;;
  upd_tcb i (set_field tc_dupacks (fun n => u32 (n + 1)));;
  t ← get_tcb i;
  if tc_dupacks t =? 3 then
    let in_flight := u32 (tc_snd_nxt t - tc_snd_una t) in
    upd_tcb i (set_field tc_ssthresh (fun _ => Z.max (in_flight / 2) (2 * tc_mss t)));;
    tcp_retransmit i;;
    stat_inc tcp_fast_rtx;;
    upd_tcb i (fun t => t <| tc_cwnd := u32 (tc_ssthresh t + 3 * tc_mss t) |>)
  else if 3 <? tc_dupacks t then
    upd_tcb i (fun t => t <| tc_cwnd := u32 (tc_cwnd t + tc_mss t) |>);;
    tcp_output i
  else mret ().

(** The ACK field of an acceptable segment, from ESTABLISHED on. *)
Definition tcp_input_ack (i : nat) (s : segment) (now : Z) : PF bool :=
  t ← get_tcb i;
  if seq_gt (sg_ack s) (tc_snd_nxt t) then
    stat_inc tcp_rx_bad_ack;;
    tcp_send_ctl i TCP_ACK;;
    mret false
  else if seq_gt (sg_ack s) (tc_snd_una t) then tcp_new_ack i s now
  else if tcp_is_dupack t s then tcp_dupack i;; mret true
  else mret true.

Definition tcp_input_wnd (i : nat) (s : segment) : PF () :=
  t ← get_tcb i;
  if seq_le (tc_snd_una t) (sg_ack s) && seq_le (sg_ack s) (tc_snd_nxt t)
     && (seq_lt (tc_snd_wl1 t) (sg_seq s)
         || ((tc_snd_wl1 t =? sg_seq s) && seq_le (tc_snd_wl2 t) (sg_ack s)))
  then
    upd_tcb i (fun t => t <| tc_snd_wnd := sg_wnd s |> <| tc_snd_wl1 := sg_seq s |>
                          <| tc_snd_wl2 := sg_ack s |>);;
    when ((tc_snd_wnd t =? 0) && (0 <? sg_wnd s)) (tcp_output i)
  else mret ().

(** Seventh: segment text. *)
Definition tcp_input_text (i : nat) (s : segment) (now : Z) : PF () :=
  if 0 <? sg_paylen s then
    t ← get_tcb i;
    if bool_decide (tc_state t ∈ [TCP_ESTABLISHED; TCP_FIN_WAIT_1; TCP_FIN_WAIT_2])
    then tcp_rx_payload i (sg_seq s) (sg_payload s) now
    else stat_inc tcp_rx_data_ignored
  else mret ().

(** Eighth: FIN. *)
Definition fin_next (now : Z) (t : tcp_cb) : tcp_cb :=
  match tc_state t with
  | TCP_ESTABLISHED => t <| tc_state := TCP_CLOSE_WAIT |>
  | TCP_FIN_WAIT_1 => t <| tc_state := TCP_CLOSING |>
  | TCP_FIN_WAIT_2 => tcp_enter_timewait now t
  | TCP_TIME_WAIT => t <| tc_timewait_deadline := u64 (now + 2 * TCP_MSL_MS) |>
  | _ => t
  end.

Definition tcp_input_fin (i : nat) (s : segment) (now : Z) : PF () :=
  if flag_set s TCP_FIN then
    t ← get_tcb i;
    let fin_seq := u32 (sg_seq s + sg_paylen s) in
    if (fin_seq =? tc_rcv_nxt t) &&
       bool_decide (tc_state t ∈ [TCP_ESTABLISHED; TCP_FIN_WAIT_1; TCP_FIN_WAIT_2; TCP_TIME_WAIT])
    then
      upd_tcb i (fun t =>
        (if bool_decide (tc_state t = TCP_TIME_WAIT) then t
         else t <| tc_rcv_nxt := u32 (fin_seq + 1) |>) <| tc_rcv_eof := true |>);;
      tcp_send_ctl i TCP_ACK;;
      upd_tcb i (fin_next now)
    else mret ()
  else mret ().

(** States SYN-RCVD and above. *)
Definition tcp_input_sync (i : nat) (s : segment) (now : Z) : PF () :=
  t ← get_tcb i;
  if negb (tcp_acceptable t s) then
    stat_inc tcp_rx_out_of_window;;
    if flag_set s TCP_RST then mret () else tcp_send_ctl i TCP_ACK
  else if flag_set s TCP_RST then tcp_input_rst i s
  else if flag_set s TCP_SYN then
    stat_inc tcp_challenge_acks_tx;;
    tcp_send_ctl i TCP_ACK
  else if negb (flag_set s TCP_ACK) then mret ()
  else
    go ← (if bool_decide (tc_state t = TCP_SYN_RCVD) then tcp_input_syn_rcvd i s else mret true);
    if negb go then mret ()
    else
      go ← tcp_input_ack i s now;
      if negb go then mret ()
      else
        tcp_input_wnd i s;;
        tcp_input_text i s now;;
        tcp_input_fin i s now.

(** The dispatch on the connection found. *)
Definition tcp_segment_arrives (s : segment) : PF () :=
  let lip := pf_ntohl (ih_daddr (sg_ih s)) in
  let rip := pf_ntohl (ih_saddr (sg_ih s)) in
  now ← pf_now_ms;
  r ← tcb_lookup lip (pf_ntohs (th_dport (sg_th s))) rip (pf_ntohs (th_sport (sg_th s)));
  match r with
  | None =>
      stat_inc tcp_rx_no_match;;
      tcp_send_reset_for (sg_ih s) (sg_th s) (sg_paylen s)
  | Some i =>
      t ← get_tcb i;
      match tc_state t with
      | TCP_LISTEN => tcp_input_listen i s
      | TCP_SYN_SENT => tcp_input_syn_sent i s
      | _ => tcp_input_sync i s now
      end
  end.

Definition tcp_input (p : pkt) (ih : ipv4_hdr) : PF () :=
  stat_inc tcp_rx_segs;;
  let ihl := ip_hdr_len ih in
  let l4len := u16 (p_len p - ihl) in
  if l4len <? TCP_HDR_MIN then stat_inc tcp_rx_malformed
  else
    l4 ← lift (pkt_read p ihl l4len);
    th ← lift (read_tcp l4);
    let hl := tcp_hdr_len th in
    if (hl <? TCP_HDR_MIN) || (l4len <? hl) then stat_inc tcp_rx_malformed
    else
      let lip := pf_ntohl (ih_daddr ih) in
      let rip := pf_ntohl (ih_saddr ih) in
      let sum := csum_pseudo rip lip IP_PROTO_TCP l4len in
      if negb (csum_fold (csum_partial l4 sum) =? 0) then stat_inc tcp_rx_bad_csum
      else
        payload ← lift (mem_read l4 hl (l4len - hl));
        tcp_segment_arrives
          (mk_seg ih th l4 (pf_ntohl (th_seq th)) (pf_ntohl (th_ack th)) (pf_ntohs (th_wnd th))
             (th_flags th) payload).

(** ** Moves: what one segment may do to the table *)

(** Connection [i] ends up in state [st]; no other changes state. *)
Record moved (i : nat) (w w' : world) (st : tcp_state) : Prop := {
  mv_net : net_wf w';
  mv_frame : erase_l4 w = erase_l4 w';
  mv_wf : tcp_wf (w_socks w') (w_tcp w');
  mv_states : states w' = <[i:=st]> (states w);
}.

(** What identifies a connection. *)
Definition conn_id (t : tcp_cb) : bool * (Z * Z) * (Z * Z) :=
  (tc_active t, (tc_local_ip t, tc_local_port t), (tc_remote_ip t, tc_remote_port t)).

(** As [moved], and the connection is still there, as [t']. *)
Record live (i : nat) (w w' : world) (t' : tcp_cb) : Prop := {
  lv_moved : moved i w w' (tc_state t');
  lv_at : tcbs w' !! i = Some t';
  lv_active : tc_active t' = true;
  lv_others j : j ≠ i → conn_id <$> tcbs w' !! j = conn_id <$> tcbs w !! j;
}.

Lemma moved_trans i w1 w2 w3 st2 st3 : moved i w1 w2 st2 → moved i w2 w3 st3 → moved i w1 w3 st3.
Proof.
  intros [_ F1 _ S1] [N2 F2 W2 S2]. split; [done|congruence|done|].
  by rewrite S2, S1, list_insert_insert_eq.
Qed.

Lemma lv_tcb i w w' t' : live i w w' t' → tcb_wf t'.
Proof. intros [H1 H2 H3 _]. by eapply tcp_wf_active; [apply H1|..]. Qed.

Lemma moved_step i w w' t s t' :
  tcbs w !! i = Some t → l4_step w w' s (put_tcb (w_tcp w) i t') → tcp_wf s (w_tcp w) → slot_wf t' →
  moved i w w' (tc_state t').
Proof.
  intros Hi H Hw Ht. split; [apply H|apply H| |by eapply states_put].
  rewrite (ls_socks _ _ _ _ H), (ls_tcp _ _ _ _ H). by apply tcp_wf_put.
Qed.

Lemma live_step i w w' t t' :
  tcp_wf (w_socks w) (w_tcp w) → tcbs w !! i = Some t → tcb_step i w w' t' → tcb_wf t' →
  tc_active t' = true → live i w w' t'.
Proof.
  intros Hw Hi H Ht Ha. split; [|by eapply tcb_step_lookup|done|].
  - eapply moved_step; [done|exact H|done|by apply slot_wf_active].
  - intros j Hj. rewrite (ls_tcp _ _ _ _ H). cbn. by rewrite list_lookup_insert_ne.
Qed.

Lemma live_refl i w t :
  net_wf w → tcp_wf (w_socks w) (w_tcp w) → tcbs w !! i = Some t → tc_active t = true → live i w w t.
Proof.
  intros Hn Hw Hi Ha. split; [|done|done|done]. split; [done..|]. unfold states.
  symmetry. apply list_insert_id. by rewrite list_lookup_fmap, Hi.
Qed.

Lemma live_trans i w1 w2 w3 t2 t3 : live i w1 w2 t2 → live i w2 w3 t3 → live i w1 w3 t3.
Proof.
  intros [M1 _ _ O1] [M2 ? ? O2]. split; [by eapply moved_trans|done|done|]. intros j Hj. by rewrite O2, O1.
Qed.

(** Steps that leave the table alone. *)
Lemma moved_same i w w' t :
  tcp_wf (w_socks w) (w_tcp w) → tcbs w !! i = Some t → l4_step w w' (w_socks w) (w_tcp w) →
  moved i w w' (tc_state t).
Proof.
  intros Hw Hi H. split; [apply H|apply H|by rewrite (ls_socks _ _ _ _ H), (ls_tcp _ _ _ _ H)|].
  unfold states. rewrite (ls_tcp _ _ _ _ H). symmetry. apply list_insert_id. by rewrite list_lookup_fmap, Hi.
Qed.

(** ** Operations on a live connection *)

Section live.
Context (i : nat) (w0 : world).

Lemma wp_get_live t (Q : tcp_cb → world → Prop) w : live i w0 w t → Q t w → wp (get_tcb i) Q w.
Proof. intros H. apply wp_get_tcb, H. Qed.

Lemma wp_stat_live_same s t (Q : () → world → Prop) w :
  live i w0 w t → (∀ w', live i w0 w' t → net_same w w' → Q () w') → wp (stat_inc s) Q w.
Proof.
  intros H HQ. apply wp_stat_inc. intros w1 E1 W1 _. apply HQ; [|by apply net_same_tx]. eapply live_trans; [exact H|].
  destruct H as [M Hi Ha _]. eapply live_step; [apply M|done| |by eapply tcp_wf_active; [apply M|..]|done].
  apply tcb_step_same; [done|eapply net_wf_tx; [apply M|done]|done].
Qed.

Lemma wp_stat_live s t (Q : () → world → Prop) w :
  live i w0 w t → (∀ w', live i w0 w' t → Q () w') → wp (stat_inc s) Q w.
Proof. intros H HQ. eapply wp_stat_live_same; eauto. Qed.

Lemma live_tcb_step w t w' t' :
  live i w0 w t → tcb_step i w w' t' → tcb_wf t' → tc_active t' = true → live i w0 w' t'.
Proof.
  intros H Hs Ht Ha. eapply live_trans; [exact H|]. destruct H as [M Hi _ _].
  eapply live_step; [apply M|done..].
Qed.

Lemma wp_upd_live_same f t (Q : () → world → Prop) w :
  live i w0 w t → tcb_wf (f t) → tc_active (f t) = true → (∀ w', live i w0 w' (f t) → net_same w w' → Q () w') →
  wp (upd_tcb i f) Q w.
Proof.
  intros H Ht Ha HQ. eapply wp_upd_tcb; [apply H|]. apply HQ; [|done].
  eapply live_tcb_step; [exact H|apply tcb_step_set, H|done|done].
Qed.

Lemma wp_upd_live f t (Q : () → world → Prop) w :
  live i w0 w t → tcb_wf (f t) → tc_active (f t) = true → (∀ w', live i w0 w' (f t) → Q () w') →
  wp (upd_tcb i f) Q w.
Proof. intros H Ht Ha HQ. eapply wp_upd_live_same; eauto. Qed.

Lemma seg_sent_active flags t : tc_active (tcp_seg_sent flags t) = tc_active t.
Proof. unfold tcp_seg_sent. by destruct (has_flag _ _). Qed.

Lemma seg_sent_state flags t : tc_state (tcp_seg_sent flags t) = tc_state t.
Proof. unfold tcp_seg_sent. by destruct (has_flag _ _). Qed.

Lemma wp_ctl_live flags t (Q : () → world → Prop) w :
  live i w0 w t → byte_ok flags → (∀ w', live i w0 w' (tcp_seg_sent flags t) → Q () w') →
  wp (tcp_send_ctl i flags) Q w.
Proof.
  intros H Hf HQ. pose proof (lv_tcb _ _ _ _ H) as Hwf.
  eapply wp_tcp_send_ctl; [apply H|apply H|done|done|]. intros w1 H1 _. apply HQ.
  eapply live_tcb_step; [exact H|exact H1|by apply tcb_wf_seg_sent|]. rewrite seg_sent_active. apply H.
Qed.

Lemma wp_output_live t (Q : () → world → Prop) w :
  live i w0 w t → (∀ w' t', live i w0 w' t' → out_done t t' → Q () w') → wp (tcp_output i) Q w.
Proof.
  intros H HQ. pose proof (lv_tcb _ _ _ _ H) as Hwf.
  eapply wp_tcp_output; [apply H|apply H|done|]. intros w1 t1 H1 O1. eapply HQ; [|done].
  eapply live_tcb_step; [exact H|exact H1|apply O1|].
  rewrite (out_field (od_rest _ _ O1) tc_active : tc_active t1 = tc_active t). apply H.
Qed.

Lemma wp_retransmit_live t (Q : () → world → Prop) w :
  live i w0 w t →
  (∀ w' t', live i w0 w' t' → out_erase t' = out_erase t → snd_fields t' = snd_fields t →
     (tc_state t ≠ TCP_LISTEN → hands (tc_local_ip t) (tc_remote_ip t) w (rtx_segs t) w') → Q () w') →
  wp (tcp_retransmit i) Q w.
Proof.
  intros H HQ. pose proof (lv_tcb _ _ _ _ H) as Hwf.
  eapply wp_tcp_retransmit; [apply H|apply H|done|]. intros w1 t1 H1 E1 S1 Hwf1 P1. eapply HQ; [|done..].
  eapply live_tcb_step; [exact H|exact H1|done|].
  rewrite (out_field E1 tc_active : tc_active t1 = tc_active t). apply H.
Qed.

Lemma wp_payload_live seq data now t (Q : () → world → Prop) w :
  live i w0 w t → bytes_ok data → u32_ok seq → zlen data ≤ PKT_BUF_SIZE - PKT_RX_OFFSET →
  (∀ w' t', live i w0 w' t' → rx_post seq data t t' →
     rx_extends (rx_taken seq data t) t t' → Q () w') →
  wp (tcp_rx_payload i seq data now) Q w.
Proof.
  intros H Hd Hs Hl HQ. pose proof (lv_tcb _ _ _ _ H) as Hwf.
  eapply wp_tcp_rx_payload; [apply H|apply H|done..|]. intros w1 t1 H1 P1 T1. eapply HQ; [|done|done].
  eapply live_tcb_step; [exact H|exact H1|apply P1|].
  rewrite (f_equal tc_active (rp_rest _ _ _ _ P1) : tc_active t1 = tc_active t). apply H.
Qed.

Lemma wp_arm_live now t (Q : () → world → Prop) w :
  live i w0 w t → (∀ w', moved i w0 w' (tc_state t) → Q () w') → wp (upd_tcb i (tcp_arm_rto now)) Q w.
Proof.
  intros H HQ. assert (tc_active (tcp_arm_rto now t) = tc_active t ∧ tc_state (tcp_arm_rto now t) = tc_state t)
    as [Ea Es] by (unfold tcp_arm_rto; by destruct (_ =? 0)).
  eapply wp_upd_live; [done|apply tcb_wf_arm, (lv_tcb _ _ _ _ H)|rewrite Ea; apply H|].
  intros w1 [M _ _ _]. rewrite Es in M. by apply HQ.
Qed.

(** Releasing the connection. *)
Lemma wp_free_live t (Q : () → world → Prop) w :
  live i w0 w t → tc_state t ≠ TCP_LISTEN → (∀ w', moved i w0 w' TCP_CLOSED → Q () w') →
  wp (tcb_free i) Q w.
Proof.
  intros [M Hi Ha _] Hs HQ. eapply wp_tcb_free_conn; [apply M|apply M|done..|]. intros w1 H1. apply HQ.
  eapply moved_trans; [exact M|]. eapply (moved_step _ _ _ _ _ zero_tcb); [done|exact H1| |apply zero_tcb_slot].
  apply detach_wf, M.
Qed.

Lemma wp_conn_error_live err t (Q : () → world → Prop) w :
  live i w0 w t → tc_state t ≠ TCP_LISTEN →
  (∀ w', moved i w0 w' TCP_CLOSED →
     w_socks w' = detach_socks (w_socks w) t err → tcbs w' !! i = Some zero_tcb → Q () w') →
  wp (tcp_conn_error i err) Q w.
Proof.
  intros H Hs HQ. pose proof (lv_tcb _ _ _ _ H) as Hwf. destruct H as [M Hi Ha _].
  eapply wp_tcp_conn_error; [apply M|apply M|done| |done|].
  { apply slot_wf_active; [|by apply detach_tcb_wf]. unfold detach_tcb. by destruct (0 <=? _). }
  intros w1 H1. apply HQ; [|apply H1|rewrite (ls_tcp _ _ _ _ H1); by eapply put_tcb_lookup].
  eapply moved_trans; [exact M|]. eapply (moved_step _ _ _ _ _ zero_tcb); [done|exact H1| |apply zero_tcb_slot].
  apply detach_wf, M.
Qed.

Lemma wp_abort_live t (Q : () → world → Prop) w :
  live i w0 w t → tc_state t ≠ TCP_LISTEN → (∀ w', moved i w0 w' TCP_CLOSED → Q () w') →
  wp (tcp_app_abort i) Q w.
Proof.
  intros H Hs HQ. unfold tcp_app_abort. wp_step. eapply wp_get_live; [done|]. wp_step. apply wp_when.
  - intros _. eapply wp_ctl_live; [done|by vm_compute|]. intros w1 H1.
    eapply wp_free_live; [exact H1| |done]. by rewrite seg_sent_state.
  - intros _. by eapply wp_free_live.
Qed.

(** Answering with a reset leaves it alone. *)
Lemma wp_reset_live ih th n t (Q : () → world → Prop) w :
  live i w0 w t → ip_ok ih → (∀ w', live i w0 w' t → Q () w') → wp (tcp_send_reset_for ih th n) Q w.
Proof.
  intros H Hih HQ. eapply wp_tcp_send_reset_for; [apply H|done|]. intros w1 H1. apply HQ.
  pose proof (lv_tcb _ _ _ _ H) as Hwf. pose proof H as [M Hi Ha _].
  eapply live_trans; [exact H|]. eapply live_step; [apply M|done| |done|done].
  unfold tcb_step. by rewrite put_tcb_id.
Qed.
End live.

(** ** Segments *)

Record seg_ok (s : segment) : Prop := {
  so_ih : ip_ok (sg_ih s);
  so_seq : u32_ok (sg_seq s);
  so_ack : u32_ok (sg_ack s);
  so_wnd : u16_ok (sg_wnd s);
  so_payload : bytes_ok (sg_payload s);
  so_paylen : sg_paylen s ≤ PKT_BUF_SIZE - PKT_RX_OFFSET;
  so_bytes : bytes_ok (sg_bytes s);
  so_hdr : TCP_HDR_MIN ≤ tcp_hdr_len (sg_th s) ≤ zlen (sg_bytes s);
}.

Lemma wp_tcp_parse_mss s (Q : Z → world → Prop) w :
  seg_ok s → (∀ m w', u16_ok m → erase_tx w = erase_tx w' → Q m w') →
  wp (tcp_parse_mss (sg_bytes s) (sg_th s)) Q w.
Proof.
  intros [_ _ _ _ _ _ Hb Hh] HQ. unfold tcp_parse_mss. wp_step.
  eapply wp_lift; [apply mem_read_ok; unfold TCP_HDR_MIN in *; lia|]. set (opts := take _ _).
  destruct (parse_mss_ok (S (length opts)) opts 0) as (m & bad & Hm & Hr); [lia| |lia|].
  { by apply Forall_take, Forall_drop. }
  wp_step. eapply wp_lift; [exact Hm|]. cbv beta iota. wp_step. apply wp_when; intros _.
  - apply wp_stat_inc. intros w1 E1 _ _. wp_step. by apply HQ.
  - wp_step. by apply HQ.
Qed.

(** ** Updates preserve the invariant *)

Lemma tcb_wf_mss m t : u16_ok m → tcb_wf t → tcb_wf (tcp_apply_mss m t).
Proof.
  intros Hm [? ? ? ? [] ? ? ? ? ? ? ? ? ? ? ?]. split; try done.
  change (1 ≤ (if m =? 0 then TCP_DEFAULT_MSS else u16 (Z.min m TCP_OUR_MSS)) ≤ TCP_OUR_MSS).
  destruct (Z.eqb_spec m 0); wrap_lia.
Qed.

Lemma tcb_wf_irs seq t : tcb_wf t → tcb_wf (t <| tc_irs := seq |> <| tc_rcv_nxt := u32 (seq + 1) |>).
Proof.
  intros [? ? ? ? [] ? ? ? ? ? ? ? ? ? ? ?]. split; try done. split; try done.
  change (u32_ok (u32 (seq + 1))). apply u32_range.
Qed.

(** Before the handshake: the only acceptable acknowledgement is of the SYN. *)
Lemma syn_acked t ack :
  snd_ok t → tc_state t = TCP_SYN_SENT ∨ tc_state t = TCP_SYN_RCVD → u32_ok ack →
  seq_lt (tc_snd_una t) ack = true ∨ seq_le ack (tc_iss t) = false →
  seq_le ack (tc_snd_nxt t) = true ∨ seq_gt ack (tc_snd_nxt t) = false →
  ack = tc_snd_nxt t ∧ tc_snd_len t = 0 ∧ tc_fin_sent t = false ∧ tc_fin_queued t = false.
Proof.
  intros (Hu & Hn & _ & Hst) Hs Ha Hlt Hle.
  assert (tc_snd_una t = tc_iss t ∧ u32 (tc_snd_nxt t - tc_snd_una t) = 1 ∧ tc_snd_len t = 0 ∧
    tc_fin_sent t = false ∧ tc_fin_queued t = false) as (E1 & E2 & E3 & E4 & E5)
    by (by destruct Hs as [E|E]; rewrite E in Hst).
  split_and!; try done.
  rewrite <- not_true_iff_false, seq_lt_iff, seq_le_iff, <- E1 in Hlt.
  rewrite <- not_true_iff_false, seq_le_iff, seq_gt_iff in Hle. destruct Hlt, Hle; wrap_lia.
Qed.

(** A completed handshake. *)
Lemma tcb_wf_established t s :
  tcb_wf t → tc_state t = TCP_SYN_SENT ∨ tc_state t = TCP_SYN_RCVD → seg_ok s →
  tcb_wf (tcp_established s (t <| tc_snd_una := tc_snd_nxt t |>)).
Proof.
  intros Hwf Hst Hs. pose proof (tb_snd _ Hwf) as (H1 & H2 & H3 & H4).
  assert (tc_snd_len t = 0 ∧ tc_fin_sent t = false ∧ tc_fin_queued t = false) as (Hl & Hf & Hq).
  { by destruct Hst as [E|E]; rewrite E in H4; destruct H4 as (_ & _ & ?). }
  destruct Hwf as [? ? ? ? [] ? ? Hm ? ? ? ? ? ? Hli ?]. split; try done.
  - change (u32_ok (Z.min (4 * tc_mss t) (Z.max (2 * tc_mss t) 4380)) ∧ 2 ≤ 0xffffffff < 2 ^ 32). wrap_lia.
  - apply Hs.
  - unfold snd_ok.
    change (u32_ok (tc_snd_nxt t) ∧ u32_ok (tc_snd_nxt t) ∧ 0 ≤ tc_snd_len t ≤ TCP_SNDBUF ∧
      tc_fin_sent t = false ∧ tc_fin_queued t = false ∧
      u32 (tc_snd_nxt t - tc_snd_nxt t) ≤ tc_snd_len t).
    split_and!; try done; try lia. rewrite Hl, Z.sub_diag. done.
  - intros l Hl'. split; [by apply Hli|done].
Qed.

Lemma tcb_wf_syn_rcvd t : tcb_wf t → tc_state t = TCP_SYN_SENT → tcb_wf (t <| tc_state := TCP_SYN_RCVD |>).
Proof.
  intros [? ? ? ? [] ? ? ? ? ? Hsnd ? ? ? Hli ?] Hst. split; try done.
  - unfold snd_ok in *. rewrite Hst in Hsnd. exact Hsnd.
  - intros l Hl. split; [by apply Hli|done].
Qed.

(** ** SYN-SENT *)

(** The states a segment may take a connection in SYN-SENT to. *)
Definition syn_sent_edge (st' : tcp_state) : Prop :=
  st' ∈ [TCP_SYN_SENT; TCP_CLOSED; TCP_ESTABLISHED; TCP_SYN_RCVD].

Lemma syn_sent_edges :
  syn_sent_edge TCP_SYN_SENT ∧ syn_sent_edge TCP_CLOSED ∧ syn_sent_edge TCP_ESTABLISHED ∧
  syn_sent_edge TCP_SYN_RCVD.
Proof. unfold syn_sent_edge. set_solver. Qed.

Lemma wp_tcp_input_syn_open i w0 t s w :
  live i w0 w t → tc_state t = TCP_SYN_SENT → seg_ok s →
  (flag_set s TCP_ACK = true → sg_ack s = tc_snd_nxt t) →
  wp (tcp_input_syn_open i s) (fun _ w' => ∃ st, moved i w0 w' st ∧ syn_sent_edge st) w.
Proof.
  intros H Hst Hs Hack. destruct syn_sent_edges as (_ & _ & P3 & P4).
  pose proof (lv_tcb _ _ _ _ H) as Hwf. unfold tcp_input_syn_open.
  wp_step. eapply wp_upd_live; [done|by apply tcb_wf_irs|apply H|]. intros w1 L1.
  set (t1 := t <| tc_irs := _ |> <| tc_rcv_nxt := _ |>) in *.
  wp_step. eapply wp_tcp_parse_mss; [done|]. intros m w2 Hm E2. wp_step.
  assert (tcb_step i w1 w2 t1) as S2.
  { apply tcb_step_same; [apply L1|eapply net_wf_tx; [apply L1|done]|done]. }
  eapply wp_upd_tcb; [eapply tcb_step_lookup; [apply L1|exact S2]|]. cbv zeta. set (t2 := tcp_apply_mss m t1).
  assert (tcb_wf t2 ∧ tc_state t2 = TCP_SYN_SENT ∧ tc_active t2 = true) as (Hwf2 & Hst2 & Ha2).
  { split_and!; [apply tcb_wf_mss; [done|apply (lv_tcb _ _ _ _ L1)]|exact Hst|apply L1]. }
  pose proof (tb_snd _ Hwf2) as Hsnd2. unfold snd_ok in Hsnd2. rewrite Hst2 in Hsnd2.
  destruct Hsnd2 as (Hu2 & Hn2 & _ & Hui & Hfl & _).
  set (w3 := set_tcp w2 _). wp_step.
  set (t3 := if flag_set s TCP_ACK then t2 <| tc_snd_una := sg_ack s |> else t2) in *.
  assert (tcb_step i w1 w3 t3) as S3 by (eapply tcb_step_trans; [exact S2|apply tcb_step_set, S2]).
  eapply wp_get_tcb; [eapply tcb_step_lookup; [apply L1|exact S3]|]. clearbody w3. unfold t3 in *.
  destruct (flag_set s TCP_ACK) eqn:Hfa.
  - rewrite (Hack eq_refl : sg_ack s = tc_snd_nxt t2) in *.
    change (tc_snd_una (t2 <| tc_snd_una := tc_snd_nxt t2 |>)) with (tc_snd_nxt t2).
    change (tc_iss (t2 <| tc_snd_una := tc_snd_nxt t2 |>)) with (tc_iss t2).
    rewrite (proj2 (seq_gt_iff (tc_snd_nxt t2) (tc_iss t2))) by (rewrite <- Hui; wrap_lia).
    wp_step. apply wp_stat_inc. intros w4 E4 _ _.
    assert (tcb_step i w1 w4 (t2 <| tc_snd_una := tc_snd_nxt t2 |>)) as S4.
    { eapply tcb_step_trans; [exact S3|]. apply tcb_step_same; [|eapply net_wf_tx; [apply S3|done]|done].
      eapply tcb_step_lookup; [apply L1|exact S3]. }
    wp_step. eapply wp_upd_tcb; [eapply tcb_step_lookup; [apply L1|exact S4]|].
    eapply (wp_ctl_live i w0); [|by vm_compute|].
    { eapply live_tcb_step; [exact L1|eapply tcb_step_trans; [exact S4|apply tcb_step_set, S4]| |exact Ha2].
      by apply tcb_wf_established; [|left|]. }
    intros w5 [M5 _ _ _]. rewrite seg_sent_state in M5. eauto.
  - rewrite Hui. assert (seq_gt (tc_iss t2) (tc_iss t2) = false) as ->.
    { unfold seq_gt. by rewrite Z.sub_diag. }
    wp_step. eapply wp_upd_live; [by eapply live_tcb_step|by apply tcb_wf_syn_rcvd|exact Ha2|]. intros w4 L4.
    wp_step. eapply wp_ctl_live; [exact L4|by vm_compute|]. intros w5 L5. wp_steps.
    eapply wp_arm_live; [exact L5|]. intros w6 M6. rewrite seg_sent_state in M6. eauto.
Qed.

Lemma wp_tcp_input_syn_sent i w0 t s w :
  live i w0 w t → tc_state t = TCP_SYN_SENT → seg_ok s →
  wp (tcp_input_syn_sent i s) (fun _ w' => ∃ st, moved i w0 w' st ∧ syn_sent_edge st) w.
Proof.
  intros H Hst Hs. destruct syn_sent_edges as (P1 & P2 & _).
  assert (∀ w', live i w0 w' t → ∃ st, moved i w0 w' st ∧ syn_sent_edge st) as Hsame.
  { intros w' [M _ _ _]. rewrite Hst in M. eauto. }
  unfold tcp_input_syn_sent. wp_step. eapply wp_get_live; [done|].
  destruct (flag_set s TCP_ACK && _) eqn:Hbad.
  { destruct (flag_set s TCP_RST); [wp_step; by apply Hsame|].
    eapply wp_reset_live; [done|apply Hs|done]. }
  destruct (flag_set s TCP_RST).
  { wp_step. eapply wp_stat_live; [done|]. intros w1 L1. destruct (flag_set s TCP_ACK).
    - eapply wp_conn_error_live; [exact L1|by rewrite Hst|]. intros w2 M2 _ _. eauto.
    - wp_step. by apply Hsame. }
  destruct (flag_set s TCP_SYN); [|wp_step; by apply Hsame].
  eapply wp_tcp_input_syn_open; [done..|]. intros Hack. rewrite Hack in Hbad.
  apply orb_false_iff in Hbad as [Hb1 Hb2].
  apply syn_acked; [apply (lv_tcb _ _ _ _ H)|by left|apply Hs|by right|by right].
Qed.

(** ** Opening *)

Lemma wp_tcp_gen_iss (Q : Z → world → Prop) w :
  net_wf w →
  (∀ w' iss, u32_ok iss → l4_step w w' (w_socks w) (mk_tcpg (tcbs w) iss) → Q iss w') →
  wp tcp_gen_iss Q w.
Proof.
  intros Hn HQ. unfold tcp_gen_iss. wp_steps. apply wp_modify. wp_steps. apply HQ; [apply u32_range|].
  split; [|done..]. destruct Hn as [[] [] ?]. by split.
Qed.

Lemma wp_tcb_alloc (Q : option nat → world → Prop) w :
  net_wf w →
  (∀ i t w', tcbs w !! i = Some t → tc_active t = false → tcb_step i w w' tcb_fresh → Q (Some i) w') →
  Q None w → wp tcb_alloc Q w.
Proof.
  intros Hn HQ HN. unfold tcb_alloc. wp_steps.
  destruct (list_find tcb_unused _) as [[i t]|] eqn:Hf; [|by wp_step].
  apply list_find_Some in Hf as (Hi & Hu & _). wp_step. eapply wp_upd_tcb; [done|]. wp_step.
  eapply HQ; [done|done|]. by apply tcb_step_set.
Qed.

(** What an open does not touch of a fresh block. *)
Record fresh_tcb (t : tcp_cb) : Prop := {
  fr_bufs : zlen (tc_sndbuf t) = TCP_SNDBUF ∧ bytes_ok (tc_sndbuf t) ∧
            zlen (tc_rcvbuf t) = TCP_RCVBUF ∧ bytes_ok (tc_rcvbuf t);
  fr_rings : tc_snd_head t = 0 ∧ tc_snd_len t = 0 ∧ tc_rcv_head t = 0 ∧ tc_rcv_len t = 0 ∧ tc_ooo t = [];
  fr_cc : tc_cwnd t = 2144 ∧ tc_ssthresh t = 0xffffffff ∧ tc_srtt_ms t = -1 ∧ tc_rto_ms t = 1000;
  fr_accept : tc_acceptq t = [] ∧ tc_backlog t = 0;
  fr_fin : tc_fin_sent t = false ∧ tc_fin_queued t = false;
  fr_active : tc_active t = true;
}.

Lemma tcb_fresh_ok : fresh_tcb tcb_fresh.
Proof.
  destruct tcb_fresh_rcv as [R1 R2 _ _ _ _]. split; [|split_and!; reflexivity..|reflexivity].
  split_and!; [| |exact R1|exact R2].
  - change (tc_sndbuf tcb_fresh) with (replicate (Z.to_nat TCP_SNDBUF) 0). rewrite length_replicate. wrap_lia.
  - apply Forall_replicate. wrap_lia.
Qed.

(** A fresh connection under new identity and sequence numbers, its SYN out. *)
Record embryo (t : tcp_cb) : Prop := {
  em_fresh : fresh_tcb t;
  em_state : tc_state t = TCP_SYN_SENT ∨ tc_state t = TCP_SYN_RCVD;
  em_seq : u32_ok (tc_iss t) ∧ tc_snd_una t = tc_iss t ∧ tc_snd_nxt t = u32 (tc_iss t + 1);
  em_rcv_nxt : u32_ok (tc_rcv_nxt t);
  em_ips : u32_ok (tc_local_ip t) ∧ u32_ok (tc_remote_ip t);
  em_mss : 1 ≤ tc_mss t ≤ TCP_OUR_MSS;
  em_wnd : u16_ok (tc_snd_wnd t);
  em_sock : -1 ≤ tc_sock_idx t < Z.of_nat PF_SOCK_MAX;
  em_listener : ∀ l, tc_listener t = Some l → (l < TCP_MAX_CONNS)%nat;
}.

Lemma embryo_wf t : embryo t → tcb_wf t ∧ tc_active t = true.
Proof.
  intros [[(B1 & B2 & B3 & B4) (R1 & R2 & R3 & R4 & R5) (C1 & C2 & C3 & C4) (A1 & A2) (F1 & F2) Ha]
    Hst (Hi & Hu & Hn) Hr Hip Hm Hw Hk Hl].
  split; [|done]. split; rewrite ?R1, ?R5, ?C1, ?C2, ?C4, ?A1, ?A2; try done; try wrap_lia.
  - by destruct Hst as [-> | ->].
  - split; rewrite ?R3, ?R4, ?R5; try done; wrap_lia.
  - unfold snd_ok. rewrite R2, F1, F2, Hu, Hn. split_and!; try done; try apply u32_range; try lia.
    assert (u32 (u32 (tc_iss t + 1) - tc_iss t) = 1) by wrap_lia. destruct Hst as [-> | ->]; done.
  - split; [by left|wrap_lia].
  - intros l El. split; [by apply Hl|]. by destruct Hst as [-> | ->].
Qed.

Lemma child_embryo c l lip lport rip iss s m :
  fresh_tcb c → tc_sock_idx c = -1 → (l < TCP_MAX_CONNS)%nat → u32_ok lip → u32_ok rip → u32_ok iss →
  seg_ok s → u16_ok m →
  embryo (tcp_apply_mss m (tcp_child l lip lport rip iss s c) <| tc_state := TCP_SYN_RCVD |>).
Proof.
  intros [] Hk Hl Hlip Hrip Hiss Hs Hm. split.
  - split; assumption.
  - right. reflexivity.
  - split; [exact Hiss|split; reflexivity].
  - change (u32_ok (u32 (sg_seq s + 1))). apply u32_range.
  - split; [exact Hlip|exact Hrip].
  - change (1 ≤ (if m =? 0 then TCP_DEFAULT_MSS else u16 (Z.min m TCP_OUR_MSS)) ≤ TCP_OUR_MSS).
    destruct (Z.eqb_spec m 0); wrap_lia.
  - change (u16_ok (sg_wnd s)). apply Hs.
  - change (-1 ≤ tc_sock_idx c < Z.of_nat PF_SOCK_MAX). rewrite Hk. done.
  - intros l' E. change (Some l = Some l') in E. injection E as <-. exact Hl.
Qed.

(** ** The state machine *)

(** The transitions one received segment can make. *)
Inductive tcp_edge : tcp_state → tcp_state → Prop :=
  | edge_stay st : tcp_edge st st
  | edge_reset st : st ≠ TCP_LISTEN → tcp_edge st TCP_CLOSED
  | edge_passive : tcp_edge TCP_CLOSED TCP_SYN_RCVD
  | edge_active : tcp_edge TCP_SYN_SENT TCP_ESTABLISHED
  | edge_simultaneous : tcp_edge TCP_SYN_SENT TCP_SYN_RCVD
  | edge_accepted : tcp_edge TCP_SYN_RCVD TCP_ESTABLISHED
  | edge_accepted_fin : tcp_edge TCP_SYN_RCVD TCP_CLOSE_WAIT
  | edge_fin : tcp_edge TCP_ESTABLISHED TCP_CLOSE_WAIT
  | edge_fin_acked : tcp_edge TCP_FIN_WAIT_1 TCP_FIN_WAIT_2
  | edge_both : tcp_edge TCP_FIN_WAIT_1 TCP_CLOSING
  | edge_fin_fin : tcp_edge TCP_FIN_WAIT_1 TCP_TIME_WAIT
  | edge_last_fin : tcp_edge TCP_FIN_WAIT_2 TCP_TIME_WAIT
  | edge_closed : tcp_edge TCP_CLOSING TCP_TIME_WAIT.

(** One connection took an edge; every other is in the state it was in. *)
Definition tcp_moved (w w' : world) : Prop :=
  ∃ i st st', states w !! i = Some st ∧ tcp_edge st st' ∧ moved i w w' st'.

Lemma states_lookup w i t : tcbs w !! i = Some t → states w !! i = Some (tc_state t).
Proof. intros H. unfold states. by rewrite list_lookup_fmap, H. Qed.

Lemma moved_edge i w w' t st :
  tcbs w !! i = Some t → tcp_edge (tc_state t) st → moved i w w' st → tcp_moved w w'.
Proof. intros Hi He M. exists i, (tc_state t), st. split_and!; [by apply states_lookup|done|done]. Qed.

Lemma moved_open c w w' t0 iss t' :
  tcp_wf (w_socks w) (w_tcp w) → tcbs w !! c = Some t0 → tc_active t0 = false → embryo t' →
  tc_state t' = TCP_SYN_RCVD → u32_ok iss →
  l4_step w w' (w_socks w) (put_tcb (mk_tcpg (tcbs w) iss) c t') → tcp_moved w w'.
Proof.
  intros Hw Hc Ha He Hst Hiss H. destruct (embryo_wf _ He) as [Hwf Hact].
  pose proof (tcp_wf_slot _ _ _ _ Hw Hc) as Hs. unfold slot_wf in Hs. rewrite Ha in Hs.
  apply (moved_edge c _ _ t0 TCP_SYN_RCVD); [done|rewrite (proj1 (proj1 Hs)); constructor|].
  split; [apply H|apply H| |].
  - rewrite (ls_socks _ _ _ _ H), (ls_tcp _ _ _ _ H). apply tcp_wf_put; [|by apply slot_wf_active].
    destruct Hw. by split.
  - unfold states. rewrite (ls_tcp _ _ _ _ H). cbn. by rewrite list_fmap_insert, Hst.
Qed.

(** ** LISTEN *)

Lemma arm_embryo now t : embryo t → embryo (tcp_arm_rto now t).
Proof. unfold tcp_arm_rto. destruct (_ =? 0); [|done]. intros [[] ? ? ? ? ? ? ? ?]. split; try assumption. split; assumption. Qed.

Lemma seg_sent_embryo flags t : embryo t → embryo (tcp_seg_sent flags t).
Proof. unfold tcp_seg_sent. destruct (has_flag _ _); [|done]. intros [[] ? ? ? ? ? ? ? ?]. split; try assumption. split; assumption. Qed.

(** Composing a step with an update of block [c]. *)
Lemma l4_step_put w w1 w2 s g c t t' :
  l4_step w w1 s (put_tcb g c t) → tcb_step c w1 w2 t' → l4_step w w2 s (put_tcb g c t').
Proof.
  intros H1 H2. pose proof (l4_step_trans _ _ _ _ _ _ _ H1 H2) as H.
  by rewrite (ls_socks _ _ _ _ H1), (ls_tcp _ _ _ _ H1), put_tcb_put in H.
Qed.

Lemma l4_step_put_lookup w w1 s g c t t0 :
  l4_step w w1 s (put_tcb g c t) → tg_tcbs g !! c = Some t0 → tcbs w1 !! c = Some t.
Proof. intros H Hc. rewrite (ls_tcp _ _ _ _ H). by eapply put_tcb_lookup. Qed.

Lemma wp_tcp_input_listen l t s w :
  net_wf w → tcp_wf (w_socks w) (w_tcp w) → tcbs w !! l = Some t → seg_ok s →
  wp (tcp_input_listen l s) (fun _ w' => tcp_moved w w') w.
Proof.
  intros Hn Hw Hl Hs.
  assert (∀ w', l4_step w w' (w_socks w) (w_tcp w) → tcp_moved w w') as Hsame.
  { intros w' H. eapply moved_edge; [done|apply edge_stay|by eapply moved_same]. }
  assert (∀ w', erase_tx w = erase_tx w' → tcp_moved w w') as Htx.
  { intros w' E. by apply Hsame, l4_step_tx. }
  unfold tcp_input_listen. destruct (flag_set s TCP_RST); [wp_step; by apply Htx|].
  destruct (flag_set s TCP_ACK); [eapply wp_tcp_send_reset_for; [done|apply Hs|done]|].
  destruct (negb _); [wp_step; by apply Htx|].
  wp_step. eapply wp_get_tcb; [done|].
  destruct (_ <=? _); [apply wp_stat_inc; intros w1 E1 _ _; by apply Htx|].
  wp_step. apply wp_tcb_alloc; [done| |apply wp_stat_inc; intros w1 E1 _ _; by apply Htx].
  intros c t0 w1 Hc Ha H1. wp_step. apply wp_stat_inc. intros w2 E2 _ _. wp_step.
  assert (tcb_step c w w2 tcb_fresh) as H2.
  { eapply tcb_step_trans; [exact H1|].
    apply tcb_step_same; [by eapply tcb_step_lookup|eapply net_wf_tx; [apply H1|done]|done]. }
  apply wp_tcp_gen_iss; [apply H2|]. intros w3 iss Hiss H3.
  rewrite (ls_socks _ _ _ _ H2), (ls_tcp _ _ _ _ H2) in H3. cbn [put_tcb tg_tcbs] in H3.
  pose proof (l4_step_trans _ _ _ _ _ _ _ H2 H3) as H3'.
  change (mk_tcpg _ iss) with (put_tcb (mk_tcpg (tcbs w) iss) c tcb_fresh) in H3'.
  set (g := mk_tcpg (tcbs w) iss) in *. cbv zeta. wp_step.
  eapply wp_upd_tcb; [by eapply (l4_step_put_lookup w w3 _ g)|]. set (w4 := set_tcp w3 _).
  pose proof (l4_step_put _ _ w4 _ _ _ _ _ H3' (tcb_step_set _ _ _ (ls_net _ _ _ _ H3'))) as H4.
  wp_step. apply wp_tcp_parse_mss; [done|]. intros m w5 Hm E5.
  set (t4 := tcp_child _ _ _ _ _ _ _) in *.
  pose proof (l4_step_put _ _ w5 _ _ _ _ _ H4 ltac:(apply tcb_step_same;
    [by eapply (l4_step_put_lookup w w4 _ g)|eapply net_wf_tx; [apply H4|done]|done])) as H5.
  wp_step. eapply wp_upd_tcb; [by eapply (l4_step_put_lookup w w5 _ g)|].
  set (t6 := tcp_apply_mss m t4 <| tc_state := _ |>). set (w6 := set_tcp w5 _).
  pose proof (l4_step_put _ _ w6 _ _ _ _ _ H5 (tcb_step_set _ _ _ (ls_net _ _ _ _ H5))) as H6.
  assert (embryo t6) as He.
  { apply child_embryo; [apply tcb_fresh_ok|reflexivity|by eapply tcp_wf_index|apply ntohl_u32, Hs..|done|done|done]. }
  wp_step. eapply wp_tcp_send_ctl; [apply H6|by eapply (l4_step_put_lookup w w6 _ g)|
    by apply embryo_wf|by vm_compute|].
  intros w7 H7 _. pose proof (l4_step_put _ _ w7 _ _ _ _ _ H6 H7) as H7'. wp_steps.
  eapply wp_upd_tcb; [by eapply (l4_step_put_lookup w w7 _ g)|].
  eapply moved_open; [done|exact Hc|done| | |exact Hiss|].
  3: { eapply l4_step_put; [exact H7'|apply tcb_step_set, H7']. }
  - by apply arm_embryo, seg_sent_embryo.
  - unfold tcp_arm_rto. by destruct (_ =? 0).
Qed.

(** ** SYN-RCVD *)

(** An update of another block that does not change its state. *)
Lemma live_put_other i l w0 w w' t lt lt' :
  live i w0 w t → tcbs w !! l = Some lt → tcb_step l w w' lt' → slot_wf lt' →
  tc_state lt' = tc_state lt → conn_id lt' = conn_id lt →
  ∃ t', live i w0 w' t' ∧ tc_state t' = tc_state t.
Proof.
  intros [M Hi Ha Oth] Hl H Hs Est Eid. injection Eid as Eact E1 E2 E3 E4.
  assert (states w' = states w) as Estates.
  { rewrite (states_put _ _ _ _ _ _ Hl H), Est. apply list_insert_id. by apply states_lookup. }
  assert (∃ t', tcbs w' !! i = Some t' ∧ tc_state t' = tc_state t ∧ tc_active t' = true) as (t' & Hi' & Es & Ea).
  { destruct (decide (i = l)) as [->|Hne].
    - exists lt'. assert (lt = t) as -> by congruence. split_and!; [by eapply tcb_step_lookup|done|congruence].
    - exists t. split_and!; try done. rewrite (ls_tcp _ _ _ _ H). cbn. by rewrite list_lookup_insert_ne. }
  exists t'. split; [|done]. split; [|done|done|].
  - rewrite Es. destruct M as [_ F W S]. split; [apply H|rewrite F; apply H| |congruence].
    rewrite (ls_socks _ _ _ _ H), (ls_tcp _ _ _ _ H). by apply tcp_wf_put.
  - intros j Hj. rewrite <- Oth by done. rewrite (ls_tcp _ _ _ _ H). cbn.
    destruct (decide (j = l)) as [->|Hne]; [|by rewrite list_lookup_insert_ne].
    rewrite list_lookup_insert_eq by (by eapply lookup_lt_Some). rewrite Hl. cbn. f_equal. unfold conn_id. congruence.
Qed.

Lemma tcb_wf_acceptq t i :
  tcb_wf t → zlen (tc_acceptq t) < tc_backlog t → (i < TCP_MAX_CONNS)%nat →
  tcb_wf (t <| tc_acceptq ::= fun q => q ++ [i] |>).
Proof.
  intros [? ? ? ? [] ? ? ? ? ? ? ? [? ?] Hq ? ?] Hlt Hi. split; try done.
  - change (zlen (tc_acceptq t ++ [i]) ≤ tc_backlog t ≤ TCP_ACCEPT_QLEN). rewrite length_app. cbn [length]. lia.
  - change (Forall (fun c => c < TCP_MAX_CONNS)%nat (tc_acceptq t ++ [i])).
    apply Forall_app_2; [done|]. by apply Forall_cons_2.
Qed.

Lemma wp_tcp_accept_push i w0 t l lt (Q : () → world → Prop) w :
  live i w0 w t → tcbs w !! l = Some lt → zlen (tc_acceptq lt) < tc_backlog lt →
  (∀ w' t', live i w0 w' t' → tc_state t' = tc_state t → Q () w') →
  wp (tcp_accept_push l i) Q w.
Proof.
  intros H Hl Hq HQ. pose proof H as [M Hi _ _].
  assert (tc_active lt = true) as Ha.
  { pose proof (tcp_wf_slot _ _ _ _ (mv_wf _ _ _ _ M) Hl) as Hs. unfold slot_wf in Hs.
    destruct (tc_active lt); [done|]. destruct Hs as ((_ & Hb & _) & _). lia. }
  pose proof (tcp_wf_active _ _ _ _ (mv_wf _ _ _ _ M) Hl Ha) as Hwf.
  pose proof (tb_accept _ Hwf) as [_ Hb]. unfold tcp_accept_push. wp_step. eapply wp_get_tcb; [done|].
  wp_step. eapply wp_lift; [by rewrite (proj2 (Z.ltb_lt _ _)) by lia|].
  eapply wp_upd_tcb; [done|].
  destruct (live_put_other i l w0 w (set_tcp w (put_tcb (w_tcp w) l (lt <| tc_acceptq ::= fun q => q ++ [i] |>)))
    t lt (lt <| tc_acceptq ::= fun q => q ++ [i] |>)) as (t' & L' & Es); try done.
  - apply tcb_step_set, M.
  - apply slot_wf_active; [done|]. apply tcb_wf_acceptq; [done|done|]. by eapply tcp_wf_index; [apply M|].
  - by eapply HQ.
Qed.

Lemma wp_tcp_input_syn_rcvd i w0 t s w :
  live i w0 w t → tc_state t = TCP_SYN_RCVD → seg_ok s →
  wp (tcp_input_syn_rcvd i s) (fun go w' =>
    if go : bool then ∃ t', live i w0 w' t' ∧ tc_state t' = TCP_ESTABLISHED
    else ∃ st, moved i w0 w' st ∧ st ∈ [TCP_SYN_RCVD; TCP_CLOSED]) w.
Proof.
  intros H Hst Hs. pose proof (lv_tcb _ _ _ _ H) as Hwf. unfold tcp_input_syn_rcvd.
  wp_step. eapply wp_get_live; [done|]. destruct (_ && _) eqn:Hack.
  2: { wp_step. eapply wp_reset_live; [done|apply Hs|]. intros w1 [M1 _ _ _]. wp_step.
       rewrite Hst in M1. exists TCP_SYN_RCVD. split; [done|set_solver]. }
  apply andb_true_iff in Hack as [Hlt Hle].
  destruct (syn_acked t (sg_ack s)) as (Ea & _); [apply Hwf|by right|apply Hs|by left|by left|].
  wp_step. eapply wp_stat_live; [done|]. intros w1 L1. wp_step. rewrite Ea.
  eapply wp_upd_live; [exact L1|by apply tcb_wf_established; [|right|]|apply L1|]. intros w2 L2.
  set (t2 := tcp_established _ _) in *. assert (tc_state t2 = TCP_ESTABLISHED) as Hst2 by done.
  destruct (tc_listener t) as [l|] eqn:Hli; [|wp_step; eauto].
  destruct (tb_listener _ Hwf _ Hli) as [Hl _].
  destruct (tcp_wf_lookup _ _ l (mv_wf _ _ _ _ (lv_moved _ _ _ _ L2)) Hl) as [lt Hlt'].
  wp_step. eapply wp_get_tcb; [done|].
  destruct (Z.ltb_spec (zlen (tc_acceptq lt)) (tc_backlog lt)) as [Hq|Hq].
  - wp_step. eapply wp_tcp_accept_push; [done..|]. intros w3 t3 L3 Es. wp_step. exists t3.
    split; [done|congruence].
  - wp_step. eapply wp_stat_live; [exact L2|]. intros w3 L3. wp_step.
    eapply wp_abort_live; [exact L3|by rewrite Hst2|]. intros w4 M4. wp_step. exists TCP_CLOSED.
    split; [done|set_solver].
Qed.

(** ** The ACK field *)

Definition synced (st : tcp_state) : bool :=
  negb (bool_decide (st ∈ [TCP_CLOSED; TCP_LISTEN; TCP_SYN_SENT; TCP_SYN_RCVD])).

(** The states in which the application has not closed. *)
Definition app_open (st : tcp_state) : bool := bool_decide (st ∈ [TCP_ESTABLISHED; TCP_CLOSE_WAIT]).

(** [snd_ok] after the handshake, the states folded into two cases. *)
Lemma snd_ok_synced t :
  synced (tc_state t) = true →
  snd_ok t ↔
  u32_ok (tc_snd_una t) ∧ u32_ok (tc_snd_nxt t) ∧ 0 ≤ tc_snd_len t ≤ TCP_SNDBUF ∧
  if app_open (tc_state t)
  then tc_fin_sent t = false ∧ tc_fin_queued t = false ∧ snd_flight t ≤ tc_snd_len t
  else tc_fin_queued t = true ∧
       if tc_fin_sent t then (snd_flight t = 0 ∧ tc_snd_len t = 0) ∨ snd_flight t = tc_snd_len t + 1
       else snd_flight t ≤ tc_snd_len t.
Proof. unfold snd_ok, snd_flight. by destruct (tc_state t). Qed.

(** An acknowledgement of something new, up to [snd_nxt], removes exactly the
    acknowledged ring bytes; the FIN is covered only by the last of them. *)
Lemma new_ack_ok t ack :
  snd_ok t → synced (tc_state t) = true → u32_ok ack →
  seq_gt ack (tc_snd_nxt t) = false → seq_gt ack (tc_snd_una t) = true →
  let fin_acked := tc_fin_sent t && (ack =? tc_snd_nxt t) in
  let dbytes := u32 (u32 (ack - tc_snd_una t) - if fin_acked then 1 else 0) in
  (0 ≤ dbytes ≤ tc_snd_len t ∧ dbytes = Z.min (u32 (ack - tc_snd_una t)) (tc_snd_len t)) ∧
  ∀ t', snd_fields t' = (tc_state t, (tc_iss t, ack, tc_snd_nxt t, tc_snd_len t - dbytes),
                         (tc_fin_sent t, tc_fin_queued t)) → snd_ok t'.
Proof.
  intros Hs Hsy Ha Hgt Hnew. cbv zeta. apply snd_ok_synced in Hs as (Hu & Hn & Hl & Hst); [|done].
  apply not_true_iff_false in Hgt. rewrite seq_gt_iff in Hgt. rewrite seq_gt_iff in Hnew.
  unfold TCP_SNDBUF in *. set (fl' := u32 (tc_snd_nxt t - ack)).
  pose proof (u32_range (tc_snd_nxt t - tc_snd_una t)) as Hr. fold (snd_flight t) in Hr.
  assert (u32 (ack - tc_snd_una t) = snd_flight t - fl' ∧ 0 ≤ fl' < snd_flight t) as [Ed Hd].
  { assert (snd_flight t ≤ 65536) by
      (destruct (app_open _), (tc_fin_sent t); destruct Hst as (? & ?); lia).
    unfold fl', snd_flight in *. wrap_lia. }
  assert ((ack =? tc_snd_nxt t) = (fl' =? 0)) as ->.
  { unfold fl'. apply eq_true_iff_eq. rewrite !Z.eqb_eq. split; [intros ->; by rewrite Z.sub_diag|wrap_lia]. }
  rewrite Ed, u32_small by (destruct (_ && _); lia).
  assert (∀ t', snd_fields t' = (tc_state t, (tc_iss t, ack, tc_snd_nxt t,
      tc_snd_len t - (snd_flight t - fl' - if tc_fin_sent t && (fl' =? 0) then 1 else 0)),
      (tc_fin_sent t, tc_fin_queued t)) → snd_flight t' = fl') as Hfl.
  { intros t' E. unfold snd_flight. by injection E as _ _ -> -> _ _ _. }
  split; [|intros t' E; specialize (Hfl t' E); injection E as E1 E2 E3 E4 E5 E6 E7;
    apply snd_ok_synced; [by rewrite E1|]; rewrite E1, E3, E4, E5, E6, E7, Hfl].
  all: clear Hfl Hgt Hnew; destruct (app_open (tc_state t));
    [destruct Hst as (Ef & Eq & Hst)|destruct Hst as (Eq & Hst); destruct (tc_fin_sent t) eqn:Ef];
    rewrite ?Ef, ?Eq; cbn [andb]; try destruct (Z.eqb_spec fl' 0); split_and!; try done;
    unfold TCP_SNDBUF; lia.
Qed.

Lemma snd_fields_acked now s dbytes cwnd t :
  0 ≤ dbytes ≤ tc_snd_len t → tc_snd_len t ≤ TCP_SNDBUF →
  snd_fields (tcp_acked now s dbytes cwnd t) =
    (tc_state t, (tc_iss t, sg_ack s, tc_snd_nxt t, tc_snd_len t - dbytes), (tc_fin_sent t, tc_fin_queued t)).
Proof.
  intros Hd Hl. assert (tc_snd_len t - dbytes = u32 (tc_snd_len t - dbytes)) as -> by wrap_lia.
  unfold tcp_acked. destruct (_ && _); [|done].
  unfold tcp_rtt_sample. by destruct (rtt_smooth _ _ _).
Qed.

(** The congestion window after an acknowledgement: never a division by
    zero, since [ssthresh] is at least two. *)
Lemma cwnd_on_ack_ok dbytes t :
  tcb_wf t → 0 ≤ dbytes → ∃ c, cwnd_on_ack dbytes t = Ok c ∧ u32_ok c.
Proof.
  intros Hwf Hd. destruct (tb_cwnd _ Hwf) as [Hc Hs]. unfold cwnd_on_ack.
  destruct (3 <=? _); [exists (tc_ssthresh t); split; [done|lia]|].
  destruct (Z.ltb_spec (tc_cwnd t) (tc_ssthresh t)); [eexists; split; [done|apply u32_range]|].
  destruct (Z.eqb_spec (tc_cwnd t) 0); [lia|]. eexists. split; [done|apply u32_range].
Qed.

Lemma tcb_wf_acked now s dbytes cwnd t :
  tcb_wf t → u32_ok cwnd → 0 ≤ dbytes ≤ tc_snd_len t →
  snd_ok (tcp_acked now s dbytes cwnd t) → tcb_wf (tcp_acked now s dbytes cwnd t).
Proof.
  intros [? ? ? ? [] ? ? ? [? ?] ? ? [Hrtt Hrto] ? ? ? ?] Hc Hd Hsnd. revert Hsnd.
  assert (0 ≤ u32 (tc_snd_head t + dbytes) mod TCP_SNDBUF < TCP_SNDBUF) as Hhead.
  { pose proof (Z.mod_pos_bound (u32 (tc_snd_head t + dbytes)) TCP_SNDBUF). wrap_lia. }
  unfold tcp_acked. destruct (_ && _); intros Hsnd.
  - destruct (rtt_sample_ok (u32 (now - tc_rtt_start_ms t)) t Hrtt (u32_range _)) as (Hr & Ht).
    revert Hsnd Hr Ht. unfold tcp_rtt_sample.
    change (rtt_smooth _ _ _) with (rtt_smooth (tc_srtt_ms t) (tc_rttvar_ms t) (u32 (now - tc_rtt_start_ms t))).
    destruct (rtt_smooth _ _ _) as [a b]. intros Hsnd Hr Ht. split; try done.
  - by split.
Qed.

Lemma tcb_wf_set_state st t :
  tcb_wf t → synced (tc_state t) = true → synced st = true → app_open st = app_open (tc_state t) →
  tcb_wf (t <| tc_state := st |>).
Proof.
  intros [? ? ? ? [] ? ? ? ? ? Hsnd ? ? ? Hli ?] Hs Hs' Ho. split; try done.
  - change (st ≠ TCP_CLOSED). by intros ->.
  - apply snd_ok_synced in Hsnd; [|done]. apply snd_ok_synced; [done|].
    change (tc_state (t <| tc_state := st |>)) with st. rewrite Ho. exact Hsnd.
  - intros l Hl. split; [by apply Hli|]. change (st ≠ TCP_LISTEN). by intros ->.
Qed.

Lemma tcb_wf_timewait now t :
  tcb_wf t → synced (tc_state t) = true → app_open (tc_state t) = false → tcb_wf (tcp_enter_timewait now t).
Proof.
  intros Hwf Hs Ho. apply (tcb_wf_set_state TCP_TIME_WAIT) in Hwf; [|done..].
  destruct Hwf as [? ? ? ? [] ? ? ? ? ? ? ? ? ? ? ?]. by split.
Qed.

(** What the ACK field may do to a connection that stays. *)
Inductive ack_edge : tcp_state → tcp_state → Prop :=
  | ack_stay st : ack_edge st st
  | ack_fin_wait : ack_edge TCP_FIN_WAIT_1 TCP_FIN_WAIT_2
  | ack_closing : ack_edge TCP_CLOSING TCP_TIME_WAIT.

(** What an acknowledgement leaves alone: the receive side and the identity. *)
Definition rcv_view (t : tcp_cb) : bytes * Z * Z * list pkt * (bool * (Z * Z) * (Z * Z)) :=
  (rcv_data t, tc_rcv_nxt t, tc_rcv_len t, tc_ooo t, conn_id t).

(** What the acknowledgement in [s] may do to a connection that stays. *)
Record acks (s : segment) (t t' : tcp_cb) : Prop := {
  ak_edge : ack_edge (tc_state t) (tc_state t');
  ak_rcv : rcv_view t' = rcv_view t;
  ak_una : tc_snd_una t' = if seq_gt (sg_ack s) (tc_snd_una t) then sg_ack s else tc_snd_una t;
  ak_data : snd_data t' = drop (Z.to_nat (u32 (tc_snd_una t' - tc_snd_una t))) (snd_data t);
}.

(** An acknowledgement that takes nothing off the queue. *)
Lemma acks_none s t t' :
  ack_edge (tc_state t) (tc_state t') → rcv_view t' = rcv_view t → snd_view t' = snd_view t →
  seq_gt (sg_ack s) (tc_snd_una t) = false → acks s t t'.
Proof. intros H1 H2 [= H3 H4] Hg. split; rewrite ?Hg, ?H3, ?H4, ?Z.sub_diag; done. Qed.

Lemma acks_out s t t1 t2 : acks s t t1 → out_erase t2 = out_erase t1 → acks s t t2.
Proof.
  intros [H1 H2 H3 H4] E. split.
  - by rewrite (out_field E tc_state : tc_state t2 = tc_state t1).
  - by rewrite (out_field E rcv_view : rcv_view t2 = rcv_view t1).
  - by rewrite (out_field E tc_snd_una : tc_snd_una t2 = tc_snd_una t1).
  - by rewrite (out_field E tc_snd_una : tc_snd_una t2 = tc_snd_una t1), (out_field E snd_data : snd_data t2 = snd_data t1).
Qed.

(** The outcome of the stage: the connection stays and processing goes on, or
    it ends, with the connection left alone or released. *)
Definition stage_post (i : nat) (w0 : world) (s : segment) (t : tcp_cb) (go : bool) (w' : world) : Prop :=
  if go then ∃ t', live i w0 w' t' ∧ acks s t t'
  else (∃ st', moved i w0 w' st' ∧ (st' = tc_state t ∨ st' = TCP_CLOSED)) ∧
       (seq_gt (sg_ack s) (tc_snd_nxt t) = true ∨ tc_state t = TCP_LAST_ACK).

Lemma wp_new_ack_finish i w0 s t0 t w :
  live i w0 w t → acks s t0 t → wp (tcp_output i;; mret true) (stage_post i w0 s t0) w.
Proof.
  intros L He. wp_step. eapply wp_output_live; [done|]. intros w1 t1 L1 O1. wp_step.
  exists t1. split; [done|]. eapply acks_out; [exact He|apply O1].
Qed.

Lemma tcp_acked_keeps now s dbytes cwnd t :
  tc_state (tcp_acked now s dbytes cwnd t) = tc_state t ∧
  tc_active (tcp_acked now s dbytes cwnd t) = tc_active t ∧
  rcv_view (tcp_acked now s dbytes cwnd t) = rcv_view t ∧
  tc_snd_una (tcp_acked now s dbytes cwnd t) = sg_ack s.
Proof.
  unfold tcp_acked. destruct (_ && _); [|done]. unfold tcp_rtt_sample. by destruct (rtt_smooth _ _ _).
Qed.

(** Acknowledged bytes leave the front of the ring. *)
Lemma tcp_acked_data now s dbytes cwnd t :
  tcb_wf t → 0 ≤ dbytes ≤ tc_snd_len t →
  snd_data (tcp_acked now s dbytes cwnd t) = drop (Z.to_nat dbytes) (snd_data t).
Proof.
  intros Hwf Hd. pose proof (tb_snd _ Hwf) as (_ & _ & Hl & _). pose proof (tb_head _ Hwf) as Hh.
  pose proof (tb_sndbuf _ Hwf) as Hb.
  destruct (ring_advance (tc_sndbuf t) (tc_snd_head t) (tc_snd_len t) dbytes) as [_ E]; [lia..|].
  rewrite Hb in E. unfold snd_data at 2. rewrite <- E.
  rewrite <- (u32_small (tc_snd_head t + dbytes)), <- (u32_small (tc_snd_len t - dbytes)) by (unfold TCP_SNDBUF in *; lia).
  unfold tcp_acked. destruct (_ && _); [|done]. unfold tcp_rtt_sample. by destruct (rtt_smooth _ _ _).
Qed.

Lemma wp_tcp_after_ack i w0 s t0 t fin_acked now w :
  live i w0 w t → tc_state t = tc_state t0 → synced (tc_state t0) = true → acks s t0 t →
  wp (tcp_after_ack i fin_acked now) (stage_post i w0 s t0) w.
Proof.
  intros L E0 Hsy Hk. pose proof (lv_tcb _ _ _ _ L) as Hwf. pose proof (lv_active _ _ _ _ L) as Ha.
  unfold tcp_after_ack. wp_step. eapply wp_get_live; [done|]. cbv zeta.
  assert (wp (tcp_output i;; mret true) (stage_post i w0 s t0) w) as Hfin by by eapply wp_new_ack_finish.
  destruct fin_acked; [|done]. rewrite <- E0 in Hsy. destruct (tc_state t) eqn:Hst; try done; wp_step.
  - eapply wp_upd_live; [exact L|apply tcb_wf_set_state; by rewrite ?Hst|exact Ha|].
    intros w1 L1. eapply wp_new_ack_finish; [exact L1|]. destruct Hk as [_ H2 H3 H4].
    split; [rewrite <- E0; constructor|exact H2|exact H3|exact H4].
  - eapply wp_upd_live; [exact L|apply tcb_wf_timewait; by rewrite ?Hst|exact Ha|].
    intros w1 L1. eapply wp_new_ack_finish; [exact L1|]. destruct Hk as [_ H2 H3 H4].
    split; [rewrite <- E0; constructor|exact H2|exact H3|exact H4].
  - eapply wp_free_live; [exact L|by rewrite Hst|]. intros w1 M1. wp_step. split; [exists TCP_CLOSED; auto|].
    right. by rewrite <- E0.
Qed.

Lemma wp_tcp_new_ack i w0 t s now w :
  live i w0 w t → synced (tc_state t) = true → seg_ok s →
  seq_gt (sg_ack s) (tc_snd_nxt t) = false → seq_gt (sg_ack s) (tc_snd_una t) = true →
  wp (tcp_new_ack i s now) (stage_post i w0 s t) w.
Proof.
  intros L Hsy Hs Hgt Hnew. pose proof (lv_tcb _ _ _ _ L) as Hwf.
  pose proof (new_ack_ok t (sg_ack s) (tb_snd _ Hwf) Hsy (so_ack _ Hs) Hgt Hnew) as Hnk.
  cbv zeta in Hnk. unfold tcp_new_ack. wp_step. eapply wp_get_live; [done|]. cbv zeta. revert Hnk.
  generalize (tc_fin_sent t && (sg_ack s =? tc_snd_nxt t)) as fin_acked. intros fin_acked.
  generalize (u32 (u32 (sg_ack s - tc_snd_una t) - if fin_acked then 1 else 0)) as dbytes.
  intros dbytes [[Hd Hdm] Hok].
  destruct (cwnd_on_ack_ok dbytes t Hwf ltac:(lia)) as (cwnd & Hcw & Hcr).
  wp_step. eapply wp_lift; [exact Hcw|]. wp_step.
  eapply (wp_mono _ (fun _ w1 => live i w0 w1 t)).
  { apply wp_when; [|done]. intros _. by eapply wp_stat_live. }
  intros _ w1 L1. wp_step. destruct (tcp_acked_keeps now s dbytes cwnd t) as (Est & Eact & Ercv & Euna).
  eapply (wp_upd_live i w0 (tcp_acked now s dbytes cwnd) t); [exact L1| |exact (eq_trans Eact (lv_active _ _ _ _ L))|].
  { apply tcb_wf_acked; [done..|]. apply Hok. apply snd_fields_acked; [done|apply (tb_snd _ Hwf)]. }
  intros w2 L2. eapply wp_tcp_after_ack; [exact L2|exact Est|done|].
  split; [rewrite Est; constructor|exact Ercv|by rewrite Euna, Hnew|].
  rewrite tcp_acked_data, Euna, Hdm by done. pose proof (length_snd_data t Hwf).
  destruct (Z.min_spec (u32 (sg_ack s - tc_snd_una t)) (tc_snd_len t)) as [[_ ->]|[? ->]]; [done|].
  rewrite !drop_ge by lia. done.
Qed.

Lemma tcb_wf_dupacks f t : tcb_wf t → tcb_wf (t <| tc_dupacks ::= f |>).
Proof. intros [? ? ? ? [] ? ? ? ? ? ? ? ? ? ? ?]. by split. Qed.

Lemma tcb_wf_cwnd c t : u32_ok c → tcb_wf t → tcb_wf (t <| tc_cwnd := c |>).
Proof. intros Hc [? ? ? ? [] ? ? ? [_ ?] ? ? ? ? ? ? ?]. by split. Qed.

Lemma tcb_wf_ssthresh c t : 2 ≤ c < 2 ^ 32 → tcb_wf t → tcb_wf (t <| tc_ssthresh := c |>).
Proof. intros Hc [? ? ? ? [] ? ? ? [? _] ? ? ? ? ? ? ?]. by split. Qed.

(** Half the flight, but two segments at least, as a slow-start threshold. *)
Lemma ssthresh_range t n : tcb_wf t → u32_ok n → 2 ≤ Z.max (n / 2) (2 * tc_mss t) < 2 ^ 32.
Proof. intros Hwf Hn. pose proof (tb_mss _ Hwf). wrap_lia. Qed.

Lemma wp_tcp_dupack i w0 t (Q : () → world → Prop) w :
  live i w0 w t →
  (∀ w' t', live i w0 w' t' → tc_state t' = tc_state t → rcv_view t' = rcv_view t →
     snd_view t' = snd_view t → Q () w') →
  wp (tcp_dupack i) Q w.
Proof.
  intros L HQ. unfold tcp_dupack. wp_step. eapply wp_stat_live; [done|]. intros w1 L1. wp_step.
  eapply wp_upd_live; [exact L1|apply tcb_wf_dupacks, (lv_tcb _ _ _ _ L1)|exact (lv_active _ _ _ _ L1)|].
  intros w2 L2. pose proof (lv_tcb _ _ _ _ L2) as Hwf2. set (t2 := t <| tc_dupacks ::= _ |>) in *.
  rewrite <- (eq_refl : tc_state t2 = tc_state t), <- (eq_refl : rcv_view t2 = rcv_view t),
    <- (eq_refl : snd_view t2 = snd_view t) in HQ. clearbody t2.
  wp_step. eapply wp_get_live; [exact L2|]. destruct (_ =? 3).
  - cbv zeta. wp_step.
    eapply wp_upd_live; [exact L2|apply tcb_wf_ssthresh; [|done]|exact (lv_active _ _ _ _ L2)|].
    { apply ssthresh_range; [done|apply u32_range]. }
    intros w3 L3. wp_step. eapply wp_retransmit_live; [exact L3|]. intros w4 t4 L4 E4 _ _. wp_step.
    eapply wp_stat_live; [exact L4|]. intros w5 L5.
    eapply wp_upd_live; [exact L5|apply tcb_wf_cwnd; [apply u32_range|apply (lv_tcb _ _ _ _ L5)]|
      exact (lv_active _ _ _ _ L5)|].
    intros w6 L6. eapply HQ; [exact L6|exact (out_field E4 tc_state)|exact (out_field E4 rcv_view)|
      exact (out_field E4 snd_view)].
  - destruct (3 <? _); [|wp_step; by eapply HQ]. wp_step.
    eapply wp_upd_live; [exact L2|apply tcb_wf_cwnd; [apply u32_range|done]|exact (lv_active _ _ _ _ L2)|].
    intros w3 L3. eapply wp_output_live; [exact L3|]. intros w4 t4 L4 O4.
    pose proof (od_rest _ _ O4) as E4.
    eapply HQ; [exact L4|exact (out_field E4 tc_state)|exact (out_field E4 rcv_view)|exact (out_field E4 snd_view)].
Qed.

Lemma wp_tcp_input_ack i w0 t s now w :
  live i w0 w t → synced (tc_state t) = true → seg_ok s →
  wp (tcp_input_ack i s now) (stage_post i w0 s t) w.
Proof.
  intros L Hsy Hs. unfold tcp_input_ack. wp_step. eapply wp_get_live; [done|].
  destruct (seq_gt (sg_ack s) (tc_snd_nxt t)) eqn:Hgt.
  { wp_step. eapply wp_stat_live; [done|]. intros w1 L1. wp_step.
    eapply wp_ctl_live; [exact L1|by vm_compute|]. intros w2 [M2 _ _ _]. rewrite seg_sent_state in M2.
    wp_step. split; [exists (tc_state t); auto|by left]. }
  destruct (seq_gt (sg_ack s) (tc_snd_una t)) eqn:Hnew; [by apply wp_tcp_new_ack|].
  destruct (tcp_is_dupack t s).
  - wp_step. eapply wp_tcp_dupack; [exact L|]. intros w1 t1 L1 E1 V1 U1. wp_step. exists t1.
    split; [done|]. apply acks_none; [rewrite E1; constructor|done|done|done].
  - wp_step. exists t. split; [done|]. apply acks_none; [constructor|done|done|done].
Qed.

(** The remaining stages keep the connection. *)
Lemma wp_tcp_input_wnd i w0 t s (Q : () → world → Prop) w :
  live i w0 w t → seg_ok s →
  (∀ w' t', live i w0 w' t' → tc_state t' = tc_state t → rcv_view t' = rcv_view t →
     snd_view t' = snd_view t → Q () w') →
  wp (tcp_input_wnd i s) Q w.
Proof.
  intros L Hs HQ. pose proof (lv_tcb _ _ _ _ L) as Hwf. unfold tcp_input_wnd. wp_step.
  eapply wp_get_live; [done|]. destruct (_ && _); [|wp_step; by eapply HQ]. wp_step.
  eapply wp_upd_live; [exact L| |exact (lv_active _ _ _ _ L)|].
  { destruct Hwf as [? ? ? ? [] ? ? ? ? _ ? ? ? ? ? ?]. split; try done. apply Hs. }
  intros w1 L1. apply wp_when; [intros _|intros _; by eapply HQ].
  eapply wp_output_live; [exact L1|]. intros w2 t2 L2 O2. pose proof (od_rest _ _ O2) as E2.
  eapply HQ; [exact L2|exact (out_field E2 tc_state)|exact (out_field E2 rcv_view)|exact (out_field E2 snd_view)].
Qed.

Lemma wp_tcp_input_text i w0 t s now (Q : () → world → Prop) w :
  live i w0 w t → seg_ok s →
  (∀ w' t', live i w0 w' t' → tc_state t' = tc_state t → snd_view t' = snd_view t → conn_id t' = conn_id t →
     (sg_payload s ≠ [] → tc_state t = TCP_ESTABLISHED →
      rx_extends (rx_taken (sg_seq s) (sg_payload s) t) t t' ∧
      tc_rcv_nxt t' = u32 (tc_rcv_nxt t + (zlen (rcv_data t') - zlen (rcv_data t)))) → Q () w') →
  wp (tcp_input_text i s now) Q w.
Proof.
  intros L Hs HQ. unfold tcp_input_text, sg_paylen. destruct (Z.ltb_spec 0 (zlen (sg_payload s))) as [Hp|Hp].
  2: { wp_step. eapply HQ; [done..|]. destruct (sg_payload s); [done|]. cbn in Hp. lia. }
  wp_step. eapply wp_get_live; [done|]. case_bool_decide as Hst.
  2: { eapply wp_stat_live; [done|]. intros w1 L1. eapply HQ; [done..|]. intros _ E. rewrite E in Hst. set_solver. }
  eapply wp_payload_live; [done|apply Hs..|]. intros w1 t1 L1 P1 T1. pose proof (rp_rest _ _ _ _ P1) as E1.
  eapply HQ; [exact L1|exact (f_equal tc_state E1)|exact (f_equal snd_view E1)|
    exact (f_equal conn_id E1)|]. intros _ _. split; [done|apply P1].
Qed.

(** What a FIN may do. *)
Inductive fin_edge : tcp_state → tcp_state → Prop :=
  | fin_stay st : fin_edge st st
  | fin_passive : fin_edge TCP_ESTABLISHED TCP_CLOSE_WAIT
  | fin_both : fin_edge TCP_FIN_WAIT_1 TCP_CLOSING
  | fin_last : fin_edge TCP_FIN_WAIT_2 TCP_TIME_WAIT.

Lemma fin_next_ok now t :
  tcb_wf t → tc_active t = true →
  tcb_wf (fin_next now t) ∧ tc_active (fin_next now t) = true ∧ fin_edge (tc_state t) (tc_state (fin_next now t)).
Proof.
  intros Hwf Ha. unfold fin_next. destruct (tc_state t) eqn:Hst;
    try (split_and!; [exact Hwf|exact Ha|rewrite Hst; constructor]).
  - split_and!; [apply tcb_wf_set_state; by rewrite ?Hst|exact Ha|constructor].
  - split_and!; [apply tcb_wf_set_state; by rewrite ?Hst|exact Ha|constructor].
  - split_and!; [apply tcb_wf_timewait; by rewrite ?Hst|exact Ha|constructor].
  - split_and!; [|exact Ha|].
    + destruct Hwf as [? ? ? ? [] ? ? ? ? ? ? ? ? ? ? ?]. by split.
    + change (fin_edge TCP_TIME_WAIT (tc_state t)). rewrite Hst. constructor.
Qed.

Lemma wp_tcp_input_fin i w0 t s now w :
  live i w0 w t →
  wp (tcp_input_fin i s now) (fun _ w' => ∃ st, moved i w0 w' st ∧ fin_edge (tc_state t) st) w.
Proof.
  intros L. assert (∃ st, moved i w0 w st ∧ fin_edge (tc_state t) st) as Hstay.
  { exists (tc_state t). split; [apply L|constructor]. }
  unfold tcp_input_fin. destruct (has_flag _ _); [|by wp_step].
  wp_step. eapply wp_get_live; [done|]. cbv zeta. destruct (_ && _); [|by wp_step]. wp_step.
  pose proof (lv_tcb _ _ _ _ L) as Hwf. pose proof (lv_active _ _ _ _ L) as Ha.
  set (f := fun t : tcp_cb => (if bool_decide (tc_state t = TCP_TIME_WAIT) then t else _) <| tc_rcv_eof := true |>).
  assert (tcb_wf (f t) ∧ tc_active (f t) = true ∧ tc_state (f t) = tc_state t) as (Hwf1 & Ha1 & Est).
  { unfold f. destruct Hwf as [? ? ? ? [] ? ? ? ? ? ? ? ? ? ? ?]. destruct (bool_decide _);
      (split_and!; [split; try done|exact Ha|done]). split; try done. apply u32_range. }
  eapply (wp_upd_live i w0 f t); [exact L|exact Hwf1|exact Ha1|]. intros w1 L1. wp_step.
  eapply wp_ctl_live; [exact L1|by vm_compute|]. intros w2 L2. revert L2.
  generalize (seg_sent_state TCP_ACK (f t)). generalize (tcp_seg_sent TCP_ACK (f t)) as t2. intros t2 E2 L2.
  destruct (fin_next_ok now t2 (lv_tcb _ _ _ _ L2) (lv_active _ _ _ _ L2)) as (Hwf3 & Ha3 & He).
  eapply (wp_upd_live i w0 (fin_next now) t2); [exact L2|exact Hwf3|exact Ha3|].
  intros w3 [M3 _ _ _]. rewrite E2, Est in He. eauto.
Qed.

(** ** The whole of segment input *)

(** The stages compose to edges of the state machine. *)
Lemma stages_edge st1 st2 st3 : ack_edge st1 st2 → fin_edge st2 st3 → tcp_edge st1 st3.
Proof. destruct 1; inversion 1; constructor. Qed.

Lemma stages_edge_accepted st2 st3 :
  ack_edge TCP_ESTABLISHED st2 → fin_edge st2 st3 → tcp_edge TCP_SYN_RCVD st3.
Proof. inversion 1; subst; inversion 1; constructor. Qed.

Lemma wp_tcp_input_rst i w0 t s w :
  live i w0 w t → tc_state t ≠ TCP_LISTEN →
  wp (tcp_input_rst i s) (fun _ w' => ∃ st, moved i w0 w' st ∧ tcp_edge (tc_state t) st) w.
Proof.
  intros L Hl. unfold tcp_input_rst. wp_step. eapply wp_stat_live; [done|]. intros w1 L1.
  wp_step. eapply wp_get_live; [done|]. destruct (_ =? _).
  - assert (∀ w', moved i w0 w' TCP_CLOSED → ∃ st, moved i w0 w' st ∧ tcp_edge (tc_state t) st) as Hc.
    { intros w' M. exists TCP_CLOSED. split; [done|]. by constructor. }
    destruct (_ || _); [eapply wp_free_live; [exact L1|done|]; auto|].
    eapply wp_conn_error_live; [exact L1|done|]. auto.
  - wp_step. eapply wp_stat_live; [exact L1|]. intros w2 L2.
    eapply wp_ctl_live; [exact L2|by vm_compute|]. intros w3 [M3 _ _ _]. rewrite seg_sent_state in M3.
    exists (tc_state t). split; [done|constructor].
Qed.

(** From the ACK field on. *)
Lemma wp_tcp_input_rest i w0 t s now st0 w :
  live i w0 w t → synced (tc_state t) = true → seg_ok s →
  (∀ st2 st3, ack_edge (tc_state t) st2 → fin_edge st2 st3 → tcp_edge st0 st3) →
  st0 ≠ TCP_LISTEN → tcp_edge st0 (tc_state t) →
  wp (go ← tcp_input_ack i s now;
      if negb go then mret () else tcp_input_wnd i s;; tcp_input_text i s now;; tcp_input_fin i s now)
     (fun _ w' => ∃ st, moved i w0 w' st ∧ tcp_edge st0 st) w.
Proof.
  intros L Hsy Hs Hedge Hl He0. wp_step. eapply wp_mono; [by apply wp_tcp_input_ack|].
  intros [] w1 Hpost; cbn [negb stage_post] in *.
  2: { wp_step. destruct Hpost as [(st & M & Hst) _]. exists st. split; [done|].
       destruct Hst as [-> | ->]; [done|by constructor]. }
  destruct Hpost as (t1 & L1 & [He1 _ _ _]). wp_step.
  eapply wp_tcp_input_wnd; [exact L1|done|]. intros w2 t2 L2 E2 _ _. wp_step.
  eapply wp_tcp_input_text; [exact L2|done|]. intros w3 t3 L3 E3 _ _ _.
  eapply wp_mono; [by apply (wp_tcp_input_fin i w0 t3)|]. intros _ w4 (st & M4 & He4).
  exists st. split; [done|]. eapply Hedge; [exact He1|]. congruence.
Qed.

Lemma wp_tcp_input_sync i w0 t s now w :
  live i w0 w t → tc_state t ∉ [TCP_CLOSED; TCP_LISTEN; TCP_SYN_SENT] → seg_ok s →
  wp (tcp_input_sync i s now) (fun _ w' => ∃ st, moved i w0 w' st ∧ tcp_edge (tc_state t) st) w.
Proof.
  intros L Hst Hs. assert (tc_state t ≠ TCP_LISTEN) as Hl by set_solver.
  assert (∀ w', moved i w0 w' (tc_state t) → ∃ st, moved i w0 w' st ∧ tcp_edge (tc_state t) st) as Hsame.
  { intros w' M. exists (tc_state t). split; [done|constructor]. }
  assert (∀ w' stat, live i w0 w' t → wp (stat_inc stat;; tcp_send_ctl i TCP_ACK)
    (fun _ w' => ∃ st, moved i w0 w' st ∧ tcp_edge (tc_state t) st) w') as Hack.
  { intros w1 stat L1. wp_step. eapply wp_stat_live; [done|]. intros w2 L2.
    eapply wp_ctl_live; [exact L2|by vm_compute|]. intros w3 [M3 _ _ _]. rewrite seg_sent_state in M3. auto. }
  unfold tcp_input_sync. wp_step. eapply wp_get_live; [done|].
  destruct (negb (tcp_acceptable t s)).
  { destruct (flag_set s TCP_RST); [|by apply Hack].
    wp_step. eapply wp_stat_live; [done|]. intros w1 [M1 _ _ _]. wp_step. auto. }
  destruct (flag_set s TCP_RST); [by eapply wp_tcp_input_rst|].
  destruct (flag_set s TCP_SYN); [by apply Hack|].
  destruct (negb (flag_set s TCP_ACK)); [wp_step; apply Hsame, L|]. wp_step.
  case_bool_decide as Hsr.
  - eapply wp_mono; [by eapply wp_tcp_input_syn_rcvd|]. intros [] w1 Hpost; cbn [negb].
    + destruct Hpost as (t1 & L1 & E1). rewrite Hsr.
      eapply wp_tcp_input_rest; [exact L1|by rewrite E1|done| |done|rewrite E1; constructor].
      rewrite E1. apply stages_edge_accepted.
    + wp_step. destruct Hpost as (st & M & Hm). exists st. split; [done|]. rewrite Hsr.
      apply elem_of_cons in Hm as [-> |Hm]; [constructor|]. apply list_elem_of_singleton in Hm as ->. by constructor.
  - wp_step. cbn [negb]. eapply wp_tcp_input_rest; [exact L| |done| |done|constructor].
    + clear -Hst Hsr. destruct (tc_state t); try done; by destruct Hst; repeat constructor.
    + intros st2 st3. apply stages_edge.
Qed.

Lemma tcb_scan_active l lip lport rip rport seen listener :
  (∀ i, listener = Some i → ∃ t, (seen ++ l) !! i = Some t ∧ tc_active t = true) →
  ∀ i, tcb_scan l (length seen) lip lport rip rport listener = Some i →
  ∃ t, (seen ++ l) !! i = Some t ∧ tc_active t = true.
Proof.
  revert seen listener. induction l as [|t l IH]; intros seen li Hli i; cbn [tcb_scan]; [apply Hli|].
  assert ((seen ++ t :: l) !! length seen = Some t) as Hx by by apply list_lookup_middle.
  replace (S (length seen)) with (length (seen ++ [t])) by (rewrite length_app; cbn; lia).
  replace (seen ++ t :: l) with ((seen ++ [t]) ++ l) in * by by rewrite <- app_assoc.
  destruct (tc_active t) eqn:Ha; cbn [negb]; [|by apply IH].
  destruct (bool_decide _); [apply IH; destruct (_ && _); [by intros ? [= <-]; eauto|done]|].
  destruct (_ && _); [|by apply IH]. intros [= <-]. eauto.
Qed.

Lemma wp_tcp_segment_arrives s w :
  net_wf w → tcp_wf (w_socks w) (w_tcp w) → seg_ok s →
  wp (tcp_segment_arrives s) (fun _ w' => tcp_moved w w') w.
Proof.
  intros Hn Hw Hs. unfold tcp_segment_arrives. cbv zeta. wp_step. wp_step. wp_step.
  unfold tcb_lookup. wp_steps.
  destruct (tcb_scan _ _ _ _ _ _ _) as [i|] eqn:Hsc.
  2: { wp_step. apply wp_stat_inc. intros w1 E1 _ _. pose proof (l4_step_tx _ _ Hn E1) as H1.
       eapply wp_tcp_send_reset_for; [apply H1|apply Hs|]. intros w2 H2.
       destruct (tcp_wf_lookup _ _ 0 Hw) as [t0 Ht0]; [unfold TCP_MAX_CONNS; lia|].
       eapply moved_edge; [exact Ht0|apply edge_stay|]. eapply moved_same; [done..|].
       rewrite (ls_socks _ _ _ _ H1), (ls_tcp _ _ _ _ H1) in H2. by eapply l4_step_trans. }
  destruct (tcb_scan_active (tcbs w) _ _ _ _ [] None ltac:(done) i Hsc) as (t & Hi & Ha). cbn [app] in Hi.
  wp_step. eapply wp_get_tcb; [done|].
  pose proof (live_refl _ _ _ Hn Hw Hi Ha) as L. pose proof (tb_state _ (lv_tcb _ _ _ _ L)) as Hnc.
  assert (tc_state t ∉ [TCP_CLOSED; TCP_LISTEN; TCP_SYN_SENT] →
    wp (tcp_input_sync i s (w_now w)) (fun _ w' => tcp_moved w w') w) as Hsync.
  { intros Hst. eapply wp_mono; [by eapply wp_tcp_input_sync|]. intros _ w' (st' & M & He).
    by eapply moved_edge. }
  destruct (tc_state t) eqn:Hst; try done;
    try (apply Hsync; rewrite !not_elem_of_cons; split_and!; [done..|apply not_elem_of_nil]).
  - by eapply wp_tcp_input_listen.
  - eapply wp_mono; [by eapply wp_tcp_input_syn_sent|]. intros _ w' (st' & M & He).
    eapply moved_edge; [done| |exact M]. rewrite Hst. unfold syn_sent_edge in He.
    repeat (apply elem_of_cons in He as [-> |He]; [by constructor|]). by apply not_elem_of_nil in He.
Qed.

Lemma wp_tcp_input p ih w :
  net_wf w → tcp_wf (w_socks w) (w_tcp w) → rx_dgram p ih →
  wp (tcp_input p ih) (fun _ w' => tcp_moved w w') w.
Proof.
  intros Hn Hw Hrx. pose proof (length_ip_payload _ _ Hrx) as Hpl.
  pose proof Hrx as [Hwf _ Hok Hihl]. pose proof (wf_fits _ Hwf). pose proof (wf_data _ Hwf).
  assert (∀ w', erase_tx w = erase_tx w' → tcp_moved w w') as Hskip.
  { intros w' E. destruct (tcp_wf_lookup _ _ 0 Hw) as [t0 Ht0]; [unfold TCP_MAX_CONNS; lia|].
    eapply moved_edge; [exact Ht0|apply edge_stay|]. eapply moved_same; [done..|]. by apply l4_step_tx. }
  unfold tcp_input. wp_step. apply wp_stat_inc. intros w1 E1 _ _. cbv zeta.
  rewrite (ip_payload_len16 _ _ Hrx), <- Hpl. set (l4 := ip_payload p ih) in *.
  destruct (Z.ltb_spec (zlen l4) TCP_HDR_MIN).
  { apply wp_stat_inc. intros w2 E2 _ _. apply Hskip. congruence. }
  wp_step. rewrite Hpl. eapply wp_lift; [by apply ip_payload_read|]. wp_step. fold l4.
  pose proof (ip_payload_ok _ _ Hrx) as Hl4. fold l4 in Hl4.
  destruct (read_tcp_ok l4 Hl4) as (th & Hth & Htok & _); [unfold TCP_HDR_MIN in *; lia|].
  eapply wp_lift; [exact Hth|]. rewrite <- Hpl. destruct (_ || _) eqn:Hbad.
  { apply wp_stat_inc. intros w2 E2 _ _. apply Hskip. congruence. }
  apply orb_false_iff in Hbad as [Hb1%Z.ltb_ge Hb2%Z.ltb_ge]. destruct (negb _).
  { apply wp_stat_inc. intros w2 E2 _ _. apply Hskip. congruence. }
  unfold TCP_HDR_MIN in *. wp_step. eapply wp_lift; [apply mem_read_ok; lia|].
  pose proof (l4_step_tx _ _ Hn E1) as S1.
  eapply wp_mono; [apply wp_tcp_segment_arrives|].
  - apply S1.
  - by rewrite (ls_socks _ _ _ _ S1), (ls_tcp _ _ _ _ S1).
  - split; cbn [sg_ih sg_seq sg_ack sg_wnd sg_payload sg_bytes sg_th]; try done.
    + apply ntohl_u32, Htok.
    + apply ntohl_u32, Htok.
    + apply htons_range.
    + by apply Forall_take, Forall_drop.
    + unfold sg_paylen. cbn [sg_payload]. rewrite length_take, length_drop. wrap_lia.
  - intros _ w' (i & st & st' & Hi & He & [M1 M2 M3 M4]). exists i, st, st'.
    assert (states w1 = states w) as Es by (unfold states; by rewrite (ls_tcp _ _ _ _ S1)).
    rewrite Es in Hi, M4. split_and!; [done|done|]. split; try done.
    rewrite (ls_frame _ _ _ _ S1). done.
Qed.

(** ** Properties *)

(** A SYN from 10.0.0.2:5000 to 10.0.0.1:80, as received. *)
Definition demo_syn : bytes :=
  tcp_segment 0x0a000002 0x0a000001
    (mk_tcp (pf_htons 5000) (pf_htons 80) (pf_htonl 99) 0 80 TCP_SYN (pf_htons 1000) 0 0) [].

Lemma demo_syn_rx :
  rx_dgram (mk_rx (ip_datagram 0x0a000002 0x0a000001 IP_PROTO_TCP 64 1 0 demo_syn))
    (ip_build_hdr 0x0a000002 0x0a000001 IP_PROTO_TCP 64 1 0 (zlen demo_syn + IPV4_HDR_MIN)).
Proof.
  apply mk_rx_datagram; [lia|lia|wrap_lia|wrap_lia| |].
  - apply tcp_segment_ok; [by vm_compute|by vm_compute|apply Forall_nil_2].
  - unfold demo_syn. rewrite length_tcp_segment. cbn [length]. wrap_lia.
Qed.

(** C10. Every datagram the IP layer can hand to TCP, however malformed or
    hostile its contents, is processed to the end: no assertion fails, no
    access leaves a buffer, no division by zero. The connection invariant and
    the network layer's hold again, and at most one connection changed state,
    along an edge of the TCP state diagram. *)
Theorem tcp_input_safe w p ih :
  net_wf w → tcp_wf (w_socks w) (w_tcp w) → rx_dgram p ih →
  ∃ w', tcp_input p ih w = Ok ((), w') ∧ net_wf w' ∧ tcp_wf (w_socks w') (w_tcp w') ∧
    erase_l4 w = erase_l4 w' ∧
    ∃ i st st', states w !! i = Some st ∧ tcp_edge st st' ∧ states w' = <[i:=st']> (states w).
Proof.
  intros Hn Hw Hrx. pose proof (wp_tcp_input p ih w Hn Hw Hrx) as H.
  apply wp_run in H as ([] & w' & Hrun & i & st & st' & Hi & He & [M1 M2 M3 M4]).
  exists w'. split_and!; try done. exists i, st, st'. done.
Qed.

Lemma tcp_input_safe_witness :
  ∃ w', tcp_input (mk_rx (ip_datagram 0x0a000002 0x0a000001 IP_PROTO_TCP 64 1 0 demo_syn))
      (ip_build_hdr 0x0a000002 0x0a000001 IP_PROTO_TCP 64 1 0 (zlen demo_syn + IPV4_HDR_MIN))
      demo_tcp_world = Ok ((), w').
Proof.
  destruct (tcp_input_safe demo_tcp_world _ _ demo_tcp_net demo_tcp_wf demo_syn_rx) as (w' & H & _).
  exact (ex_intro _ w' H).
Defined.

(** C8. Stream integrity: fix any assignment [f] of bytes to sequence
    numbers. If everything the receiver holds agrees with [f] (the readable
    bytes, which end just before [rcv_nxt], and the parked segments), then
    after processing received data that agrees with [f], in whatever order,
    overlap or duplication it arrives, what it holds still does; what was
    readable stays readable, the part of the segment that continues it is
    appended as far as the window reaches, and [rcv_nxt] advances by exactly
    the number of bytes appended. *)
Theorem tcp_rx_stream w i t seq data now :
  net_wf w → tcbs w !! i = Some t → tcb_wf t → bytes_ok data → u32_ok seq →
  zlen data ≤ PKT_BUF_SIZE - PKT_RX_OFFSET →
  ∃ w' t', tcp_rx_payload i seq data now w = Ok ((), w') ∧ tcbs w' = <[i:=t']> (tcbs w) ∧ tcb_wf t' ∧
    rx_extends (rx_taken seq data t) t t' ∧
    tc_rcv_nxt t' = u32 (tc_rcv_nxt t + (zlen (rcv_data t') - zlen (rcv_data t))) ∧
    ∀ f, agrees f seq data → rcv_agrees f t → rcv_agrees f t'.
Proof.
  intros Hn Hi Hwf Hd Hs Hl.
  cut (wp (tcp_rx_payload i seq data now) (fun _ w' => ∃ t', tcb_step i w w' t' ∧ rx_post seq data t t' ∧
    rx_extends (rx_taken seq data t) t t') w).
  2: { eapply wp_tcp_rx_payload; [done..|]. eauto. }
  intros ([] & w' & Hrun & t' & H & [P1 P2 P3 P4 P5] & T)%wp_run. exists w', t'. split_and!; try done.
  by rewrite (ls_tcp _ _ _ _ H).
Qed.

Lemma tcp_rx_stream_witness :
  ∃ w' t', tcp_rx_payload 0 1000 [1; 2; 3] 0 demo_tcp_world = Ok ((), w') ∧
    tcbs w' = <[0%nat:=t']> (tcbs demo_tcp_world).
Proof.
  destruct (tcp_rx_stream demo_tcp_world 0 demo_conn 1000 [1; 2; 3] 0 demo_tcp_net demo_tcp_at demo_conn_wf
    ltac:(solve_bytes_ok) ltac:(lia) ltac:(cbn [length]; wrap_lia)) as (w' & t' & H1 & H2 & _).
  exact (ex_intro _ w' (ex_intro _ t' (conj H1 H2))).
Defined.

(** ** The receive window *)

(** The window the receiver offers: the room left, at most what 16 bits say. *)
Definition rx_window (t : tcp_cb) : Z := Z.min (TCP_RCVBUF - tc_rcv_len t) 65535.

(** How far past [rcv_nxt] a sequence number is, modulo 2^32. *)
Definition rx_offset (t : tcp_cb) (x : Z) : Z := (x - tc_rcv_nxt t) mod 2 ^ 32.

(** The sequence numbers [s] occupies: its data, SYN and FIN. *)
Definition seg_span (s : segment) : Z :=
  zlen (sg_payload s) + Z.b2z (flag_set s TCP_SYN) + Z.b2z (flag_set s TCP_FIN).

(** RFC 9293, 3.10.7.4: the four cases of an acceptable segment. *)
Inductive seg_acceptable (t : tcp_cb) (s : segment) : Prop :=
  | acceptable_closed : seg_span s = 0 → rx_window t = 0 → sg_seq s = tc_rcv_nxt t → seg_acceptable t s
  | acceptable_empty : seg_span s = 0 → rx_offset t (sg_seq s) < rx_window t → seg_acceptable t s
  | acceptable_first : 0 < seg_span s → rx_offset t (sg_seq s) < rx_window t → seg_acceptable t s
  | acceptable_last : 0 < seg_span s → rx_offset t (sg_seq s + seg_span s - 1) < rx_window t →
      seg_acceptable t s.

Lemma rx_window_eq t : tcb_wf t → tcp_rcv_window t = rx_window t ∧ 0 ≤ rx_window t ≤ 65535.
Proof.
  intros Hwf. pose proof (rv_len _ (tb_rcv _ Hwf)). unfold tcp_rcv_window, rx_window. wrap_lia.
Qed.

(** The code's two comparisons test the offset. *)
Lemma in_window_iff t x w :
  0 ≤ w ≤ 65535 →
  seq_ge x (tc_rcv_nxt t) && seq_lt x (u32 (tc_rcv_nxt t + w)) = true ↔ rx_offset t x < w.
Proof.
  intros Hw. rewrite andb_true_iff, seq_ge_iff, seq_lt_iff. unfold rx_offset. fold (u32 (x - tc_rcv_nxt t)). wrap_lia.
Qed.

Lemma rx_offset_u32 t x : rx_offset t (u32 x) = rx_offset t x.
Proof. unfold rx_offset, u32. by rewrite Zminus_mod_idemp_l. Qed.

Lemma sg_seqlen_span s : sg_seqlen s = seg_span s.
Proof. unfold sg_seqlen, seg_span, sg_paylen. by destruct (flag_set s TCP_SYN), (flag_set s TCP_FIN). Qed.

(** The code accepts exactly the acceptable segments. *)
Lemma tcp_acceptable_iff t s : tcb_wf t → u32_ok (sg_seq s) → tcp_acceptable t s = true ↔ seg_acceptable t s.
Proof.
  intros Hwf Hs. destruct (rx_window_eq t Hwf) as [Ew Hw]. unfold tcp_acceptable. cbv zeta.
  rewrite Ew, sg_seqlen_span. assert (0 ≤ seg_span s) as Hp.
  { unfold seg_span. destruct (flag_set s TCP_SYN), (flag_set s TCP_FIN); cbn [Z.b2z]; lia. }
  assert (∀ x, 0 ≤ rx_offset t x) as Hx by (intros x; apply Z.mod_pos_bound; lia).
  pose proof (Hx (sg_seq s)). pose proof (Hx (sg_seq s + seg_span s - 1)).
  destruct (Z.eqb_spec (seg_span s) 0) as [E0|E0]; [destruct (Z.eqb_spec (rx_window t) 0) as [E1|E1]|].
  - rewrite Z.eqb_eq. split; [by apply acceptable_closed|]. intros []; [done|lia..].
  - rewrite in_window_iff by done. split; [by apply acceptable_empty|]. intros []; done || lia.
  - rewrite andb_true_iff, orb_true_iff, Z.ltb_lt, !in_window_iff, rx_offset_u32 by done. split.
    + intros [_ [?|?]]; [apply acceptable_first|apply acceptable_last]; done || lia.
    + intros []; (split; [lia|]); (by left) || (by right) || lia.
Qed.

(** The sockets when the owner of [t] lost it with the error [err]. *)
Definition owner_lost (w : world) (t : tcp_cb) (err : Z) (w' : world) : Prop :=
  ∀ j k, socks w !! j = Some k →
    socks w' !! j = Some (if bool_decide (tc_sock_idx t = Z.of_nat j) then k <| sk_tcb := None |> <| sk_err := err |>
                          else k).

Lemma detach_owner_lost w t err w' : w_socks w' = detach_socks (w_socks w) t err → owner_lost w t err w'.
Proof.
  intros E j k Hk. rewrite E. unfold detach_socks. destruct (Z.leb_spec 0 (tc_sock_idx t)).
  - change (alter (fun k => k <| sk_tcb := None |> <| sk_err := err |>) (Z.to_nat (tc_sock_idx t)) (socks w) !! j =
      Some (if bool_decide (tc_sock_idx t = Z.of_nat j) then k <| sk_tcb := None |> <| sk_err := err |> else k)).
    case_bool_decide as Hj.
    + assert (Z.to_nat (tc_sock_idx t) = j) as -> by lia. by rewrite list_lookup_alter_eq, Hk.
    + rewrite list_lookup_alter_ne by lia. done.
  - rewrite bool_decide_eq_false_2 by lia. done.
Qed.

(** A connection whose reset is not reported: one a listener has not handed
    out yet, or one closed already. *)
Definition reset_quietly (t : tcp_cb) : bool :=
  (bool_decide (tc_state t = TCP_SYN_RCVD) && bool_decide (is_Some (tc_listener t)))
  || bool_decide (tc_state t ∈ [TCP_CLOSING; TCP_LAST_ACK; TCP_TIME_WAIT]).

(** What an acceptable reset does. *)
Definition rst_post (w : world) (i : nat) (t : tcp_cb) (s : segment) (w' : world) : Prop :=
  if sg_seq s =? tc_rcv_nxt t
  then tcbs w' = <[i:=zero_tcb]> (tcbs w) ∧ owner_lost w t (if reset_quietly t then 0 else PF_ECONNRESET) w'
  else tcbs w' = <[i:=tcp_seg_sent TCP_ACK t]> (tcbs w) ∧ w_socks w' = w_socks w ∧
       ip_output_post w (tc_local_ip t) (tc_remote_ip t) IP_PROTO_TCP IP_DEFAULT_TTL
         (tcp_message t TCP_ACK (tc_snd_nxt t) []) w'.

Lemma wp_rst_established i t s w :
  net_wf w → tcp_wf (w_socks w) (w_tcp w) → tcbs w !! i = Some t → tc_active t = true →
  tc_state t ≠ TCP_LISTEN → wp (tcp_input_rst i s) (fun _ w' => rst_post w i t s w') w.
Proof.
  intros Hn Hw Hi Ha Hl. unfold tcp_input_rst, rst_post. wp_step. apply wp_stat_inc. intros w1 E1 W1 _.
  pose proof (l4_step_tx _ _ Hn E1) as S1.
  assert (tcbs w1 !! i = Some t ∧ tcp_wf (w_socks w1) (w_tcp w1)) as [Hi1 Hw1].
  { by rewrite (ls_socks _ _ _ _ S1), (ls_tcp _ _ _ _ S1). }
  wp_step. eapply wp_get_tcb; [done|]. fold (reset_quietly t). destruct (sg_seq s =? tc_rcv_nxt t).
  - assert (slot_wf (detach_tcb t)) as Hd.
    { apply slot_wf_active; [unfold detach_tcb; by destruct (0 <=? _)|].
      by eapply detach_tcb_wf, tcp_wf_active. }
    destruct (reset_quietly t).
    + eapply wp_tcb_free_conn; [apply S1|done..|]. intros w2 H2.
      rewrite (ls_tcp _ _ _ _ H2), (ls_tcp _ _ _ _ S1). split; [done|]. apply detach_owner_lost.
      by rewrite (ls_socks _ _ _ _ H2), (ls_socks _ _ _ _ S1).
    + eapply wp_tcp_conn_error; [apply S1|done..|]. intros w2 H2.
      rewrite (ls_tcp _ _ _ _ H2), (ls_tcp _ _ _ _ S1). split; [done|]. apply detach_owner_lost.
      by rewrite (ls_socks _ _ _ _ H2), (ls_socks _ _ _ _ S1).
  - wp_step. apply wp_stat_inc. intros w2 E2 W2 _.
    pose proof (tcb_step_same i w w2 t Hi ltac:(eapply net_wf_tx; [done|congruence]) ltac:(congruence)) as S2.
    eapply wp_tcp_send_ctl; [apply S2|exact (tcb_step_lookup i w w2 t t Hi S2)|by eapply tcp_wf_active|by vm_compute|].
    intros w3 S3 P3. pose proof (tcb_step_trans _ _ _ _ _ _ S2 S3) as S.
    rewrite (ls_tcp _ _ _ _ S), (ls_socks _ _ _ _ S). split_and!; [done|done|].
    eapply (ip_output_post_tx _ w2); [congruence|congruence|exact P3].
Qed.

(** C30. Blind-reset defence (RFC 5961). The window is the room left in the
    receive buffer, at most 65535; a segment is acceptable by RFC 9293's four
    cases, on sequence numbers modulo 2^32. For any connection past SYN-SENT, a
    reset that is not acceptable (one with data is not when the window is
    closed) changes no connection and no socket and is not answered. An
    acceptable one that does not start exactly at [rcv_nxt] (also one whose data
    starts before [rcv_nxt] and ends in the window) only makes the stack send
    its current ACK. One that starts at [rcv_nxt] releases the connection; its
    socket, if any, loses it and reads ECONNRESET, or no error if the
    connection was not handed out yet or is in CLOSING, LAST-ACK or TIME-WAIT. *)
Theorem tcp_rst_defence w i t s now :
  net_wf w → tcp_wf (w_socks w) (w_tcp w) → tcbs w !! i = Some t → tc_active t = true →
  tc_state t ≠ TCP_LISTEN → u32_ok (sg_seq s) → flag_set s TCP_RST = true →
  ∃ w', tcp_input_sync i s now w = Ok ((), w') ∧
  (¬ seg_acceptable t s → tcbs w' = tcbs w ∧ w_socks w' = w_socks w ∧ w_wire w' = w_wire w) ∧
  (seg_acceptable t s → sg_seq s ≠ tc_rcv_nxt t →
     tcbs w' = <[i:=tcp_seg_sent TCP_ACK t]> (tcbs w) ∧ w_socks w' = w_socks w ∧
     ip_output_post w (tc_local_ip t) (tc_remote_ip t) IP_PROTO_TCP IP_DEFAULT_TTL
       (tcp_message t TCP_ACK (tc_snd_nxt t) []) w') ∧
  (seg_acceptable t s → sg_seq s = tc_rcv_nxt t →
     tcbs w' = <[i:=zero_tcb]> (tcbs w) ∧ owner_lost w t (if reset_quietly t then 0 else PF_ECONNRESET) w').
Proof.
  intros Hn Hw Hi Ha Hl Hs Hr. pose proof (tcp_wf_active _ _ _ _ Hw Hi Ha) as Hwf.
  pose proof (tcp_acceptable_iff t s Hwf Hs) as Hacc.
  cut (wp (tcp_input_sync i s now) (fun _ w' => if tcp_acceptable t s then rst_post w i t s w'
    else tcbs w' = tcbs w ∧ w_socks w' = w_socks w ∧ w_wire w' = w_wire w) w).
  { intros ([] & w' & Hrun & Hp)%wp_run. exists w'. split; [done|]. unfold rst_post in Hp.
    destruct (tcp_acceptable t s); [|split_and!; [done|intros H; by apply Hacc in H..]].
    split_and!; [intros []; by apply Hacc| |]; intros _ E.
    - by rewrite (proj2 (Z.eqb_neq _ _) E) in Hp.
    - by rewrite (proj2 (Z.eqb_eq _ _) E) in Hp. }
  unfold tcp_input_sync. wp_step. eapply wp_get_tcb; [done|]. rewrite Hr.
  destruct (tcp_acceptable t s); cbn [negb]; [by apply wp_rst_established|].
  wp_step. apply wp_stat_inc. intros w1 E1 W1 _. wp_step. pose proof (l4_step_tx _ _ Hn E1) as S1.
  by rewrite (ls_tcp _ _ _ _ S1), (ls_socks _ _ _ _ S1).
Qed.

(** A reset at the connection's [rcv_nxt]. *)
Definition demo_rst : segment :=
  mk_seg (ip_build_hdr 0x0a000002 0x0a000001 IP_PROTO_TCP 64 1 0 40)
    (mk_tcp 0 0 0 0 80 TCP_RST 0 0 0) [] 1000 0 0 TCP_RST [].

Lemma tcp_rst_defence_witness :
  ∃ w', tcp_input_sync 0 demo_rst 0 demo_tcp_world = Ok ((), w') ∧
    tcbs w' = <[0%nat:=zero_tcb]> (tcbs demo_tcp_world) ∧ owner_lost demo_tcp_world demo_conn PF_ECONNRESET w'.
Proof.
  destruct (tcp_rst_defence demo_tcp_world 0 demo_conn demo_rst 0 demo_tcp_net demo_tcp_wf demo_tcp_at
    eq_refl ltac:(done) ltac:(split; [exact ltac:(done)|exact eq_refl]) eq_refl) as (w' & H1 & _ & _ & H2).
  exists w'. split; [exact H1|]. apply H2; [|reflexivity].
  apply acceptable_empty; [reflexivity|]. by vm_compute.
Defined.

(** The connection once its SYN was acknowledged by [s]: open, nothing in
    flight, the peer's window, the initial congestion window of RFC 3390, no
    retransmission pending. *)
Definition handshake_done (s : segment) (t : tcp_cb) : tcp_cb :=
  t <| tc_snd_una := tc_snd_nxt t |> <| tc_state := TCP_ESTABLISHED |>
    <| tc_snd_wnd := sg_wnd s |> <| tc_snd_wl1 := sg_seq s |> <| tc_snd_wl2 := sg_ack s |>
    <| tc_cwnd := Z.min (4 * tc_mss t) (Z.max (2 * tc_mss t) 4380) |> <| tc_ssthresh := 2 ^ 32 - 1 |>
    <| tc_rto_deadline := 0 |> <| tc_rtx_count := 0 |>.

Lemma tcp_established_done s t : tcp_established s (t <| tc_snd_una := tc_snd_nxt t |>) = handshake_done s t.
Proof.
  unfold tcp_established, tcp_cwnd_init, handshake_done.
  set (x := _ <| tc_snd_wl2 := sg_ack s |>). assert (tc_mss x = tc_mss t) as -> by done. done.
Qed.

Lemma slot_backlog lt : slot_wf lt → tc_backlog lt ≤ TCP_ACCEPT_QLEN.
Proof.
  unfold slot_wf. destruct (tc_active lt); [intros H; apply (tb_accept _ H)|].
  intros ((_ & -> & _) & _). by vm_compute.
Qed.

(** A reset of a connection whose peer knows it: RST on the wire, the block
    free, the owner detached. *)
Record conn_aborted (w : world) (i : nat) (t : tcp_cb) (w' : world) : Prop := {
  ab_table : tcbs w' = <[i:=zero_tcb]> (tcbs w);
  ab_owner : owner_lost w t 0 w';
  ab_rst : ip_output_post w (tc_local_ip t) (tc_remote_ip t) IP_PROTO_TCP IP_DEFAULT_TTL
             (tcp_message t (Z.lor TCP_RST TCP_ACK) (tc_snd_nxt t) []) w';
}.

Lemma wp_tcp_app_abort_conn i t w :
  net_wf w → tcp_wf (w_socks w) (w_tcp w) → tcbs w !! i = Some t → tc_active t = true →
  tc_state t ∉ [TCP_LISTEN; TCP_SYN_SENT] →
  wp (tcp_app_abort i) (fun _ w' => conn_aborted w i t w') w.
Proof.
  intros Hn Hw Hi Ha Hst. pose proof (tcp_wf_active _ _ _ _ Hw Hi Ha) as Hwf.
  unfold tcp_app_abort. wp_step. eapply wp_get_tcb; [done|].
  rewrite !bool_decide_eq_false_2 by set_solver. cbn [negb andb when]. wp_step.
  eapply wp_tcp_send_ctl; [done|done|done|by vm_compute|]. intros w1 S1 P1.
  assert (tc_state (tcp_seg_sent (Z.lor TCP_RST TCP_ACK) t) = tc_state t) as Es by done.
  assert (slot_wf (tcp_seg_sent (Z.lor TCP_RST TCP_ACK) t)) as Hs2 by (apply slot_wf_active; [done|by apply tcb_wf_seg_sent]).
  eapply (wp_tcb_free_conn_silent _ i (tcp_seg_sent (Z.lor TCP_RST TCP_ACK) t)).
  - apply S1.
  - rewrite (ls_socks _ _ _ _ S1), (ls_tcp _ _ _ _ S1). by apply tcp_wf_put.
  - by eapply tcb_step_lookup.
  - rewrite Es. set_solver.
  - intros w2 S2 [A2 W2]. split.
    + rewrite (ls_tcp _ _ _ _ S2), (ls_tcp _ _ _ _ S1), put_tcb_put. done.
    + apply detach_owner_lost. rewrite (ls_socks _ _ _ _ S2), (ls_socks _ _ _ _ S1). done.
    + eapply ip_output_post_to; [done..|]. exact P1.
Qed.

(** C31. The passive handshake. In SYN-RECEIVED only the acknowledgement of
    exactly our SYN completes it; any other acknowledgement changes no
    connection. When it completes, the child becomes ESTABLISHED with nothing
    in flight, the peer's window, the initial congestion window min(4 mss,
    max(2 mss, 4380)) and no timer, nothing else in its block changing; then,
    if it has a listener with room in its accept queue, it joins the end of
    that queue; if the queue is full, it is released, its peer being sent RST;
    and no other entry of the table changes. *)
Theorem tcp_accept_queued w i t s :
  net_wf w → tcp_wf (w_socks w) (w_tcp w) → seg_ok s →
  tcbs w !! i = Some t → tc_active t = true → tc_state t = TCP_SYN_RCVD → tc_listener t ≠ Some i →
  ∃ go w', tcp_input_syn_rcvd i s w = Ok (go, w') ∧
  (sg_ack s ≠ tc_snd_nxt t → go = false ∧ tcbs w' = tcbs w) ∧
  (sg_ack s = tc_snd_nxt t →
     match tc_listener t with
     | None => go = true ∧ tcbs w' = <[i:=handshake_done s t]> (tcbs w)
     | Some l => ∃ lt, tcbs w !! l = Some lt ∧
         (zlen (tc_acceptq lt) < tc_backlog lt → go = true ∧
            tcbs w' = <[l:=lt <| tc_acceptq ::= fun q => q ++ [i] |>]> (<[i:=handshake_done s t]> (tcbs w))) ∧
         (tc_backlog lt ≤ zlen (tc_acceptq lt) → go = false ∧ conn_aborted w i t w')
     end).
Proof.
  intros Hn Hw Hs Hi Ha Hst Hne. pose proof (tcp_wf_active _ _ _ _ Hw Hi Ha) as Hwf.
  match goal with |- ∃ go w', _ = _ ∧ @?P go w' =>
    cut (wp (tcp_input_syn_rcvd i s) P w); [intros (go & w' & Hrun & ?)%wp_run; by exists go, w'|] end.
  unfold tcp_input_syn_rcvd. wp_step. eapply wp_get_tcb; [done|]. destruct (_ && _) eqn:Hack.
  - apply andb_true_iff in Hack as [Hlt Hle].
    destruct (syn_acked t (sg_ack s)) as (Ea & _); [apply Hwf|by right|apply Hs|by left|by left|].
    wp_step. apply wp_stat_inc. intros w1 E1 W1 _. pose proof (l4_step_tx _ _ Hn E1) as S1. wp_step.
    eapply wp_upd_tcb; [rewrite (ls_tcp _ _ _ _ S1); exact Hi|]. rewrite Ea, tcp_established_done.
    set (t' := handshake_done s t). set (w2 := set_tcp w1 _).
    assert (tcbs w2 = <[i:=t']> (tcbs w)) as T2 by (by rewrite <- (ls_tcp _ _ _ _ S1)).
    destruct (tc_listener t) as [l|] eqn:Hli; [|wp_step; by split].
    destruct (tcp_wf_lookup _ _ l Hw) as [lt Hl]; [by apply (tb_listener _ Hwf)|].
    assert (tcbs w2 !! l = Some lt) as Hl2 by (rewrite T2, list_lookup_insert_ne; congruence).
    wp_step. eapply wp_get_tcb; [exact Hl2|].
    destruct (Z.ltb_spec (zlen (tc_acceptq lt)) (tc_backlog lt)) as [Hq|Hq].
    + assert (tc_backlog lt ≤ TCP_ACCEPT_QLEN) as Hb by (by eapply slot_backlog, tcp_wf_slot).
      wp_step. unfold tcp_accept_push. wp_step. eapply wp_get_tcb; [exact Hl2|]. wp_step.
      eapply wp_lift; [by rewrite (proj2 (Z.ltb_lt _ _)) by lia|].
      eapply wp_upd_tcb; [exact Hl2|]. wp_step. split; [done|]. intros _. exists lt.
      split_and!; [done| |lia]. intros _. split; [done|]. by rewrite <- T2.
    + wp_step. apply wp_stat_inc. intros w3 E3 W3 _. wp_step.
      assert (tcb_wf t') as Hwf' by (unfold t'; rewrite <- tcp_established_done; by apply tcb_wf_established; [|right|]).
      assert (net_wf w2) as Hn2 by apply net_wf_set_tcp, S1. pose proof (l4_step_tx _ _ Hn2 E3) as S3.
      assert (w_tcp w2 = put_tcb (w_tcp w) i t') as G2 by (by rewrite <- (ls_tcp _ _ _ _ S1)).
      assert (w_socks w2 = w_socks w) as K2 by (by rewrite <- (ls_socks _ _ _ _ S1)).
      eapply wp_mono; [apply (wp_tcp_app_abort_conn i t')|].
      * apply S3.
      * rewrite (ls_socks _ _ _ _ S3), (ls_tcp _ _ _ _ S3), G2, K2. by apply tcp_wf_put, slot_wf_active.
      * rewrite (ls_tcp _ _ _ _ S3), G2. by eapply put_tcb_lookup.
      * done.
      * change (TCP_ESTABLISHED ∉ [TCP_LISTEN; TCP_SYN_SENT]). set_solver.
      * intros _ w4 [B1 B2 B3]. wp_step. split; [done|]. intros _. exists lt.
        split_and!; [done|lia|]. intros _. split; [done|]. split.
        -- rewrite B1, (ls_tcp _ _ _ _ S3), T2. apply list_insert_insert_eq.
        -- intros j k Hk. apply (B2 j k). by rewrite (ls_socks _ _ _ _ S3), K2.
        -- eapply (ip_output_post_tx w w1); [done..|]. eapply (ip_output_post_from w1 w2); [done..|].
           eapply (ip_output_post_tx w2 w3); [done..|]. exact B3.
  - wp_step. eapply wp_tcp_send_reset_for; [done|apply Hs|]. intros w1 S1. wp_step.
    split; [intros _; by rewrite (ls_tcp _ _ _ _ S1)|]. intros E. exfalso.
    pose proof (tb_snd _ Hwf) as Hsnd. unfold snd_ok in Hsnd. rewrite Hst in Hsnd.
    destruct Hsnd as (_ & _ & _ & _ & Hfl & _). apply andb_false_iff in Hack. rewrite E in Hack.
    rewrite <- !not_true_iff_false, seq_lt_iff, seq_le_iff, Z.sub_diag in Hack. rewrite Hfl in Hack.
    destruct Hack; wrap_lia.
Qed.

(** A listener with an embryonic child. *)
Definition demo_child : tcp_cb :=
  demo_conn <| tc_state := TCP_SYN_RCVD |> <| tc_iss := 4999 |> <| tc_snd_una := 4999 |>
    <| tc_snd_len := 0 |> <| tc_listener := Some 1%nat |> <| tc_sock_idx := -1 |>.
Definition demo_listener : tcp_cb :=
  demo_conn <| tc_state := TCP_LISTEN |> <| tc_snd_len := 0 |> <| tc_backlog := 4 |>.
Definition demo_embryo_world : world :=
  set_tcp demo_tcp_world (mk_tcpg (demo_child :: demo_listener :: replicate 14 zero_tcb) 1).

Lemma tcb_wf_embryo t l :
  tcb_wf t → u32 (tc_snd_nxt t - 4999) = 1 → (l < TCP_MAX_CONNS)%nat →
  tc_fin_sent t = false → tc_fin_queued t = false →
  tcb_wf (t <| tc_state := TCP_SYN_RCVD |> <| tc_iss := 4999 |> <| tc_snd_una := 4999 |>
            <| tc_snd_len := 0 |> <| tc_listener := Some l |> <| tc_sock_idx := -1 |>).
Proof.
  intros [? ? ? ? [] ? ? ? ? ? Hs ? ? ? ? ?] E Hl Hf1 Hf2. destruct Hs as (_ & Hn & _). split; try done.
  intros l' E'. change (Some l = Some l') in E'. injection E' as <-. by split.
Qed.

Lemma tcb_wf_listening t :
  tcb_wf t → tc_acceptq t = [] → tc_listener t = None →
  tcb_wf (t <| tc_state := TCP_LISTEN |> <| tc_snd_len := 0 |> <| tc_backlog := 4 |>).
Proof.
  intros [? ? ? ? [] ? ? ? ? ? Hs ? ? ? ? ?] E El. destruct Hs as (Hu & Hn & _). split; try done.
  - change (zlen (tc_acceptq t) ≤ 4 ≤ TCP_ACCEPT_QLEN). rewrite E. by vm_compute.
  - intros l E'. change (tc_listener t = Some l) in E'. congruence.
Qed.

Lemma demo_embryo_wf : tcp_wf (w_socks demo_embryo_world) (w_tcp demo_embryo_world).
Proof.
  destruct demo_tcp_wf as [_ _ _ H4 H5].
  change (tcp_wf (w_socks demo_tcp_world) (mk_tcpg (demo_child :: demo_listener :: replicate 14 zero_tcb) 1)).
  split; [reflexivity| |change (u32_ok 1); lia|exact H4|exact H5].
  change (Forall slot_wf (demo_child :: demo_listener :: replicate 14 zero_tcb)).
  apply Forall_cons_2; [|apply Forall_cons_2; [|apply Forall_replicate, zero_tcb_slot]].
  - apply slot_wf_active; [reflexivity|]. apply (tcb_wf_embryo demo_conn 1); [exact demo_conn_wf|reflexivity| |reflexivity..].
    unfold TCP_MAX_CONNS. lia.
  - apply slot_wf_active; [reflexivity|]. apply (tcb_wf_listening demo_conn); [exact demo_conn_wf|reflexivity..].
Qed.

(** The acknowledgement of the child's SYN. *)
Definition demo_ack : segment :=
  mk_seg (ip_build_hdr 0x0a000002 0x0a000001 IP_PROTO_TCP 64 1 0 40)
    (mk_tcp 0 0 0 0 80 TCP_ACK 0 0 0) (replicate 20 0) 1000 5000 700 TCP_ACK [].

Lemma demo_ack_ok : seg_ok demo_ack.
Proof.
  split.
  - apply ip_build_hdr_ok; wrap_lia.
  - change (u32_ok 1000). lia.
  - change (u32_ok 5000). lia.
  - change (u16_ok 700). lia.
  - apply Forall_nil_2.
  - change (0 ≤ PKT_BUF_SIZE - PKT_RX_OFFSET). wrap_lia.
  - apply Forall_replicate. wrap_lia.
  - by vm_compute.
Qed.

Lemma tcp_accept_queued_witness :
  ∃ w', tcp_input_syn_rcvd 0 demo_ack demo_embryo_world = Ok (true, w') ∧
    tcbs w' !! 1%nat = Some (demo_listener <| tc_acceptq ::= fun q => q ++ [0%nat] |>).
Proof.
  destruct (tcp_accept_queued demo_embryo_world 0 demo_child demo_ack
    (net_wf_set_tcp _ _ demo_tcp_net) demo_embryo_wf demo_ack_ok eq_refl eq_refl eq_refl ltac:(done))
    as (go & w' & H1 & _ & H2).
  destruct (H2 eq_refl) as (lt & E & H3 & _). clear H2.
  change (Some demo_listener = Some lt) in E. injection E as <-.
  destruct (H3 ltac:(change (0 < 4); lia)) as [H4 H5]. exists w'. split; [rewrite <- H4; exact H1|].
  rewrite H5. reflexivity.
Defined.
