(* ===== verification/TcpTimer.v ===== *)
(** * TCP timers

    Models [tcp/tcp_timer.c]: TIME_WAIT expiry, retransmission with back-off
    and give-up, zero-window probes and delayed acknowledgements. *)

From S2P Require Import Prelude Pf Checksum Pkt Fib Headers Stats Stack Link Arp IpOut Icmp Reass Sock.
From S2P Require Import Tcb TcpOut Tcp TcpInput.
Import Checksum Pkt Fib Stats.

(** ** Operations *)

(** The retransmission timer of [t] fires: the window collapses to one
    segment when anything is in flight, and the timeout doubles. *)
Definition rto_backoff (t : tcp_cb) : tcp_cb :=
  let in_flight := u32 (tc_snd_nxt t - tc_snd_una t) in
  let t := if 0 <? in_flight
           then t <| tc_ssthresh := Z.max (in_flight / 2) (2 * tc_mss t) |> <| tc_cwnd := tc_mss t |>
                  <| tc_dupacks := 0 |>
           else t in
  t <| tc_rto_ms := Z.min (u32 (tc_rto_ms t * 2)) TCP_RTO_MAX_MS |>.

Definition tcp_rto_fire (i : nat) (now : Z) : PF () :=
  upd_tcb i (set_field tc_rtx_count (fun n => u32 (n + 1)));;
  stat_inc tcp_rto_fires;;
  t ← get_tcb i;
  if TCP_MAX_RTX <? tc_rtx_count t then
    stat_inc tcp_conn_timeouts;;
    tcp_send_ctl i (Z.lor TCP_RST TCP_ACK);;
    tcp_conn_error i PF_ETIMEDOUT
  else
    upd_tcb i rto_backoff;;
    tcp_retransmit i;;
    upd_tcb i (fun t => t <| tc_rto_deadline := u64 (now + tc_rto_ms t) |>).

(** Whether a zero-window probe is due. *)
Definition probe_due (t : tcp_cb) : bool :=
  (tc_rto_deadline t =? 0) && (0 <? tc_snd_len t) && (tc_snd_wnd t =? 0)
  && (tc_snd_una t =? tc_snd_nxt t) && output_state (tc_state t).

Definition tcp_probe_tick (i : nat) (now : Z) : PF () :=
  t ← get_tcb i;
  if probe_due t then
    stat_inc tcp_zero_wnd_probes;;
    tcp_send_probe i;;
    upd_tcb i (tcp_arm_rto now)
  else mret ().

Definition tcp_delack_tick (i : nat) (now : Z) : PF () :=
  t ← get_tcb i;
  if negb (tc_delack_deadline t =? 0) && (tc_delack_deadline t <=? now)
  then tcp_send_ctl i TCP_ACK else mret ().

Definition tcp_tick_conn (now : Z) (i : nat) : PF () :=
  t ← get_tcb i;
  if negb (tc_active t) then mret ()
  else if bool_decide (tc_state t = TCP_TIME_WAIT) then
    if tc_timewait_deadline t <=? now then tcb_free i else mret ()
  else if negb (tc_rto_deadline t =? 0) && (tc_rto_deadline t <=? now) then tcp_rto_fire i now
  else
    tcp_probe_tick i now;;
    tcp_delack_tick i now.

Definition tcp_tick (now : Z) : PF () := for_each (seq 0 TCP_MAX_CONNS) (tcp_tick_conn now).

(** ** Safety *)

Lemma tcb_wf_rtx f t : tcb_wf t → tcb_wf (t <| tc_rtx_count ::= f |>).
Proof. intros [? ? ? ? [] ? ? ? ? ? ? ? ? ? ? ?]. by split. Qed.

Lemma tcb_wf_deadline d t : tcb_wf t → tcb_wf (t <| tc_rto_deadline := d |>).
Proof. intros [? ? ? ? [] ? ? ? ? ? ? ? ? ? ? ?]. by split. Qed.

Lemma rto_backoff_ok t :
  tcb_wf t → tcb_wf (rto_backoff t) ∧ tc_active (rto_backoff t) = tc_active t ∧
  tc_state (rto_backoff t) = tc_state t ∧ tc_rto_ms (rto_backoff t) = Z.min (2 * tc_rto_ms t) TCP_RTO_MAX_MS.
Proof.
  intros Hwf. pose proof (tb_rtt _ Hwf) as [Hr Hrto]. pose proof (tb_mss _ Hwf) as Hm.
  pose proof (ssthresh_range t (u32 (tc_snd_nxt t - tc_snd_una t)) Hwf (u32_range _)) as Hss.
  assert (∀ t', tcb_wf t' → tc_rto_ms t' = tc_rto_ms t →
    tcb_wf (t' <| tc_rto_ms := Z.min (u32 (tc_rto_ms t' * 2)) TCP_RTO_MAX_MS |>)) as Hset.
  { intros t' [? ? ? ? [] ? ? ? ? ? ? [? _] ? ? ? ?] E. split; try done. split; [done|].
    change (TCP_RTO_MIN_MS ≤ Z.min (u32 (tc_rto_ms t' * 2)) TCP_RTO_MAX_MS ≤ TCP_RTO_MAX_MS).
    rewrite E. wrap_lia. }
  assert (Z.min (u32 (tc_rto_ms t * 2)) TCP_RTO_MAX_MS = Z.min (2 * tc_rto_ms t) TCP_RTO_MAX_MS) as Erto
    by wrap_lia.
  unfold rto_backoff. destruct (0 <? _).
  - split_and!; [|done|done|exact Erto]. apply Hset; [|done]. apply tcb_wf_dupacks, tcb_wf_cwnd; [wrap_lia|].
    by apply tcb_wf_ssthresh.
  - split_and!; [by apply Hset|done|done|exact Erto].
Qed.

Lemma moved_closing i w w' t st :
  tcbs w !! i = Some t → moved i w w' st → st = tc_state t ∨ st = TCP_CLOSED → closing_step w w'.
Proof.
  intros Hi [M1 M2 M3 M4] Hst. split; [done..|]. rewrite M4. apply Forall2_same_length_lookup_2.
  { by rewrite length_insert. }
  intros j x y Hx Hy. apply list_lookup_insert_Some in Hy as [(-> & <- & _)|[_ Hy]].
  - rewrite (states_lookup _ _ _ Hi) in Hx. injection Hx as <-. done.
  - left. congruence.
Qed.

(** Any active block can be torn down, a listener included. *)
Lemma wp_tcp_conn_error_any i t err w :
  net_wf w → tcp_wf (w_socks w) (w_tcp w) → tcbs w !! i = Some t → tc_active t = true →
  wp (tcp_conn_error i err) (fun _ w' => closing_step w w' ∧ tcbs w' !! i = Some zero_tcb) w.
Proof.
  intros Hn Hw Hi Ha. unfold tcp_conn_error. wp_step.
  eapply (wp_stat_live i w); [by apply live_refl|]. intros w1 L1. wp_step.
  eapply wp_tcb_detach_sock; [apply L1|apply L1|apply L1|]. intros w2 H2.
  assert (tc_active (detach_tcb t) = true ∧ tc_state (detach_tcb t) = tc_state t) as [Ha2 Hs2].
  { unfold detach_tcb. by destruct (0 <=? _). }
  assert (moved i w w2 (tc_state t)) as M2.
  { eapply moved_trans; [apply L1|]. rewrite <- Hs2. eapply moved_step; [apply L1|exact H2| |].
    - apply detach_wf, L1.
    - apply slot_wf_active; [done|]. apply detach_tcb_wf, (lv_tcb _ _ _ _ L1). }
  eapply wp_mono; [apply (wp_tcb_free i (detach_tcb t)); [apply M2|apply M2|]|].
  { rewrite (ls_tcp _ _ _ _ H2). eapply put_tcb_lookup, L1. }
  intros _ w3 [C3 Hz]. split; [|done]. eapply closing_trans; [|exact C3].
  by eapply moved_closing; [|exact M2|left].
Qed.

(** One more retransmission counted. *)
Definition count_rtx (t : tcp_cb) : tcp_cb := t <| tc_rtx_count ::= fun n => u32 (n + 1) |>.

(** The connection after its timer fired, was counted in [t], and the
    connection was not given up. *)
Record rto_fired (now : Z) (t t' : tcp_cb) : Prop := {
  rf_rtx : tc_rtx_count t' = tc_rtx_count t;
  rf_rto : tc_rto_ms t' = Z.min (2 * tc_rto_ms t) TCP_RTO_MAX_MS;
  rf_deadline : tc_rto_deadline t' = u64 (now + tc_rto_ms t');
  rf_cwnd : 0 < snd_flight t → tc_cwnd t' = tc_mss t ∧
            tc_ssthresh t' = Z.max (snd_flight t / 2) (2 * tc_mss t);
  rf_snd : snd_fields t' = snd_fields t;
  rf_view : rcv_view t' = rcv_view t ∧ snd_view t' = snd_view t;
}.

(** Back-off changes nothing that retransmission looks at. *)
Lemma rto_backoff_same t :
  snd_fields (rto_backoff t) = snd_fields t ∧ tc_rtx_count (rto_backoff t) = tc_rtx_count t ∧
  rcv_view (rto_backoff t) = rcv_view t ∧ snd_view (rto_backoff t) = snd_view t ∧
  rtx_segs (rto_backoff t) = rtx_segs t ∧ tc_local_ip (rto_backoff t) = tc_local_ip t ∧
  tc_remote_ip (rto_backoff t) = tc_remote_ip t.
Proof. unfold rto_backoff. by destruct (0 <? _). Qed.

Lemma rto_backoff_window t :
  0 < snd_flight t → tc_cwnd (rto_backoff t) = tc_mss t ∧
  tc_ssthresh (rto_backoff t) = Z.max (snd_flight t / 2) (2 * tc_mss t).
Proof.
  intros Hfl. unfold rto_backoff. change (u32 (tc_snd_nxt t - tc_snd_una t)) with (snd_flight t).
  by rewrite (proj2 (Z.ltb_lt 0 _) Hfl).
Qed.

(** The retransmission itself, after the back-off. *)
Lemma wp_rto_resend i w0 t now w :
  live i w0 w t →
  wp (upd_tcb i rto_backoff;; tcp_retransmit i;; upd_tcb i (fun t => t <| tc_rto_deadline := u64 (now + tc_rto_ms t) |>))
    (fun _ w' => ∃ t', live i w0 w' t' ∧ rto_fired now t t' ∧
       (tc_state t ≠ TCP_LISTEN → hands (tc_local_ip t) (tc_remote_ip t) w (rtx_segs t) w')) w.
Proof.
  intros L. pose proof (lv_tcb _ _ _ _ L) as Hwf.
  destruct (rto_backoff_ok t Hwf) as (Hwf1 & Ea1 & Es1 & Er1).
  destruct (rto_backoff_same t) as (B1 & B2 & B3 & B4 & B5 & B6 & B7). pose proof (rto_backoff_window t) as Hcw.
  wp_step. eapply (wp_upd_live_same i w0 rto_backoff t); [exact L|exact Hwf1|rewrite Ea1; apply L|]. intros w1 L1 N1.
  revert L1 N1 Hcw Es1 Er1 B1 B2 B3 B4 B5 B6 B7. clear Hwf1 Ea1. generalize (rto_backoff t) as t1.
  intros t1 L1 N1 Hcw Es1 Er1 B1 B2 B3 B4 B5 B6 B7.
  wp_step. eapply wp_retransmit_live; [exact L1|]. intros w2 t2 L2 E2 S2 P2.
  eapply wp_upd_live_same; [exact L2|apply tcb_wf_deadline, (lv_tcb _ _ _ _ L2)|exact (lv_active _ _ _ _ L2)|].
  intros w3 L3 N3. eexists. split; [exact L3|].
  pose proof (out_field E2 tc_rto_ms : tc_rto_ms t2 = tc_rto_ms t1) as Q1.
  pose proof (out_field E2 tc_rtx_count : tc_rtx_count t2 = tc_rtx_count t1) as Q2.
  pose proof (out_field E2 tc_cwnd : tc_cwnd t2 = tc_cwnd t1) as Q3.
  pose proof (out_field E2 tc_ssthresh : tc_ssthresh t2 = tc_ssthresh t1) as Q4.
  pose proof (out_field E2 rcv_view : rcv_view t2 = rcv_view t1) as Q5.
  pose proof (out_field E2 snd_view : snd_view t2 = snd_view t1) as Q6.
  split_and!.
  - split.
    + exact (eq_trans Q2 B2).
    + exact (eq_trans Q1 Er1).
    + done.
    + intros Hfl. destruct (Hcw Hfl) as [H1 H2]. split; [exact (eq_trans Q3 H1)|exact (eq_trans Q4 H2)].
    + exact (eq_trans S2 B1).
    + split; [exact (eq_trans Q5 B3)|exact (eq_trans Q6 B4)].
  - intros Hl. eapply hands_from; [exact N1|]. rewrite <- (app_nil_r (rtx_segs t)).
    eapply hands_app; [|exact N3]. rewrite <- B5, <- B6, <- B7. apply P2. by rewrite Es1.
Qed.

Lemma wp_tcp_rto_fire i w0 t now w :
  live i w0 w t →
  wp (tcp_rto_fire i now) (fun _ w' =>
    if TCP_MAX_RTX <? u32 (tc_rtx_count t + 1)
    then closing_step w w' ∧ tcbs w' !! i = Some zero_tcb
    else ∃ t', live i w0 w' t' ∧ rto_fired now (count_rtx t) t' ∧
      (tc_state t ≠ TCP_LISTEN → hands (tc_local_ip t) (tc_remote_ip t) w (rtx_segs t) w')) w.
Proof.
  intros L. pose proof (live_refl i w t (mv_net _ _ _ _ (lv_moved _ _ _ _ L)) (mv_wf _ _ _ _ (lv_moved _ _ _ _ L))
    (lv_at _ _ _ _ L) (lv_active _ _ _ _ L)) as L0.
  unfold tcp_rto_fire. change (set_field tc_rtx_count (fun n => u32 (n + 1))) with count_rtx. wp_step.
  assert (tcb_wf (count_rtx t) ∧ tc_active (count_rtx t) = true) as [Hwf1 Ha1].
  { split; [apply tcb_wf_rtx, (lv_tcb _ _ _ _ L)|exact (lv_active _ _ _ _ L)]. }
  eapply (wp_upd_live_same i w count_rtx t); [exact L0|exact Hwf1|exact Ha1|]. intros w1 L1 N1. wp_step.
  eapply wp_stat_live_same; [exact L1|]. intros w2 L2 N2. wp_step. eapply wp_get_live; [exact L2|].
  change (u32 (tc_rtx_count t + 1)) with (tc_rtx_count (count_rtx t)).
  destruct (TCP_MAX_RTX <? tc_rtx_count (count_rtx t)).
  - wp_step. eapply wp_stat_live; [exact L2|]. intros w3 L3. wp_step.
    eapply wp_ctl_live; [exact L3|by vm_compute|]. intros w4 L4.
    eapply wp_mono; [eapply wp_tcp_conn_error_any; [apply L4..|]; apply L4|].
    intros _ w5 [C5 Hz]. split; [|done]. eapply closing_trans; [|exact C5].
    eapply moved_closing; [apply L|apply L4|]. left. by rewrite seg_sent_state.
  - eapply wp_mono; [by eapply wp_rto_resend|]. intros [] w3 (t3 & L3 & F3 & P3). exists t3. split_and!; [by eapply live_trans|done|].
    intros Hl. eapply hands_from; [by eapply net_same_trans|]. by apply P3.
Qed.

(** A due probe is one byte of unsent ring data. *)
Lemma probe_ok t :
  tcb_wf t → probe_due t = true → snd_ok (t <| tc_snd_nxt ::= fun n => u32 (n + 1) |>).
Proof.
  intros Hwf H. unfold probe_due in H.
  apply andb_true_iff in H as [[[[_ Hl%Z.ltb_lt]%andb_true_iff _]%andb_true_iff Hu%Z.eqb_eq]%andb_true_iff Ho].
  assert (synced (tc_state t) = true) as Hsy by (by destruct (tc_state t)).
  pose proof (tb_snd _ Hwf) as Hs. apply snd_ok_synced in Hs as (H1 & H2 & H3 & H4); [|done].
  apply snd_ok_synced; [done|]. set (t' := t <| tc_snd_nxt ::= _ |>).
  assert (snd_flight t = 0) as Hf0 by (unfold snd_flight; by rewrite Hu, Z.sub_diag).
  assert (snd_flight t' = 1) as Hf1.
  { change (u32 (u32 (tc_snd_nxt t + 1) - tc_snd_una t) = 1). wrap_lia. }
  rewrite Hf1. rewrite Hf0 in H4.
  change (u32_ok (tc_snd_una t) ∧ u32_ok (u32 (tc_snd_nxt t + 1)) ∧ 0 ≤ tc_snd_len t ≤ TCP_SNDBUF ∧
    if app_open (tc_state t)
    then tc_fin_sent t = false ∧ tc_fin_queued t = false ∧ 1 ≤ tc_snd_len t
    else tc_fin_queued t = true ∧
       if tc_fin_sent t then (1 = 0 ∧ tc_snd_len t = 0) ∨ 1 = tc_snd_len t + 1 else 1 ≤ tc_snd_len t).
  split; [done|]. split; [apply u32_range|]. split; [done|].
  destruct (app_open _); [destruct H4 as (? & ? & _); split_and!; [done..|lia]|].
  destruct H4 as [? H4]. split; [done|]. destruct (tc_fin_sent t); lia.
Qed.

Lemma wp_tcp_probe_tick i w0 t now (Q : () → world → Prop) w :
  live i w0 w t → (∀ w' t', live i w0 w' t' → tc_state t' = tc_state t → Q () w') →
  wp (tcp_probe_tick i now) Q w.
Proof.
  intros L HQ. unfold tcp_probe_tick. wp_step. eapply wp_get_live; [exact L|].
  destruct (probe_due t) eqn:Hp; [|wp_step; by eapply HQ]. wp_step.
  eapply wp_stat_live; [exact L|]. intros w1 L1. wp_step.
  pose proof (lv_tcb _ _ _ _ L) as Hwf.
  eapply wp_tcp_send_probe; [apply L1|apply L1|exact Hwf|]. intros w2 H2.
  set (t2 := tcp_seg_sent TCP_ACK t <| tc_snd_nxt ::= _ |>) in *.
  assert (tcb_wf t2) as Hwf2.
  { eapply (tcb_wf_out t); [done| |exact Hwf]. eapply snd_ok_fields; [|by apply (probe_ok t)]. done. }
  assert (live i w0 w2 t2) as L2.
  { eapply live_tcb_step; [exact L1|exact H2|exact Hwf2|exact (lv_active _ _ _ _ L1)]. }
  assert (tc_state t2 = tc_state t) as Es by done. clearbody t2.
  assert (tc_active (tcp_arm_rto now t2) = tc_active t2 ∧ tc_state (tcp_arm_rto now t2) = tc_state t2) as [Ea3 Es3].
  { unfold tcp_arm_rto. by destruct (_ =? 0). }
  eapply (wp_upd_live i w0 (tcp_arm_rto now) t2); [exact L2|by apply tcb_wf_arm| |].
  { exact (eq_trans Ea3 (lv_active _ _ _ _ L2)). }
  intros w3 L3. eapply HQ; [exact L3|congruence].
Qed.

Lemma wp_tcp_tick_conn i now w :
  net_wf w → tcp_wf (w_socks w) (w_tcp w) → (i < TCP_MAX_CONNS)%nat →
  wp (tcp_tick_conn now i) (fun _ w' => closing_step w w') w.
Proof.
  intros Hn Hw Hi. destruct (tcp_wf_lookup _ _ i Hw Hi) as [t Ht].
  assert (∀ w' t', live i w w' t' → tc_state t' = tc_state t → closing_step w w') as Hlive.
  { intros w' t' L E. eapply moved_closing; [exact Ht|apply L|by left]. }
  unfold tcp_tick_conn. wp_step. eapply wp_get_tcb; [done|].
  destruct (tc_active t) eqn:Ha; cbn [negb]; [|wp_step; by apply closing_refl].
  pose proof (live_refl _ _ _ Hn Hw Ht Ha) as L.
  destruct (bool_decide _).
  { destruct (_ <=? _); [|wp_step; by apply closing_refl].
    eapply wp_mono; [by eapply wp_tcb_free|]. by intros _ w' [C _]. }
  destruct (_ && _).
  { eapply wp_mono; [by eapply wp_tcp_rto_fire|]. intros [] w' Hpost. cbv beta in Hpost.
    destruct (_ <? _); [apply Hpost|]. destruct Hpost as (t' & L' & F & _).
    eapply Hlive; [exact L'|]. exact (f_equal (fun x => x.1.1) (rf_snd _ _ _ F)). }
  wp_step. eapply wp_tcp_probe_tick; [exact L|]. intros w1 t1 L1 E1.
  unfold tcp_delack_tick. wp_step. eapply wp_get_live; [exact L1|].
  destruct (_ && _); [|wp_step; by eapply Hlive].
  eapply wp_ctl_live; [exact L1|by vm_compute|]. intros w2 L2. eapply Hlive; [exact L2|]. by rewrite seg_sent_state.
Qed.

Lemma wp_tcp_tick now w :
  net_wf w → tcp_wf (w_socks w) (w_tcp w) → wp (tcp_tick now) (fun _ w' => closing_step w w') w.
Proof.
  intros Hn Hw. unfold tcp_tick. apply (wp_for_each (closing_step w)); [by apply closing_refl|].
  intros i w1 Hi C1. apply list_elem_of_In, in_seq in Hi.
  eapply wp_mono; [apply wp_tcp_tick_conn; [apply C1|apply C1|lia]|]. intros [] w2 C2.
  by eapply closing_trans.
Qed.

(** ** Giving up *)

Lemma detach_socks_idx s t t' err : tc_sock_idx t' = tc_sock_idx t → detach_socks s t' err = detach_socks s t err.
Proof. intros E. unfold detach_socks. by rewrite E. Qed.

Lemma seg_sent_sock flags t : tc_sock_idx (tcp_seg_sent flags t) = tc_sock_idx t.
Proof. unfold tcp_seg_sent. by destruct (has_flag _ _). Qed.

Lemma wp_rto_give_up i t now (Q : () → world → Prop) w :
  net_wf w → tcp_wf (w_socks w) (w_tcp w) → tcbs w !! i = Some t → tc_active t = true →
  tc_state t ≠ TCP_LISTEN → TCP_MAX_RTX < u32 (tc_rtx_count t + 1) →
  (∀ w', tcbs w' = <[i:=zero_tcb]> (tcbs w) → w_socks w' = detach_socks (w_socks w) t PF_ETIMEDOUT → Q () w') →
  wp (tcp_rto_fire i now) Q w.
Proof.
  intros Hn Hw Hi Ha Hl Hx HQ. unfold tcp_rto_fire. pose proof (tcp_wf_active _ _ _ _ Hw Hi Ha) as Hwf.
  set (f := set_field tc_rtx_count (fun n => u32 (n + 1))). pose proof (tcb_wf_rtx (fun n => u32 (n + 1)) t Hwf) as Hwf1.
  change (tcb_wf (f t)) in Hwf1.
  assert (tc_state (f t) = tc_state t ∧ tc_active (f t) = true ∧ tc_sock_idx (f t) = tc_sock_idx t ∧
    tc_rtx_count (f t) = u32 (tc_rtx_count t + 1)) as (Es1 & Ea1 & Ek1 & Er1) by done.
  wp_step. eapply wp_upd_tcb; [exact Hi|]. set (w1 := set_tcp w _).
  assert (tcb_step i w w1 (f t)) as S1 by (by apply tcb_step_set). clearbody w1. revert S1 Hwf1 Es1 Ea1 Ek1 Er1.
  generalize (f t) as t1. intros t1 S1 Hwf1 Es1 Ea1 Ek1 Er1. wp_step.
  apply wp_stat_inc. intros w2 E2 _ _. pose proof (tcb_step_lookup i w w1 t t1 Hi S1) as Hi1.
  pose proof (tcb_step_trans _ _ _ _ _ _ S1
    (tcb_step_same i w1 w2 t1 Hi1 (net_wf_tx _ _ (ls_net _ _ _ _ S1) E2) E2)) as S2.
  wp_step. eapply wp_get_tcb; [exact (tcb_step_lookup i w w2 t t1 Hi S2)|].
  rewrite Er1, (proj2 (Z.ltb_lt _ _) Hx). wp_step. apply wp_stat_inc. intros w3 E3 _ _.
  pose proof (tcb_step_trans _ _ _ _ _ _ S2 (tcb_step_same i w2 w3 t1
    (tcb_step_lookup i w w2 t t1 Hi S2) (net_wf_tx _ _ (ls_net _ _ _ _ S2) E3) E3)) as S3.
  set (flags := Z.lor TCP_RST TCP_ACK). assert (byte_ok flags) as Hf by by vm_compute. clearbody flags.
  wp_step. eapply wp_tcp_send_ctl; [apply S3|exact (tcb_step_lookup i w w3 t t1 Hi S3)|done|done|].
  intros w4 S4 _. pose proof (tcb_step_trans _ _ _ _ _ _ S3 S4) as S5.
  pose proof (tcb_wf_seg_sent flags t1 Hwf1) as Hwf4.
  pose proof (seg_sent_state flags t1) as Es4. pose proof (seg_sent_active flags t1) as Ea4.
  pose proof (seg_sent_sock flags t1) as Ek4. revert S5 Hwf4 Es4 Ea4 Ek4. clear S4.
  generalize (tcp_seg_sent flags t1) as t4. intros t4 S4 Hwf4 Es4 Ea4 Ek4.
  eapply wp_tcp_conn_error; [apply S4| |exact (tcb_step_lookup i w w4 t t4 Hi S4)| |congruence|].
  - rewrite (ls_socks _ _ _ _ S4), (ls_tcp _ _ _ _ S4). apply tcp_wf_put; [done|].
    apply slot_wf_active; [congruence|done].
  - apply slot_wf_active; [|by apply detach_tcb_wf]. unfold detach_tcb. destruct (0 <=? _); [|congruence].
    change (tc_active t4 = true). congruence.
  - intros w5 S5. apply HQ.
    + rewrite (ls_tcp _ _ _ _ S5), (ls_tcp _ _ _ _ S4). cbn. by rewrite list_insert_insert_eq.
    + rewrite (ls_socks _ _ _ _ S5), (ls_socks _ _ _ _ S4). apply detach_socks_idx. congruence.
Qed.

(** ** Properties *)

(** No acknowledgement is overdue. *)
Definition delack_done (now : Z) (t : tcp_cb) : Prop := tc_delack_deadline t = 0 ∨ now < tc_delack_deadline t.

Lemma wp_delack_live i w0 t now w :
  live i w0 w t →
  wp (tcp_delack_tick i now) (fun _ w' => ∃ t', live i w0 w' t' ∧ tc_state t' = tc_state t ∧ delack_done now t') w.
Proof.
  intros L. unfold tcp_delack_tick. wp_step. eapply wp_get_live; [exact L|]. destruct (_ && _) eqn:Hd.
  - eapply wp_ctl_live; [exact L|by vm_compute|]. intros w1 L1. eexists. split; [exact L1|].
    split; [by rewrite seg_sent_state|by left].
  - wp_step. exists t. split_and!; [done..|]. apply andb_false_iff in Hd as [Hd|Hd]; unfold delack_done.
    + apply negb_false_iff, Z.eqb_eq in Hd. by left.
    + apply Z.leb_gt in Hd. by right.
Qed.

(** C32. One tick of an active connection (not a listener): in TIME_WAIT the
    block is released exactly when its deadline has passed. Otherwise an
    expired retransmission timer past the retry limit releases the connection
    and its socket reads ETIMEDOUT; below the limit it doubles the timeout up
    to the cap, collapses the congestion window to one segment with half the
    flight as threshold, hands IP exactly the oldest bytes in flight once
    more (or the SYN, or the FIN, when that is what is unacknowledged), and
    re-arms. With no timer expired the state is kept
    and no delayed acknowledgement is left overdue. *)
Theorem tcp_tick_conn_spec w i t now :
  net_wf w → tcp_wf (w_socks w) (w_tcp w) → tcbs w !! i = Some t → tc_active t = true →
  tc_state t ≠ TCP_LISTEN →
  ∃ w', tcp_tick_conn now i w = Ok ((), w') ∧
  if bool_decide (tc_state t = TCP_TIME_WAIT) then
    tcbs w' = (if tc_timewait_deadline t <=? now then <[i:=zero_tcb]> (tcbs w) else tcbs w)
  else if negb (tc_rto_deadline t =? 0) && (tc_rto_deadline t <=? now) then
    if TCP_MAX_RTX <? u32 (tc_rtx_count t + 1)
    then tcbs w' = <[i:=zero_tcb]> (tcbs w) ∧ w_socks w' = detach_socks (w_socks w) t PF_ETIMEDOUT
    else ∃ t', tcbs w' !! i = Some t' ∧ rto_fired now (count_rtx t) t' ∧
           hands (tc_local_ip t) (tc_remote_ip t) w (rtx_segs t) w'
  else ∃ t', tcbs w' !! i = Some t' ∧ tc_state t' = tc_state t ∧ delack_done now t'.
Proof.
  intros Hn Hw Hi Ha Hl. pose proof (live_refl _ _ _ Hn Hw Hi Ha) as L.
  match goal with |- ∃ w', _ = _ ∧ @?P w' => cut (wp (tcp_tick_conn now i) (fun _ => P) w) end.
  { intros ([] & w' & Hrun & ?)%wp_run. eauto. }
  unfold tcp_tick_conn. wp_step. eapply wp_get_tcb; [done|]. rewrite Ha. cbn [negb].
  destruct (bool_decide (tc_state t = TCP_TIME_WAIT)).
  { destruct (_ <=? _); [|by wp_step]. eapply wp_tcb_free_conn; [done..|]. intros w1 H1.
    by rewrite (ls_tcp _ _ _ _ H1). }
  destruct (_ && _).
  { destruct (TCP_MAX_RTX <? _) eqn:Hx.
    - apply Z.ltb_lt in Hx. by eapply wp_rto_give_up.
    - eapply wp_mono; [by eapply wp_tcp_rto_fire|]. intros [] w' Hpost. cbv beta in Hpost. rewrite Hx in Hpost.
      destruct Hpost as (t' & L' & F & P). exists t'. split; [apply L'|]. split; [done|by apply P]. }
  wp_step. eapply wp_tcp_probe_tick; [exact L|]. intros w1 t1 L1 E1.
  eapply wp_mono; [by eapply wp_delack_live|]. intros [] w2 (t2 & L2 & E2 & D2).
  exists t2. split_and!; [apply L2|congruence|done].
Qed.

Lemma tcp_tick_conn_spec_witness :
  ∃ w' t', tcp_tick_conn 5 0 demo_tcp_world = Ok ((), w') ∧ tcbs w' !! 0%nat = Some t' ∧
    tc_state t' = TCP_ESTABLISHED.
Proof.
  destruct (tcp_tick_conn_spec demo_tcp_world 0 demo_conn 5 demo_tcp_net demo_tcp_wf demo_tcp_at
    eq_refl ltac:(change (TCP_ESTABLISHED ≠ TCP_LISTEN); done)) as (w' & H1 & H2).
  change (bool_decide (tc_state demo_conn = TCP_TIME_WAIT)) with false in H2.
  change (negb (tc_rto_deadline demo_conn =? 0) && (tc_rto_deadline demo_conn <=? 5)) with false in H2.
  cbv iota in H2. destruct H2 as (t' & H2 & H3 & _). exact (ex_intro _ w' (ex_intro _ t' (conj H1 (conj H2 H3)))).
Defined.

(** The timer sweep runs to the end from every well-formed state, at any
    time: the invariants hold again, and each connection is in the state it
    was in or released. *)
Lemma tcp_tick_safe w now :
  net_wf w → tcp_wf (w_socks w) (w_tcp w) →
  ∃ w', tcp_tick now w = Ok ((), w') ∧ net_wf w' ∧ tcp_wf (w_socks w') (w_tcp w') ∧
    erase_l4 w = erase_l4 w' ∧ Forall2 closes (states w) (states w').
Proof.
  intros Hn Hw. pose proof (wp_tcp_tick now w Hn Hw) as H. apply wp_run in H as ([] & w' & Hrun & []).
  by exists w'.
Qed.

Lemma tcp_tick_safe_witness :
  ∃ w', tcp_tick 1000 demo_tcp_world = Ok ((), w') ∧ tcp_wf (w_socks w') (w_tcp w').
Proof.
  destruct (tcp_tick_safe demo_tcp_world 1000 demo_tcp_net demo_tcp_wf) as (w' & H1 & _ & H2 & _).
  exact (ex_intro _ w' (conj H1 H2)).
Defined.
