(* ===== verification/Deliver.v ===== *)
(** * TCP data delivery

    Puts the two ends of a connection together: a data segment as
    [tcp_send_segment] of one end builds it, received by [tcp_input] of the
    other end, becomes readable there and its acknowledgement takes effect. *)

From S2P Require Import Prelude Pf Checksum Pkt Fib Headers Stats Stack Link Arp IpOut Icmp Reass Sock.
From S2P Require Import Tcb TcpOut Tcp TcpInput.
Import Checksum Pkt Fib Stats.

(** ** The connection a segment finds *)

(** [t] is the connection for these addresses and ports. *)
Definition conn_match (lip lport rip rport : Z) (t : tcp_cb) : Prop :=
  tc_active t = true ∧ tc_state t ≠ TCP_LISTEN ∧
  tc_local_ip t = lip ∧ tc_local_port t = lport ∧ tc_remote_ip t = rip ∧ tc_remote_port t = rport.

Lemma tcb_scan_conn pre t l lip lport rip rport n listener :
  Forall (fun t => ¬ conn_match lip lport rip rport t) pre → conn_match lip lport rip rport t →
  tcb_scan (pre ++ t :: l) n lip lport rip rport listener = Some (n + length pre)%nat.
Proof.
  intros Hpre Ht. revert n listener. induction Hpre as [|u pre Hu _ IH]; intros n listener; cbn [app tcb_scan length].
  - destruct Ht as (-> & Hl & -> & -> & -> & ->). rewrite bool_decide_eq_false_2 by done. rewrite !Z.eqb_refl.
    cbn. by rewrite Nat.add_0_r.
  - rewrite Nat.add_succ_r. destruct (tc_active u) eqn:Ha; cbn [negb]; [|apply (IH (S n))].
    case_bool_decide as Hs; [apply (IH (S n))|].
    destruct (_ && _) eqn:Hm; [|apply (IH (S n))].
    destruct Hu. apply andb_true_iff in Hm as [[[H1 H2]%andb_true_iff H3]%andb_true_iff H4].
    apply Z.eqb_eq in H1, H2, H3, H4. by repeat split.
Qed.

(** Connection [i], and the first of the table for its addresses and ports. *)
Record conn_at (w : world) (i : nat) (t : tcp_cb) : Prop := {
  ca_at : tcbs w !! i = Some t;
  ca_match : conn_match (tc_local_ip t) (tc_local_port t) (tc_remote_ip t) (tc_remote_port t) t;
  ca_first j u : (j < i)%nat → tcbs w !! j = Some u →
    ¬ conn_match (tc_local_ip t) (tc_local_port t) (tc_remote_ip t) (tc_remote_port t) u;
}.

Lemma conn_at_scan w i t :
  conn_at w i t →
  tcb_scan (tcbs w) 0 (tc_local_ip t) (tc_local_port t) (tc_remote_ip t) (tc_remote_port t) None = Some i.
Proof.
  intros [Hi Hm Hf]. rewrite <- (take_drop_middle _ _ _ Hi). pose proof (lookup_lt_Some _ _ _ Hi).
  rewrite tcb_scan_conn; [|apply Forall_lookup; intros j u Hj|done].
  - rewrite length_take. f_equal. lia.
  - apply lookup_take_Some in Hj as [Hj Hlt]. by eapply Hf.
Qed.

(** ** In-order data on an established connection *)

(** What a data segment leaves behind: the data readable as far as the window reached,
    the acknowledgement taken. *)
Record data_received (ack : Z) (data : bytes) (t t' : tcp_cb) : Prop := {
  dl_state : tc_state t' = TCP_ESTABLISHED;
  dl_id : conn_id t' = conn_id t;
  dl_data : rx_extends (take (Z.to_nat (tcp_rcv_window t)) data) t t';
  dl_nxt : tc_rcv_nxt t' = u32 (tc_rcv_nxt t + (zlen (rcv_data t') - zlen (rcv_data t)));
  dl_una : tc_snd_una t' = if seq_gt ack (tc_snd_una t) then ack else tc_snd_una t;
  dl_snd : snd_data t' = drop (Z.to_nat (u32 (tc_snd_una t' - tc_snd_una t))) (snd_data t);
}.

Lemma rx_taken_next data t :
  rcv_wf t → data ≠ [] → rx_taken (tc_rcv_nxt t) data t = take (Z.to_nat (tcp_rcv_window t)) data.
Proof.
  intros _ Hd. unfold rx_taken. rewrite Z.sub_diag. change (u32 0) with 0.
  destruct data; [done|]. cbn [length]. by rewrite (proj2 (Z.ltb_lt 0 _)) by lia.
Qed.

Lemma next_acceptable t s :
  tcb_wf t → seg_ok s → data_flags (sg_flags s) → sg_payload s ≠ [] → sg_seq s = tc_rcv_nxt t →
  0 < tcp_rcv_window t → tcp_acceptable t s = true.
Proof.
  intros Hwf Hs (_ & _ & Hsyn & _ & Hfin) Hp Hseq Hw. pose proof (tb_rcv _ Hwf) as Hr.
  pose proof (tcp_rcv_window_eq t Hr) as HW. pose proof (rv_len _ Hr). pose proof (rv_nxt _ Hr).
  unfold tcp_acceptable, sg_seqlen, sg_paylen. rewrite Hsyn, Hfin, Hseq.
  assert (0 < zlen (sg_payload s)) by (destruct (sg_payload s); [done|cbn; lia]).
  rewrite (proj2 (Z.eqb_neq _ 0)), (proj2 (Z.ltb_lt 0 _)) by lia.
  unfold TCP_RCVBUF in *. apply andb_true_iff. split; [done|]. apply orb_true_iff. left. apply andb_true_iff.
  rewrite seq_ge_iff, seq_lt_iff. split; wrap_lia.
Qed.

Lemma wp_established_data i w0 t s now w :
  live i w0 w t → tc_state t = TCP_ESTABLISHED → seg_ok s → data_flags (sg_flags s) → sg_payload s ≠ [] →
  sg_seq s = tc_rcv_nxt t → 0 < tcp_rcv_window t → seq_gt (sg_ack s) (tc_snd_nxt t) = false →
  wp (tcp_input_sync i s now) (fun _ w' => ∃ t', live i w0 w' t' ∧ data_received (sg_ack s) (sg_payload s) t t') w.
Proof.
  intros L Hst Hs Hfl Hp Hseq Hw Hack. pose proof (lv_tcb _ _ _ _ L) as Hwf.
  unfold tcp_input_sync. wp_step. eapply wp_get_live; [done|].
  rewrite (next_acceptable t s) by done. destruct Hfl as (_ & Ha & Hsy & Hrs & Hfi). rewrite Ha, Hsy, Hrs, Hst.
  cbn [negb]. wp_step. rewrite bool_decide_eq_false_2 by done. wp_step. cbn [negb]. wp_step.
  eapply wp_mono; [by apply (wp_tcp_input_ack i w0 t); [|rewrite Hst|]|]. intros go w1 Hpost.
  destruct go; cbn [negb stage_post] in *; [|destruct Hpost as [_ [?|?]]; congruence].
  destruct Hpost as (t1 & L1 & [He1 V1 U1 D1]). wp_step.
  eapply wp_tcp_input_wnd; [exact L1|done|]. intros w2 t2 L2 E2 V2 U2. wp_step.
  eapply wp_tcp_input_text; [exact L2|done|]. intros w3 t3 L3 E3 U3 I3 T3.
  unfold tcp_input_fin. rewrite Hfi. wp_step. exists t3. split; [done|].
  assert (tc_state t2 = TCP_ESTABLISHED) as S2 by (rewrite Hst in He1; inversion He1; congruence).
  rewrite V1 in V2. injection V2 as D2 N2 L2' O2 I2 I2a I2b I2c I2d.
  rewrite U2 in U3. injection U3 as U4 U5.
  destruct (T3 Hp S2) as [T4 T5]. rewrite Hseq, <- N2, rx_taken_next in T4; [|apply (tb_rcv _ (lv_tcb _ _ _ _ L2))|done].
  split; [congruence|rewrite I3; unfold conn_id; congruence| | |congruence|by rewrite U4, U5].
  - replace (tcp_rcv_window t) with (tcp_rcv_window t2) by (unfold tcp_rcv_window; by rewrite L2').
    unfold rx_extends in *. by rewrite <- D2, <- O2.
  - by rewrite T5, N2, D2.
Qed.

(** ** The segment on the wire *)

(** The two ends of a connection. *)
Record peers (a t : tcp_cb) : Prop := {
  pe_ip : tc_local_ip a = tc_remote_ip t ∧ tc_remote_ip a = tc_local_ip t;
  pe_port : tc_local_port a = tc_remote_port t ∧ tc_remote_port a = tc_local_port t;
  pe_u16 : u16_ok (tc_local_port a) ∧ u16_ok (tc_remote_port a);
}.

(** A data segment as received, with the fields its sender gave it. *)
Record data_segment (a : tcp_cb) (flags seq : Z) (data : bytes) (s : segment) : Prop := {
  ds_ports : pf_ntohs (th_sport (sg_th s)) = tc_local_port a ∧ pf_ntohs (th_dport (sg_th s)) = tc_remote_port a;
  ds_seq : sg_seq s = seq;
  ds_ack : sg_ack s = tc_rcv_nxt a;
  ds_flags : sg_flags s = flags;
  ds_payload : sg_payload s = data;
}.

(** Flags of a segment that carries an acknowledgement and opens nothing. *)
Definition peer_flags (flags : Z) : Prop :=
  byte_ok flags ∧ has_flag flags TCP_ACK = true ∧ has_flag flags TCP_SYN = false.

Lemma data_peer flags : data_flags flags → peer_flags flags.
Proof. by intros (? & ? & ? & _). Qed.

Lemma tcp_message_read a flags seq data :
  peer_flags flags → tcb_wf a → u32_ok seq → u16_ok (tc_local_port a) → u16_ok (tc_remote_port a) →
  ∃ th, read_tcp (tcp_message a flags seq data) = Ok th ∧ tcp_hdr_len th = TCP_HDR_MIN ∧
    (∀ ih l4 wnd, data_segment a flags seq data
       (mk_seg ih th l4 (pf_ntohl (th_seq th)) (pf_ntohl (th_ack th)) wnd (th_flags th) data)) ∧
    zlen (tcp_message a flags seq data) = zlen data + TCP_HDR_MIN ∧
    drop 20 (tcp_message a flags seq data) = data.
Proof.
  intros (Hf & Ha & Hs) Hwf Hseq Hlp Hrp. pose proof (rv_nxt _ (tb_rcv _ Hwf)) as Hn.
  unfold tcp_message, tcp_segment, tcp_seg_opts. rewrite Hs. cbn [app]. cbv zeta.
  set (c := csum_fold _). assert (0 ≤ c < 65536) as Hc by apply csum_fold_range. clearbody c.
  set (th := tcp_seg_hdr a flags seq <| th_csum := pf_htons c |>).
  exists th. split; [apply (read_tcp_image th)|].
  { unfold th, tcp_seg_hdr. rewrite Hs, Ha.
    split; cbn -[pf_htons pf_htonl]; first [apply htons_range|by apply htonl_range|done]. }
  split; [unfold th, tcp_seg_hdr; by rewrite Hs|]. split.
  - intros ih l4 wnd. unfold th, tcp_seg_hdr. rewrite Hs, Ha.
    split; cbn -[pf_htons pf_ntohs pf_htonl pf_ntohl]; rewrite ?ntohl_htonl, ?ntohs_htons by done; done.
  - split; [|done]. rewrite length_app, length_tcp_image. wrap_lia.
Qed.

(** A segment that passes the checks reaches the state machine. *)
Lemma wp_tcp_input_valid p ih l4 th (Q : () → world → Prop) w :
  rx_dgram p ih → ip_payload p ih = l4 → read_tcp l4 = Ok th → TCP_HDR_MIN ≤ tcp_hdr_len th ≤ zlen l4 →
  csum_fold (csum_partial l4 (csum_pseudo (pf_ntohl (ih_saddr ih)) (pf_ntohl (ih_daddr ih)) IP_PROTO_TCP (zlen l4))) = 0 →
  (∀ w', erase_tx w = erase_tx w' → w_wire w' = w_wire w →
     wp (tcp_segment_arrives (mk_seg ih th l4 (pf_ntohl (th_seq th)) (pf_ntohl (th_ack th)) (pf_ntohs (th_wnd th))
       (th_flags th) (drop (Z.to_nat (tcp_hdr_len th)) l4))) Q w') →
  wp (tcp_input p ih) Q w.
Proof.
  intros Hrx Hl4 Hth Hhl Hcs HQ. pose proof (length_ip_payload _ _ Hrx) as Hpl. rewrite Hl4 in Hpl.
  unfold tcp_input. wp_step. apply wp_stat_inc. intros w1 E1 W1 _. cbv zeta.
  rewrite (ip_payload_len16 _ _ Hrx). rewrite (proj2 (Z.ltb_ge _ TCP_HDR_MIN)) by lia.
  wp_step. eapply wp_lift; [by apply ip_payload_read|]. rewrite Hl4. wp_step. eapply wp_lift; [exact Hth|].
  rewrite <- Hpl, (proj2 (Z.ltb_ge (tcp_hdr_len th) _)), (proj2 (Z.ltb_ge (zlen l4) _)) by lia. cbn [orb].
  rewrite Hcs. change (0 =? 0) with true. cbn [negb]. wp_step.
  eapply wp_lift; [apply mem_read_ok; unfold TCP_HDR_MIN in *; lia|].
  rewrite take_ge by (rewrite length_drop; lia). by apply HQ.
Qed.

(** The dispatch on a segment of the peer. *)
Lemma wp_segment_peer w i t a flags seq data s (Q : () → world → Prop) :
  conn_at w i t → peers a t → data_segment a flags seq data s →
  pf_ntohl (ih_saddr (sg_ih s)) = tc_local_ip a → pf_ntohl (ih_daddr (sg_ih s)) = tc_remote_ip a →
  tc_state t = TCP_ESTABLISHED → (∀ now, wp (tcp_input_sync i s now) Q w) →
  wp (tcp_segment_arrives s) Q w.
Proof.
  intros Hc [[P1 P2] [P3 P4] _] [[D1 D2] _ _ _ _] Hsrc Hdst Hst HQ.
  unfold tcp_segment_arrives. cbv zeta. wp_step. wp_step. wp_step. unfold tcb_lookup. wp_steps.
  rewrite Hsrc, Hdst, D1, D2, P1, P2, P3, P4, (conn_at_scan _ _ _ Hc).
  wp_step. eapply wp_get_tcb; [apply Hc|]. rewrite Hst. apply HQ.
Qed.

(** A received datagram that carries a segment of [a] to its peer. *)
Record carries (a : tcp_cb) (q : rx) (seg : bytes) : Prop := {
  cr_rx : rx_dgram q.1 q.2;
  cr_seg : ip_payload q.1 q.2 = seg;
  cr_src : pf_ntohl (ih_saddr q.2) = tc_local_ip a;
  cr_dst : pf_ntohl (ih_daddr q.2) = tc_remote_ip a;
}.

(** It is found valid and reaches the connection. *)
Lemma wp_tcp_input_peer w q a flags seq data i t (Q : () → world → Prop) :
  net_wf w → tcp_wf (w_socks w) (w_tcp w) → tcb_wf a → peer_flags flags → u32_ok seq →
  carries a q (tcp_message a flags seq data) → conn_at w i t → peers a t → tc_state t = TCP_ESTABLISHED →
  (∀ w1 s now, live i w w1 t → net_same w w1 → seg_ok s → data_segment a flags seq data s → wp (tcp_input_sync i s now) Q w1) →
  wp (tcp_input q.1 q.2) Q w.
Proof.
  intros Hn Hw Hwa Hfl Hseq [Hrx Hpay Hsrc Hdst] Hc Hpe Hst HQ. pose proof Hpe as [_ _ [P5 P6]].
  pose proof (ca_at _ _ _ Hc) as Hi. assert (tc_active t = true) as Hact by apply Hc.
  pose proof (tcp_wf_active _ _ _ _ Hw Hi Hact) as Hwt.
  destruct (tcp_message_read a flags seq data) as (th & Hth & Hhl & Hds & Hml & Hdrop); try done.
  set (m := tcp_message a flags seq data) in *.
  pose proof (ip_payload_ok _ _ Hrx) as Hmok. rewrite Hpay in Hmok.
  pose proof (length_ip_payload _ _ Hrx) as Hpl. rewrite Hpay in Hpl.
  pose proof Hrx as [Hpw _ Hok Hihl]. pose proof (wf_fits _ Hpw). pose proof (wf_data _ Hpw).
  assert (bytes_ok data) as Hdok by (rewrite <- Hdrop; by apply Forall_drop).
  eapply wp_tcp_input_valid; [exact Hrx|exact Hpay|exact Hth|unfold TCP_HDR_MIN in *; lia| |].
  { rewrite Hsrc, Hdst, Hml. destruct Hfl as (Hf & _ & Hs). unfold m, tcp_message, tcp_seg_opts. rewrite Hs.
    apply tcp_segment_csum; try apply Hwa; try done; [rewrite tcp_seg_hdr_doff, Hs; wrap_lia|cbn [app]; wrap_lia]. }
  intros w1 E1 W1. rewrite Hhl. change (Z.to_nat TCP_HDR_MIN) with 20%nat. rewrite Hdrop.
  assert (live i w w1 t) as L1.
  { pose proof (live_refl _ _ _ Hn Hw Hi Hact) as L. eapply (live_tcb_step i w); [exact L| |done|done].
    apply tcb_step_same; [done|by eapply net_wf_tx|done]. }
  pose proof (ls_tcp _ _ _ _ (l4_step_tx _ _ Hn E1)) as T1.
  eapply wp_segment_peer; [|done|apply Hds|exact Hsrc|exact Hdst|done|].
  - destruct Hc as [C1 C2 C3]. split; rewrite ?T1; done.
  - intros now. apply HQ; [done|by apply net_same_tx| |apply Hds].
    split; cbn [sg_ih sg_seq sg_ack sg_wnd sg_payload sg_bytes sg_th]; try done.
    + rewrite (ds_seq _ _ _ _ _ (Hds q.2 m 0) : pf_ntohl (th_seq th) = _). done.
    + rewrite (ds_ack _ _ _ _ _ (Hds q.2 m 0) : pf_ntohl (th_ack th) = _). apply (rv_nxt _ (tb_rcv _ Hwa)).
    + apply htons_range.
    + unfold sg_paylen. cbn [sg_payload]. unfold TCP_HDR_MIN in *. wrap_lia.
    + unfold TCP_HDR_MIN in *. lia.
Qed.

Lemma wp_tcp_input_data w q a flags data i t :
  net_wf w → tcp_wf (w_socks w) (w_tcp w) → tcb_wf a → data_flags flags →
  carries a q (tcp_message a flags (tc_rcv_nxt t) data) → data ≠ [] →
  conn_at w i t → peers a t → tc_state t = TCP_ESTABLISHED → 0 < tcp_rcv_window t →
  seq_gt (tc_rcv_nxt a) (tc_snd_nxt t) = false →
  wp (tcp_input q.1 q.2) (fun _ w' => ∃ t', live i w w' t' ∧ data_received (tc_rcv_nxt a) data t t') w.
Proof.
  intros Hn Hw Hwa Hfl Hq Hne Hc Hpe Hst Hwin Hack.
  pose proof (tcp_wf_active _ _ _ _ Hw (ca_at _ _ _ Hc) (proj1 (ca_match _ _ _ Hc))) as Hwt.
  pose proof (rv_nxt _ (tb_rcv _ Hwt)). pose proof (data_peer flags Hfl). apply (wp_tcp_input_peer w q a flags (tc_rcv_nxt t) data i t); [done..|].
  intros w1 s now L1 _ Hs [_ D3 D4 D5 D6]. rewrite <- D4, <- D6.
  apply wp_established_data; rewrite ?D4, ?D5, ?D6; done.
Qed.

(** ** A train of segments *)

(** The receiver keeps finding the connection. *)
Lemma conn_at_live w w' i t t' :
  conn_at w i t → live i w w' t' → conn_id t' = conn_id t → tc_state t' ≠ TCP_LISTEN → conn_at w' i t'.
Proof.
  intros [Hi Hm Hf] L Eid Hst. pose proof L as [M Hi' Ha Ho]. injection Eid as Ea E1 E2 E3 E4.
  split; [done|by repeat split|]. intros j u Hj Hu (U1 & U2 & U3 & U4 & U5 & U6).
  specialize (Ho j ltac:(lia)). rewrite Hu in Ho. destruct (tcbs w !! j) as [v|] eqn:Hv; [|done].
  injection Ho as V1 V2 V3 V4 V5. assert (tc_state u = tc_state v) as Es.
  { pose proof (states_lookup _ _ _ Hu) as Su. rewrite (mv_states _ _ _ _ M), list_lookup_insert_ne in Su by lia.
    pose proof (states_lookup _ _ _ Hv). congruence. }
  destruct (Hf j v Hj Hv). unfold conn_match. split_and!; congruence.
Qed.

(** The receiving end between two segments: nothing is parked, and the
    acknowledgements of [a] are for something sent. *)
Record ready (w : world) (i : nat) (a t : tcp_cb) : Prop := {
  rd_net : net_wf w;
  rd_tcp : tcp_wf (w_socks w) (w_tcp w);
  rd_conn : conn_at w i t;
  rd_peers : peers a t;
  rd_state : tc_state t = TCP_ESTABLISHED;
  rd_ooo : tc_ooo t = [];
  rd_ack : u32 (tc_rcv_nxt a - tc_snd_una t) ≤ u32 (tc_snd_nxt t - tc_snd_una t);
}.

Lemma ready_wf w i a t : ready w i a t → tcb_wf t.
Proof. intros H. pose proof (rd_conn _ _ _ _ H) as [Hi Hm _]. eapply tcp_wf_active; [apply H|exact Hi|apply Hm]. Qed.

Lemma ack_covered t ack :
  tcb_wf t → tc_state t = TCP_ESTABLISHED → u32_ok ack → u32 (ack - tc_snd_una t) ≤ u32 (tc_snd_nxt t - tc_snd_una t) →
  seq_gt ack (tc_snd_nxt t) = false ∧ (if seq_gt ack (tc_snd_una t) then ack else tc_snd_una t) = ack.
Proof.
  intros Hwf Hst Ha Hc. destruct (tb_snd _ Hwf) as (Hu & Hn & Hl & H). rewrite Hst in H. destruct H as (_ & _ & Hf).
  split.
  - apply not_true_iff_false. rewrite seq_gt_iff. wrap_lia.
  - destruct (seq_gt ack (tc_snd_una t)) eqn:E; [done|]. apply not_true_iff_false in E. rewrite seq_gt_iff in E. wrap_lia.
Qed.

Lemma wp_transfer_step w q a flags data i t :
  ready w i a t → tcb_wf a → data_flags flags → carries a q (tcp_message a flags (tc_rcv_nxt t) data) →
  0 < zlen data ≤ tcp_rcv_window t →
  wp (tcp_input q.1 q.2) (fun _ w' => ∃ t', ready w' i a t' ∧ rcv_data t' = rcv_data t ++ data ∧
    tc_rcv_nxt t' = u32 (tc_rcv_nxt t + zlen data) ∧
    snd_view t' = (tc_rcv_nxt a, drop (Z.to_nat (u32 (tc_rcv_nxt a - tc_snd_una t))) (snd_data t))) w.
Proof.
  intros Hr Hwa Hfl Hq Hl. pose proof (ready_wf _ _ _ _ Hr) as Hwt. destruct Hr as [R1 R2 R3 R4 R5 R6 R7].
  destruct (ack_covered t (tc_rcv_nxt a) Hwt R5 (rv_nxt _ (tb_rcv _ Hwa)) R7) as [Hack Huna].
  assert (data ≠ []) as Hne by (intros ->; cbn in Hl; lia).
  assert (0 < tcp_rcv_window t) as Hwin by lia.
  eapply wp_mono; [by apply (wp_tcp_input_data w q a flags data i t)|]. intros [] w' (t' & L & [D1 D2 [_ D3] D4 D5 D8]).
  rewrite take_ge in D3 by lia. destruct (D3 Hne R6) as [D6 D7]. rewrite Huna in D5. rewrite D5 in D8. exists t'.
  pose proof D2 as E. injection E as _ E1 E2 E3 E4. destruct R4 as [[P1 P2] [P3 P4] P5].
  split; [|split; [done|split; [|by unfold snd_view; rewrite D5, D8]]].
  - split; [apply L|apply L| |split; [split; congruence..|done]|done|done|].
    + eapply conn_at_live; [done|done|done|by rewrite D1].
    + rewrite D5, Z.sub_diag. pose proof (u32_range (tc_snd_nxt t' - tc_rcv_nxt a)). change (u32 0) with 0. lia.
  - rewrite D4, D6, length_app. f_equal. lia.
Qed.

Definition tcp_inputs (qs : list rx) : PF () := for_each qs (fun q => tcp_input q.1 q.2).

Lemma wp_transfer cs qs a off i t w :
  ready w i a t → tcb_wf a → train_ok a cs → 0 ≤ off → off + train_len cs ≤ tc_snd_len a →
  tc_rcv_nxt t = u32 (tc_snd_una a + off) → train_len cs ≤ tcp_rcv_window t →
  Forall2 (carries a) qs (train a off cs) →
  wp (tcp_inputs qs) (fun _ w' => ∃ t', ready w' i a t' ∧
    rcv_data t' = rcv_data t ++ take (Z.to_nat (train_len cs)) (drop (Z.to_nat off) (snd_data a)) ∧
    tc_rcv_nxt t' = u32 (tc_rcv_nxt t + train_len cs)) w.
Proof.
  intros Hr Hwa. pose proof (length_snd_data a Hwa) as Hsl. revert qs off t w Hr.
  induction cs as [|[flags n] cs IH]; intros qs off t w Hr Hok Ho Hl Hnx Hw Hq; cbn [train] in Hq.
  - apply Forall2_nil_inv_r in Hq as ->. cbn. exists t. pose proof (rv_nxt _ (tb_rcv _ (ready_wf _ _ _ _ Hr))).
    rewrite take_0, app_nil_r. split_and!; [done|done|]. cbn. wrap_lia.
  - apply Forall2_cons_inv_r in Hq as (q & qs' & Hq & Hqs & ->). apply Forall_cons in Hok as [[Hfl Hn] Hok]. cbn in Hfl, Hn.
    change (train_len ((flags, n) :: cs)) with (n + train_len cs) in *.
    assert (0 ≤ train_len cs) as Hp.
    { clear -Hok. induction Hok as [|c cs [_ Hc] _ IH]; [done|]. change (train_len (c :: cs)) with (c.2 + train_len cs). lia. }
    set (d := take (Z.to_nat n) (drop (Z.to_nat off) (snd_data a))) in *.
    assert (zlen d = n) as Hdl by (unfold d; rewrite length_take, length_drop; lia).
    unfold tcp_inputs. cbn [for_each]. wp_step. rewrite <- Hnx in Hq.
    eapply wp_mono; [eapply wp_transfer_step; [done..|lia]|]. intros [] w1 (t1 & Hr1 & D1 & N1 & _).
    pose proof (ready_wf _ _ _ _ Hr) as Hwt. pose proof (ready_wf _ _ _ _ Hr1) as Hwt1.
    assert (tcp_rcv_window t1 = tcp_rcv_window t - n) as Hw1.
    { rewrite !tcp_rcv_window_eq by (by apply tb_rcv). rewrite <- !length_rcv_data by (by apply tb_rcv).
      rewrite D1, length_app. lia. }
    eapply wp_mono; [apply (IH qs' (off + n) t1); [done|done|lia|lia| |lia|done]|].
    + rewrite N1, Hnx, Hdl. wrap_lia.
    + intros [] w2 (t2 & Hr2 & D2 & N2). exists t2. split; [done|]. split.
      * rewrite D2, D1, <- app_assoc. f_equal. unfold d. rewrite !Z2Nat.inj_add by lia.
        by rewrite <- take_take_drop, drop_drop.
      * rewrite N2, N1, Hdl. wrap_lia.
Qed.

(** ** Properties *)

(** Data arrives. A segment that one end of a connection builds with
    [tcp_send_segment] (data and acknowledgement, no control flag), received
    at the other end at the sequence number expected there, is found to
    belong to that connection, passes the checks, and appends its data to the
    readable bytes, as far as the window reaches; [rcv_nxt] advances with
    them, the acknowledgement it carries is taken, and the connection stays
    established with its invariant intact. *)
Theorem tcp_segment_delivered w q a flags data i t :
  net_wf w → tcp_wf (w_socks w) (w_tcp w) → tcb_wf a → data_flags flags →
  carries a q (tcp_message a flags (tc_rcv_nxt t) data) → data ≠ [] →
  conn_at w i t → peers a t → tc_state t = TCP_ESTABLISHED → 0 < tcp_rcv_window t →
  seq_gt (tc_rcv_nxt a) (tc_snd_nxt t) = false →
  ∃ w' t', tcp_input q.1 q.2 w = Ok ((), w') ∧ tcbs w' !! i = Some t' ∧ tcb_wf t' ∧
    data_received (tc_rcv_nxt a) data t t'.
Proof.
  intros. cut (wp (tcp_input q.1 q.2) (fun _ w' => ∃ t', live i w w' t' ∧ data_received (tc_rcv_nxt a) data t t') w);
    [|by eapply wp_tcp_input_data].
  intros ([] & w' & Hrun & t' & L & D)%wp_run. exists w', t'. split_and!; [done|apply L|apply (lv_tcb _ _ _ _ L)|done].
Qed.

(** C5. Transfer end to end. An established connection sends with
    [tcp_output], and its peer, with nothing parked and expecting exactly
    [snd_nxt], has window enough. Then the segments handed to IP form a train,
    and whenever datagrams carrying that train arrive in order, [tcp_input]
    takes all of them and the peer's readable bytes grow by exactly the queued
    bytes that the sender put in flight: none lost, none added, in order. *)
Theorem tcp_transfer ws k a wr i t :
  net_wf ws → tcbs ws !! k = Some a → tcb_wf a → tc_state a = TCP_ESTABLISHED →
  ready wr i a t → tc_rcv_nxt t = tc_snd_nxt a → Z.min (tc_snd_wnd a) (tc_cwnd a) ≤ tcp_rcv_window t →
  ∃ ws' a' segs, tcp_output k ws = Ok ((), ws') ∧ tcbs ws' !! k = Some a' ∧
    hands (tc_local_ip a) (tc_remote_ip a) ws segs ws' ∧
    ∀ qs, Forall2 (carries a) qs segs →
      ∃ wr' t', tcp_inputs qs wr = Ok ((), wr') ∧ ready wr' i a t' ∧ tc_rcv_nxt t' = tc_snd_nxt a' ∧
        rcv_data t' = rcv_data t ++
          take (Z.to_nat (snd_flight a' - snd_flight a)) (drop (Z.to_nat (snd_flight a)) (snd_data a)).
Proof.
  intros Hn Hk Hwa Hst Hr Hnx Hwin.
  destruct (tb_snd _ Hwa) as (Ha & Hn1 & Hl & H). rewrite Hst in H. destruct H as (Hfs & Hfq & Hfl).
  fold (snd_flight a) in Hfl. pose proof (u32_range (tc_snd_nxt a - tc_snd_una a)) as Hf0. fold (snd_flight a) in Hf0.
  cut (wp (tcp_output k) (fun _ ws' => ∃ a' cs, tcb_step k ws ws' a' ∧ out_done a a' ∧ out_sent ws a cs a' ws') ws).
  2: { eapply wp_tcp_output_segs; [done..|]. eauto 10. }
  intros ([] & ws' & Hrun & a' & cs & Hstep & Hd & [S1 S2 S3 _ _ _])%wp_run.
  pose proof (od_rest _ _ Hd) as E. pose proof (tb_snd _ (od_wf _ _ Hd)) as (Ha' & Hn' & Hl' & H').
  rewrite (od_state _ _ Hd), Hst in H'. destruct H' as (Hfs' & _ & Hfl'). fold (snd_flight a') in Hfl'.
  assert (fin_new a a' = false) as Hno by (unfold fin_new; by rewrite Hfs'). rewrite Hno, app_nil_r in S1. rewrite Hno in S3.
  pose proof (od_window _ _ Hd) as Hdw. fold (fin_new a a') in Hdw. rewrite Hno in Hdw.
  pose proof (tb_wnd _ Hwa). pose proof (tb_cwnd _ Hwa) as [? _].
  rewrite (out_field E tc_snd_len : tc_snd_len a' = tc_snd_len a) in Hfl'.
  exists ws', a', (train a (snd_flight a) cs). split_and!; [done|by eapply tcb_step_lookup|done|]. intros qs Hqs.
  replace (snd_flight a' - snd_flight a) with (train_len cs) by lia.
  edestruct (wp_run _ _ _ (wp_transfer cs qs a (snd_flight a) i t wr Hr Hwa S2 ltac:(lia) ltac:(lia)
    ltac:(unfold snd_flight; wrap_lia) ltac:(lia) Hqs)) as ([] & wr' & Hrr & t' & Hr' & Hdat & Hnx').
  exists wr', t'. split_and!; [done|done| |done].
  rewrite Hnx', Hnx. pose proof (out_field E tc_snd_una : tc_snd_una a' = tc_snd_una a) as Eu.
  unfold snd_flight in S3. rewrite Eu in S3. wrap_lia.
Qed.

(** ** Witness *)

(** The other end of a connection with nothing in flight. *)
Definition swap_ends (t : tcp_cb) : tcp_cb :=
  t <| tc_local_ip := tc_remote_ip t |> <| tc_remote_ip := tc_local_ip t |>
    <| tc_local_port := tc_remote_port t |> <| tc_remote_port := tc_local_port t |> <| tc_rcv_nxt := tc_snd_nxt t |>.

Definition restart (x : Z) (t : tcp_cb) : tcp_cb := t <| tc_snd_una := x |> <| tc_snd_nxt := x |>.

Definition mirror (t : tcp_cb) : tcp_cb := restart (tc_rcv_nxt t) (swap_ends t).

Lemma swap_ends_wf t : tcb_wf t → u32_ok (tc_snd_nxt t) → tcb_wf (swap_ends t).
Proof. intros [? ? ? ? [R1 R2 R3 R4 R5 R6] ? [? ?] ? ? ? ? ? ? ? ? ?] Hn. by split; try (by split). Qed.

Lemma restart_snd x t : snd_ok t → tc_state t = TCP_ESTABLISHED → u32_ok x → snd_ok (restart x t).
Proof.
  intros (_ & _ & H3 & H4) Hst Hx. rewrite Hst in H4. destruct H4 as (H4 & H5 & _). unfold snd_ok, restart. cbn.
  rewrite Hst, Z.sub_diag. change (u32 0) with 0. split_and!; try apply Hx; try done; lia.
Qed.

Lemma restart_wf x t : tcb_wf t → tc_state t = TCP_ESTABLISHED → u32_ok x → tcb_wf (restart x t).
Proof.
  intros Ht Hst Hx. pose proof (restart_snd x t (tb_snd _ Ht) Hst Hx) as Hs.
  destruct Ht as [? ? ? ? [] ? ? ? ? ? ? ? ? ? ? ?]. split; try done.
Qed.

Definition demo_peer : tcp_cb := mirror demo_conn.

Lemma demo_peer_wf : tcb_wf demo_peer.
Proof.
  apply restart_wf; [|reflexivity|change (u32_ok 1000); lia]. apply swap_ends_wf; [exact demo_conn_wf|].
  change (u32_ok 5000). lia.
Qed.

Definition demo_data : bytes := tcp_message demo_peer TCP_ACK (tc_rcv_nxt demo_conn) [1; 2; 3].

Lemma demo_data_rx :
  rx_dgram (mk_rx (ip_datagram 0x0a000002 0x0a000001 IP_PROTO_TCP 64 1 0 demo_data))
    (ip_build_hdr 0x0a000002 0x0a000001 IP_PROTO_TCP 64 1 0 (zlen demo_data + IPV4_HDR_MIN)).
Proof.
  assert (zlen demo_data = 23) as Hl by (unfold demo_data, tcp_message; by rewrite length_tcp_segment).
  apply mk_rx_datagram; [lia|lia|wrap_lia|wrap_lia| |lia].
  apply tcp_segment_ok; [by vm_compute|by vm_compute|]. cbn. solve_bytes_ok.
Qed.

Lemma demo_data_payload :
  ip_payload (mk_rx (ip_datagram 0x0a000002 0x0a000001 IP_PROTO_TCP 64 1 0 demo_data))
    (ip_build_hdr 0x0a000002 0x0a000001 IP_PROTO_TCP 64 1 0 (zlen demo_data + IPV4_HDR_MIN)) = demo_data.
Proof. vm_compute. reflexivity. Qed.

Lemma demo_conn_at : conn_at demo_tcp_world 0 demo_conn.
Proof.
  split; [exact demo_tcp_at| |lia]. unfold conn_match. split_and!; try reflexivity.
  change (TCP_ESTABLISHED ≠ TCP_LISTEN). done.
Qed.

Lemma demo_peers : peers demo_peer demo_conn.
Proof. split; [done|done|]. change (u16_ok 5000 ∧ u16_ok 80). lia. Qed.

Definition demo_q : rx :=
  (mk_rx (ip_datagram 0x0a000002 0x0a000001 IP_PROTO_TCP 64 1 0 demo_data),
   ip_build_hdr 0x0a000002 0x0a000001 IP_PROTO_TCP 64 1 0 (zlen demo_data + IPV4_HDR_MIN)).

Lemma demo_carries : carries demo_peer demo_q demo_data.
Proof. split; [exact demo_data_rx|exact demo_data_payload|reflexivity|reflexivity]. Qed.

Lemma tcp_segment_delivered_witness :
  ∃ w' t', tcp_input demo_q.1 demo_q.2 demo_tcp_world = Ok ((), w') ∧ tcbs w' !! 0%nat = Some t' ∧ tcb_wf t' ∧
    data_received (tc_rcv_nxt demo_peer) [1; 2; 3] demo_conn t'.
Proof.
  exact (tcp_segment_delivered demo_tcp_world demo_q demo_peer TCP_ACK [1; 2; 3] 0 demo_conn demo_tcp_net demo_tcp_wf
    demo_peer_wf ltac:(split_and!; try reflexivity; done) demo_carries ltac:(discriminate)
    demo_conn_at demo_peers eq_refl ltac:(vm_compute; reflexivity) ltac:(vm_compute; reflexivity)).
Defined.

(** The sender's side: the three bytes [demo_peer] has queued. *)
Definition demo_sender : world := set_tcp demo_tcp_world (mk_tcpg [demo_peer] 0).

Lemma demo_ready : ready demo_tcp_world 0 demo_peer demo_conn.
Proof.
  split; [exact demo_tcp_net|exact demo_tcp_wf|exact demo_conn_at|exact demo_peers|reflexivity|reflexivity|].
  change (u32 (5000 - 5000) ≤ u32 (5000 - 5000)). done.
Qed.

Lemma tcp_transfer_witness :
  ∃ ws' a' segs, tcp_output 0 demo_sender = Ok ((), ws') ∧ tcbs ws' !! 0%nat = Some a' ∧
    hands (tc_local_ip demo_peer) (tc_remote_ip demo_peer) demo_sender segs ws'.
Proof.
  destruct (tcp_transfer demo_sender 0 demo_peer demo_tcp_world 0 demo_conn (net_wf_set_tcp _ _ demo_tcp_net)
    eq_refl demo_peer_wf eq_refl demo_ready eq_refl ltac:(vm_compute; discriminate)) as (ws' & a' & segs & H1 & H2 & H3 & _).
  exact (ex_intro _ ws' (ex_intro _ a' (ex_intro _ segs (conj H1 (conj H2 H3))))).
Defined.
