(* ===== verification/Recover.v ===== *)
(** * TCP loss recovery

    The retransmission round between the two ends of a connection: the timer
    of [tcp/tcp_timer.c] fires, the segment it resends reaches the peer, and
    the acknowledgement takes the bytes off the sender's queue. *)

From S2P Require Import Prelude Pf Checksum Pkt Fib Headers Stats Stack Link Arp IpOut Icmp Reass Sock.
From S2P Require Import Tcb TcpOut Tcp TcpInput TcpTimer Deliver.
Import Checksum Pkt Fib Stats.

(** ** Acknowledgements *)

(** A segment without data at [rcv_nxt] is always acceptable. *)
Lemma ack_acceptable t s :
  tcb_wf t → data_flags (sg_flags s) → sg_payload s = [] → sg_seq s = tc_rcv_nxt t → tcp_acceptable t s = true.
Proof.
  intros Hwf (_ & _ & Hsyn & _ & Hfin) Hp Hseq. pose proof (tb_rcv _ Hwf) as Hr.
  pose proof (tcp_rcv_window_eq t Hr) as HW. pose proof (rv_len _ Hr). pose proof (rv_nxt _ Hr).
  unfold tcp_acceptable, sg_seqlen, sg_paylen. rewrite Hsyn, Hfin, Hp, Hseq. cbn [length].
  change (Z.of_nat 0 + 0 + 0 =? 0) with true. cbv beta iota zeta. destruct (Z.eqb_spec (tcp_rcv_window t) 0) as [E|E]; [apply Z.eqb_refl|].
  unfold TCP_RCVBUF in *. rewrite andb_true_iff, seq_ge_iff, seq_lt_iff. split; wrap_lia.
Qed.

(** What a pure acknowledgement leaves behind. *)
Record ack_received (ack : Z) (t t' : tcp_cb) : Prop := {
  ar_state : tc_state t' = TCP_ESTABLISHED;
  ar_rcv : rcv_view t' = rcv_view t;
  ar_una : tc_snd_una t' = if seq_gt ack (tc_snd_una t) then ack else tc_snd_una t;
  ar_data : snd_data t' = drop (Z.to_nat (u32 (tc_snd_una t' - tc_snd_una t))) (snd_data t);
}.

Lemma wp_established_ack i w0 t s now w :
  live i w0 w t → tc_state t = TCP_ESTABLISHED → seg_ok s → data_flags (sg_flags s) → sg_payload s = [] →
  sg_seq s = tc_rcv_nxt t → seq_gt (sg_ack s) (tc_snd_nxt t) = false →
  wp (tcp_input_sync i s now) (fun _ w' => ∃ t', live i w0 w' t' ∧ ack_received (sg_ack s) t t') w.
Proof.
  intros L Hst Hs Hfl Hp Hseq Hack. pose proof (lv_tcb _ _ _ _ L) as Hwf.
  unfold tcp_input_sync. wp_step. eapply wp_get_live; [done|].
  rewrite (ack_acceptable t s) by done. destruct Hfl as (_ & Ha & Hsy & Hrs & Hfi). rewrite Ha, Hsy, Hrs, Hst.
  cbn [negb]. wp_step. rewrite bool_decide_eq_false_2 by done. wp_step. cbn [negb]. wp_step.
  eapply wp_mono; [by apply (wp_tcp_input_ack i w0 t); [|rewrite Hst|]|]. intros go w1 Hpost.
  destruct go; cbn [negb stage_post] in *; [|destruct Hpost as [_ [?|?]]; congruence].
  destruct Hpost as (t1 & L1 & [He1 V1 U1 D1]). wp_step.
  eapply wp_tcp_input_wnd; [exact L1|done|]. intros w2 t2 L2 E2 V2 U2. wp_step.
  unfold tcp_input_text, tcp_input_fin, sg_paylen. rewrite Hp, Hfi.
  change (0 <? zlen []) with false. wp_steps.
  exists t2. split; [done|]. injection U2 as U3 U4.
  split; [rewrite Hst in He1; inversion He1; congruence|congruence|congruence|by rewrite U3, U4].
Qed.

(** The receiving side depends on the sender only through [rcv_view]. *)
Lemma ready_view w i a a' t : ready w i a t → rcv_view a' = rcv_view a → ready w i a' t.
Proof.
  intros [R1 R2 R3 [[P1 P2] [P3 P4] [P5 P6]] R5 R6 R7] [= V1 V2 V3 V4 V5 V6 V7 V8 V9].
  split; try done; [split; rewrite ?V6, ?V7, ?V8, ?V9; done|by rewrite V2].
Qed.

Lemma wp_ack_step w q b k a :
  ready w k b a → tcb_wf b → tc_snd_nxt b = tc_rcv_nxt a → carries b q (tcp_message b TCP_ACK (tc_snd_nxt b) []) →
  wp (tcp_input q.1 q.2) (fun _ w' => ∃ a', ready w' k b a' ∧ rcv_view a' = rcv_view a ∧
    snd_view a' = (tc_rcv_nxt b, drop (Z.to_nat (u32 (tc_rcv_nxt b - tc_snd_una a))) (snd_data a))) w.
Proof.
  intros Hr Hwb Hnx Hq. pose proof (ready_wf _ _ _ _ Hr) as Hwa. pose proof Hr as [R1 R2 R3 R4 R5 R6 R7].
  destruct (ack_covered a (tc_rcv_nxt b) Hwa R5 (rv_nxt _ (tb_rcv _ Hwb)) R7) as [Hack Huna]. rewrite Hnx in Hq.
  pose proof (rv_nxt _ (tb_rcv _ Hwa)). assert (data_flags TCP_ACK) as Hfl by by vm_compute. pose proof (data_peer _ Hfl).
  apply (wp_tcp_input_peer w q b TCP_ACK (tc_rcv_nxt a) [] k a); [done..|].
  intros w1 s now L1 _ Hs [_ D3 D4 D5 D6].
  eapply wp_mono; [apply (wp_established_ack k w a); rewrite ?D4, ?D5; done|].
  intros [] w' (a' & L & [A1 A2 A3 A4]). rewrite D4, Huna in A3. rewrite A3 in A4. exists a'.
  pose proof A2 as E. injection E as V1 V2 V3 V4 V5 V6 V7 V8 V9. destruct R4 as [[P1 P2] [P3 P4] P5].
  split; [|split; [done|by unfold snd_view; rewrite A3, A4]].
  split; [apply L|apply L| |split; [split; congruence..|done]|done|congruence|].
  - eapply conn_at_live; [done|done|unfold conn_id; congruence|by rewrite A1].
  - rewrite A3, Z.sub_diag. pose proof (u32_range (tc_snd_nxt a' - tc_rcv_nxt b)). change (u32 0) with 0. lia.
Qed.

(** A step of the connection that keeps both views keeps it ready. *)
Lemma ready_live w w1 k b a a1 :
  ready w k b a → live k w w1 a1 → rcv_view a1 = rcv_view a → snd_fields a1 = snd_fields a → ready w1 k b a1.
Proof.
  intros [R1 R2 R3 [[P1 P2] [P3 P4] P5] R5 R6 R7] L [= V1 V2 V3 V4 V5 V6 V7 V8 V9] [= S1 S2 S3 S4 S5 S6 S7].
  split; [apply L|apply L| |split; [split; congruence..|done]|congruence|congruence|by rewrite S3, S4].
  eapply conn_at_live; [done|done|unfold conn_id; congruence|by rewrite S1, R5].
Qed.

(** ** Duplicates *)

(** Data that ends before [rcv_nxt] is not acceptable. *)
Lemma old_unacceptable t s j :
  tcb_wf t → data_flags (sg_flags s) → sg_seq s = u32 (tc_rcv_nxt t - j) → 0 < sg_paylen s ≤ j → j ≤ 65536 →
  tcp_acceptable t s = false.
Proof.
  intros Hwf (_ & _ & Hsyn & _ & Hfin) Hseq Hp Hj. pose proof (tb_rcv _ Hwf) as Hr. pose proof (rv_nxt _ Hr).
  unfold tcp_acceptable, sg_seqlen. rewrite Hsyn, Hfin, Hseq, !Z.add_0_r, (proj2 (Z.eqb_neq _ 0)) by lia. cbv zeta.
  apply andb_false_iff. right. apply orb_false_iff.
  split; apply andb_false_iff; left; apply not_true_iff_false; rewrite seq_ge_iff; wrap_lia.
Qed.

(** It is answered with an acknowledgement and otherwise ignored. *)
Lemma wp_old_segment w q a flags data i t j :
  ready w i a t → tcb_wf a → data_flags flags → carries a q (tcp_message a flags (u32 (tc_rcv_nxt t - j)) data) →
  0 < zlen data ≤ j → j ≤ 65536 →
  wp (tcp_input q.1 q.2) (fun _ w' => ∃ t', ready w' i a t' ∧ rcv_view t' = rcv_view t ∧ snd_view t' = snd_view t ∧
    hands (tc_local_ip t) (tc_remote_ip t) w [tcp_message t TCP_ACK (tc_snd_nxt t) []] w') w.
Proof.
  intros Hr Hwa Hfl Hq Hd Hj. pose proof (ready_wf _ _ _ _ Hr) as Hwt. pose proof Hr as [R1 R2 R3 R4 R5 R6 R7].
  apply (wp_tcp_input_peer w q a flags (u32 (tc_rcv_nxt t - j)) data i t); try done; [by apply data_peer|apply u32_range|].
  intros w1 s now L1 N1 Hs [_ D3 D4 D5 D6]. unfold tcp_input_sync. wp_step. eapply wp_get_live; [exact L1|].
  rewrite (old_unacceptable t s j) by (unfold sg_paylen; rewrite ?D5, ?D6; done). cbn [negb]. rewrite D5.
  destruct Hfl as (_ & _ & _ & Hrst & _). rewrite Hrst. wp_step.
  eapply wp_stat_live_same; [exact L1|]. intros w2 L2 N2.
  eapply wp_tcp_send_ctl; [apply L2|apply L2|done|by vm_compute|]. intros w3 S3 P3.
  assert (live i w w3 (tcp_seg_sent TCP_ACK t)) as L3.
  { eapply live_tcb_step; [exact L2|exact S3|by apply tcb_wf_seg_sent|rewrite seg_sent_active; apply L2]. }
  exists (tcp_seg_sent TCP_ACK t). split_and!; [|done|done|].
  - by eapply ready_live.
  - eapply hands_from; [by eapply net_same_trans|]. apply hands_one; [exact P3|apply S3].
Qed.

(** ** The timer *)

(** The flags and bytes of the segment a timeout resends. *)
Definition rtx_flags (a : tcp_cb) : Z := Z.lor TCP_ACK (if rtx_len a =? tc_snd_len a then TCP_PSH else 0).

Definition rtx_data (a : tcp_cb) : bytes := take (Z.to_nat (rtx_len a)) (snd_data a).

Lemma rtx_flags_ok a : data_flags (rtx_flags a).
Proof. unfold rtx_flags. destruct (_ =? _); by vm_compute. Qed.

(** On an established connection with data in flight that segment is the
    front of the queue, at most [mss] bytes. *)
Lemma rtx_established a :
  tcb_wf a → tc_state a = TCP_ESTABLISHED → 0 < snd_flight a →
  rtx_segs a = [tcp_message a (rtx_flags a) (tc_snd_una a) (rtx_data a)] ∧
  rtx_len a = Z.min (snd_flight a) (tc_mss a) ∧ 0 < rtx_len a ≤ snd_flight a ∧ zlen (rtx_data a) = rtx_len a.
Proof.
  intros Hwf Hst Hf. pose proof (tb_mss _ Hwf) as Hm. destruct (tb_snd _ Hwf) as (_ & _ & Hl & H).
  rewrite Hst in H. destruct H as (Hfs & _ & Hfl). fold (snd_flight a) in Hfl.
  assert (tcp_data_in_flight a = snd_flight a) as Ed by (unfold tcp_data_in_flight; by rewrite Hfs).
  assert (rtx_len a = Z.min (snd_flight a) (tc_mss a)) as El by (unfold rtx_len; by rewrite Ed).
  split_and!; [|done|lia|lia|].
  - unfold rtx_segs. by rewrite Hst, Ed, (proj2 (Z.ltb_lt 0 _) Hf).
  - unfold rtx_data. rewrite length_take. pose proof (length_snd_data a Hwf). lia.
Qed.

(** The timer of [a] is due and the retry limit not reached. *)
Definition rto_due (now : Z) (a : tcp_cb) : Prop :=
  tc_rto_deadline a ≠ 0 ∧ tc_rto_deadline a ≤ now ∧ u32 (tc_rtx_count a + 1) ≤ TCP_MAX_RTX.

Lemma wp_rto_round ws k b a now :
  ready ws k b a → 0 < snd_flight a → rto_due now a →
  wp (tcp_tick_conn now k) (fun _ ws' => ∃ a', ready ws' k b a' ∧ rcv_view a' = rcv_view a ∧
    snd_view a' = snd_view a ∧ rto_fired now (count_rtx a) a' ∧
    hands (tc_local_ip a) (tc_remote_ip a) ws [tcp_message a (rtx_flags a) (tc_snd_una a) (rtx_data a)] ws') ws.
Proof.
  intros Hr Hf (Hd1 & Hd2 & Hx). pose proof (ready_wf _ _ _ _ Hr) as Hwf. pose proof Hr as [R1 R2 R3 _ R5 _ _].
  pose proof (ca_at _ _ _ R3) as Hk. assert (tc_active a = true) as Ha by apply R3.
  pose proof (live_refl _ _ _ R1 R2 Hk Ha) as L.
  unfold tcp_tick_conn. wp_step. eapply wp_get_live; [exact L|]. rewrite Ha. cbn [negb].
  rewrite bool_decide_eq_false_2 by (by rewrite R5).
  rewrite (proj2 (Z.eqb_neq _ 0)), (proj2 (Z.leb_le _ _)) by done. cbn [negb andb].
  eapply wp_mono; [by eapply wp_tcp_rto_fire|]. intros [] ws1 Hpost. cbv beta in Hpost.
  rewrite (proj2 (Z.ltb_ge _ _)) in Hpost by done. destruct Hpost as (a1 & L1 & F & P).
  exists a1. destruct (rf_view _ _ _ F) as [F1 F2]. split_and!; [|exact F1|exact F2|done|].
  - eapply ready_live; [done|done|exact F1|exact (rf_snd _ _ _ F)].
  - rewrite <- (proj1 (rtx_established a Hwf R5 Hf)). apply P. by rewrite R5.
Qed.

(** A receiver with nothing to send acknowledges with the sequence number
    expected from it. *)
Lemma idle_snd_nxt t : tcb_wf t → tc_state t = TCP_ESTABLISHED → snd_data t = [] → tc_snd_nxt t = tc_snd_una t.
Proof.
  intros Hwf Hst He. pose proof (length_snd_data t Hwf) as Hl. rewrite He in Hl. cbn in Hl.
  destruct (tb_snd _ Hwf) as (Hu & Hn & _ & H). rewrite Hst, <- Hl in H. destruct H as (_ & _ & H). wrap_lia.
Qed.

(** ** Fast retransmission *)

(** The congestion state does not matter for what is resent. *)
Lemma rtx_segs_dupack f c t :
  rtx_segs (t <| tc_dupacks ::= f |> <| tc_ssthresh := c |>) = rtx_segs t ∧
  snd_view (t <| tc_dupacks ::= f |> <| tc_ssthresh := c |>) = snd_view t ∧
  rcv_view (t <| tc_dupacks ::= f |> <| tc_ssthresh := c |>) = rcv_view t.
Proof. done. Qed.

Lemma dupack_old t s :
  tcb_wf t → synced (tc_state t) = true → tcp_is_dupack t s = true →
  seq_gt (sg_ack s) (tc_snd_nxt t) = false ∧ seq_gt (sg_ack s) (tc_snd_una t) = false.
Proof.
  intros Hwf Hsy Hd. unfold tcp_is_dupack in Hd. repeat (apply andb_true_iff in Hd as [Hd ?]). apply Z.eqb_eq in Hd. rewrite Hd.
  destruct (proj1 (snd_ok_synced t Hsy) (tb_snd _ Hwf)) as (Hu & Hn & Hl & Hst). unfold TCP_SNDBUF in Hl.
  assert (snd_flight t ≤ 65537) as Hfl
    by (destruct (app_open _), (tc_fin_sent t); destruct Hst as (? & ?); lia).
  unfold snd_flight in Hfl. split; apply not_true_iff_false; rewrite seq_gt_iff; wrap_lia.
Qed.

Lemma wp_third_dupack i w0 t w :
  live i w0 w t → tc_dupacks t = 2 → tc_state t ≠ TCP_LISTEN →
  wp (tcp_dupack i) (fun _ w' => ∃ t', live i w0 w' t' ∧ rcv_view t' = rcv_view t ∧ snd_view t' = snd_view t ∧
    tc_ssthresh t' = Z.max (snd_flight t / 2) (2 * tc_mss t) ∧ tc_cwnd t' = u32 (tc_ssthresh t' + 3 * tc_mss t) ∧
    hands (tc_local_ip t) (tc_remote_ip t) w (rtx_segs t) w') w.
Proof.
  intros L Hd Hl. pose proof (lv_tcb _ _ _ _ L) as Hwf. unfold tcp_dupack. wp_step.
  eapply wp_stat_live_same; [exact L|]. intros w1 L1 N1. wp_step.
  eapply wp_upd_live_same; [exact L1|apply tcb_wf_dupacks, Hwf|exact (lv_active _ _ _ _ L1)|]. intros w2 L2 N2.
  wp_step. eapply wp_get_live; [exact L2|].
  change (tc_dupacks (t <| tc_dupacks ::= fun n => u32 (n + 1) |>)) with (u32 (tc_dupacks t + 1)). rewrite Hd.
  change (u32 (2 + 1) =? 3) with true. cbv zeta iota.
  change (u32 (tc_snd_nxt (t <| tc_dupacks ::= fun n => u32 (n + 1) |>) -
    tc_snd_una (t <| tc_dupacks ::= fun n => u32 (n + 1) |>))) with (snd_flight t).
  change (tc_mss (t <| tc_dupacks ::= fun n => u32 (n + 1) |>)) with (tc_mss t).
  pose proof (ssthresh_range t (snd_flight t) Hwf (u32_range _)) as Hss.
  revert Hss. generalize (Z.max (snd_flight t / 2) (2 * tc_mss t)) as c. intros c Hss. wp_step.
  eapply wp_upd_live_same; [exact L2|apply tcb_wf_ssthresh; [done|apply (lv_tcb _ _ _ _ L2)]|exact (lv_active _ _ _ _ L2)|].
  intros w3 L3 N3. destruct (rtx_segs_dupack (fun n => u32 (n + 1)) c t) as (B1 & B2 & B3).
  change (set_field tc_ssthresh (fun _ => c) (t <| tc_dupacks ::= fun n => u32 (n + 1) |>)) with
    (t <| tc_dupacks ::= fun n => u32 (n + 1) |> <| tc_ssthresh := c |>) in L3.
  set (t3 := t <| tc_dupacks ::= fun n => u32 (n + 1) |> <| tc_ssthresh := c |>) in *.
  assert (tc_local_ip t3 = tc_local_ip t ∧ tc_remote_ip t3 = tc_remote_ip t ∧ tc_state t3 = tc_state t ∧
    tc_ssthresh t3 = c ∧ tc_mss t3 = tc_mss t) as (B4 & B5 & B6 & B7 & B8) by done. clearbody t3.
  wp_step. eapply wp_retransmit_live; [exact L3|]. intros w4 t4 L4 E4 _ P4. wp_step.
  eapply wp_stat_live_same; [exact L4|]. intros w5 L5 N5.
  eapply wp_upd_live_same; [exact L5|apply tcb_wf_cwnd; [apply u32_range|apply (lv_tcb _ _ _ _ L5)]|
    exact (lv_active _ _ _ _ L5)|].
  intros w6 L6 N6. eexists. split; [exact L6|].
  pose proof (out_field E4 tc_ssthresh : tc_ssthresh t4 = tc_ssthresh t3) as Q1.
  pose proof (out_field E4 tc_mss : tc_mss t4 = tc_mss t3) as Q2.
  split_and!; [exact (eq_trans (out_field E4 rcv_view) B3)|exact (eq_trans (out_field E4 snd_view) B2)|
    exact (eq_trans Q1 B7)| |].
  - change (u32 (tc_ssthresh t4 + 3 * tc_mss t4) = u32 (tc_ssthresh t4 + 3 * tc_mss t)). congruence.
  - eapply hands_from; [eapply net_same_trans; [exact N1|eapply net_same_trans; [exact N2|exact N3]]|].
    rewrite <- (app_nil_r (rtx_segs t)). eapply hands_app; [|exact (net_same_trans _ _ _ N5 N6)].
    rewrite <- B1, <- B4, <- B5. apply P4. by rewrite B6.
Qed.

(** ** Properties *)

(** C6. Recovery from loss. Everything an established connection has in
    flight is lost: the peer, with nothing to send itself, still expects
    [snd_una]. Once the retransmission timer is due and the retry limit not
    reached, the tick hands IP one segment; whatever datagram carries it
    makes exactly the front of the sender's queue readable at the peer, and
    whatever datagram carries the acknowledgement back takes exactly those
    bytes off the queue. Both ends are again ready for the next round, with
    what is readable followed by what is queued unchanged: no byte is lost,
    duplicated or reordered. *)
Theorem tcp_loss_recovered ws k a wr i t now :
  ready ws k t a → ready wr i a t → tc_rcv_nxt t = tc_snd_una a → snd_data t = [] →
  0 < snd_flight a → Z.min (snd_flight a) (tc_mss a) ≤ tcp_rcv_window t → rto_due now a →
  ∃ ws1 seg, tcp_tick_conn now k ws = Ok ((), ws1) ∧ hands (tc_local_ip a) (tc_remote_ip a) ws [seg] ws1 ∧
  ∀ q, carries a q seg →
    ∃ wr1 t1, tcp_input q.1 q.2 wr = Ok ((), wr1) ∧ tcbs wr1 !! i = Some t1 ∧
    ∀ q', carries t1 q' (tcp_message t1 TCP_ACK (tc_snd_nxt t1) []) →
      ∃ ws2 a2, tcp_input q'.1 q'.2 ws1 = Ok ((), ws2) ∧ ready ws2 k t1 a2 ∧ ready wr1 i a2 t1 ∧
        tc_rcv_nxt t1 = tc_snd_una a2 ∧ snd_data t1 = [] ∧
        rcv_data t1 ++ snd_data a2 = rcv_data t ++ snd_data a ∧
        zlen (rcv_data t1) = zlen (rcv_data t) + Z.min (snd_flight a) (tc_mss a).
Proof.
  intros Hs Hr Hnx He Hf Hw Hd. pose proof (ready_wf _ _ _ _ Hs) as Hwa. pose proof (ready_wf _ _ _ _ Hr) as Hwt.
  destruct (rtx_established a Hwa (rd_state _ _ _ _ Hs) Hf) as (_ & El & Hl & Hlen).
  destruct (wp_run _ _ _ (wp_rto_round ws k t a now Hs Hf Hd)) as ([] & ws1 & Hrun & a1 & Hs1 & V1 & U1 & F1 & P1).
  exists ws1. eexists. split; [done|]. split; [exact P1|]. intros q Hq. rewrite <- Hnx in Hq.
  destruct (wp_run _ _ _ (wp_transfer_step wr q a (rtx_flags a) (rtx_data a) i t Hr Hwa (rtx_flags_ok a) Hq ltac:(lia)))
    as ([] & wr1 & Hrr & t1 & Hr1 & Hd1 & Hn1 & W1).
  exists wr1, t1. split; [done|]. split; [apply Hr1|]. intros q' Hq'.
  injection W1 as Wu Wd. rewrite He, drop_nil in Wd. pose proof (ready_wf _ _ _ _ Hr1) as Hwt1.
  pose proof (idle_snd_nxt t1 Hwt1 (rd_state _ _ _ _ Hr1) Wd) as Hn2.
  pose proof (f_equal (fun v => v.1.1.1.2) V1 : tc_rcv_nxt a1 = tc_rcv_nxt a) as Vn.
  injection U1 as Ua Ud. destruct (tb_snd _ Hwa) as (Hu & _).
  assert (ready ws1 k t1 a1) as Hs2.
  { destruct Hs1 as [S1 S2 S3 S4 S5 S6 S7]. split; try done.
    - destruct S4 as [_ _ [Q1 Q2]]. destruct (rd_peers _ _ _ _ Hr1) as [[A1 A2] [A3 A4] [A5 A6]].
      injection V1 as _ _ _ _ _ B1 B2 B3 B4. split; split; congruence.
    - rewrite Hn1, Hnx, Ua, Hlen. injection (rf_snd _ _ _ F1) as _ _ _ N2 _ _ _. rewrite N2.
      change (u32 (u32 (tc_snd_una a + rtx_len a) - tc_snd_una a) ≤ snd_flight a).
      pose proof (u32_range (tc_snd_nxt a - tc_snd_una a)) as Hfr. fold (snd_flight a) in Hfr. wrap_lia. }
  destruct (wp_run _ _ _ (wp_ack_step ws1 q' t1 k a1 Hs2 Hwt1 ltac:(congruence) Hq')) as
    ([] & ws2 & Hrs & a2 & Hs3 & V2 & U2). injection U2 as Ua2 Ud2.
  exists ws2, a2. split_and!; [done|done|eapply ready_view; [done|congruence]|done|done| |].
  - rewrite Hd1, Ud2, Ud, Ua, Hn1, Hnx, Hlen, <- app_assoc. f_equal.
    replace (u32 _) with (rtx_len a) by (unfold snd_flight in *; wrap_lia). apply take_drop.
  - rewrite Hd1, length_app. lia.
Qed.

(** C9. The send queue. On any synchronised connection (the last
    acknowledgement of a close aside), an acknowledgement not beyond
    [snd_nxt] removes from the front of the queue exactly the bytes between
    [snd_una] and it; an old or repeated one removes nothing. The receive side
    is untouched, and the state moves only along the edges an acknowledgement
    of our FIN allows. *)
Theorem tcp_ack_stream w i t s now :
  net_wf w → tcp_wf (w_socks w) (w_tcp w) → tcbs w !! i = Some t → tc_active t = true →
  synced (tc_state t) = true → tc_state t ≠ TCP_LAST_ACK → seg_ok s → seq_gt (sg_ack s) (tc_snd_nxt t) = false →
  ∃ w' t', tcp_input_ack i s now w = Ok (true, w') ∧ tcbs w' !! i = Some t' ∧ tcb_wf t' ∧
    ack_edge (tc_state t) (tc_state t') ∧ rcv_view t' = rcv_view t ∧
    tc_snd_una t' = (if seq_gt (sg_ack s) (tc_snd_una t) then sg_ack s else tc_snd_una t) ∧
    snd_data t' = drop (Z.to_nat (u32 (tc_snd_una t' - tc_snd_una t))) (snd_data t).
Proof.
  intros Hn Hw Hi Ha Hsy Hla Hs Hgt. pose proof (live_refl _ _ _ Hn Hw Hi Ha) as L.
  destruct (wp_run _ _ _ (wp_tcp_input_ack i w t s now w L Hsy Hs)) as ([] & w' & Hrun & Hpost); cbn [stage_post] in Hpost.
  - destruct Hpost as (t' & L' & [A1 A2 A3 A4]). exists w', t'.
    split_and!; [done|apply L'|apply (lv_tcb _ _ _ _ L')|done..].
  - destruct Hpost as [_ [?|?]]; congruence.
Qed.

(** An acknowledgement of the first two bytes in flight. *)
Definition demo_partial_ack : segment :=
  mk_seg (ip_build_hdr 0x0a000001 0x0a000002 IP_PROTO_TCP 64 1 0 40)
    (mk_tcp 0 0 0 0 80 TCP_ACK 0 0 0) (replicate 20 0) 5000 1002 700 TCP_ACK [].

Lemma demo_partial_ack_ok : seg_ok demo_partial_ack.
Proof.
  split.
  - apply ip_build_hdr_ok; wrap_lia.
  - change (u32_ok 5000). lia.
  - change (u32_ok 1002). lia.
  - change (u16_ok 700). lia.
  - apply Forall_nil_2.
  - change (0 ≤ PKT_BUF_SIZE - PKT_RX_OFFSET). wrap_lia.
  - apply Forall_replicate. wrap_lia.
  - by vm_compute.
Qed.

(** Fast retransmission (RFC 5681). The third duplicate acknowledgement
    makes the connection hand IP at once the oldest bytes in flight, exactly
    the segment a timeout would resend; the threshold becomes half the flight
    but two segments at least, the window three segments more, and neither
    the queue nor what was received changes. *)
Theorem tcp_fast_retransmit w i t s now :
  net_wf w → tcp_wf (w_socks w) (w_tcp w) → tcbs w !! i = Some t → tc_active t = true →
  synced (tc_state t) = true → tcp_is_dupack t s = true → tc_dupacks t = 2 →
  ∃ w' t', tcp_input_ack i s now w = Ok (true, w') ∧ tcbs w' !! i = Some t' ∧ tcb_wf t' ∧
    hands (tc_local_ip t) (tc_remote_ip t) w (rtx_segs t) w' ∧
    tc_ssthresh t' = Z.max (snd_flight t / 2) (2 * tc_mss t) ∧ tc_cwnd t' = u32 (tc_ssthresh t' + 3 * tc_mss t) ∧
    rcv_view t' = rcv_view t ∧ snd_view t' = snd_view t.
Proof.
  intros Hn Hw Hi Ha Hsy Hdup Hd. pose proof (live_refl _ _ _ Hn Hw Hi Ha) as L.
  destruct (dupack_old t s (lv_tcb _ _ _ _ L) Hsy Hdup) as [Hgt Hnew].
  match goal with |- ∃ w' t', _ = _ ∧ @?P w' t' => cut (wp (tcp_input_ack i s now) (fun go w' => go = true ∧ ∃ t', P w' t') w) end.
  { intros (go & w' & Hrun & -> & t' & HP)%wp_run. by exists w', t'. }
  unfold tcp_input_ack. wp_step. eapply wp_get_live; [exact L|]. rewrite Hgt, Hnew, Hdup. wp_step.
  eapply wp_mono; [apply (wp_third_dupack i w t); [done|done|by destruct (tc_state t)]|].
  intros [] w' (t' & L' & H1 & H2 & H3 & H4 & H5). wp_step. split; [done|]. exists t'.
  split_and!; [apply L'|apply (lv_tcb _ _ _ _ L')|done..].
Qed.

(** C33. Recovery from a lost acknowledgement. The peer has received the first [j]
    bytes in flight, at least what a timeout resends, but the sender does not
    know. When the timer is due, the segment it resends is recognised as old:
    it changes nothing readable and is answered with an acknowledgement, and
    that takes exactly the [j] bytes off the sender's queue. *)
Theorem tcp_lost_ack_recovered ws k a wr i t now j :
  ready ws k t a → ready wr i a t → tc_rcv_nxt t = u32 (tc_snd_una a + j) → snd_data t = [] →
  0 < snd_flight a → Z.min (snd_flight a) (tc_mss a) ≤ j ≤ snd_flight a → rto_due now a →
  ∃ ws1 seg, tcp_tick_conn now k ws = Ok ((), ws1) ∧ hands (tc_local_ip a) (tc_remote_ip a) ws [seg] ws1 ∧
  ∀ q, carries a q seg →
    ∃ wr1 t1 ack, tcp_input q.1 q.2 wr = Ok ((), wr1) ∧ tcbs wr1 !! i = Some t1 ∧ rcv_view t1 = rcv_view t ∧
      hands (tc_local_ip t) (tc_remote_ip t) wr [ack] wr1 ∧
    ∀ q', carries t q' ack →
      ∃ ws2 a2, tcp_input q'.1 q'.2 ws1 = Ok ((), ws2) ∧ ready ws2 k t a2 ∧ ready wr1 i a2 t1 ∧
        tc_rcv_nxt t1 = tc_snd_una a2 ∧ snd_data a2 = drop (Z.to_nat j) (snd_data a).
Proof.
  intros Hs Hr Hnx He Hf Hj Hd. pose proof (ready_wf _ _ _ _ Hs) as Hwa. pose proof (ready_wf _ _ _ _ Hr) as Hwt.
  destruct (rtx_established a Hwa (rd_state _ _ _ _ Hs) Hf) as (_ & El & Hl & Hlen).
  destruct (tb_snd _ Hwa) as (Hu & _ & Hsl & Hfl). rewrite (rd_state _ _ _ _ Hs) in Hfl.
  destruct Hfl as (_ & _ & Hfl). fold (snd_flight a) in Hfl. unfold TCP_SNDBUF in Hsl.
  destruct (wp_run _ _ _ (wp_rto_round ws k t a now Hs Hf Hd)) as ([] & ws1 & Hrun & a1 & Hs1 & V1 & U1 & F1 & P1).
  exists ws1. eexists. split; [done|]. split; [exact P1|]. intros q Hq.
  replace (tc_snd_una a) with (u32 (tc_rcv_nxt t - j)) in Hq by wrap_lia.
  destruct (wp_run _ _ _ (wp_old_segment wr q a (rtx_flags a) (rtx_data a) i t j Hr Hwa (rtx_flags_ok a) Hq
    ltac:(lia) ltac:(lia))) as ([] & wr1 & Hrr & t1 & Hr1 & V2 & U2 & P2).
  exists wr1, t1. eexists. split; [done|]. split; [apply Hr1|]. split; [done|]. split; [exact P2|]. intros q' Hq'.
  pose proof (idle_snd_nxt t Hwt (rd_state _ _ _ _ Hr) He) as Hn2.
  pose proof (rd_ack _ _ _ _ Hr) as Hack. rewrite Hn2, Z.sub_diag in Hack. change (u32 0) with 0 in Hack.
  pose proof (f_equal (fun v => v.1.1.1.2) V1 : tc_rcv_nxt a1 = tc_rcv_nxt a) as Vn.
  pose proof (f_equal (fun v => v.1.1.1.2) V2 : tc_rcv_nxt t1 = tc_rcv_nxt t) as Vt.
  destruct (tb_snd _ Hwt) as (Hut & _). pose proof (rv_nxt _ (tb_rcv _ Hwa)).
  destruct (wp_run _ _ _ (wp_ack_step ws1 q' t k a1 Hs1 Hwt ltac:(rewrite Vn; wrap_lia) Hq')) as
    ([] & ws2 & Hrs & a2 & Hs3 & V3 & U3). injection U3 as Ua2 Ud2. injection U1 as Ua Ud.
  exists ws2, a2. split_and!; [done|done|eapply ready_view; [done|congruence]|congruence|].
  rewrite Ud2, Ud, Ua, Hnx. f_equal. f_equal. wrap_lia.
Qed.

(** ** Witnesses *)

(** A connection with nothing to send. *)
Definition idle (t : tcp_cb) : tcp_cb := t <| tc_snd_len := 0 |>.

(** A connection with [n] queued bytes in flight and the timer set. *)
Definition in_flight (n d : Z) (t : tcp_cb) : tcp_cb :=
  t <| tc_snd_nxt := u32 (tc_snd_una t + n) |> <| tc_rto_deadline := d |>.

Lemma idle_wf t : tcb_wf t → tc_state t = TCP_ESTABLISHED → tc_snd_nxt t = tc_snd_una t → tcb_wf (idle t).
Proof.
  intros Ht Hst Hn. assert (snd_ok (idle t)) as Hs.
  { destruct (tb_snd _ Ht) as (H1 & H2 & H3 & H4). rewrite Hst in H4. destruct H4 as (H4 & H5 & _).
    unfold snd_ok, idle. cbn. rewrite Hst, Hn, Z.sub_diag. change (u32 0) with 0. unfold TCP_SNDBUF in *.
    split_and!; try apply H1; try done; lia. }
  destruct Ht as [? ? ? ? [] ? ? ? ? ? ? ? ? ? ? ?]. split; done.
Qed.

Lemma in_flight_wf n d t :
  tcb_wf t → tc_state t = TCP_ESTABLISHED → 0 ≤ n ≤ tc_snd_len t → tcb_wf (in_flight n d t).
Proof.
  intros Ht Hst Hn. assert (snd_ok (in_flight n d t)) as Hs.
  { destruct (tb_snd _ Ht) as (H1 & H2 & H3 & H4). rewrite Hst in H4. destruct H4 as (H4 & H5 & _).
    unfold snd_ok, in_flight. cbn. rewrite Hst. unfold TCP_SNDBUF in *.
    split_and!; try apply H1; try apply u32_range; try done; try lia. wrap_lia. }
  destruct Ht as [? ? ? ? [] ? ? ? ? ? ? ? ? ? ? ?]. split; done.
Qed.

Definition demo_rcvr : tcp_cb := idle demo_conn.
Definition demo_sndr : tcp_cb := in_flight 3 100 demo_peer.
Definition demo_with (t : tcp_cb) : world := set_tcp demo_tcp_world (put_tcb demo_tcp 0 t).

Lemma demo_rcvr_wf : tcb_wf demo_rcvr.
Proof. apply idle_wf; [exact demo_conn_wf|reflexivity|reflexivity]. Qed.

Lemma demo_sndr_wf : tcb_wf demo_sndr.
Proof. apply in_flight_wf; [exact demo_peer_wf|reflexivity|]. change (0 ≤ 3 ≤ 3). lia. Qed.

Lemma demo_with_tcp t :
  tcb_wf t → tc_active t = true → tcp_wf (w_socks (demo_with t)) (w_tcp (demo_with t)).
Proof.
  intros Ht Ha. change (tcp_wf (w_socks demo_tcp_world) (put_tcb demo_tcp 0 t)).
  apply tcp_wf_put; [exact demo_tcp_wf|]. by apply slot_wf_active.
Qed.

Lemma demo_with_ready a t :
  tcb_wf t → tc_active t = true → peers a t → tc_state t = TCP_ESTABLISHED → tc_ooo t = [] →
  u32 (tc_rcv_nxt a - tc_snd_una t) ≤ u32 (tc_snd_nxt t - tc_snd_una t) → ready (demo_with t) 0 a t.
Proof.
  intros Ht Ha Hp Hst Ho Hack. split; [apply net_wf_set_tcp, demo_tcp_net|by apply demo_with_tcp| |done..].
  split; [done| |lia]. repeat split; try done. by rewrite Hst.
Qed.

Lemma peers_sym a t : peers a t → peers t a.
Proof. intros [[H1 H2] [H3 H4] [H5 H6]]. split; [done|done|]. by rewrite <- H3, <- H4. Qed.

Lemma peers_flight n d a t : peers a t → peers (in_flight n d a) (idle t).
Proof. intros [H1 H2 H3]. split; [exact H1|exact H2|exact H3]. Qed.

Lemma demo_ends : peers demo_sndr demo_rcvr.
Proof. apply peers_flight, demo_peers. Qed.

Lemma demo_lost : tc_rcv_nxt demo_rcvr = tc_snd_una demo_sndr ∧ snd_data demo_rcvr = [].
Proof. vm_compute. split; reflexivity. Qed.

Lemma demo_sndr_ready : ready (demo_with demo_sndr) 0 demo_rcvr demo_sndr.
Proof.
  apply demo_with_ready; [exact demo_sndr_wf|reflexivity|apply peers_sym, demo_ends|reflexivity|reflexivity|by vm_compute].
Qed.

Lemma demo_rcvr_ready : ready (demo_with demo_rcvr) 0 demo_sndr demo_rcvr.
Proof.
  apply demo_with_ready; [exact demo_rcvr_wf|reflexivity|exact demo_ends|reflexivity|reflexivity|by vm_compute].
Qed.

Lemma demo_sndr_due : rto_due 100 demo_sndr ∧ 0 < snd_flight demo_sndr ∧
  Z.min (snd_flight demo_sndr) (tc_mss demo_sndr) ≤ tcp_rcv_window demo_rcvr.
Proof. by vm_compute. Qed.

Lemma tcp_loss_recovered_witness :
  ∃ ws1 seg, tcp_tick_conn 100 0 (demo_with demo_sndr) = Ok ((), ws1) ∧
    hands (tc_local_ip demo_sndr) (tc_remote_ip demo_sndr) (demo_with demo_sndr) [seg] ws1.
Proof.
  destruct demo_lost as [E1 E2]. destruct demo_sndr_due as (D1 & D2 & D3).
  destruct (tcp_loss_recovered (demo_with demo_sndr) 0 demo_sndr (demo_with demo_rcvr) 0 demo_rcvr 100
    demo_sndr_ready demo_rcvr_ready E1 E2 D2 D3 D1) as (ws1 & seg & H1 & H2 & _).
  exact (ex_intro _ ws1 (ex_intro _ seg (conj H1 H2))).
Defined.

(** The receiver after [n] bytes arrived whose acknowledgement is lost. *)
Definition got (n : Z) (t : tcp_cb) : tcp_cb := t <| tc_rcv_nxt ::= fun x => u32 (x + n) |>.

Lemma got_wf n t : tcb_wf t → tcb_wf (got n t).
Proof.
  intros [? ? ? ? [R1 R2 R3 R4 R5 R6] ? ? ? ? ? ? ? ? ? ? ?]. split; try done. split; try done. apply u32_range.
Qed.

Lemma got_peers n a t : peers a t → peers a (got n t).
Proof. intros [H1 H2 H3]. split; [exact H1|exact H2|exact H3]. Qed.

Lemma demo_got_sndr : ready (demo_with demo_sndr) 0 (got 3 demo_rcvr) demo_sndr.
Proof.
  apply demo_with_ready; [exact demo_sndr_wf|reflexivity|apply peers_sym, got_peers, demo_ends|reflexivity|reflexivity|].
  by vm_compute.
Qed.

Lemma demo_got_rcvr : ready (demo_with (got 3 demo_rcvr)) 0 demo_sndr (got 3 demo_rcvr).
Proof.
  apply demo_with_ready; [apply got_wf, demo_rcvr_wf|reflexivity|apply got_peers, demo_ends|reflexivity|reflexivity|].
  by vm_compute.
Qed.

Lemma demo_got :
  tc_rcv_nxt (got 3 demo_rcvr) = u32 (tc_snd_una demo_sndr + 3) ∧ snd_data (got 3 demo_rcvr) = [] ∧
  Z.min (snd_flight demo_sndr) (tc_mss demo_sndr) ≤ 3 ≤ snd_flight demo_sndr.
Proof. vm_compute. by split_and!. Qed.

Lemma tcp_lost_ack_recovered_witness :
  ∃ ws1 seg, tcp_tick_conn 100 0 (demo_with demo_sndr) = Ok ((), ws1) ∧
    hands (tc_local_ip demo_sndr) (tc_remote_ip demo_sndr) (demo_with demo_sndr) [seg] ws1.
Proof.
  destruct demo_got as (G1 & G2 & G3). destruct demo_sndr_due as (D1 & D2 & _).
  destruct (tcp_lost_ack_recovered (demo_with demo_sndr) 0 demo_sndr (demo_with (got 3 demo_rcvr)) 0 (got 3 demo_rcvr) 100 3
    demo_got_sndr demo_got_rcvr G1 G2 D2 G3 D1) as (ws1 & seg & H1 & H2 & _).
  exact (ex_intro _ ws1 (ex_intro _ seg (conj H1 H2))).
Defined.

Lemma demo_left :
  drop (Z.to_nat (u32 ((if seq_gt (sg_ack demo_partial_ack) (tc_snd_una demo_sndr)
    then sg_ack demo_partial_ack else tc_snd_una demo_sndr) - tc_snd_una demo_sndr))) (snd_data demo_sndr) = [7].
Proof. vm_compute. reflexivity. Qed.

Lemma tcp_ack_stream_witness :
  ∃ w' t', tcp_input_ack 0 demo_partial_ack 50 (demo_with demo_sndr) = Ok (true, w') ∧ tcbs w' !! 0%nat = Some t' ∧
    snd_data t' = [7].
Proof.
  destruct (tcp_ack_stream (demo_with demo_sndr) 0 demo_sndr demo_partial_ack 50 (rd_net _ _ _ _ demo_sndr_ready)
    (rd_tcp _ _ _ _ demo_sndr_ready) eq_refl eq_refl eq_refl ltac:(discriminate) demo_partial_ack_ok ltac:(by vm_compute))
    as (w' & t' & H1 & H2 & _ & _ & _ & H3 & H4).
  exact (ex_intro _ w' (ex_intro _ t' (conj H1 (conj H2 (eq_trans H4 (eq_trans (f_equal (fun x =>
    drop (Z.to_nat (u32 (x - tc_snd_una demo_sndr))) (snd_data demo_sndr)) H3) demo_left)))))).
Defined.

(** The third duplicate. *)
Definition demo_dup : tcp_cb := demo_sndr <| tc_dupacks := 2 |>.
Definition demo_dup_ack : segment :=
  mk_seg (ip_build_hdr 0x0a000001 0x0a000002 IP_PROTO_TCP 64 1 0 40)
    (mk_tcp 0 0 0 0 80 TCP_ACK 0 0 0) (replicate 20 0) 5000 1000 1000 TCP_ACK [].

Lemma demo_dup_wf : tcb_wf demo_dup.
Proof. exact (tcb_wf_dupacks (fun _ => 2) demo_sndr demo_sndr_wf). Qed.

Lemma demo_dup_is :
  tc_active demo_dup = true ∧ synced (tc_state demo_dup) = true ∧ tcp_is_dupack demo_dup demo_dup_ack = true ∧
  tc_dupacks demo_dup = 2.
Proof. vm_compute. by split_and!. Qed.

Lemma tcp_fast_retransmit_witness :
  ∃ w' t', tcp_input_ack 0 demo_dup_ack 50 (demo_with demo_dup) = Ok (true, w') ∧ tcbs w' !! 0%nat = Some t' ∧
    hands (tc_local_ip demo_dup) (tc_remote_ip demo_dup) (demo_with demo_dup) (rtx_segs demo_dup) w'.
Proof.
  destruct demo_dup_is as (D1 & D2 & D3 & D4).
  destruct (tcp_fast_retransmit (demo_with demo_dup) 0 demo_dup demo_dup_ack 50 (net_wf_set_tcp _ _ demo_tcp_net)
    (demo_with_tcp demo_dup demo_dup_wf D1) eq_refl D1 D2 D3 D4) as (w' & t' & H1 & H2 & _ & H3 & _).
  exact (ex_intro _ w' (ex_intro _ t' (conj H1 (conj H2 H3)))).
Defined.
