(* ===== verification/TcpSock.v ===== *)
(** * The stream sockets

    Models [tcp/tcp_sock.c] and [pf_close] of [udp/sock.c]. The event loop
    the blocking calls pump ([stack->poll_fn]) is the parameter [poll]; the
    waits run it [fuel] times at most. *)

From S2P Require Import Prelude Pf Checksum Pkt Fib Headers Stats Stack Link Arp IpOut Icmp Reass Sock.
From S2P Require Import Udp Tcb TcpOut Tcp TcpInput.
Import Checksum Pkt Fib Stats.

(** ** Operations *)

(** [pump]: one round of the event loop, [false] without one. *)
Definition pump (poll : option (PF ())) : PF bool :=
  match poll with
  | None => mret false
  | Some p => p;; mret true
  end.

Definition timeout_deadline (timeout_ms : Z) : PF Z :=
  now ← pf_now_ms;
  mret (if timeout_ms <? 0 then 2 ^ 64 - 1 else u64 (now + timeout_ms)).

(** The handle check of the stream calls: [Some i] is a TCP socket. *)
Definition tcp_sock_get (sock : Z) : PF (option nat) :=
  h ← pf_sock_get sock;
  match h with
  | None => mret None
  | Some i =>
      s ← get_sock i;
      mret (if decide (sk_type s = PF_SOCK_TCP) then Some i else None)
  end.

Definition pf_listen (sock backlog : Z) : PF Z :=
  h ← tcp_sock_get sock;
  match h with
  | None => mret (-1)
  | Some i =>
      s ← get_sock i;
      if (sk_local_port s =? 0) || bool_decide (is_Some (sk_tcb s)) then mret (-1)
      else
        r ← tcp_open_listen sock (sk_local_ip s) (sk_local_port s) (u16 backlog);
        upd_sock i (set_field sk_tcb (fun _ => r));;
        mret (match r with Some _ => 0 | None => -1 end)
  end.

(** [while (l->acceptq_n == 0)]: [Some rc] is an early return. *)
Fixpoint accept_wait (fuel : nat) (poll : option (PF ())) (i l : nat) (deadline : Z) : PF (option Z) :=
  t ← get_tcb l;
  match tc_acceptq t with
  | _ :: _ => mret None
  | [] =>
      s ← get_sock i;
      match sk_tcb s with
      | None => mret (Some (-1))
      | Some _ =>
          now ← pf_now_ms;
          if deadline <=? now then mret (Some (-2))
          else match fuel with
               | O => lift (Err OutOfFuel)
               | S fuel =>
                   ok ← pump poll;
                   if ok : bool then accept_wait fuel poll i l deadline else mret (Some (-2))
               end
      end
  end.

(** The result of [pf_accept]: a negative code, or the socket and the peer. *)
Inductive accept_result :=
  | AcceptErr (rc : Z)
  | Accepted (ns rip rport : Z).

(** Taking the first queued child, shifting the rest down. *)
Definition accept_take (l : nat) : PF accept_result :=
  t ← get_tcb l;
  child ← lift (in_bounds (head (tc_acceptq t)));
  upd_tcb l (set_field tc_acceptq tail);;
  ns ← pf_socket PF_SOCK_TCP;
  if ns <? 0 then tcp_app_abort child;; mret (AcceptErr (-1))
  else
    c ← get_tcb child;
    upd_sock (Z.to_nat ns) (fun s =>
      s <| sk_local_ip := tc_local_ip c |> <| sk_local_port := tc_local_port c |>
        <| sk_tcb := Some child |>);;
    upd_tcb child (fun c => c <| tc_sock_idx := ns |> <| tc_listener := None |>);;
    mret (Accepted ns (tc_remote_ip c) (tc_remote_port c)).

Definition pf_accept (fuel : nat) (poll : option (PF ())) (sock timeout_ms : Z) : PF accept_result :=
  h ← tcp_sock_get sock;
  match h with
  | None => mret (AcceptErr (-1))
  | Some i =>
      s ← get_sock i;
      match sk_tcb s with
      | None => mret (AcceptErr (-1))
      | Some l =>
          t ← get_tcb l;
          if negb (bool_decide (tc_state t = TCP_LISTEN)) then mret (AcceptErr (-1))
          else
            deadline ← timeout_deadline timeout_ms;
            r ← accept_wait fuel poll i l deadline;
            match r with
            | Some rc => mret (AcceptErr rc)
            | None => accept_take l
            end
      end
  end.

(** [while (s->tcb && s->tcb->state != TCP_ESTABLISHED)]. *)
Fixpoint connect_wait (fuel : nat) (poll : option (PF ())) (i : nat) (deadline : Z) : PF Z :=
  s ← get_sock i;
  match sk_tcb s with
  | None => mret (-1)
  | Some c =>
      t ← get_tcb c;
      if bool_decide (tc_state t = TCP_ESTABLISHED) then mret 0
      else
        let timed_out :=
          s ← get_sock i;
          match sk_tcb s with
          | Some c =>
              tcp_app_abort c;;
              upd_sock i (set_field sk_tcb (fun _ => None))
          | None => mret ()
          end;;
          mret (-2) in
        now ← pf_now_ms;
        if deadline <=? now then timed_out
        else match fuel with
             | O => lift (Err OutOfFuel)
             | S fuel =>
                 ok ← pump poll;
                 if ok : bool then connect_wait fuel poll i deadline else timed_out
             end
  end.

(** The source address and port of a connecting socket; [None] on failure. *)
Definition connect_bind (i : nat) (dst_ip : Z) : PF (option Z) :=
  s ← get_sock i;
  lip ← (if sk_local_ip s =? 0 then
           route ← ip_route_lookup dst_ip;
           match route with
           | None => mret None
           | Some (dev, _) => nd ← get_dev dev; mret (Some (nd_ip nd))
           end
         else mret (Some (sk_local_ip s)));
  match lip with
  | None => mret None
  | Some lip =>
      bound ← sock_autobind i;
      if negb bound then mret None
      else
        upd_sock i (fun s => s <| sk_local_ip := lip |> <| sk_err := 0 |>);;
        mret (Some lip)
  end.

Definition pf_connect (fuel : nat) (poll : option (PF ())) (sock dst_ip dst_port timeout_ms : Z) : PF Z :=
  h ← tcp_sock_get sock;
  match h with
  | None => mret (-1)
  | Some i =>
      s ← get_sock i;
      if bool_decide (is_Some (sk_tcb s)) || (dst_port =? 0) then mret (-1)
      else
        lip ← connect_bind i dst_ip;
        match lip with
        | None => mret (-1)
        | Some lip =>
            s ← get_sock i;
            r ← tcp_open_active sock lip (sk_local_port s) dst_ip dst_port;
            upd_sock i (set_field sk_tcb (fun _ => r));;
            match r with
            | None => mret (-1)
            | Some _ =>
                deadline ← timeout_deadline timeout_ms;
                connect_wait fuel poll i deadline
            end
        end
  end.

(** Appending [data] to the send ring. *)
Definition snd_ring_put (data : bytes) (t : tcp_cb) : result tcp_cb :=
  let w := u32 (tc_snd_head t + tc_snd_len t) mod TCP_SNDBUF in
  buf ← ring_put TCP_SNDBUF (tc_sndbuf t) w data;
  Ok (t <| tc_sndbuf := buf |> <| tc_snd_len := u32 (tc_snd_len t + zlen data) |>).

(** Queueing [data] on connection [c], and offering it to the network. *)
Definition send_put (c : nat) (data : bytes) : PF () :=
  t ← get_tcb c;
  t' ← lift (snd_ring_put data t);
  upd_tcb c (fun _ => t');;
  tcp_output c.

(** The loop of [pf_send]; [rest] is what is left of the buffer, [sent] what
    was taken. *)
Fixpoint send_loop (fuel : nat) (poll : option (PF ())) (i : nat) (sent : Z) (rest : bytes) : PF Z :=
  if zlen rest =? 0 then mret sent
  else
    s ← get_sock i;
    match sk_tcb s with
    | None => mret (-1)
    | Some c =>
        t ← get_tcb c;
        if negb (bool_decide (tc_state t = TCP_ESTABLISHED))
           && negb (bool_decide (tc_state t = TCP_CLOSE_WAIT)) then mret (-1)
        else
          match fuel with
          | O => lift (Err OutOfFuel)
          | S fuel =>
              let space := tcp_snd_space t in
              if space =? 0 then
                ok ← pump poll;
                if ok : bool then send_loop fuel poll i sent rest else mret (-1)
              else
                let n := Z.min (u32 (zlen rest)) space in
                send_put c (take (Z.to_nat n) rest);;
                send_loop fuel poll i (sent + n) (drop (Z.to_nat n) rest)
          end
    end.

Definition pf_send (fuel : nat) (poll : option (PF ())) (sock : Z) (buf : bytes) : PF Z :=
  h ← tcp_sock_get sock;
  match h with
  | None => mret (-1)
  | Some i => send_loop fuel poll i 0 buf
  end.

(** The result of [pf_recv]: the return value, with the bytes on success. *)
Inductive stream_result :=
  | StreamData (data : bytes)
  | StreamEof
  | StreamErr
  | StreamTimeout.

(** Taking up to [cap] bytes from the receive ring. *)
Definition rcv_ring_take (cap : Z) (t : tcp_cb) : result (bytes * tcp_cb) :=
  let n := Z.min (u32 cap) (tc_rcv_len t) in
  data ← ring_get TCP_RCVBUF (tc_rcvbuf t) (tc_rcv_head t) n;
  Ok (data, t <| tc_rcv_head := u32 (tc_rcv_head t + n) mod TCP_RCVBUF |>
              <| tc_rcv_len := u32 (tc_rcv_len t - n) |>).

(** Reading from connection [c], with the window update RFC 1122 asks for. *)
Definition recv_take (c : nat) (cap : Z) : PF stream_result :=
  t ← get_tcb c;
  '(data, t') ← lift (rcv_ring_take cap t);
  upd_tcb c (fun _ => t');;
  when ((tc_rcv_wnd_advertised t' =? 0) && (tc_mss t' <=? tcp_rcv_window t')) (tcp_send_ctl c TCP_ACK);;
  mret (StreamData data).

Fixpoint recv_loop (fuel : nat) (poll : option (PF ())) (i : nat) (cap deadline : Z) : PF stream_result :=
  s ← get_sock i;
  match sk_tcb s with
  | None => mret (if sk_err s =? 0 then StreamEof else StreamErr)
  | Some c =>
      t ← get_tcb c;
      if 0 <? tc_rcv_len t then recv_take c cap
      else if tc_rcv_eof t then mret StreamEof
      else
        now ← pf_now_ms;
        if deadline <=? now then mret StreamTimeout
        else match fuel with
             | O => lift (Err OutOfFuel)
             | S fuel =>
                 ok ← pump poll;
                 if ok : bool then recv_loop fuel poll i cap deadline else mret StreamTimeout
             end
  end.

Definition pf_recv (fuel : nat) (poll : option (PF ())) (sock cap timeout_ms : Z) : PF stream_result :=
  h ← tcp_sock_get sock;
  match h with
  | None => mret StreamErr
  | Some i =>
      deadline ← timeout_deadline timeout_ms;
      recv_loop fuel poll i cap deadline
  end.

Definition pf_sock_set_nodelay (sock : Z) (nodelay : bool) : PF Z :=
  h ← tcp_sock_get sock;
  match h with
  | None => mret (-1)
  | Some i =>
      s ← get_sock i;
      match sk_tcb s with
      | None => mret (-1)
      | Some c => upd_tcb c (set_field tc_nodelay (fun _ => nodelay));; mret 0
      end
  end.

Definition pf_close (sock : Z) : PF Z :=
  h ← pf_sock_get sock;
  match h with
  | None => mret (-1)
  | Some i =>
      s ← get_sock i;
      match sk_tcb s with
      | None => mret ()
      | Some c =>
          upd_sock i (set_field sk_tcb (fun _ => None));;
          upd_tcb c (set_field tc_sock_idx (fun _ => -1));;
          tcp_app_close c
      end;;
      upd_sock i (fun _ => zero_sock);;
      mret 0
  end.

(** ** Socket handles *)

(** Handle [sock] is the TCP socket [k]. *)
Record tcp_handle (w : world) (sock : Z) (k : pf_sock) : Prop := {
  hd_range : 0 ≤ sock < Z.of_nat PF_SOCK_MAX;
  hd_at : socks w !! Z.to_nat sock = Some k;
  hd_type : sk_type k = PF_SOCK_TCP;
}.

Lemma wp_pf_sock_get w sock k (Q : option nat → world → Prop) :
  0 ≤ sock < Z.of_nat PF_SOCK_MAX → socks w !! Z.to_nat sock = Some k → sk_type k ≠ PF_SOCK_NONE →
  Q (Some (Z.to_nat sock)) w → wp (pf_sock_get sock) Q w.
Proof.
  intros Hr Hk Ht HQ. unfold pf_sock_get.
  rewrite (proj2 (Z.ltb_ge sock 0)), (proj2 (Z.leb_gt _ sock)) by lia. cbn [orb]. wp_step.
  eapply wp_get_sock; [done|]. wp_step. by rewrite decide_False.
Qed.

Lemma wp_tcp_sock_get w sock k (Q : option nat → world → Prop) :
  tcp_handle w sock k → Q (Some (Z.to_nat sock)) w → wp (tcp_sock_get sock) Q w.
Proof.
  intros [Hr Hk Ht] HQ. unfold tcp_sock_get. wp_step. eapply wp_pf_sock_get; [done..|by rewrite Ht|].
  wp_step. eapply wp_get_sock; [done|]. wp_step. by rewrite decide_True.
Qed.

(** A handle whose socket owns the open connection [c]. *)
Record tcp_owner (w : world) (sock : Z) (k : pf_sock) (c : nat) (t : tcp_cb) : Prop := {
  ow_handle : tcp_handle w sock k;
  ow_tcb : sk_tcb k = Some c;
  ow_at : tcbs w !! c = Some t;
  ow_active : tc_active t = true;
}.

(** ** The send ring *)

Lemma snd_len_range t : tcb_wf t → 0 ≤ tc_snd_len t ≤ TCP_SNDBUF.
Proof. intros H. apply (tb_snd _ H). Qed.

(** Queueing data keeps the sequence bookkeeping: it only adds unsent bytes. *)
Lemma snd_ok_grow t n :
  snd_ok t → app_open (tc_state t) = true → 0 ≤ n → tc_snd_len t + n ≤ TCP_SNDBUF →
  snd_ok (t <| tc_snd_len := tc_snd_len t + n |>).
Proof.
  intros H Ho Hn Hl. assert (synced (tc_state t) = true) as Hsy by (by destruct (tc_state t)).
  apply snd_ok_synced in H as (H1 & H2 & H3 & H4); [|done]. apply snd_ok_synced; [done|].
  rewrite Ho in H4.
  change (u32_ok (tc_snd_una t) ∧ u32_ok (tc_snd_nxt t) ∧ 0 ≤ tc_snd_len t + n ≤ TCP_SNDBUF ∧
    if app_open (tc_state t)
    then tc_fin_sent t = false ∧ tc_fin_queued t = false ∧ snd_flight t ≤ tc_snd_len t + n
    else tc_fin_queued t = true ∧
       if tc_fin_sent t then (snd_flight t = 0 ∧ tc_snd_len t + n = 0) ∨ snd_flight t = tc_snd_len t + n + 1
       else snd_flight t ≤ tc_snd_len t + n).
  rewrite Ho. split_and!; try done; try lia; apply H4 || lia.
Qed.

Lemma tcb_wf_grow t buf n :
  tcb_wf t → zlen buf = TCP_SNDBUF → bytes_ok buf → snd_ok (t <| tc_snd_len := n |>) →
  tcb_wf (t <| tc_sndbuf := buf |> <| tc_snd_len := n |>).
Proof. intros [? ? ? ? [] ? ? ? ? ? ? ? ? ? ? ?] Hb Hok Hs. by split. Qed.

Lemma snd_ring_put_ok t data :
  tcb_wf t → app_open (tc_state t) = true → bytes_ok data → zlen data ≤ tcp_snd_space t →
  ∃ t', snd_ring_put data t = Ok t' ∧ tcb_wf t' ∧ tc_active t' = tc_active t ∧ tc_state t' = tc_state t ∧
    tc_snd_len t' = tc_snd_len t + zlen data ∧ snd_data t' = snd_data t ++ data ∧ rcv_data t' = rcv_data t.
Proof.
  intros Hwf Ho Hd Hl. pose proof (tb_sndbuf _ Hwf) as Hb. pose proof (tb_head _ Hwf) as Hh.
  pose proof (snd_len_range _ Hwf) as Hn. unfold tcp_snd_space in Hl. rewrite u32_small in Hl by wrap_lia.
  destruct (ring_put_ok (tc_sndbuf t) (tc_snd_head t) (tc_snd_len t) data) as (buf & Hput & Hbl & Hbok & Hdat);
    [apply Hwf|done|lia|lia|lia|].
  unfold snd_ring_put. rewrite (u32_small (tc_snd_head t + tc_snd_len t)) by wrap_lia.
  rewrite Hb in Hput. rewrite Hput. cbn [mbind result_bind]. rewrite (u32_small (tc_snd_len t + zlen data)) by wrap_lia.
  eexists. split; [reflexivity|]. split_and!; try done.
  apply tcb_wf_grow; [done|lia|done|]. apply snd_ok_grow; [apply Hwf|done|lia|lia].
Qed.

Lemma wp_send_put c t data (Q : () → world → Prop) w :
  net_wf w → tcbs w !! c = Some t → tcb_wf t → app_open (tc_state t) = true → bytes_ok data →
  zlen data ≤ tcp_snd_space t →
  (∀ w' t', tcb_step c w w' t' → tcb_wf t' → tc_active t' = tc_active t → tc_state t' = tc_state t →
     tc_snd_len t' = tc_snd_len t + zlen data → snd_data t' = snd_data t ++ data → rcv_data t' = rcv_data t → Q () w') →
  wp (send_put c data) Q w.
Proof.
  intros Hn Hc Hwf Ho Hd Hl HQ. unfold send_put. wp_step. eapply wp_get_tcb; [done|].
  destruct (snd_ring_put_ok t data) as (t1 & Hput & Hwf1 & Ha1 & Hs1 & Hlen1 & Hdat1 & Hrcv1); [done..|].
  wp_step. eapply wp_lift; [exact Hput|]. wp_step. eapply wp_upd_tcb; [done|]. cbv beta.
  set (w1 := set_tcp w _). assert (tcb_step c w w1 t1) as S1 by (by apply tcb_step_set). clearbody w1.
  eapply wp_tcp_output; [apply S1|exact (tcb_step_lookup c w w1 t t1 Hc S1)|done|].
  intros w2 t2 S2 O2. pose proof (od_rest _ _ O2) as E2.
  eapply (HQ w2 t2); [by eapply tcb_step_trans|apply O2|
    rewrite <- Ha1; exact (out_field E2 tc_active)|by rewrite (od_state _ _ O2)| | |].
  - rewrite (out_field E2 tc_snd_len : tc_snd_len t2 = tc_snd_len t1). lia.
  - unfold snd_data. rewrite (out_field E2 tc_snd_len : tc_snd_len t2 = tc_snd_len t1),
      (out_field E2 tc_sndbuf : tc_sndbuf t2 = tc_sndbuf t1), (out_field E2 tc_snd_head : tc_snd_head t2 = tc_snd_head t1).
    exact Hdat1.
  - rewrite <- Hrcv1. unfold rcv_data. by rewrite (out_field E2 tc_rcv_len : tc_rcv_len t2 = tc_rcv_len t1),
      (out_field E2 tc_rcvbuf : tc_rcvbuf t2 = tc_rcvbuf t1), (out_field E2 tc_rcv_head : tc_rcv_head t2 = tc_rcv_head t1).
Qed.

Lemma app_open_guard s :
  app_open s = true → negb (bool_decide (s = TCP_ESTABLISHED)) && negb (bool_decide (s = TCP_CLOSE_WAIT)) = false.
Proof. by destruct s. Qed.

(** One round of the send loop: [n] bytes are queued and offered to the
    network. *)
Lemma wp_send_round fuel poll i k c t sent rest (Q : Z → world → Prop) w :
  net_wf w → tcbs w !! c = Some t → tcb_wf t → app_open (tc_state t) = true →
  socks w !! i = Some k → sk_tcb k = Some c → bytes_ok rest → 0 < zlen rest < 2 ^ 32 → 0 < tcp_snd_space t →
  let n := Z.min (zlen rest) (tcp_snd_space t) in
  (∀ w' t', tcb_step c w w' t' → tcb_wf t' → tc_active t' = tc_active t → tc_state t' = tc_state t → tc_snd_len t' = tc_snd_len t + n →
     snd_data t' = snd_data t ++ take (Z.to_nat n) rest → rcv_data t' = rcv_data t →
     wp (send_loop fuel poll i (sent + n) (drop (Z.to_nat n) rest)) Q w') →
  wp (send_loop (S fuel) poll i sent rest) Q w.
Proof.
  intros Hn Hc Hwf Ho Hk Hkc Hd Hl Hsp n HQ. cbn [send_loop].
  rewrite (proj2 (Z.eqb_neq (zlen rest) 0)) by lia. wp_step. eapply wp_get_sock; [done|]. rewrite Hkc.
  wp_step. eapply wp_get_tcb; [done|]. rewrite app_open_guard by done.
  rewrite (proj2 (Z.eqb_neq (tcp_snd_space t) 0)) by lia. rewrite (u32_small (zlen rest)) by lia. fold n.
  assert (zlen (take (Z.to_nat n) rest) = n) as Htk by (rewrite length_take; lia). wp_step.
  eapply wp_send_put; [done|done|done|done|by apply Forall_take|lia|].
  intros w' t' S Hwf' Ha Hs Hlen Hdat Hrcv. rewrite Htk in Hlen. by eapply HQ.
Qed.

Lemma tcp_step_socks c w w' t' i : tcb_step c w w' t' → socks w' !! i = socks w !! i.
Proof. intros H. by rewrite (ls_socks _ _ _ _ H). Qed.

(** C27. On an open connection [pf_send] queues, behind what is already
    waiting for acknowledgement, as much of the buffer as the send ring
    holds. When all of it fits it returns the length; when it does not and
    there is no event loop to wait with, it returns -1, the part that fitted
    queued nonetheless. *)
Theorem pf_send_stream fuel poll w sock k c t buf :
  net_wf w → tcp_wf (w_socks w) (w_tcp w) → tcp_owner w sock k c t → app_open (tc_state t) = true →
  bytes_ok buf → 0 < zlen buf < 2 ^ 32 → 0 < tcp_snd_space t →
  (zlen buf ≤ tcp_snd_space t ∨ poll = None) →
  ∃ w' t',
    pf_send (S (S fuel)) poll sock buf w =
      Ok (if zlen buf <=? tcp_snd_space t then zlen buf else -1, w') ∧
    w_socks w' = w_socks w ∧ tcbs w' = <[c:=t']> (tcbs w) ∧ tcb_wf t' ∧
    snd_data t' = snd_data t ++ take (Z.to_nat (tcp_snd_space t)) buf.
Proof.
  intros Hn Hw [Hh Hkc Hc Ha] Ho Hd Hl Hsp Hcase. pose proof (tcp_wf_active _ _ _ _ Hw Hc Ha) as Hwf.
  match goal with |- ∃ w' t', _ = Ok (?r, _) ∧ @?P w' t' =>
    cut (wp (pf_send (S (S fuel)) poll sock buf) (fun x w' => x = r ∧ ∃ t', P w' t') w) end.
  { intros (x & w' & Hrun & -> & t' & HP)%wp_run. exists w', t'. by split. }
  unfold pf_send. wp_step. eapply wp_tcp_sock_get; [done|].
  eapply (wp_send_round (S fuel)); [done|done|done|done|apply Hh|done|done|done|done|].
  intros w1 t1 S1 Hwf1 _ Hs1 Hlen1 Hdat1 _.
  pose proof (snd_len_range _ Hwf) as Hr. pose proof (tb_sndbuf _ Hwf) as Hb.
  assert (tcp_snd_space t = TCP_SNDBUF - tc_snd_len t) as Esp by (unfold tcp_snd_space; wrap_lia).
  assert (∃ t', w_socks w1 = w_socks w ∧ tcbs w1 = <[c:=t']> (tcbs w) ∧ tcb_wf t' ∧
    snd_data t' = snd_data t ++ take (Z.to_nat (tcp_snd_space t)) buf) as HP.
  { exists t1. split_and!; [apply S1|by rewrite (ls_tcp _ _ _ _ S1)|done|]. rewrite Hdat1. f_equal.
    destruct (Z.le_ge_cases (zlen buf) (tcp_snd_space t)).
    - rewrite Z.min_l, !take_ge by lia. done.
    - by rewrite Z.min_r by lia. }
  destruct (Z.leb_spec (zlen buf) (tcp_snd_space t)) as [Hle|Hgt].
  - rewrite Z.min_l, drop_ge by lia. cbn [send_loop length]. change (Z.of_nat 0 =? 0) with true. cbv iota.
    wp_step. by split; [lia|].
  - destruct Hcase as [?| ->]; [lia|]. rewrite Z.min_r in * by lia. cbn [send_loop].
    rewrite (proj2 (Z.eqb_neq _ 0)) by (rewrite length_drop; lia).
    wp_step. eapply wp_get_sock; [rewrite (tcp_step_socks _ _ _ _ _ S1); apply Hh|]. rewrite Hkc. wp_step.
    eapply wp_get_tcb; [exact (tcb_step_lookup c w w1 t t1 Hc S1)|]. rewrite Hs1.
    assert (negb (bool_decide (tc_state t = TCP_ESTABLISHED)) && negb (bool_decide (tc_state t = TCP_CLOSE_WAIT)) = false) as ->.
    { revert Ho. clear. by destruct (tc_state t). }
    replace (tcp_snd_space t1) with 0 by (unfold tcp_snd_space; wrap_lia). cbn [Z.eqb pump].
    wp_steps. by split.
Qed.

Lemma demo_owner : tcp_owner demo_tcp_world 0 demo_sock 0 demo_conn.
Proof. split; [split; [unfold PF_SOCK_MAX; lia|reflexivity..]|reflexivity..]. Qed.

Lemma pf_send_stream_witness :
  ∃ w' t', pf_send 2 None 0 [9; 9] demo_tcp_world = Ok (2, w') ∧ tcbs w' = <[0%nat:=t']> (tcbs demo_tcp_world).
Proof.
  destruct (pf_send_stream 0 None demo_tcp_world 0 demo_sock 0 demo_conn [9; 9] demo_tcp_net demo_tcp_wf demo_owner
    eq_refl ltac:(solve_bytes_ok) ltac:(cbn [length]; lia) ltac:(by vm_compute) ltac:(by right))
    as (w' & t' & H1 & _ & H2 & _).
  change (zlen [9; 9] <=? tcp_snd_space demo_conn) with true in H1. cbv iota in H1.
  exact (ex_intro _ w' (ex_intro _ t' (conj H1 H2))).
Defined.

(** ** Reading *)

Lemma tcb_wf_take t head len :
  tcb_wf t → 0 ≤ head < TCP_RCVBUF → 0 ≤ len ≤ TCP_RCVBUF →
  tcb_wf (t <| tc_rcv_head := head |> <| tc_rcv_len := len |>).
Proof. intros [? ? ? ? [] ? ? ? ? ? ? ? ? ? ? ?] Hh Hl. by split. Qed.

Lemma rcv_ring_take_ok cap t :
  tcb_wf t → 0 ≤ cap < 2 ^ 32 →
  ∃ t', rcv_ring_take cap t = Ok (take (Z.to_nat cap) (rcv_data t), t') ∧ tcb_wf t' ∧
    tc_active t' = tc_active t ∧ tc_state t' = tc_state t ∧ tc_rcv_nxt t' = tc_rcv_nxt t ∧
    rcv_data t' = drop (Z.to_nat cap) (rcv_data t) ∧ snd_data t' = snd_data t ∧ tc_snd_len t' = tc_snd_len t.
Proof.
  intros Hwf Hcap. pose proof (tb_rcv _ Hwf) as [Hb Hbok Hh Hl _ _].
  unfold rcv_ring_take. rewrite (u32_small cap) by lia. set (n := Z.min cap (tc_rcv_len t)).
  assert (zlen (rcv_data t) = tc_rcv_len t) as Hld by (apply length_rcv_data, Hwf).
  assert (ring_get TCP_RCVBUF (tc_rcvbuf t) (tc_rcv_head t) n = Ok (ring_data (tc_rcvbuf t) (tc_rcv_head t) n)) as ->.
  { rewrite <- Hb. apply ring_get_ok; lia. }
  cbn [mbind result_bind].
  destruct (ring_advance (tc_rcvbuf t) (tc_rcv_head t) (tc_rcv_len t) n) as [Hr Hadv]; [lia..|].
  rewrite Hb in Hr, Hadv. rewrite (u32_small (tc_rcv_head t + n)), (u32_small (tc_rcv_len t - n)) by wrap_lia.
  eexists. split; [|split_and!].
  - f_equal. f_equal. rewrite <- take_ring_data with (n := tc_rcv_len t) by lia. change (ring_data _ _ _) with (rcv_data t).
    destruct (Z.le_ge_cases cap (tc_rcv_len t)); [unfold n; by rewrite Z.min_l by lia|].
    by rewrite !take_ge by lia.
  - apply tcb_wf_take; [done|done|lia].
  - done.
  - done.
  - done.
  - refine (eq_trans Hadv _). change (ring_data _ _ _) with (rcv_data t).
    destruct (Z.le_ge_cases cap (tc_rcv_len t)); [unfold n; by rewrite Z.min_l by lia|].
    by rewrite !drop_ge by lia.
  - done.
  - done.
Qed.

Lemma wp_recv_take c t cap (Q : stream_result → world → Prop) w :
  net_wf w → tcbs w !! c = Some t → tcb_wf t → 0 ≤ cap < 2 ^ 32 →
  (∀ w' t', tcb_step c w w' t' → tcb_wf t' → tc_active t' = tc_active t → tc_state t' = tc_state t → tc_rcv_nxt t' = tc_rcv_nxt t →
     rcv_data t' = drop (Z.to_nat cap) (rcv_data t) → snd_data t' = snd_data t → tc_snd_len t' = tc_snd_len t →
     Q (StreamData (take (Z.to_nat cap) (rcv_data t))) w') →
  wp (recv_take c cap) Q w.
Proof.
  intros Hn Hc Hwf Hcap HQ. destruct (rcv_ring_take_ok cap t Hwf Hcap) as (t1 & Htk & Hwf1 & Ha1 & Hs1 & Hnx1 & Hd1 & Hsd1 & Hsl1).
  unfold recv_take. wp_step. eapply wp_get_tcb; [done|]. wp_step. eapply wp_lift; [exact Htk|]. cbv beta iota. wp_step.
  eapply wp_upd_tcb; [done|]. cbv beta. set (w1 := set_tcp w _).
  assert (tcb_step c w w1 t1) as S1 by (by apply tcb_step_set). clearbody w1. wp_step. apply wp_when.
  - intros _. eapply wp_tcp_send_ctl; [apply S1|exact (tcb_step_lookup c w w1 t t1 Hc S1)|done|by vm_compute|].
    intros w2 S2 _. wp_step. eapply HQ; [by eapply tcb_step_trans|by apply tcb_wf_seg_sent|by rewrite seg_sent_active|done..].
  - intros _. wp_step. by eapply HQ.
Qed.

(** C28. Reading a stream: when the connection holds received bytes,
    [pf_recv] returns the first of them, as many as the buffer takes, without
    waiting, and leaves exactly the rest; drained with the peer's FIN
    consumed, it reports end of file; drained otherwise and without an event
    loop, it times out and changes nothing. *)
Theorem pf_recv_stream fuel poll w sock k c t cap timeout :
  net_wf w → tcp_wf (w_socks w) (w_tcp w) → tcp_owner w sock k c t → 0 ≤ cap < 2 ^ 32 →
  if 0 <? tc_rcv_len t then
    ∃ w' t', pf_recv fuel poll sock cap timeout w = Ok (StreamData (take (Z.to_nat cap) (rcv_data t)), w') ∧
      w_socks w' = w_socks w ∧ tcbs w' = <[c:=t']> (tcbs w) ∧ tcb_wf t' ∧
      tc_rcv_nxt t' = tc_rcv_nxt t ∧ rcv_data t' = drop (Z.to_nat cap) (rcv_data t)
  else if tc_rcv_eof t then pf_recv fuel poll sock cap timeout w = Ok (StreamEof, w)
  else pf_recv (S fuel) None sock cap timeout w = Ok (StreamTimeout, w).
Proof.
  intros Hn Hw [Hh Hkc Hc Ha] Hcap. pose proof (tcp_wf_active _ _ _ _ Hw Hc Ha) as Hwf.
  assert (∀ fuel poll (Q : stream_result → world → Prop),
    (∀ d, wp (recv_loop fuel poll (Z.to_nat sock) cap d) Q w) → wp (pf_recv fuel poll sock cap timeout) Q w) as Hloop.
  { intros fuel' poll' Q HQ. unfold pf_recv. wp_step. eapply wp_tcp_sock_get; [done|].
    unfold timeout_deadline. wp_steps. apply HQ. }
  assert (∀ fuel poll d (Q : stream_result → world → Prop),
    (if 0 <? tc_rcv_len t then wp (recv_take c cap) Q w
     else if tc_rcv_eof t then Q StreamEof w
     else fuel ≠ O ∧ poll = None ∧ Q StreamTimeout w) → wp (recv_loop fuel poll (Z.to_nat sock) cap d) Q w) as Hround.
  { intros fuel' poll' d Q HQ. destruct fuel'; cbn [recv_loop]; wp_step; (eapply wp_get_sock; [apply Hh|]);
      rewrite Hkc; wp_step; (eapply wp_get_tcb; [done|]); destruct (0 <? _); try done;
      destruct (tc_rcv_eof t); try (by wp_step); destruct HQ as (? & -> & HQ); try done;
      wp_steps; destruct (_ <=? _); cbn [pump]; by wp_steps. }
  destruct (0 <? tc_rcv_len t) eqn:Hpos; [|destruct (tc_rcv_eof t)].
  - cut (wp (pf_recv fuel poll sock cap timeout) (fun r w' => r = StreamData (take (Z.to_nat cap) (rcv_data t)) ∧
      ∃ t', w_socks w' = w_socks w ∧ tcbs w' = <[c:=t']> (tcbs w) ∧ tcb_wf t' ∧
        tc_rcv_nxt t' = tc_rcv_nxt t ∧ rcv_data t' = drop (Z.to_nat cap) (rcv_data t)) w).
    { intros (x & w' & Hrun & -> & t' & HP)%wp_run. exists w', t'. by split. }
    apply Hloop. intros d. apply Hround. eapply wp_recv_take; [done..|]. intros w' t' S1 Hwf1 _ _ Hnx Hd _ _.
    split; [done|]. exists t'. split_and!; [apply S1|by rewrite (ls_tcp _ _ _ _ S1)|done..].
  - cut (wp (pf_recv fuel poll sock cap timeout) (fun r w' => r = StreamEof ∧ w' = w) w).
    { by intros (x & w' & Hrun & -> & ->)%wp_run. }
    apply Hloop. intros d. by apply Hround.
  - cut (wp (pf_recv (S fuel) None sock cap timeout) (fun r w' => r = StreamTimeout ∧ w' = w) w).
    { by intros (x & w' & Hrun & -> & ->)%wp_run. }
    apply Hloop. intros d. by apply Hround.
Qed.

Lemma pf_recv_stream_witness :
  pf_recv 1 None 0 100 0 demo_tcp_world = Ok (StreamTimeout, demo_tcp_world).
Proof.
  exact (pf_recv_stream 0 None demo_tcp_world 0 demo_sock 0 demo_conn 100 0 demo_tcp_net demo_tcp_wf demo_owner
    ltac:(lia)).
Defined.
