(* ===== verification/Fwd.v ===== *)
(** * The forwarding plane

    Models [fwd/fwd.c]: the destination checks, TTL expiry, route lookup, MTU
    check, the in-place TTL decrement with the incremental checksum update,
    and transmission to the next hop. *)

From S2P Require Import Prelude Pf Checksum Pkt Fib Headers Stats Stack Link Arp IpOut Rfc Icmp.
Import Checksum Pkt Fib Stats.

(** The loop over the devices: [dst] is the directed broadcast of one. *)
Definition fwd_directed_bcast (ds : list netdev) (dst : Z) : bool :=
  existsb (fun d => negb (nd_ip d =? 0) && (dst =? subnet_bcast d)) ds.

(** [(uint16_t)ih->ttl << 8 | ih->proto]. *)
Definition ttl_word (ih : ipv4_hdr) : Z := u16 (Z.lor (Z.shiftl (ih_ttl ih) 8) (ih_proto ih)).

(** The header after the TTL decrement and the checksum update. *)
Definition fwd_ih (ih : ipv4_hdr) : ipv4_hdr :=
  let old_word := ttl_word ih in
  let ih := ih <| ih_ttl ::= fun t => u8 (t - 1) |> in
  let new_word := ttl_word ih in
  ih <| ih_csum ::= fun c => pf_htons (csum_update16 (pf_ntohs c) old_word new_word) |>.

(** [ih] points at the packet's first byte: the two fields are stored there. *)
Definition fwd_rewrite (p : pkt) (ih : ipv4_hdr) : result pkt :=
  p ← buf_write p (p_data p + 8) [ih_ttl (fwd_ih ih)];
  buf_write p (p_data p + 10) (store16 (ih_csum (fwd_ih ih))).

Definition ip_forward (indev : nat) (p : pkt) (ih : ipv4_hdr) : PF () :=
  let dst := pf_ntohl (ih_daddr ih) in
  if ip4_is_loopback dst || ip4_is_multicast dst || ip4_is_experimental dst then
    stat_inc ip_fwd_bad_dst
  else
    ds ← get_stack ps_devs;
    if fwd_directed_bcast ds dst then stat_inc ip_fwd_bad_dst
    else if ih_ttl ih <=? 1 then
      stat_inc ip_fwd_ttl_exceeded;;
      icmp_send_error (pkt_bytes p) (p_len p) ICMP_TYPE_TIME_EXCEEDED ICMP_TIME_EXC_TTL
    else
      f ← get_stack ps_fib;
      match fib_lookup f dst with
      | None =>
          stat_inc ip_fwd_no_route;;
          icmp_send_error (pkt_bytes p) (p_len p) ICMP_TYPE_DEST_UNREACH ICMP_UNREACH_NET
      | Some i =>
          rt ← lift (in_bounds (fib_pool f !! i));
          out ← lift (in_bounds (fe_dev rt));
          nd ← get_dev out;
          if nd_mtu nd <? p_len p then
            stat_inc ip_fwd_mtu_drop;;
            when (negb (Z.land (pf_ntohs (ih_frag_off ih)) IP_FRAG_DF =? 0))
              (icmp_send_error (pkt_bytes p) (p_len p) ICMP_TYPE_DEST_UNREACH ICMP_UNREACH_FRAG_NEEDED)
          else
            when (bool_decide (out = indev)) (stat_inc ip_fwd_same_if);;
            p ← lift (fwd_rewrite p ih);
            let next_hop := if fe_connected rt then dst else fe_next_hop rt in
            stat_inc ip_fwd_forwarded;;
            r ← arp_resolve out next_hop (Some p);
            match r with
            | Some mac => _ ← eth_output out mac ETH_TYPE_IP4 p; mret ()
            | None => mret ()
            end
      end.

(** ** The rewritten header *)

Lemma ttl_word_eq ih : ip_ok ih → ttl_word ih = ih_ttl ih * 256 + ih_proto ih.
Proof.
  intros []. unfold ttl_word. rewrite lor_shiftl_add by wrap_lia. change (2 ^ 8) with 256. wrap_lia.
Qed.

Lemma fwd_ih_ok ih : ip_ok ih → ip_ok (fwd_ih ih).
Proof. intros []. split; cbn; auto with ints; wrap_lia. Qed.

(** The one's complement sum of a header with its options: the word with the
    TTL, the checksum, and the rest. *)
Definition hdr_rest (ih : ipv4_hdr) (opts : bytes) : Z :=
  word_sum (ip_image (ih <| ih_ttl := 0 |> <| ih_proto := 0 |> <| ih_csum := 0 |>) ++ opts).

Lemma hdr_sum ih opts :
  ip_ok ih →
  word_sum (ip_image ih ++ opts) = hdr_rest ih opts + (ih_ttl ih * 256 + ih_proto ih) + pf_ntohs (ih_csum ih).
Proof.
  intros []. unfold hdr_rest, pf_ntohs. rewrite pf_htons_eq by done. destruct ih. cbn -[Z.div Z.modulo] in *.
  wrap_lia.
Qed.

Lemma hdr_rest_pos ih opts : ip_ok ih → bytes_ok opts → 0 < ih_vihl ih → 0 < hdr_rest ih opts.
Proof.
  intros [] Ho Hv. unfold hdr_rest. destruct ih. pose proof (word_sum_range opts Ho).
  cbn -[Z.div Z.modulo] in *. wrap_lia.
Qed.

(** A header that verified before verifies after the rewrite. *)
Lemma fwd_ih_csum ih opts :
  ip_ok ih → bytes_ok opts → zlen opts ≤ 40 → 0 < ih_vihl ih → 0 < ih_ttl ih →
  inet_csum (ip_image ih ++ opts) = 0 → inet_csum (ip_image (fwd_ih ih) ++ opts) = 0.
Proof.
  intros Hok Ho Hl Hv Ht. pose proof (fwd_ih_ok ih Hok) as Hok'. pose proof (hdr_rest_pos ih opts Hok Ho Hv) as Hr.
  unfold inet_csum.
  rewrite !csum_verify_iff; try lia; try (apply Forall_app_2; [by apply ip_image_ok|done]);
    try (rewrite length_app, length_ip_image; lia).
  rewrite !hdr_sum by done. pose proof Hok as []. set (hc := pf_ntohs (ih_csum ih)).
  assert (u16_ok hc) as Hhc by apply htons_range.
  assert (hdr_rest (fwd_ih ih) opts = hdr_rest ih opts) as -> by done.
  assert (ih_ttl (fwd_ih ih) = ih_ttl ih - 1) as Et by (cbn; wrap_lia).
  assert (pf_ntohs (ih_csum (fwd_ih ih)) =
    csum_update16 hc (ih_ttl ih * 256 + ih_proto ih) ((ih_ttl ih - 1) * 256 + ih_proto ih)) as ->.
  { set (ih1 := ih <| ih_ttl ::= fun t => u8 (t - 1) |>).
    change (pf_ntohs (pf_htons (csum_update16 hc (ttl_word ih) (ttl_word ih1))) =
      csum_update16 hc (ih_ttl ih * 256 + ih_proto ih) ((ih_ttl ih - 1) * 256 + ih_proto ih)).
    rewrite ntohs_htons by apply u16_range. f_equal; [by apply ttl_word_eq|].
    rewrite ttl_word_eq by (split; done || (cbn; wrap_lia)).
    change (u8 (ih_ttl ih - 1) * 256 + ih_proto ih = (ih_ttl ih - 1) * 256 + ih_proto ih). wrap_lia. }
  change (ih_proto (fwd_ih ih)) with (ih_proto ih). rewrite Et, csum_update16_eq by wrap_lia.
  set (m := ih_ttl ih * 256 + ih_proto ih). replace ((ih_ttl ih - 1) * 256 + ih_proto ih) with (m - 256) by (unfold m; lia).
  set (x := 65535 - hc + (65535 - m) + (m - 256)). assert (0 ≤ x) as Hx by (unfold x; lia).
  pose proof (oc_range x Hx). pose proof (oc_congr x Hx) as Hcg. intros [_ Hm].
  assert (0 ≤ m - 256) by (unfold m; wrap_lia). split; [lia|]. unfold x in *. clearbody m hc.
  generalize dependent (oc (65535 - hc + (65535 - m) + (m - 256))). intros o Ho' Hcg.
  generalize dependent (hdr_rest ih opts). intros r. intros. Z.div_mod_to_equations. lia.
Qed.

Lemma ip_image_patch ih f g rest :
  splice (splice (ip_image ih ++ rest) (Z.to_nat 8) [f (ih_ttl ih)]) (Z.to_nat 10)
    (store16 (g (ih_csum ih))) = ip_image (ih <| ih_ttl ::= f |> <| ih_csum ::= g |>) ++ rest.
Proof. by destruct ih. Qed.

(** The stores turn the image of the header into that of the rewritten one. *)
Lemma fwd_rewrite_ok p ih :
  rx_dgram p ih →
  ∃ p', fwd_rewrite p ih = Ok p' ∧ pkt_wf p' ∧ p_data p' = p_data p ∧
    pkt_bytes p' = ip_image (fwd_ih ih) ++ drop 20 (pkt_bytes p).
Proof.
  intros [Hwf Hr Hok Hl]. pose proof (ip_hdr_len_range ih Hok). pose proof (length_pkt_bytes p Hwf) as Hlb.
  pose proof (fwd_ih_ok ih Hok) as [].
  destruct (read_ip_ok (pkt_bytes p)) as (h & Hh & _ & Hb); [by apply pkt_bytes_ok|wrap_lia|].
  rewrite Hr in Hh. injection Hh as <-.
  destruct (pkt_patch_ok p 8 [ih_ttl (fwd_ih ih)]) as (p1 & Hp1 & Hwf1 & Hb1 & Hd1 & Hl1);
    [done|by apply Forall_singleton|lia|cbn [length]; wrap_lia|].
  destruct (pkt_patch_ok p1 10 (store16 (ih_csum (fwd_ih ih)))) as (p2 & Hp2 & Hwf2 & Hb2 & Hd2 & Hl2);
    [done|apply store16_ok|lia|cbn [length store16]; wrap_lia|].
  exists p2. unfold fwd_rewrite. rewrite Hp1. cbn [mbind result_bind]. split_and!; [done|done|congruence|].
  rewrite Hb2, Hb1. rewrite Hb at 1. unfold fwd_ih. cbv zeta.
  set (g := fun c => pf_htons _). set (f := fun t => u8 _). clearbody f g.
  exact (ip_image_patch ih f g (drop 20 (pkt_bytes p))).
Qed.

(** ** What the forwarder decides *)

Inductive fwd_verdict :=
  | FwdDrop
  | FwdError (type code : Z)
  | FwdTo (out : nat) (nd : netdev) (next_hop : Z).

(** The order of the code's checks, on the state's devices and routes. *)
Definition fwd_decide (w : world) (len : Z) (ih : ipv4_hdr) : fwd_verdict :=
  let dst := pf_ntohl (ih_daddr ih) in
  if ip4_is_loopback dst || ip4_is_multicast dst || ip4_is_experimental dst
     || fwd_directed_bcast (devs w) dst then FwdDrop
  else if ih_ttl ih <=? 1 then FwdError ICMP_TYPE_TIME_EXCEEDED ICMP_TIME_EXC_TTL
  else
    match ip_route (ps_fib (w_stack w)) dst with
    | None => FwdError ICMP_TYPE_DEST_UNREACH ICMP_UNREACH_NET
    | Some (out, nh) =>
        match devs w !! out with
        | None => FwdDrop
        | Some nd =>
            if nd_mtu nd <? len then
              if Z.land (pf_ntohs (ih_frag_off ih)) IP_FRAG_DF =? 0 then FwdDrop
              else FwdError ICMP_TYPE_DEST_UNREACH ICMP_UNREACH_FRAG_NEEDED
            else FwdTo out nd nh
        end
    end.

Lemma icmp_throttled_from w w1 : erase_tx w = erase_tx w1 → icmp_throttled w1 ↔ icmp_throttled w.
Proof.
  intros E. assert (erase_ip w = erase_ip w1) as Ei by frame. unfold icmp_throttled.
  rewrite (erase_ip_last_err _ _ Ei).
  assert (w_now w = w_now w1) as -> by (by apply erase_icmp_proj, erase_ip_icmp). done.
Qed.

(** A request for an ICMP error, seen from before a counter was bumped. *)
Lemma icmp_error_done_from w w1 b type code w' :
  erase_tx w = erase_tx w1 → w_wire w1 = w_wire w →
  icmp_error_done w1 b type code w' → icmp_error_done w b type code w'.
Proof.
  intros E W [H1 H2]. pose proof (erase_tx_arp_eq _ _ E) as A. assert (erase_ip w = erase_ip w1) as Ei by frame.
  rewrite (icmp_throttled_from _ _ E) in H1, H2. rewrite W, <- A, <- (erase_ip_last_err _ _ Ei) in H1.
  split; [done|]. intros Hb Ht. destruct (H2 Hb Ht) as (L & msg & Hm & Ho). rewrite L.
  split; [symmetry; by apply erase_icmp_proj, erase_ip_icmp|]. exists msg. split; [done|].
  by eapply ip_output_post_tx.
Qed.

(** What forwarding did. *)
Definition fwd_post (w : world) (p : pkt) (ih : ipv4_hdr) (w' : world) : Prop :=
  match fwd_decide w (p_len p) ih with
  | FwdDrop => arpc w' = arpc w ∧ w_wire w' = w_wire w
  | FwdError type code => icmp_error_done w (pkt_bytes p) type code w'
  | FwdTo out nd nh =>
      ip_handed w out nd nh (pf_ntohl (ih_daddr ih)) (ip_image (fwd_ih ih) ++ drop 20 (pkt_bytes p)) w'
  end.

Lemma experimental_bcast dst : ip4_is_experimental dst = false → ip4_is_limited_bcast dst = false.
Proof.
  unfold ip4_is_limited_bcast. destruct (Z.eqb_spec dst 0xffffffff) as [->|]; [|done]. by intros H.
Qed.

Lemma directed_bcast_dev ds d nd dst :
  fwd_directed_bcast ds dst = false → ds !! d = Some nd → ip4_is_limited_bcast dst = false →
  ip_to_bcast nd dst = false.
Proof.
  intros Hb Hd Hl. unfold ip_to_bcast. rewrite Hl. cbn [orb].
  destruct (negb _ && _) eqn:E; [|done]. rewrite <- Hb. symmetry. apply existsb_exists. exists nd.
  split; [|done]. apply list_elem_of_In. by eapply list_elem_of_lookup_2.
Qed.

(** Transmission to the next hop of a packet ready for the wire. *)
Lemma wp_fwd_send out nd nh dst p w :
  net_wf w → dev_at w out nd → ip_to_bcast nd dst = false → pkt_wf p → ETH_HDR_LEN ≤ p_data p →
  wp (r ← arp_resolve out nh (Some p);
      match r with
      | Some mac => _ ← eth_output out mac ETH_TYPE_IP4 p; mret ()
      | None => mret ()
      end)
    (fun _ w' => erase_arp w = erase_arp w' ∧ net_wf w' ∧ ip_handed w out nd nh dst (pkt_bytes p) w') w.
Proof.
  intros Hn Hd Hbc Hwf Hroom. pose proof (nw_link _ Hn) as Hl.
  wp_step. eapply wp_mono; [by apply wp_arp_resolve|]. intros r w1 (E1 & Hl1 & Hpost). destruct r as [mac|].
  - inversion Hpost as [i e Hlk Hi Hs| |]; subst. wp_step.
    eapply wp_eth_output; [done|by eapply dev_at_wf| |done|done|].
    { exact (aw_mac _ _ (Forall_lookup_1 _ _ _ _ (aw_entries _ _ (lw_arp _ Hl)) Hi)). }
    intros w2 rc E2 W2. wp_step. split_and!; [frame|by eapply net_wf_tx|].
    eapply handed_unicast; [done|by eapply arp_find_lookup|done| |done].
    symmetry. by apply erase_tx_arp_eq.
  - wp_step. split_and!; [done|by eapply net_wf_arp|].
    destruct (arp_resolve_post_parked _ _ _ _ _ _ Hl Hl1 Hpost) as ((e & ? & ? & ?) & ? & W1).
    by eapply handed_parked.
Qed.

Lemma wp_fwd_drop p ih s w :
  net_wf w → fwd_decide w (p_len p) ih = FwdDrop →
  wp (stat_inc s) (fun _ w' => erase_icmp w = erase_icmp w' ∧ net_wf w' ∧ fwd_post w p ih w') w.
Proof.
  intros Hn E. apply wp_stat_inc. intros w1 E1 W1 _. unfold fwd_post. rewrite E, (erase_tx_arp_eq _ _ E1).
  split_and!; [frame|by eapply net_wf_tx|done|done].
Qed.

Lemma wp_fwd_error p ih t c w w1 :
  net_wf w → rx_dgram p ih → fwd_decide w (p_len p) ih = FwdError t c → erase_tx w = erase_tx w1 →
  w_wire w1 = w_wire w → byte_ok t → byte_ok c →
  wp (icmp_send_error (pkt_bytes p) (p_len p) t c)
    (fun _ w' => erase_icmp w = erase_icmp w' ∧ net_wf w' ∧ fwd_post w p ih w') w1.
Proof.
  intros Hn Hrx E E1 W1 Ht Hc. pose proof Hrx as [Hwf _ _ _]. pose proof (length_pkt_bytes p Hwf) as Hlb.
  pose proof (wf_fits _ Hwf). pose proof (wf_data _ Hwf). pose proof (wf_len _ Hwf).
  eapply wp_mono; [apply wp_icmp_send_error; try wrap_lia; [by eapply net_wf_tx|by apply pkt_bytes_ok]|].
  intros _ w2 (E2 & Hn2 & Hp2). unfold fwd_post. rewrite E.
  apply icmp_error_post_done in Hp2 as [Hp2 _]; [|by apply pkt_bytes_ok|wrap_lia|done|done].
  rewrite take_ge in Hp2 by lia. split_and!; [frame|done|by eapply icmp_error_done_from].
Qed.

Lemma wp_ip_forward indev p ih w :
  net_wf w → rx_dgram p ih → ETH_HDR_LEN ≤ p_data p →
  wp (ip_forward indev p ih) (fun _ w' => erase_icmp w = erase_icmp w' ∧ net_wf w' ∧ fwd_post w p ih w') w.
Proof.
  intros Hn Hrx Hroom. pose proof Hrx as [Hwf _ Hok Hl]. pose proof (length_pkt_bytes p Hwf) as Hlb.
  pose proof (fun s => wp_fwd_drop p ih s w Hn) as Hdrop.
  pose proof (fun t c w1 => wp_fwd_error p ih t c w w1 Hn Hrx) as Herr.
  unfold ip_forward. cbv zeta. unfold fwd_post, fwd_decide in Hdrop, Herr |- *. cbv zeta in Hdrop, Herr |- *.
  set (dst := pf_ntohl (ih_daddr ih)) in *.
  destruct (ip4_is_loopback dst || ip4_is_multicast dst || ip4_is_experimental dst) eqn:Hcls.
  { by apply Hdrop. }
  cbn [orb] in *. wp_steps. destruct (fwd_directed_bcast (devs w) dst) eqn:Hbc; [by apply Hdrop|].
  destruct (ih_ttl ih <=? 1).
  { wp_step. apply wp_stat_inc. intros w1 E1 W1 _. apply Herr; done. }
  wp_steps. unfold ip_route in *.
  destruct (fib_lookup _ dst) as [i|] eqn:Hfl.
  2: { wp_step. apply wp_stat_inc. intros w1 E1 W1 _. apply Herr; done. }
  destruct (fib_lookup_in_use _ _ _ (fo_wf _ _ (nw_fib _ Hn)) Hfl) as (rt & Hrt & Hu).
  destruct (fo_routes _ _ (nw_fib _ Hn) _ _ Hrt Hu) as (_ & out & Hout & Hlt).
  destruct (lookup_lt_is_Some_2 _ _ Hlt) as [nd Hnd].
  cbn [mbind option_bind] in *. rewrite Hrt in *. cbn [mbind option_bind] in *. rewrite Hout in *.
  cbn [fmap option_fmap option_map] in *. rewrite Hnd in *.
  wp_step. eapply wp_lift; [done|]. wp_step. eapply wp_lift; [by rewrite Hout|]. wp_step.
  pose proof (dev_at_of_lookup _ _ _ Hnd) as Hda.
  eapply wp_get_dev; [done|]. intros nd' (_ & _ & _ & Emtu & _)%clear_st_proj. rewrite Emtu.
  destruct (nd_mtu nd <? p_len p).
  { destruct (_ =? 0); cbn [negb when].
    - wp_step. apply (wp_mono _ _ _ _ (Hdrop ip_fwd_mtu_drop eq_refl)). intros [] w1 H1. by wp_step.
    - wp_step. apply wp_stat_inc. intros w1 E1 W1 _. apply Herr; done. }
  wp_step. eapply (wp_mono _ (fun _ w1 => erase_tx w = erase_tx w1 ∧ w_wire w1 = w_wire w)).
  { apply wp_when; intros _; [apply wp_stat_inc; intros w1 E1 W1 _|]; done. }
  intros [] w1 [E1 W1]. destruct (fwd_rewrite_ok p ih Hrx) as (p' & Hp' & Hwf' & Hd' & Hb').
  wp_step. eapply wp_lift; [exact Hp'|]. wp_step. apply wp_stat_inc. intros w2 E2 W2 _.
  assert (erase_tx w = erase_tx w2) as E by congruence.
  eapply wp_mono; [apply (wp_fwd_send out nd _ dst); [by eapply net_wf_tx|by eapply dev_at_tx| |done|lia]|].
  - eapply directed_bcast_dev; [done..|]. apply experimental_bcast. by apply orb_false_iff in Hcls as [_ ?].
  - intros [] w3 (E3 & Hn3 & Hh). rewrite Hb' in Hh. split_and!; [frame|done|].
    eapply ip_handed_from; [| |exact Hh]; [symmetry; by apply erase_tx_arp_eq|congruence].
Qed.

(** ** Properties *)

Lemma take_ip_image n ih rest :
  (20 ≤ n)%nat → take n (ip_image ih ++ rest) = ip_image ih ++ take (n - 20) rest.
Proof. intros Hn. by rewrite take_app_ge, length_ip_image by (rewrite length_ip_image; lia). Qed.

Lemma fwd_verifies p ih :
  rx_dgram p ih → 1 < ih_ttl ih →
  let b' := ip_image (fwd_ih ih) ++ drop 20 (pkt_bytes p) in
  ih_ttl (fwd_ih ih) = ih_ttl ih - 1 ∧
  (inet_csum (take (Z.to_nat (ip_hdr_len ih)) (pkt_bytes p)) = 0 →
   inet_csum (take (Z.to_nat (ip_hdr_len ih)) b') = 0).
Proof.
  intros [Hwf Hr Hok Hl] Ht b'. pose proof (io_ttl _ Hok). split; [cbn; wrap_lia|].
  pose proof (length_pkt_bytes p Hwf) as Hlb. pose proof (ip_hdr_len_range ih Hok) as Hihl.
  destruct (read_ip_ok (pkt_bytes p)) as (h & Hh & _ & Hb); [by apply pkt_bytes_ok|wrap_lia|].
  rewrite Hr in Hh. injection Hh as <-. rewrite Hb at 1. unfold b'. unfold IPV4_HDR_MIN in Hl.
  rewrite !take_ip_image by lia. apply fwd_ih_csum; [done| | | |lia].
  - by apply Forall_take, Forall_drop, pkt_bytes_ok.
  - rewrite length_take. lia.
  - pose proof (io_vihl _ Hok). destruct (Z.eq_dec (ih_vihl ih) 0) as [E|]; [|wrap_lia]. exfalso.
    unfold ip_hdr_len in Hl. rewrite E in Hl. by destruct Hl.
Qed.

Lemma fwd_decide_ttl w len ih out nd nh : fwd_decide w len ih = FwdTo out nd nh → 1 < ih_ttl ih.
Proof.
  unfold fwd_decide. cbv zeta. destruct (ip4_is_loopback _ || _ || _ || _); [discriminate|].
  destruct (Z.leb_spec (ih_ttl ih) 1); [discriminate|]. by intros _.
Qed.

(** ** The rules of forwarding *)

(** A destination no datagram may be forwarded to: loopback, a group or the
    broadcast address of a network the stack is on. *)
Definition never_forwarded (ds : list netdev) (a : Z) : Prop :=
  loopback_addr a ∨ group_addr a ∨
  ∃ nd, nd ∈ ds ∧ nd_ip nd ≠ 0 ∧ bcast_of (nd_ip nd) (nd_mask nd) a.

(** A route of the table whose block of addresses holds [a]. *)
Definition route_to (f : fib) (a : Z) (e : fib_entry) : Prop :=
  (∃ i, fib_pool f !! i = Some e) ∧ fe_in_use e = true ∧ in_prefix (fe_prefix e) (fe_plen e) a.

Definition best_route (f : fib) (a : Z) (e : fib_entry) : Prop :=
  route_to f a e ∧ ∀ e', route_to f a e' → fe_plen e' ≤ fe_plen e.

(** What is to be done with the datagram [b], as rules that exclude each
    other: RFC 1812's order, except that a datagram too big for the link is
    never fragmented on the way. *)
Inductive fwd_rule (w : world) (b : bytes) : fwd_verdict → Prop :=
  | rule_dest : never_forwarded (devs w) (f_dst b) → fwd_rule w b FwdDrop
  | rule_ttl : ¬ never_forwarded (devs w) (f_dst b) → f_ttl b ≤ 1 → fwd_rule w b (FwdError 11 0)
  | rule_no_route : ¬ never_forwarded (devs w) (f_dst b) → 1 < f_ttl b →
      (∀ e, ¬ route_to (ps_fib (w_stack w)) (f_dst b) e) → fwd_rule w b (FwdError 3 0)
  | rule_route e out nd : ¬ never_forwarded (devs w) (f_dst b) → 1 < f_ttl b →
      best_route (ps_fib (w_stack w)) (f_dst b) e → fe_dev e = Some out → devs w !! out = Some nd →
      fwd_rule w b
        (if zlen b <=? nd_mtu nd then FwdTo out nd (if fe_connected e then f_dst b else fe_next_hop e)
         else if f_dont_frag b then FwdError 3 4 else FwdDrop).

(** The datagram one hop further: the TTL is one less, the header checksum
    verifies if it did, and no other byte differs. *)
Record next_hop_bytes (b b' : bytes) : Prop := {
  nx_length : length b' = length b;
  nx_ttl : f_ttl b' = f_ttl b - 1;
  nx_same k : k ∉ [8; 10; 11]%nat → b' !! k = b !! k;
  nx_csum : inet_csum (take (Z.to_nat (f_hlen b)) b) = 0 → inet_csum (take (Z.to_nat (f_hlen b)) b') = 0;
}.

Lemma fwd_directed_bcast_iff ds a :
  Forall dev_wf ds → u32_ok a →
  fwd_directed_bcast ds a = true ↔ ∃ nd, nd ∈ ds ∧ nd_ip nd ≠ 0 ∧ bcast_of (nd_ip nd) (nd_mask nd) a.
Proof.
  intros Hds Ha. unfold fwd_directed_bcast. rewrite existsb_exists. rewrite Forall_forall in Hds.
  split; intros (nd & Hin & H); exists nd.
  - apply list_elem_of_In in Hin. apply andb_true_iff in H as [H1%negb_true_iff H2%Z.eqb_eq].
    split_and!; [done|by apply Z.eqb_neq|]. apply subnet_bcast_iff; [by apply Hds|done|done].
  - destruct H as [H1 H2]. split; [by apply list_elem_of_In|]. apply andb_true_iff.
    split; [by apply negb_true_iff, Z.eqb_neq|]. apply Z.eqb_eq, subnet_bcast_iff; [by apply Hds|done|done].
Qed.

Lemma never_forwarded_iff w a :
  net_wf w → u32_ok a →
  ip4_is_loopback a || ip4_is_multicast a || ip4_is_experimental a || fwd_directed_bcast (devs w) a = true
  ↔ never_forwarded (devs w) a.
Proof.
  intros Hn Ha. unfold never_forwarded.
  rewrite <- fwd_directed_bcast_iff, <- ip4_group_iff, <- ip4_is_loopback_iff, !orb_true_iff
    by (done || apply Hn). tauto.
Qed.

Lemma route_to_iff f n a i e :
  fib_ok n f → u32_ok a → fib_pool f !! i = Some e → fe_in_use e = true →
  covers (key_of e) a ↔ route_to f a e.
Proof.
  intros [Hf _] Ha Hi Hu. rewrite covers_block by (done || by eapply Hf). unfold route_to, in_prefix.
  split; [|tauto]. intros ?. split_and!; [by exists i|done|lia..].
Qed.

(** The lookup picks the best route. *)
Lemma fib_lookup_best f n a :
  fib_ok n f → u32_ok a →
  match fib_lookup f a with
  | Some i => ∃ e, fib_pool f !! i = Some e ∧ fe_in_use e = true ∧ best_route f a e
  | None => ∀ e, ¬ route_to f a e
  end.
Proof.
  intros Hf Ha. pose proof (fib_lookup_pool f a (fo_wf _ _ Hf)) as H. destruct (fib_lookup f a) as [i|].
  - destruct H as (e & He & Hu & Hc & Hmax). exists e. split_and!; [done..|].
    split; [by eapply route_to_iff|]. intros e' Hr. pose proof Hr as ([j Hj] & Hu' & _).
    apply (Hmax j); [done..|]. by eapply route_to_iff.
  - intros e Hr. pose proof Hr as ([j Hj] & Hu & _). apply (H j e Hj Hu). by eapply route_to_iff.
Qed.

Lemma rx_fields p ih : rx_dgram p ih → fields_of (pkt_bytes p) ih.
Proof. intros [Hwf Hr _ _]. by apply read_ip_fields; [apply pkt_bytes_ok|]. Qed.

(** The code's checks follow the rules. *)
Lemma fwd_decide_rule w p ih :
  net_wf w → rx_dgram p ih → fwd_rule w (pkt_bytes p) (fwd_decide w (p_len p) ih).
Proof.
  intros Hn Hrx. pose proof (rx_fields p ih Hrx) as [_ _ _ Edf _ Ettl _ _ Edst].
  pose proof (length_pkt_bytes p (ir_wf _ _ Hrx)) as Hlb.
  assert (u32_ok (pf_ntohl (ih_daddr ih))) as Hd by apply ntohl_u32, (ir_ok _ _ Hrx).
  pose proof (never_forwarded_iff w _ Hn Hd) as Hbad. unfold fwd_decide. cbv zeta.
  destruct (_ || _ || _ || _).
  { apply rule_dest. rewrite <- Edst. by apply Hbad. }
  assert (¬ never_forwarded (devs w) (f_dst (pkt_bytes p))) as Hok by (by rewrite <- Edst, <- Hbad).
  rewrite Ettl. destruct (Z.leb_spec (f_ttl (pkt_bytes p)) 1); [by apply rule_ttl|].
  unfold ip_route. pose proof (fib_lookup_best _ _ _ (nw_fib _ Hn) Hd) as Hb.
  destruct (fib_lookup _ _) as [i|]; cbn [mbind option_bind].
  2: { apply rule_no_route; [done|done|]. by rewrite <- Edst. }
  destruct Hb as (e & He & Hu & Hb). rewrite He. cbn [mbind option_bind].
  destruct (fo_routes _ _ (nw_fib _ Hn) _ _ He Hu) as (_ & out & Hout & Hlt).
  destruct (lookup_lt_is_Some_2 _ _ Hlt) as [nd Hnd]. rewrite Hout. cbn [fmap option_fmap option_map]. rewrite Hnd.
  pose proof (rule_route w (pkt_bytes p) e out nd Hok ltac:(lia) ltac:(by rewrite <- Edst) Hout Hnd) as Hrule.
  rewrite Hlb, <- Edst, <- Edf, Z.leb_antisym in Hrule.
  destruct (nd_mtu nd <? p_len p); cbn [negb] in Hrule; [|done]. by destruct (_ =? 0).
Qed.

Lemma ip_image_other ih f g k :
  k ∉ [8; 10; 11]%nat → ip_image (ih <| ih_ttl ::= f |> <| ih_csum ::= g |>) !! k = ip_image ih !! k.
Proof.
  intros Hk. destruct ih. do 12 (destruct k as [|k]; [done || (exfalso; apply Hk; set_solver)|]). done.
Qed.

Lemma fwd_ih_other ih k : k ∉ [8; 10; 11]%nat → ip_image (fwd_ih ih) !! k = ip_image ih !! k.
Proof.
  intros Hk. unfold fwd_ih. cbv zeta. set (g := fun c => pf_htons _). set (f := fun t => u8 _). clearbody f g.
  by apply ip_image_other.
Qed.

(** The rewritten datagram is the next hop's. *)
Lemma fwd_next_hop p ih :
  rx_dgram p ih → 1 < ih_ttl ih → next_hop_bytes (pkt_bytes p) (ip_image (fwd_ih ih) ++ drop 20 (pkt_bytes p)).
Proof.
  intros Hrx Ht. destruct (fwd_verifies p ih Hrx Ht) as [Et Hc].
  pose proof Hrx as [Hwf Hr Hok Hl]. pose proof (rx_fields p ih Hrx) as [_ Ehl _ _ _ Ettl _ _ _].
  destruct (read_ip_ok (pkt_bytes p)) as (h & Hh & _ & Hb); [by apply pkt_bytes_ok| |].
  { pose proof (length_pkt_bytes p Hwf). wrap_lia. }
  rewrite Hr in Hh. injection Hh as <-. rewrite Ehl in Hc. split.
  - rewrite Hb at 2. by rewrite !length_app.
  - rewrite <- Ettl, <- Et.
    destruct (read_ip_fields (ip_image (fwd_ih ih) ++ drop 20 (pkt_bytes p)) (fwd_ih ih)) as [_ _ _ _ _ <- _ _ _];
      [|by apply read_ip_image, fwd_ih_ok|done].
    apply Forall_app_2; [by apply ip_image_ok, fwd_ih_ok|by apply Forall_drop, pkt_bytes_ok].
  - intros k Hk. rewrite Hb at 2. destruct (Nat.lt_ge_cases k 20) as [Hlt|Hge].
    + rewrite !lookup_app_l by (rewrite length_ip_image; lia). by apply fwd_ih_other.
    + by rewrite !lookup_app_r by (rewrite length_ip_image; lia).
  - exact Hc.
Qed.

(** C11. The forwarder follows its decision table, stated on the bytes of the
    datagram and on address ranges: nothing goes to loopback, a group (224.0.0.0
    and up) or the directed broadcast of a network the stack is on; an expiring
    TTL is answered time exceeded, the lack of a route network unreachable; the
    route is the longest of those whose block of addresses holds the
    destination; a datagram longer than that link's MTU is answered
    fragmentation needed if it forbids fragmentation and dropped if it allows
    it (where RFC 1812 would have a router fragment it); anything else is handed
    on to the route's next hop, or to the destination itself on a connected
    network, with the TTL one less, a header checksum that verifies whenever it
    did on arrival, and no other byte changed. The errors are subject to the
    rules of [icmp_send_error]. *)
Theorem ip_forward_spec w indev p ih :
  net_wf w → rx_dgram p ih → ETH_HDR_LEN ≤ p_data p →
  let b := pkt_bytes p in
  ∃ w' v, ip_forward indev p ih w = Ok ((), w') ∧ net_wf w' ∧ erase_icmp w = erase_icmp w' ∧
  fwd_rule w b v ∧
  match v with
  | FwdDrop => arpc w' = arpc w ∧ w_wire w' = w_wire w
  | FwdError type code => icmp_error_done w b type code w'
  | FwdTo out nd nh => ∃ b', next_hop_bytes b b' ∧ ip_handed w out nd nh (f_dst b) b' w'
  end.
Proof.
  intros Hn Hrx Hroom b. pose proof (wp_ip_forward indev p ih w Hn Hrx Hroom) as H.
  apply wp_run in H as ([] & w' & Hrun & E & Hn' & Hpost). exists w', (fwd_decide w (p_len p) ih).
  split_and!; [done..|by apply fwd_decide_rule|]. unfold fwd_post in Hpost.
  destruct (fwd_decide w (p_len p) ih) as [|t c|out nd nh] eqn:Ed; [done..|].
  eexists. split; [by apply fwd_next_hop; [|eapply fwd_decide_ttl]|].
  unfold b. by rewrite <- (fl_dst _ _ (rx_fields _ _ Hrx)).
Qed.

(** A datagram from 10.0.0.2 through the router, with a TTL of 9. *)
Definition demo_transit : pkt := mk_rx (ip_datagram 0x0a000002 0x0a010203 IP_PROTO_UDP 9 5 0 [1; 2; 3]).
Definition demo_transit_hdr : ipv4_hdr := ip_build_hdr 0x0a000002 0x0a010203 IP_PROTO_UDP 9 5 0 23.

Lemma demo_transit_rx : rx_dgram demo_transit demo_transit_hdr.
Proof.
  apply (mk_rx_datagram 0x0a000002 0x0a010203 IP_PROTO_UDP 9 5 0 [1; 2; 3]);
    [lia|lia|wrap_lia|wrap_lia|solve_bytes_ok|cbn; lia].
Qed.

Lemma ip_forward_spec_witness :
  ∃ w', ip_forward 0 demo_transit demo_transit_hdr demo = Ok ((), w') ∧
    ∃ v, fwd_rule demo (pkt_bytes demo_transit) v.
Proof.
  destruct (ip_forward_spec demo 0 demo_transit demo_transit_hdr demo_net_wf demo_transit_rx
    ltac:(by vm_compute)) as (w' & v & H1 & _ & _ & H2 & _).
  exact (ex_intro _ w' (conj H1 (ex_intro _ v H2))).
Defined.
