(* ===== verification/Input.v ===== *)
(** * The receive path

    Models the receive halves of [ipv4/ipv4.c] ([stack_owns_ip],
    [ip4_bad_src], [ip_local_deliver], [ip_input]) and [eth/eth.c]
    ([eth_input]). This is where the components meet: Ethernet hands frames to
    ARP or IP, IP forwards, reassembles or delivers to ICMP, UDP and TCP.
    [ip_local_deliver] implements the [Transport] interface the reassembler
    is proved against. Printing a received frame ([hexdump_rx]) has no effect
    on the stack and is not modelled. *)

From S2P Require Import Prelude Pf Checksum Pkt Fib Headers Stats Stack Link Arp IpOut Rfc Icmp Reass Sock.
From S2P Require Import Udp Tcb TcpOut Tcp TcpInput Fwd.
Import Checksum Pkt Fib Stats.

(** ** Operations *)

Definition stack_owns_ip (ds : list netdev) (dst : Z) : bool :=
  existsb (fun d => negb (nd_ip d =? 0) && (nd_ip d =? dst)) ds.

Definition ip4_bad_src (src : Z) : bool :=
  ip4_is_multicast src || ip4_is_experimental src || ip4_is_limited_bcast src || ip4_is_loopback src.

Definition ip_local_deliver (dev : option nat) (p : pkt) (ih : ipv4_hdr) : PF () :=
  stat_inc ip_rx_delivered;;
  if ih_proto ih =? IP_PROTO_ICMP then icmp_input p ih
  else if ih_proto ih =? IP_PROTO_UDP then udp_input p ih
  else if ih_proto ih =? IP_PROTO_TCP then tcp_input p ih
  else
    stat_inc ip_rx_proto_unreach;;
    icmp_send_error (pkt_bytes p) (p_len p) ICMP_TYPE_DEST_UNREACH ICMP_UNREACH_PROTO.

(** The validation in [ip_input], up to the source address: the counter of
    the first check that fails, or the trimmed packet with its header. *)
Definition ip_check (p : pkt) : result (stat + pkt * ipv4_hdr) :=
  if p_len p <? IPV4_HDR_MIN then Ok (inl ip_rx_truncated)
  else
    ih ← read_ip (pkt_bytes p);
    if negb (ip_hdr_version ih =? 4) then Ok (inl ip_rx_bad_version)
    else
      let ihl := ip_hdr_len ih in
      if ihl <? IPV4_HDR_MIN then Ok (inl ip_rx_bad_ihl)
      else if p_len p <? ihl then Ok (inl ip_rx_truncated)
      else
        let total := pf_ntohs (ih_total_len ih) in
        if total <? ihl then Ok (inl ip_rx_bad_len)
        else if p_len p <? total then Ok (inl ip_rx_bad_len)
        else
          p ← (if total <? p_len p then pkt_trim p total else Ok p);
          hdr ← pkt_read p 0 ihl;
          if negb (inet_csum hdr =? 0) then Ok (inl ip_rx_bad_csum)
          else if ip4_bad_src (pf_ntohl (ih_saddr ih)) then Ok (inl ip_rx_bad_src)
          else Ok (inr (p, ih)).

(** [dev->st.rx_drops++]. *)
Definition dev_rx_drop (dev : nat) : PF () :=
  upd_dev dev (set_field nd_st (set_field rx_drops (fun n => u64 (n + 1)))).

(** A counter, then [goto drop]. *)
Definition ip_drop (dev : nat) (s : stat) : PF () := stat_inc s;; dev_rx_drop dev.

Definition ip_is_frag (ih : ipv4_hdr) : bool :=
  negb (Z.land (pf_ntohs (ih_frag_off ih)) (Z.lor IP_FRAG_MF IP_FRAG_OFFMASK) =? 0).

Definition ip_input (dev : nat) (p : pkt) : PF () :=
  stat_inc ip_rx;;
  r ← lift (ip_check p);
  match r with
  | inl s => ip_drop dev s
  | inr (p, ih) =>
      let dst := pf_ntohl (ih_daddr ih) in
      ds ← get_stack ps_devs;
      if negb (stack_owns_ip ds dst) then
        nd ← get_dev dev;
        if ip4_is_limited_bcast dst || ip4_is_multicast dst
           || (negb (nd_ip nd =? 0) && (dst =? subnet_bcast nd)) then
          ip_drop dev ip_rx_bcast_ignored
        else
          forwarding ← get_stack ps_forwarding;
          if forwarding : bool then ip_forward dev p ih else ip_drop dev ip_rx_not_for_us
      else if ip_is_frag ih then
        stat_inc ip_frags_rx;;
        ip_reass_input ip_local_deliver dev p ih
      else ip_local_deliver (Some dev) p ih
  end.

Definition eth_input (dev : nat) (p : pkt) : PF () :=
  stat_inc eth_rx_frames;;
  if p_len p <? ETH_HDR_LEN then
    stat_inc eth_rx_runts;;
    dev_rx_drop dev
  else
    eh ← lift (read_eth (pkt_bytes p));
    let ethertype := pf_ntohs (eh_type eh) in
    nd ← get_dev dev;
    d0 ← lift (in_bounds (head (eh_dst eh)));
    if negb (bool_decide (eh_dst eh = nd_mac nd)) && (Z.land d0 1 =? 0) then
      stat_inc eth_rx_other_dest
    else
      p ← lift (pkt_pull p ETH_HDR_LEN);
      if ethertype =? ETH_TYPE_ARP then arp_input dev p
      else if ethertype =? ETH_TYPE_IP4 then ip_input dev p
      else stat_inc eth_rx_unknown_ethertype.

(** ** Delivery *)

Definition l4_wf (w : world) : Prop := tcp_wf (w_socks w) (w_tcp w).

Lemma udp_step_l4 w w' : l4_wf w → udp_step w w' → l4_wf w'.
Proof.
  intros [H1 H2 H3 H4 H5] [_ S1 S2 T _]. unfold l4_wf. rewrite T. split; try done.
  rewrite Forall_lookup in H5. apply Forall_lookup. intros i k Hk j Hj.
  assert ((sock_ctl <$> socks w) !! i = Some (sock_ctl k)) as Hc by (by rewrite <- S2, list_lookup_fmap, Hk).
  rewrite list_lookup_fmap in Hc. apply fmap_Some in Hc as (k0 & Hk0 & Ek).
  apply (H5 i k0 Hk0). rewrite <- Hj. by apply (f_equal sk_tcb) in Ek.
Qed.

(** [ip_local_deliver] is the transport layer of the reassembler. *)
#[export] Instance ip_local_deliver_transport : Transport ip_local_deliver l4_wf.
Proof.
  split.
  { intros w w' S T. unfold l4_wf. by rewrite S, T. }
  intros w dev p ih Hn Hw Hrx Hsm. unfold ip_local_deliver. wp_step. apply wp_stat_inc. intros w1 E1 _ _.
  pose proof (net_wf_tx _ _ Hn E1) as Hn1.
  assert (l4_wf w1) as Hw1 by (unfold l4_wf; by rewrite <- (erase_tx_socks _ _ E1), <- (erase_tx_tcp _ _ E1)).
  assert (∀ w2 w3, erase_tx w = erase_tx w2 → erase_icmp w2 = erase_icmp w3 → net_wf w3 →
    net_wf w3 ∧ l4_wf w3 ∧ erase_l4 w = erase_l4 w3) as Hicmp.
  { intros w2 w3 E2 E3 Hn3. assert (erase_icmp w = erase_icmp w3) as E by frame.
    destruct (erase_icmp_proj _ _ E) as (_ & _ & _ & S & T & _). split_and!; [done| |frame].
    unfold l4_wf. by rewrite <- S, <- T. }
  destruct (Z.eqb_spec (ih_proto ih) IP_PROTO_ICMP) as [Hp|_].
  { eapply wp_mono; [apply wp_icmp_input; [done|done|]|].
    - rewrite <- (length_ip_payload _ _ Hrx). by apply Hsm.
    - intros _ w2 (E2 & Hn2 & _). eapply Hicmp; [exact E1|frame|done]. }
  destruct (_ =? _).
  { eapply wp_mono; [apply wp_udp_input; [done|apply Hw1|done]|]. intros [] w2 H2.
    split_and!; [apply H2|by eapply udp_step_l4|]. pose proof (us_frame _ _ H2). frame. }
  destruct (_ =? _).
  { eapply wp_mono; [by apply wp_tcp_input|]. intros [] w2 (i & st & st' & Hi & He & [M1 M2 M3 M4]).
    split_and!; [done|done|frame]. }
  wp_step. apply wp_stat_inc. intros w2 E2 _ _. pose proof Hrx as [Hwf _ _ _].
  pose proof (wf_fits _ Hwf). pose proof (wf_data _ Hwf). pose proof (wf_len _ Hwf).
  pose proof (length_pkt_bytes p Hwf).
  eapply wp_mono; [apply wp_icmp_send_error; try wrap_lia|].
  - eapply net_wf_tx; [done|congruence].
  - by apply pkt_bytes_ok.
  - intros _ w3 (E3 & Hn3 & _). eapply Hicmp; [|exact E3|done]. congruence.
Qed.

(** ** Validation *)

(** A datagram the stack accepts, on the bytes of a packet: version 4, the
    header inside the total length inside the packet, a header whose one's
    complement sum is all ones (RFC 1071), and a source outside 127/8 and below
    224.0.0.0. *)
Record ip_valid (b : bytes) : Prop := {
  iv_version : f_version b = 4;
  iv_len : 20 ≤ f_hlen b ≤ f_total b ∧ f_total b ≤ zlen b;
  iv_csum : word_sum (take (Z.to_nat (f_hlen b)) b) mod 65535 = 0;
  iv_src : ¬ loopback_addr (f_src b) ∧ ¬ group_addr (f_src b);
}.

(** What each counter says is wrong with a packet. *)
Inductive ip_defect (b : bytes) : stat → Prop :=
  | defect_truncated : zlen b < 20 ∨ zlen b < f_hlen b → ip_defect b ip_rx_truncated
  | defect_version : f_version b ≠ 4 → ip_defect b ip_rx_bad_version
  | defect_ihl : f_hlen b < 20 → ip_defect b ip_rx_bad_ihl
  | defect_len : f_total b < f_hlen b ∨ zlen b < f_total b → ip_defect b ip_rx_bad_len
  | defect_csum : word_sum (take (Z.to_nat (f_hlen b)) b) mod 65535 ≠ 0 → ip_defect b ip_rx_bad_csum
  | defect_src : loopback_addr (f_src b) ∨ group_addr (f_src b) → ip_defect b ip_rx_bad_src.

Lemma ip_defect_invalid b s : ip_defect b s → ¬ ip_valid b.
Proof. intros [] []; [lia..|done|tauto]. Qed.

Lemma ip4_bad_src_iff a : u32_ok a → ip4_bad_src a = true ↔ loopback_addr a ∨ group_addr a.
Proof.
  intros Ha. unfold ip4_bad_src.
  rewrite <- ip4_group_limited_iff, <- ip4_is_loopback_iff, !orb_true_iff by done. tauto.
Qed.

(** The receiver's checksum test is RFC 1071's: a header is not all zeros. *)
Lemma hdr_csum_iff b n :
  bytes_ok b → zlen b ≤ 65536 → (2 ≤ n)%nat → f_version b = 4 →
  inet_csum (take n b) = 0 ↔ word_sum (take n b) mod 65535 = 0.
Proof.
  intros Hok Hl Hn Hv. unfold inet_csum. assert (bytes_ok (take n b)) as Hok' by by apply Forall_take.
  rewrite csum_verify_iff, Z.add_0_l by (done || (rewrite length_take; lia)).
  split; [tauto|]. split; [|done]. destruct b as [|v b]; [done|].
  assert (64 ≤ v) as Hv'.
  { unfold f_version, be_at, be in Hv. cbn -[Z.div] in Hv. change (take 0 b) with (@nil Z) in Hv.
    cbn [foldl] in Hv. Z.div_mod_to_equations. lia. }
  destruct n as [|[|n]]; [lia..|]. destruct b as [|t b].
  - change (0 < v * 256). lia.
  - change (0 < v * 256 + t + word_sum (take n b)).
    assert (0 ≤ word_sum (take n b)).
    { apply word_sum_range. do 2 (apply Forall_cons in Hok as [_ Hok]). by apply Forall_take. }
    apply Forall_cons in Hok as [_ Hok]. apply Forall_cons in Hok as [Ht _]. unfold byte_ok in Ht. lia.
Qed.

Lemma read_ip_short b h : read_ip b = Ok h → 20 ≤ zlen b.
Proof. intros H. do 20 (destruct b as [|? b]; [done|]). cbn [length]. lia. Qed.

Lemma ip_trim_ok p total :
  pkt_wf p → 0 ≤ total ≤ p_len p →
  ∃ p', (if total <? p_len p then pkt_trim p total else Ok p) = Ok p' ∧ pkt_wf p' ∧
    pkt_bytes p' = take (Z.to_nat total) (pkt_bytes p) ∧ p_data p' = p_data p ∧ p_len p' = total.
Proof.
  intros Hwf Ht. destruct (Z.ltb_spec total (p_len p)); [by apply pkt_trim_ok|].
  exists p. split_and!; [done..| |done|lia]. rewrite take_ge; [done|]. pose proof (length_pkt_bytes p Hwf). lia.
Qed.

(** What a packet that passes the validation is. *)
Record ip_accepted (p p' : pkt) (ih : ipv4_hdr) : Prop := {
  ia_valid : ip_valid (pkt_bytes p);
  ia_rx : rx_dgram p' ih;
  ia_bytes : pkt_bytes p' = take (Z.to_nat (f_total (pkt_bytes p))) (pkt_bytes p);
  ia_data : p_data p' = p_data p;
}.

(** The verdict agrees with the definition of validity. *)
Definition ip_checked (p : pkt) (r : stat + pkt * ipv4_hdr) : Prop :=
  match r with
  | inl s => ip_defect (pkt_bytes p) s
  | inr (p', ih) => ip_accepted p p' ih
  end.

Lemma ip_check_ok p : pkt_wf p → ∃ r, ip_check p = Ok r ∧ ip_checked p r.
Proof.
  intros Hwf. pose proof (length_pkt_bytes p Hwf) as Hlb. pose proof (pkt_bytes_ok p Hwf) as Hbok. unfold ip_check.
  assert (∀ s, ip_defect (pkt_bytes p) s → ∃ r, Ok (inl s) = Ok r ∧ ip_checked p r) as Hdrop.
  { intros s H. by exists (inl s). }
  destruct (Z.ltb_spec (p_len p) IPV4_HDR_MIN); unfold IPV4_HDR_MIN in *.
  { apply Hdrop, defect_truncated. lia. }
  destruct (read_ip_ok (pkt_bytes p)) as (ih & Hr & Hok & _); [done|lia|]. rewrite Hr. cbn [mbind result_bind].
  destruct (read_ip_fields _ _ Hbok Hr) as [Ev Ehl Etot _ _ _ _ Esrc _]. pose proof (ip_hdr_len_range ih Hok).
  assert (u32_ok (pf_ntohl (ih_saddr ih))) as Hsr by apply ntohl_u32, Hok.
  rewrite Ev, Ehl, Etot, Esrc in *. destruct (Z.eqb_spec (f_version (pkt_bytes p)) 4) as [Hv|Hv]; cbn [negb];
    [|by apply Hdrop, defect_version].
  cbv zeta. set (hl := f_hlen (pkt_bytes p)) in *. set (total := f_total (pkt_bytes p)) in *.
  destruct (Z.ltb_spec hl 20); [by apply Hdrop, defect_ihl|].
  destruct (Z.ltb_spec (p_len p) hl); [apply Hdrop, defect_truncated; fold hl; lia|].
  destruct (Z.ltb_spec total hl); [apply Hdrop, defect_len; fold hl total; lia|].
  destruct (Z.ltb_spec (p_len p) total); [apply Hdrop, defect_len; fold hl total; lia|].
  destruct (ip_trim_ok p total Hwf) as (p' & -> & Hwf' & Hb' & Hd' & Hl'); [lia|]. cbn [mbind result_bind].
  rewrite pkt_read_ok by (done || lia). cbn [mbind result_bind].
  rewrite drop_0, Hb', take_take, Nat.min_l by lia.
  assert (zlen (pkt_bytes p) ≤ 65536) as Hsz.
  { pose proof (wf_fits _ Hwf). pose proof (wf_data _ Hwf). wrap_lia. }
  pose proof (hdr_csum_iff (pkt_bytes p) (Z.to_nat hl) Hbok Hsz ltac:(lia) Hv) as Hcs.
  destruct (Z.eqb_spec (inet_csum (take (Z.to_nat hl) (pkt_bytes p))) 0) as [Ec|Ec]; cbn [negb];
    [|apply Hdrop, defect_csum; intros E; by apply Ec, Hcs].
  pose proof (ip4_bad_src_iff _ Hsr) as Hbs.
  destruct (ip4_bad_src _); [by apply Hdrop, defect_src, Hbs|].
  exists (inr (p', ih)). split; [done|]. split; [|split|done|done].
  - split; [done|fold hl total; lia|by apply Hcs|]. split; intros E; by destruct Hbs as [_ Hbs]; discriminate Hbs; auto.
  - done.
  - rewrite Hb'. apply read_ip_take; [lia|done].
  - done.
  - unfold IPV4_HDR_MIN. rewrite Ehl. lia.
Qed.

(** ** Safety *)

(** The invariant of the whole stack. *)
Abbreviation stack_wf := (ip_wf (twf := l4_wf)).

(** What handling one event may change. *)
Definition in_step (w w' : world) : Prop := stack_wf w' ∧ erase_in w = erase_in w'.

Lemma in_step_tx w w' : stack_wf w → erase_tx w = erase_tx w' → in_step w w'.
Proof. intros Hw E. split; [by eapply ip_wf_tx|frame]. Qed.

Lemma in_step_icmp w w' : stack_wf w → erase_icmp w = erase_icmp w' → net_wf w' → in_step w w'.
Proof. intros Hw E Hn. split; [by eapply ip_wf_icmp|frame]. Qed.

Lemma in_step_from w w1 w' : erase_tx w = erase_tx w1 → in_step w1 w' → in_step w w'.
Proof. intros E [H1 H2]. split; [done|frame]. Qed.

Lemma in_step_l4 w w' :
  stack_wf w → net_wf w' → l4_wf w' → erase_l4 w = erase_l4 w' → in_step w w'.
Proof.
  intros [Hn Hr Hl] Hn' Hl' E. split; [|frame]. split; [done| |done].
  rewrite <- (erase_l4_reass _ _ E). assert (erase_in w = erase_in w') as Ei by frame.
  by rewrite <- (erase_in_length _ _ Ei).
Qed.

Lemma wp_dev_rx_drop dev nd (Q : () → world → Prop) w :
  dev_at w dev nd → (∀ w', erase_tx w = erase_tx w' → w_wire w' = w_wire w → Q () w') →
  wp (dev_rx_drop dev) Q w.
Proof. intros Hd HQ. eapply wp_upd_dev_st; [done|]. intros w1 E1 W1 _. by apply HQ. Qed.

Lemma wp_ip_drop dev nd s (Q : () → world → Prop) w :
  dev_at w dev nd → (∀ w', erase_tx w = erase_tx w' → w_wire w' = w_wire w → Q () w') →
  wp (ip_drop dev s) Q w.
Proof.
  intros Hd HQ. unfold ip_drop. wp_step. apply wp_stat_inc. intros w1 E1 W1 _.
  eapply wp_dev_rx_drop; [by eapply dev_at_tx|]. intros w2 E2 W2. apply HQ; congruence.
Qed.

(** An ICMP message the packet buffer of the reply cannot hold makes the
    stack abort (see [Icmp.icmp_echo_overflow]); frames are assumed free of
    them. *)
Definition ip_bounded (p : pkt) : Prop := ∀ p' ih, ip_check p = Ok (inr (p', ih)) → frag_small p' ih.

Lemma frag_small_icmp p ih : frag_small p ih → icmp_small p ih.
Proof. intros H Hp. specialize (H Hp). pose proof (frag_off_range ih). lia. Qed.

Lemma wp_ip_input dev nd p w :
  stack_wf w → dev_at w dev nd → pkt_wf p → ETH_HDR_LEN ≤ p_data p → ip_bounded p →
  wp (ip_input dev p) (fun _ w' => in_step w w') w.
Proof.
  intros Hw Hd Hp Hroom Hb. unfold ip_input. wp_step. apply wp_stat_inc. intros w1 E1 W1 _.
  pose proof (ip_wf_tx _ _ Hw E1) as Hw1. pose proof (dev_at_tx _ _ _ _ E1 Hd) as Hd1.
  destruct (ip_check_ok p Hp) as (r & Hr & Hc). wp_step. eapply wp_lift; [exact Hr|].
  assert (∀ s, wp (ip_drop dev s) (fun _ w' => in_step w w') w1) as Hdrop.
  { intros s. eapply wp_ip_drop; [done|]. intros w2 E2 _. apply in_step_tx; [done|congruence]. }
  destruct r as [s|[p' ih]]; [apply Hdrop|]. destruct Hc as [_ Hrx _ Hdat]. cbv zeta. wp_step. wp_step.
  destruct (negb (stack_owns_ip _ _)).
  - wp_step. eapply wp_get_dev; [done|]. intros nd' _. destruct (_ || _); [apply Hdrop|]. wp_step. wp_step.
    destruct (ps_forwarding _); [|apply Hdrop].
    eapply wp_mono; [apply wp_ip_forward; [apply Hw1|done|lia]|]. intros [] w2 (E2 & Hn2 & _).
    eapply in_step_from; [exact E1|]. by apply in_step_icmp.
  - pose proof (Hb _ _ Hr) as Hs. destruct (ip_is_frag ih).
    + wp_step. apply wp_stat_inc. intros w2 E2 _ _.
      eapply wp_mono; [apply wp_ip_reass_input; [by eapply ip_wf_tx| |done|done]|].
      * eapply dev_at_lt, dev_at_tx; [exact E2|done].
      * intros [] w3 H3. eapply in_step_from; [|exact H3]. congruence.
    + eapply wp_mono; [apply tr_deliver; [apply Hw1|apply Hw1|done|by apply frag_small_icmp]|].
      intros [] w2 (Hn2 & Hl2 & E2). eapply in_step_from; [exact E1|]. by apply in_step_l4.
Qed.

(** The frame carries no oversized ICMP message. *)
Definition frame_bounded (p : pkt) : Prop := ∀ q, pkt_pull p ETH_HDR_LEN = Ok q → ip_bounded q.

Lemma wp_eth_input dev nd p w :
  stack_wf w → dev_at w dev nd → pkt_wf p → frame_bounded p →
  wp (eth_input dev p) (fun _ w' => in_step w w') w.
Proof.
  intros Hw Hd Hp Hb. unfold eth_input. wp_step. apply wp_stat_inc. intros w1 E1 W1 _.
  pose proof (dev_at_tx _ _ _ _ E1 Hd) as Hd1. pose proof (length_pkt_bytes p Hp) as Hlb.
  pose proof (ip_wf_tx _ _ Hw E1) as Hw1.
  assert (∀ s, wp (stat_inc s) (fun _ w' => in_step w w') w1) as Hdrop.
  { intros s. apply wp_stat_inc. intros w2 E2 _ _. apply in_step_tx; [done|congruence]. }
  destruct (Z.ltb_spec (p_len p) ETH_HDR_LEN) as [Hs|Hs].
  { wp_step. apply wp_stat_inc. intros w2 E2 _ _. eapply wp_dev_rx_drop; [by eapply dev_at_tx|].
    intros w3 E3 _. apply in_step_tx; [done|congruence]. }
  unfold ETH_HDR_LEN in Hs.
  destruct (read_eth_ok (pkt_bytes p)) as (eh & Heh & Hl6 & _); [by apply pkt_bytes_ok|lia|].
  wp_step. eapply wp_lift; [exact Heh|]. cbv zeta. wp_step. eapply wp_get_dev; [done|]. intros nd' _. wp_step.
  destruct (eh_dst eh) as [|d0 rest] eqn:Hdst; [done|]. eapply wp_lift; [done|].
  destruct (_ && _); [apply Hdrop|].
  destruct (pkt_pull_ok p ETH_HDR_LEN Hp) as (q & Hq & Hwfq & _ & Hdq & _); [wrap_lia|].
  wp_step. eapply wp_lift; [exact Hq|]. destruct (_ =? _).
  { eapply wp_mono; [eapply wp_arp_input; [apply Hw1|done|done]|]. intros [] w2 (E2 & Hl2 & _).
    eapply in_step_from; [exact E1|]. apply in_step_icmp; [done|frame|]. eapply net_wf_arp; [apply Hw1|done|done]. }
  destruct (_ =? _); [|apply Hdrop].
  eapply wp_mono; [eapply wp_ip_input; [done|done|done| |by apply Hb]|].
  - rewrite Hdq. pose proof (wf_data _ Hp). lia.
  - intros [] w2 H2. by eapply in_step_from.
Qed.

(** ** Properties *)

(** C23. The validation of [ip_input] is exact. It never faults on any packet;
    it accepts exactly the packets whose bytes have version 4, a header of at
    least 20 bytes inside a total length inside the packet, a header whose one's
    complement sum is all ones, and a source that is neither loopback (127/8)
    nor 224.0.0.0 or above; what it hands on is the datagram itself, link padding
    trimmed, with its header; and the counter of a refused packet names a defect
    the packet has. (RFC 1122 would also refuse a source that is a directed
    broadcast, which the code cannot know and accepts, as it does 0.0.0.0.) *)
Theorem ip_check_exact p :
  pkt_wf p →
  let b := pkt_bytes p in
  ∃ r, ip_check p = Ok r ∧
  match r with
  | inl s => ip_defect b s ∧ ¬ ip_valid b
  | inr (p', ih) =>
      ip_valid b ∧ pkt_bytes p' = take (Z.to_nat (f_total b)) b ∧ read_ip (pkt_bytes p') = Ok ih
  end.
Proof.
  intros Hp b. destruct (ip_check_ok p Hp) as (r & Hr & Hc). exists r. split; [done|].
  destruct r as [s|[p' ih]]; [split; [done|by eapply ip_defect_invalid]|].
  destruct Hc as [? [] ? ?]. done.
Qed.

(** A datagram of 31 bytes in a frame padded to 40. *)
Definition demo_padded : pkt :=
  mk_rx (ip_datagram 0x0a000002 0x0a000001 IP_PROTO_UDP 64 1 0 demo_udp ++ replicate 9 0).

Lemma ip_check_exact_witness : ∃ r, ip_check demo_padded = Ok r.
Proof.
  destruct (ip_check_exact demo_padded) as (r & H & _); [|exact (ex_intro _ r H)].
  apply mk_rx_wf.
  - apply Forall_app_2; [|apply Forall_replicate; wrap_lia].
    apply ip_datagram_ok; try lia; try wrap_lia. by apply udp_message_ok; solve_bytes_ok.
  - by vm_compute.
Defined.

(** C3. Whatever arrives, the stack survives: any frame, of any content,
    received on any device in a well-formed state is handled to the end (no
    assertion, no access outside a buffer, no division by zero, no endless
    loop), the invariant of every layer holds again, and the configuration,
    the routes and the forwarding flag are unchanged. The one exception is an
    ICMP message too long for the reply buffer. *)
Theorem eth_input_safe w dev p :
  stack_wf w → (dev < length (devs w))%nat → pkt_wf p → frame_bounded p →
  ∃ w', eth_input dev p w = Ok ((), w') ∧ stack_wf w' ∧ erase_in w = erase_in w'.
Proof.
  intros Hw Hd Hp Hb. destruct (lookup_lt_is_Some_2 _ _ Hd) as [nd Hnd].
  pose proof (wp_eth_input dev nd p w Hw (dev_at_of_lookup _ _ _ Hnd) Hp Hb) as H.
  apply wp_run in H as ([] & w' & Hrun & Hw' & E). by exists w'.
Qed.

(** A UDP datagram in a frame for the first device. *)
Definition demo_frame : pkt :=
  mk_rx (eth_frame (nd_mac demo_dev0) [2; 0; 0; 0; 0; 2] ETH_TYPE_IP4
    (ip_datagram 0x0a000002 0x0a000001 IP_PROTO_UDP 64 1 0 demo_udp)).

Lemma demo_frame_wf : pkt_wf demo_frame.
Proof.
  apply mk_rx_wf; [|by vm_compute]. apply Forall_app_2.
  - apply eth_image_ok; solve_bytes_ok.
  - apply ip_datagram_ok; try lia; try wrap_lia. by apply udp_message_ok; solve_bytes_ok.
Qed.

Lemma demo_frame_bounded : frame_bounded demo_frame.
Proof.
  intros q Hq p' ih Hc Hproto. exfalso. revert Hproto.
  assert (pkt_pull demo_frame ETH_HDR_LEN ≫= ip_check = Ok (inr (p', ih))) as H by (by rewrite Hq).
  assert (∃ x, pkt_pull demo_frame ETH_HDR_LEN ≫= ip_check = Ok (inr x) ∧ ih_proto x.2 = IP_PROTO_UDP)
    as (x & Hx & Ex) by (eexists; split; [vm_compute; reflexivity|reflexivity]).
  rewrite Hx in H. injection H as ->. cbn [snd] in Ex. rewrite Ex. done.
Qed.

Lemma demo_tcp_stack_wf : stack_wf demo_tcp_world.
Proof. split; [exact demo_tcp_net|exact (ip_reass_init_wf 2)|exact demo_tcp_wf]. Qed.

Lemma eth_input_safe_witness :
  ∃ w', eth_input 0 demo_frame demo_tcp_world = Ok ((), w') ∧ stack_wf w'.
Proof.
  destruct (eth_input_safe demo_tcp_world 0 demo_frame demo_tcp_stack_wf ltac:(change (0 < 2)%nat; lia)
    demo_frame_wf demo_frame_bounded) as (w' & H1 & H2 & _).
  exact (ex_intro _ w' (conj H1 H2)).
Defined.
