(* ===== verification/Core.v ===== *)
(** * The stack as a whole

    Models [core/stack.c]: creation and release, attaching devices,
    configuring addresses and the periodic tick; and the invariant of the whole
    stack, which every operation on datagram sockets keeps. *)

From S2P Require Import Prelude Pf Checksum Pkt Fib Headers Stats Stack Link Arp IpOut Icmp Reass Sock.
From S2P Require Import Udp Tcb TcpOut Tcp TcpInput TcpTimer Fwd Input.
Import Checksum Pkt Fib Stats.

(** ** Operations *)

Definition pf_stack_init : pf_stack :=
  mk_stack [] false false arp_init ip_reass_init pf_socktab_init tcp_init fib_init 0 0 zero_stats.

Definition pf_stack_fini (s : pf_stack) : pf_stack :=
  s <| ps_arp ::= fmap (fun e => e <| ae_waitq := [] |>) |>
    <| ps_reass ::= ip_reass_fini |> <| ps_socks ::= pf_socktab_fini |>
    <| ps_tcp ::= tcp_fini |> <| ps_fib ::= fib_fini |>.

(** The device joins at the end of [devs], its index in the table. *)
Definition pf_stack_add_dev (dev : netdev) : PF Z :=
  ds ← get_stack ps_devs;
  let ndevs := zlen ds in
  if PF_MAX_DEVS <=? ndevs then mret (-1)
  else
    upd_stack (set_field ps_devs (fun ds => ds ++ [dev <| nd_ifindex := ndevs |>]));;
    mret ndevs.

(** [__builtin_popcount]. *)
Definition popcount (x : Z) : Z :=
  fold_right Z.add 0 ((fun i => Z.b2z (Z.testbit x (Z.of_nat i))) <$> seq 0 32).

Definition pf_if_set_addr (dev : nat) (ip mask : Z) : PF () :=
  upd_dev dev (fun d => d <| nd_ip := ip |> <| nd_mask := mask |>);;
  upd_stack (set_field ps_fib (fun f => (fib_add f (Z.land ip mask) (u8 (popcount mask)) 0 (Some dev) true).1)).

Definition pf_tick (now_ms : Z) : PF () :=
  arp_tick now_ms;;
  ip_reass_tick now_ms;;
  tcp_tick now_ms.

(** ** Creation *)

Lemma pf_stack_init_wf now : stack_wf (mk_world pf_stack_init now []).
Proof.
  split; [split; [split|split|]| |].
  - apply Forall_nil_2.
  - apply arp_init_wf.
  - apply fib_init_abs.
  - intros i e [-> _]%lookup_replicate. done.
  - cbn. lia.
  - apply ip_reass_init_wf.
  - apply tcp_init_wf.
Qed.

(** ** Attaching devices *)

Lemma arp_wf_more n n' c : (n ≤ n')%nat → arp_wf n c → arp_wf n' c.
Proof.
  intros Hn [H1 H2 H3]. split; [done| |done]. eapply Forall_impl; [exact H2|].
  intros e He. destruct He. split; try done. intros Hs. destruct (aw_dev Hs) as (d & ? & ?). exists d. split; [done|lia].
Qed.

Lemma reass_wf_more n n' r : (n ≤ n')%nat → reass_wf n r → reass_wf n' r.
Proof.
  intros Hn [H1 H2]. split; [done|]. eapply Forall_impl; [exact H2|].
  intros c. unfold ctx_wf. destruct (rc_in_use c); [|done]. intros []. split; try done.
  destruct cl_dev as (d & ? & ?). exists d. split; [done|lia].
Qed.

Lemma fib_ok_more n n' f : (n ≤ n')%nat → fib_ok n f → fib_ok n' f.
Proof.
  intros Hn [H1 H2]. split; [done|]. intros i e Hi Hu. destruct (H2 i e Hi Hu) as (? & d & ? & ?).
  split; [done|]. exists d. split; [done|lia].
Qed.

(** A configured device record. *)
Lemma wp_pf_stack_add_dev nd w :
  stack_wf w → dev_wf nd →
  wp (pf_stack_add_dev nd) (fun r w' => stack_wf w' ∧
    if PF_MAX_DEVS <=? zlen (devs w) then r = -1 ∧ w' = w
    else r = zlen (devs w) ∧ devs w' = devs w ++ [nd <| nd_ifindex := r |>] ∧ ps_fib (w_stack w') = ps_fib (w_stack w)) w.
Proof.
  intros Hw Hnd. unfold pf_stack_add_dev. wp_step. wp_step. destruct (_ <=? _); [by wp_step|].
  wp_step. apply wp_modify. wp_step. split; [|done]. destruct Hw as [[[Hd Ha] Hf Hi] Hr Hl].
  assert (length (devs w) ≤ length (devs w ++ [nd <| nd_ifindex := zlen (devs w) |>]))%nat as Hle
    by (rewrite length_app; lia).
  split; [split; [split|..]|..].
  - apply Forall_app_2; [done|]. apply Forall_singleton. by destruct Hnd.
  - by eapply arp_wf_more.
  - by eapply fib_ok_more.
  - done.
  - by eapply reass_wf_more.
  - done.
Qed.

(** ** Addresses *)

Lemma popcount_range x : 0 ≤ popcount x ≤ 32.
Proof.
  unfold popcount.
  assert (∀ l, 0 ≤ fold_right Z.add 0 ((fun i => Z.b2z (Z.testbit x (Z.of_nat i))) <$> l) ≤ zlen l) as H.
  { induction l as [|i l IH]; [done|]. cbn [fmap list_fmap fold_right length].
    destruct (Z.testbit x (Z.of_nat i)); cbn [Z.b2z]; lia. }
  specialize (H (seq 0 32)). by rewrite length_seq in H.
Qed.

(** A table whose routes are usable with [n] devices. *)
Definition table_ok (n : nat) (T : gmap (Z * Z) route) : Prop :=
  ∀ k r, T !! k = Some r → u32_ok r.1.1 ∧ ∃ d, r.1.2 = Some d ∧ (d < n)%nat.

Lemma fib_ok_table n f : fib_ok n f ↔ ∃ T, fib_abs f T ∧ table_ok n T.
Proof.
  split.
  - intros [Hwf Hr]. exists (fib_table f). pose proof (fib_wf_abs f Hwf) as Habs. split; [done|].
    intros k r (i & e & Hi & Hu & _ & <-)%(proj2 Habs). by apply (Hr i e).
  - intros (T & Ha & HT). split; [apply Ha|]. intros i e Hi Hu. exact (HT _ _ (fib_abs_lookup _ _ _ _ Ha Hi Hu)).
Qed.

Lemma table_ok_insert n T k nh d connected :
  table_ok n T → u32_ok nh → (d < n)%nat → table_ok n (<[k:=(nh, Some d, connected)]> T).
Proof.
  intros HT Hn Hd k' r [[_ <-]|[_ ?]]%lookup_insert_Some; [|by eapply HT]. split; [done|]. by exists d.
Qed.

(** Adding a route through an existing device keeps the table usable. *)
Lemma fib_add_ok_devs n f prefix plen nh d connected :
  fib_ok n f → 0 ≤ plen ≤ 32 → u32_ok nh → (d < n)%nat →
  fib_ok n (fib_add f prefix plen nh (Some d) connected).1.
Proof.
  intros (T & Habs & HT)%fib_ok_table Hp Hn Hd. apply fib_ok_table.
  destruct (decide (T !! (Z.land prefix (plen_mask plen), plen) = None)) as [Ek|Ek];
    [destruct (decide (pool_alloc (fib_pool f) = None))|].
  - destruct (fib_add_full f T Habs prefix plen nh d connected Hp) as (f' & -> & Ha); [done..|]. eauto.
  - destruct (fib_add_ok f T Habs prefix plen nh d connected Hp) as (f' & -> & Ha); [by right|].
    eauto using table_ok_insert.
  - destruct (fib_add_ok f T Habs prefix plen nh d connected Hp) as (f' & -> & Ha); [by left|].
    eauto using table_ok_insert.
Qed.

Lemma fib_add_via_ok_devs n f prefix plen nh :
  fib_ok n f → 0 ≤ plen ≤ 32 → u32_ok nh → fib_ok n (fib_add_via f prefix plen nh).1.
Proof.
  intros Hf Hp Hn. unfold fib_add_via. destruct (fib_lookup f nh) as [i|] eqn:Hl; [|done].
  destruct (fib_lookup_in_use f nh i (fo_wf _ _ Hf) Hl) as (e & He & Hu). cbn [mbind option_bind]. rewrite He.
  destruct (fe_connected e); [|done]. destruct (fo_routes _ _ Hf i e He Hu) as (_ & d & -> & Hd).
  by apply fib_add_ok_devs.
Qed.

Lemma fib_del_ok_devs n f prefix plen : fib_ok n f → 0 ≤ plen ≤ 32 → fib_ok n (fib_del f prefix plen).1.
Proof.
  intros (T & Habs & HT)%fib_ok_table Hp. apply fib_ok_table.
  destruct (fib_del_ok f T prefix plen Habs Hp) as (f' & -> & Ha). exists (delete (Z.land prefix (plen_mask plen), plen) T).
  split; [done|]. intros k r [_ ?]%lookup_delete_Some. by eapply HT.
Qed.

(** Replacing the route table. *)
Lemma stack_wf_set_fib w f :
  stack_wf w → fib_ok (length (devs w)) f → stack_wf (w <| w_stack ::= set_field ps_fib (fun _ => f) |>).
Proof. intros [[[Hd Ha] _ Hi] Hr Hl] Hf. split; [split; [by split|done|done]|done|done]. Qed.

Lemma stack_wf_alter_dev w f dev :
  stack_wf w → (∀ nd, dev_wf nd → dev_wf (f nd)) → stack_wf (w <| w_stack ::= set_field ps_devs (alter f dev) |>).
Proof.
  intros [[[Hd Ha] Hf Hi] Hr Hl] Hdw. pose proof (length_alter f (devs w) dev) as El. split; [split; [split|..]|..].
  - change (Forall dev_wf (alter f dev (devs w))). apply Forall_alter; [done|]. intros nd _. apply Hdw.
  - change (arp_wf (length (alter f dev (devs w))) (arpc w)). by rewrite El.
  - change (fib_ok (length (alter f dev (devs w))) (ps_fib (w_stack w))). by rewrite El.
  - done.
  - change (reass_wf (length (alter f dev (devs w))) (reass w)). by rewrite El.
  - done.
Qed.

Lemma wp_upd_dev_wf dev f (Q : () → world → Prop) w :
  stack_wf w → (dev < length (devs w))%nat → (∀ nd, dev_wf nd → dev_wf (f nd)) →
  (∀ w', stack_wf w' → w' = w <| w_stack ::= set_field ps_devs (alter f dev) |> → Q () w') → wp (upd_dev dev f) Q w.
Proof.
  intros Hw Hdev Hf HQ. destruct (lookup_lt_is_Some_2 _ _ Hdev) as [nd Hnd]. unfold upd_dev. wp_step.
  eapply wp_get_dev; [by apply dev_at_of_lookup|]. intros _ _. apply wp_modify.
  apply HQ; [by apply stack_wf_alter_dev|done].
Qed.

Lemma wp_pf_if_set_addr dev ip mask w :
  stack_wf w → (dev < length (devs w))%nat → u32_ok ip → u32_ok mask →
  wp (pf_if_set_addr dev ip mask) (fun _ w' => stack_wf w' ∧
    devs w' = alter (fun d => d <| nd_ip := ip |> <| nd_mask := mask |>) dev (devs w) ∧
    ps_fib (w_stack w') = (fib_add (ps_fib (w_stack w)) (Z.land ip mask) (popcount mask) 0 (Some dev) true).1) w.
Proof.
  intros Hw Hdev Hip Hmask. pose proof (popcount_range mask) as Hpc. unfold pf_if_set_addr. wp_step.
  eapply wp_upd_dev_wf; [done|done|by intros nd []; split|]. intros w1 Hw1 ->. apply wp_modify.
  rewrite (u8_small (popcount mask)) by lia. split; [|done]. eapply stack_wf_set_fib; [exact Hw1|].
  apply fib_add_ok_devs; [apply Hw1|done|lia|]. cbn. by rewrite length_alter.
Qed.

(** ** The tick *)

Lemma wp_pf_tick now w : stack_wf w → wp (pf_tick now) (fun _ w' => in_step w w') w.
Proof.
  intros Hw. unfold pf_tick. wp_step. unfold arp_tick. rewrite <- (aw_len _ _ (lw_arp _ (nw_link _ (iw_net _ Hw)))).
  eapply wp_mono; [apply (wp_arp_tick_from now [] (arpc w) w); [apply Hw|done]|]. intros [] w1 (E1 & Hl1 & _).
  assert (stack_wf w1) as Hw1.
  { eapply ip_wf_icmp; [done|frame|]. eapply net_wf_arp; [apply Hw|done|done]. }
  wp_step. eapply wp_mono; [by apply wp_ip_reass_tick|]. intros [] w2 [Hw2 E2].
  eapply wp_mono; [apply wp_tcp_tick; apply Hw2|]. intros [] w3 [N3 F3 W3 _].
  destruct (in_step_l4 w2 w3 Hw2 N3 W3 F3) as [Hw3 E3]. split; [done|frame].
Qed.

(** ** Datagram sockets *)

Lemma stack_wf_set_socks w t : stack_wf w → tcp_wf t (w_tcp w) → stack_wf (set_socks w t).
Proof. intros [Hn Hr Hl] Ht. split; [by apply net_wf_set_socks|done|done]. Qed.

Lemma tcp_wf_put_sock s g i k :
  tcp_wf s g → sock_wf k → (∀ c, sk_tcb k = Some c → (c < TCP_MAX_CONNS)%nat) → tcp_wf (put_sock s i k) g.
Proof.
  intros [H1 H2 H3 H4 H5] Hk Hc. split; [done..|by apply put_sock_wf|]. cbn. by apply Forall_insert.
Qed.

Lemma wp_upd_sock_wf i k f (Q : () → world → Prop) w :
  stack_wf w → socks w !! i = Some k → sock_wf (f k) → (∀ c, sk_tcb (f k) = Some c → (c < TCP_MAX_CONNS)%nat) →
  (∀ w', stack_wf w' → socks w' !! i = Some (f k) → w_now w' = w_now w → Q () w') → wp (upd_sock i f) Q w.
Proof.
  intros Hw Hk Hf Hc HQ. eapply wp_upd_sock; [done|]. apply HQ; [..|done].
  - apply stack_wf_set_socks; [done|]. apply tcp_wf_put_sock; [apply Hw|done|done].
  - cbn. apply list_lookup_insert_eq. by eapply lookup_lt_Some.
Qed.

Lemma sock_at_wf w i k :
  stack_wf w → socks w !! i = Some k → sock_wf k ∧ ∀ c, sk_tcb k = Some c → (c < TCP_MAX_CONNS)%nat.
Proof.
  intros Hw Hk. pose proof (iw_twf _ Hw) as [_ _ _ H4 H5].
  split; [exact (Forall_lookup_1 _ _ _ _ (tw_socks _ H4) Hk)|exact (Forall_lookup_1 _ _ _ _ H5 Hk)].
Qed.

Lemma wp_sock_get_wf sock (Q : option nat → world → Prop) w :
  stack_wf w → Q None w → (∀ k, socks w !! Z.to_nat sock = Some k → Q (Some (Z.to_nat sock)) w) →
  wp (pf_sock_get sock) Q w.
Proof.
  intros Hw HN HS. unfold pf_sock_get. destruct (_ || _) eqn:Hr; [by wp_step|].
  apply orb_false_iff in Hr as [Hr1%Z.ltb_ge Hr2%Z.leb_gt].
  destruct (lookup_lt_is_Some_2 (socks w) (Z.to_nat sock)) as [k Hk].
  { rewrite (tw_len _ (tp_socktab _ _ (iw_twf _ Hw))). lia. }
  wp_step. eapply wp_get_sock; [done|]. wp_step. destruct (decide _); [done|]. by eapply HS.
Qed.

Lemma wp_pf_socket_wf type w : stack_wf w → wp (pf_socket type) (fun _ w' => stack_wf w') w.
Proof.
  intros Hw. unfold pf_socket. destruct (decide _); [by wp_step|]. wp_step. wp_step.
  destruct (list_find _ _) as [[i k]|] eqn:Hf; [|by wp_step].
  apply list_find_Some in Hf as (Hk & _). wp_step.
  eapply wp_upd_sock_wf; [done|done| |done|by intros; wp_step]. split; cbn; try lia; done.
Qed.

Lemma wp_pf_bind_wf sock ip port w :
  stack_wf w → u32_ok ip → u16_ok port → wp (pf_bind sock ip port) (fun _ w' => stack_wf w') w.
Proof.
  intros Hw Hip Hport. unfold pf_bind. wp_step. apply wp_sock_get_wf; [done|by wp_step|]. intros k Hk.
  destruct (port =? 0); [by wp_step|]. wp_step. eapply wp_get_sock; [done|]. wp_step.
  unfold pf_sock_port_in_use. wp_steps. destruct (existsb _ _); [by wp_step|]. wp_step.
  destruct (sock_at_wf _ _ _ Hw Hk) as [[] Hc].
  eapply wp_upd_sock_wf; [done|done|by split|exact Hc|by intros; wp_step].
Qed.

Lemma wp_sock_autobind_wf i k (Q : bool → world → Prop) w :
  stack_wf w → socks w !! i = Some k →
  (∀ b w' k', stack_wf w' → socks w' !! i = Some k' → w_now w' = w_now w → sk_type k' = sk_type k → Q b w') →
  wp (sock_autobind i) Q w.
Proof.
  intros Hw Hk HQ. unfold sock_autobind. wp_step. eapply wp_get_sock; [done|].
  destruct (_ =? 0); [|wp_step; by eapply HQ]. wp_step.
  apply wp_pf_sock_ephemeral_port; [apply (iw_twf _ Hw)|]. intros port n Hp Hn _.
  assert (stack_wf (set_eph w n)) as Hw1.
  { apply stack_wf_set_socks; [done|]. destruct (iw_twf _ Hw) as [H1 H2 H3 [] H5]. by split. }
  destruct (port =? 0); [wp_step; by eapply HQ|]. wp_step. destruct (sock_at_wf _ _ _ Hw Hk) as [[] Hc].
  eapply (wp_upd_sock_wf i k); [done|exact Hk| |exact Hc|].
  - split; done.
  - intros w2 Hw2 Hk2 Hn2. wp_step. by eapply HQ.
Qed.

Lemma wp_pf_sendto_wf sock buf ip port w :
  stack_wf w → bytes_ok buf → u32_ok ip → wp (pf_sendto sock buf ip port) (fun _ w' => stack_wf w') w.
Proof.
  intros Hw Hb Hip. unfold pf_sendto. wp_step. apply wp_sock_get_wf; [done|by wp_step|]. intros k Hk.
  wp_step. eapply wp_get_sock; [done|]. destruct (_ || _); [by wp_step|].
  destruct (Z.ltb_spec (PKT_BUF_SIZE - PKT_TX_HEADROOM) (zlen buf)); [by wp_step|]. wp_step.
  eapply wp_sock_autobind_wf; [done|done|]. intros b w1 k1 Hw1 Hk1 _ _. destruct b; cbn [negb]; [|by wp_step].
  wp_step. eapply wp_lift; [apply pkt_reserve_tx|]. wp_step.
  destruct (tx_append_ok buf Hb) as (p & Hp & Hwf & _ & Hd & Hl); [done|].
  assert (∀ q, pkt_wf q → p_data q = PKT_TX_HEADROOM → p_len q ≤ PKT_BUF_SIZE - PKT_TX_HEADROOM →
    wp (s ← get_sock (Z.to_nat sock); udp_output (sk_local_ip s) (sk_local_port s) ip port q)
      (fun _ w' => stack_wf w') w1) as Hout.
  { intros q Hq Hqd Hql. wp_step. eapply wp_get_sock; [done|]. destruct (sock_at_wf _ _ _ Hw1 Hk1) as [[] _].
    eapply wp_mono; [apply wp_udp_output; [apply Hw1|done|done|done|rewrite Hqd; done|done]|].
    intros rc w2 (E2 & Hn2 & _). eapply ip_wf_icmp; [exact Hw1|frame|done]. }
  destruct (_ =? 0).
  - wp_step. apply Hout; [apply tx_pkt_wf|done|done].
  - eapply wp_lift; [exact Hp|]. apply Hout; [done|done|lia].
Qed.

(** Reading the clock. *)
Definition set_now (now : Z) : PF () := modify (set_field w_now (fun _ => now)).

Lemma stack_wf_now w now : stack_wf w → stack_wf (w <| w_now := now |>).
Proof. intros [[[] ? ?] ? ?]. by split. Qed.
