(* ===== verification/Text.v ===== *)
(** * Text

    Models [core/log.c]: log lines, addresses to text and back, and the hex
    dump. A C string is the list of its characters before the
    terminating NUL. The conversions of [printf] and [scanf] the source uses
    are modelled from the C standard; what [%u] of [scanf] stores for a
    numeral that does not fit is left open by the standard and is the
    parameter [conv]. *)

From S2P Require Import Prelude Pf Headers.
From Stdlib Require Import Ascii.

(** ** Characters *)

Definition char (c : ascii) : Z := Z.of_N (N_of_ascii c).
Definition str (s : string) : bytes := char <$> String.list_ascii_of_string s.

Definition DOT : Z := 46.
Definition COLON : Z := 58.

Definition is_digit (c : Z) : bool := (48 <=? c) && (c <=? 57).

(** [isspace] in the C locale. *)
Definition is_space (c : Z) : bool := (c =? 32) || (9 <=? c) && (c <=? 13).

(** ** Output conversions *)

(** [%u] and [%llu]: 20 digits are enough for 64 bits. *)
Fixpoint dec_digits (fuel : nat) (n : Z) : bytes :=
  match fuel with
  | O => []
  | S fuel => if n <? 10 then [48 + n] else dec_digits fuel (n / 10) ++ [48 + n mod 10]
  end.
Definition fmt_u (n : Z) : bytes := dec_digits 20 n.

Definition hexdigit (n : Z) : Z := if n <? 10 then 48 + n else 87 + n.

(** [%02x] of a byte. *)
Definition fmt_02x (b : Z) : bytes := [hexdigit (b / 16); hexdigit (b mod 16)].

(** [%x] of a [size_t], and with the zero padding of [%04zx]. *)
Fixpoint hex_digits (fuel : nat) (n : Z) : bytes :=
  match fuel with
  | O => []
  | S fuel => if n <? 16 then [hexdigit n] else hex_digits fuel (n / 16) ++ [hexdigit (n mod 16)]
  end.
Definition fmt_04zx (n : Z) : bytes :=
  let ds := hex_digits 16 n in replicate (4 - length ds) 48 ++ ds.

(** [%-ns]: left-justified in a field of [n] characters. *)
Definition fmt_pad (n : nat) (s : bytes) : bytes := s ++ replicate (n - length s) 32.

(** [snprintf(buf, n, ...)]: the text left in [buf]. *)
Definition snprintf (n : nat) (s : bytes) : bytes := take (n - 1) s.

(** ** Log lines *)

Inductive pf_log_level := PF_LOG_ERR | PF_LOG_WARN | PF_LOG_INFO | PF_LOG_DEBUG.

(** The value of the enumeration constant. *)
Definition log_num (l : pf_log_level) : nat :=
  match l with PF_LOG_ERR => 0 | PF_LOG_WARN => 1 | PF_LOG_INFO => 2 | PF_LOG_DEBUG => 3 end.

(** The initial value of [pf_log_threshold]. *)
Definition pf_log_threshold : pf_log_level := PF_LOG_INFO.

Definition level_tag : list bytes := [str "ERR "; str "WARN"; str "INFO"; str "DBG "].

(** [pf_logf]: [msg] is the message with its conversions made, [err] what
    standard error holds; the threshold is the global. *)
Definition pf_logf (threshold lvl : pf_log_level) (msg err : bytes) : result bytes :=
  if (log_num threshold <? log_num lvl)%nat then Ok err
  else
    tag ← in_bounds (level_tag !! log_num lvl);
    Ok (err ++ str "[" ++ tag ++ str "] " ++ msg ++ [10]).

(** [pf_panic]: the line it leaves, and the abort. *)
Definition pf_panic (msg err : bytes) : bytes * result () :=
  (err ++ str "[PANIC] " ++ msg ++ [10], Err AssertFailed).

(** ** Addresses *)

Definition pf_ip4_str (ip : Z) : bytes :=
  snprintf 16
    (fmt_u (Z.land (Z.shiftr ip 24) 0xff) ++ [DOT] ++ fmt_u (Z.land (Z.shiftr ip 16) 0xff) ++ [DOT] ++
     fmt_u (Z.land (Z.shiftr ip 8) 0xff) ++ [DOT] ++ fmt_u (Z.land ip 0xff)).

Definition pf_mac_str (mac : bytes) : bytes :=
  snprintf 18
    (fmt_02x (nth 0 mac 0) ++ [COLON] ++ fmt_02x (nth 1 mac 0) ++ [COLON] ++ fmt_02x (nth 2 mac 0) ++ [COLON] ++
     fmt_02x (nth 3 mac 0) ++ [COLON] ++ fmt_02x (nth 4 mac 0) ++ [COLON] ++ fmt_02x (nth 5 mac 0)).

(** ** Input conversions *)

(** The longest run of digits: its value and what follows it. *)
Fixpoint scan_digits (acc : Z) (s : bytes) : Z * bytes :=
  match s with
  | c :: s' => if is_digit c then scan_digits (10 * acc + (c - 48)) s' else (acc, s)
  | [] => (acc, [])
  end.

Fixpoint skip_space (s : bytes) : bytes :=
  match s with
  | c :: s' => if is_space c then skip_space s' else s
  | [] => []
  end.

(** An optional sign; the flag is set for a minus. *)
Definition scan_sign (s : bytes) : bool * bytes :=
  match s with
  | c :: s' => if c =? 45 then (true, s') else if c =? 43 then (false, s') else (false, s)
  | [] => (false, [])
  end.

(** A literal character of the format. *)
Definition scan_lit (c : Z) (s : bytes) : option bytes :=
  match s with
  | c' :: s' => if c' =? c then Some s' else None
  | [] => None
  end.

Section scan.
Context (conv : bool → Z → Z).

(** [%u]: blanks, an optional sign, at least one digit. *)
Definition scan_u (s : bytes) : option (Z * bytes) :=
  let '(neg, s) := scan_sign (skip_space s) in
  match s with
  | c :: _ => if is_digit c then let '(n, s) := scan_digits 0 s in Some (conv neg n, s) else None
  | [] => None
  end.

(** [sscanf(s, "%u.%u.%u.%u%c", ...)] returns 4 exactly when the four numbers
    are read and no character is left for [%c]. *)
Definition pf_ip4_parse (s : bytes) : option Z :=
  '(a, s) ← scan_u s; s ← scan_lit DOT s;
  '(b, s) ← scan_u s; s ← scan_lit DOT s;
  '(c, s) ← scan_u s; s ← scan_lit DOT s;
  '(d, s) ← scan_u s;
  match s with
  | [] =>
      if (255 <? a) || (255 <? b) || (255 <? c) || (255 <? d) then None
      else Some (Z.lor (Z.lor (Z.lor (u32 (Z.shiftl a 24)) (u32 (Z.shiftl b 16))) (u32 (Z.shiftl c 8))) d)
  | _ :: _ => None
  end.
End scan.

(** What the source relies on: a numeral without sign that fits an
    [unsigned] is read as its value, and an [unsigned] is stored. *)
Class ScanConv (conv : bool → Z → Z) : Prop := {
  conv_fits n : 0 ≤ n < 2 ^ 32 → conv false n = n;
  conv_range neg n : 0 ≤ conv neg n < 2 ^ 32;
}.

(** The C library of the target: [strtoul] saturates at 64 bits and negates
    modulo 2^64, the low 32 bits are stored. *)
Definition glibc_conv (neg : bool) (n : Z) : Z :=
  u32 (if 2 ^ 64 <=? n then 2 ^ 64 - 1 else if neg then u64 (- n) else n).

(** ** The hex dump *)

(** One column of a row: the byte, or blanks beyond the end. *)
Definition hex_cell (p : bytes) (off i : nat) : bytes :=
  (match p !! (off + i)%nat with Some b => fmt_02x b ++ [32] | None => [32; 32; 32] end) ++
  (if (i =? 7)%nat then [32] else []).

Definition ascii_cell (b : Z) : Z := if (32 <=? b) && (b <? 127) then b else DOT.

Definition hex_row (p : bytes) (off : nat) : bytes :=
  [32; 32] ++ fmt_04zx (Z.of_nat off) ++ [32; 32] ++ concat (hex_cell p off <$> seq 0 16) ++
  [32; 124] ++ (ascii_cell <$> take 16 (drop off p)) ++ [124; 10].

(** [for (off = 0; off < len; off += 16)]: what is printed. *)
Fixpoint hexdump_rows (fuel : nat) (p : bytes) (off : nat) : bytes :=
  match fuel with
  | O => []
  | S fuel => if (off <? length p)%nat then hex_row p off ++ hexdump_rows fuel p (off + 16) else []
  end.
Definition pf_hexdump (p : bytes) : bytes := hexdump_rows (length p) p 0.

(** ** Logging *)

(** Logging stays inside the table of tags and appends one line exactly for
    the levels up to the threshold. *)
Lemma pf_logf_line threshold lvl msg err :
  ∃ out, pf_logf threshold lvl msg err = Ok (err ++ out) ∧
    (if (log_num lvl <=? log_num threshold)%nat
     then ∃ tag, length tag = 4%nat ∧ out = str "[" ++ tag ++ str "] " ++ msg ++ [10] else out = []).
Proof.
  unfold pf_logf. destruct (Nat.ltb_spec (log_num threshold) (log_num lvl)) as [H|H].
  - exists []. rewrite app_nil_r, (proj2 (Nat.leb_gt _ _)) by lia. done.
  - rewrite (proj2 (Nat.leb_le _ _)) by lia. destruct lvl; (eexists; split; [done|]; eexists; split; [|done]; done).
Qed.

(** ** Decimal numerals *)

Lemma is_digit_dec n : 0 ≤ n < 10 → is_digit (48 + n) = true.
Proof. intros Hn. unfold is_digit. apply andb_true_iff. split; apply Z.leb_le; lia. Qed.

(** Reading back the digits of [n] continues with [n] accumulated. *)
Lemma scan_dec_digits fuel n rest :
  0 ≤ n < 10 ^ Z.of_nat fuel → scan_digits 0 (dec_digits fuel n ++ rest) = scan_digits n rest.
Proof.
  revert n rest. induction fuel as [|fuel IH]; intros n rest Hn; [cbn in Hn; by replace n with 0 by lia|].
  cbn [dec_digits]. rewrite Nat2Z.inj_succ, Z.pow_succ_r in Hn by lia. destruct (Z.ltb_spec n 10).
  - cbn [app scan_digits]. rewrite is_digit_dec by lia. f_equal. lia.
  - rewrite <- app_assoc, IH by wrap_lia. cbn [app scan_digits].
    rewrite is_digit_dec by wrap_lia. f_equal. wrap_lia.
Qed.

Lemma length_dec_digits fuel k n :
  (k ≤ fuel)%nat → (0 < k)%nat → 0 ≤ n < 10 ^ Z.of_nat k → (length (dec_digits fuel n) ≤ k)%nat.
Proof.
  revert k n. induction fuel as [|fuel IH]; intros k n Hk Hk0 Hn; [cbn; lia|]. cbn [dec_digits].
  destruct (Z.ltb_spec n 10); [cbn; lia|]. destruct k as [|k]; [lia|].
  rewrite Nat2Z.inj_succ, Z.pow_succ_r in Hn by lia. destruct k as [|k]; [cbn in Hn; lia|].
  rewrite length_app. cbn [length]. enough (length (dec_digits fuel (n / 10)) ≤ S k)%nat by lia.
  apply IH; [lia|lia|wrap_lia].
Qed.

Lemma dec_digits_head fuel n :
  (0 < fuel)%nat → 0 ≤ n → ∃ c s, dec_digits fuel n = c :: s ∧ is_digit c = true.
Proof.
  revert n. induction fuel as [|fuel IH]; intros n Hf Hn; [lia|]. cbn [dec_digits].
  destruct (Z.ltb_spec n 10); [exists (48 + n), []; split; [done|by apply is_digit_dec]|].
  destruct fuel as [|fuel]; [exists (48 + n mod 10), []; split; [done|apply is_digit_dec; wrap_lia]|].
  destruct (IH (n / 10)) as (c & s & -> & Hc); [lia|wrap_lia|]. by exists c, (s ++ [48 + n mod 10]).
Qed.

Lemma is_digit_range c : is_digit c = true → 48 ≤ c ≤ 57.
Proof. unfold is_digit. intros [?%Z.leb_le ?%Z.leb_le]%andb_true_iff. lia. Qed.

(** What follows a numeral. *)
Definition no_digit (s : bytes) : Prop := ∀ c s', s = c :: s' → is_digit c = false.

Lemma scan_digits_stop n s : no_digit s → scan_digits n s = (n, s).
Proof. destruct s as [|c s]; [done|]. intros H. cbn. by rewrite (H c s eq_refl). Qed.

(** A numeral is read from its first digit on. *)
Lemma fmt_u_start n s :
  0 ≤ n → scan_sign (skip_space (fmt_u n ++ s)) = (false, fmt_u n ++ s) ∧
  ∃ c ds, fmt_u n = c :: ds ∧ is_digit c = true.
Proof.
  intros Hn. destruct (dec_digits_head 20 n) as (c & ds & E & Hc); [lia|lia|]. unfold fmt_u. rewrite E.
  split; [|eauto]. cbn [app]. pose proof (is_digit_range c Hc).
  assert (skip_space (c :: ds ++ s) = c :: ds ++ s) as ->.
  { cbn. unfold is_space. by rewrite (proj2 (Z.eqb_neq c 32)), (proj2 (Z.leb_gt c 13)), andb_false_r by lia. }
  cbn. by rewrite (proj2 (Z.eqb_neq c 45)), (proj2 (Z.eqb_neq c 43)) by lia.
Qed.

Lemma scan_fmt_u n s : 0 ≤ n < 2 ^ 32 → no_digit s → scan_digits 0 (fmt_u n ++ s) = (n, s).
Proof. intros Hn Hs. unfold fmt_u. rewrite scan_dec_digits by lia. by apply scan_digits_stop. Qed.

Section parse.
Context (conv : bool → Z → Z) `{!ScanConv conv}.

Lemma scan_u_fmt n s : 0 ≤ n < 2 ^ 32 → no_digit s → scan_u conv (fmt_u n ++ s) = Some (n, s).
Proof.
  intros Hn Hs. destruct (fmt_u_start n s) as [E (c & ds & Ec & Hc)]; [lia|].
  pose proof (scan_fmt_u n s Hn Hs) as Hd. unfold scan_u. rewrite E, Ec in *. cbn [app] in *.
  by rewrite Hc, Hd, conv_fits.
Qed.

Lemma scan_u_range s n s' : scan_u conv s = Some (n, s') → 0 ≤ n < 2 ^ 32.
Proof.
  unfold scan_u. destruct (scan_sign _) as [neg [|c s1]]; [done|]. destruct (is_digit c); [|done].
  destruct (scan_digits 0 _). intros [= <- _]. apply conv_range.
Qed.

Lemma parse_quad a b c d :
  0 ≤ a < 256 → 0 ≤ b < 256 → 0 ≤ c < 256 → 0 ≤ d < 256 →
  pf_ip4_parse conv (fmt_u a ++ [DOT] ++ fmt_u b ++ [DOT] ++ fmt_u c ++ [DOT] ++ fmt_u d) =
    Some (a * 2 ^ 24 + b * 2 ^ 16 + c * 2 ^ 8 + d).
Proof.
  intros Ha Hb Hc Hd. unfold pf_ip4_parse.
  assert (∀ s, no_digit (DOT :: s)) as Hdot by (by intros s c' s' [= <- _]).
  cbn [app]. do 3 (rewrite scan_u_fmt by (done || lia); cbn [mbind option_bind scan_lit];
    change (DOT =? DOT) with true; cbn [mbind option_bind]).
  pose proof (scan_u_fmt d [] ltac:(lia) ltac:(done)) as Hu. rewrite app_nil_r in Hu. rewrite Hu.
  cbn [mbind option_bind].
  rewrite !(proj2 (Z.ltb_ge 255 _)) by lia. cbn [orb]. f_equal.
  change (pf_get_be32 a b c d = a * 2 ^ 24 + b * 2 ^ 16 + c * 2 ^ 8 + d). rewrite pf_get_be32_eq by done. lia.
Qed.

Lemma parse_range s ip : pf_ip4_parse conv s = Some ip → 0 ≤ ip < 2 ^ 32.
Proof.
  unfold pf_ip4_parse. intros H.
  repeat match type of H with
  | (?o ≫= _) = _ => let E := fresh "E" in destruct o as [?|] eqn:E; [|done]; cbn [mbind option_bind] in H
  | (let '(_, _) := ?x in _) = _ => destruct x
  end.
  match type of H with match ?s with _ => _ end = _ => destruct s; [|done] end.
  destruct (_ || _) eqn:Hb; [done|]. injection H as <-. rewrite !orb_false_iff, !Z.ltb_ge in Hb.
  repeat match goal with E : scan_u conv _ = Some (?n, _) |- _ => apply scan_u_range in E end.
  destruct Hb as (((? & ?) & ?) & ?).
  match goal with |- _ ≤ Z.lor (Z.lor (Z.lor (u32 (Z.shiftl ?a 24)) (u32 (Z.shiftl ?b 16))) (u32 (Z.shiftl ?c 8))) ?d < _ =>
    change (0 ≤ pf_get_be32 a b c d < 2 ^ 32) end.
  rewrite pf_get_be32_eq by wrap_lia. lia.
Qed.
End parse.

(** ** Address text *)

(** The four numbers of an address. *)
Lemma ip4_quad ip :
  u32_ok ip →
  ∃ a b c d, 0 ≤ a < 256 ∧ 0 ≤ b < 256 ∧ 0 ≤ c < 256 ∧ 0 ≤ d < 256 ∧
    ip = a * 2 ^ 24 + b * 2 ^ 16 + c * 2 ^ 8 + d ∧
    pf_ip4_str ip = fmt_u a ++ [DOT] ++ fmt_u b ++ [DOT] ++ fmt_u c ++ [DOT] ++ fmt_u d.
Proof.
  intros Hip.
  exists (ip / 2 ^ 24), (ip / 2 ^ 16 mod 256), (ip / 2 ^ 8 mod 256), (ip mod 256).
  split_and!; try wrap_lia. unfold pf_ip4_str, snprintf. rewrite !land_ff, !shiftr_div by lia.
  rewrite (Z.mod_small (ip / 2 ^ 24)) by wrap_lia. apply take_ge.
  assert (∀ n, 0 ≤ n < 256 → (length (fmt_u n) ≤ 3)%nat) as Hl by (intros; apply length_dec_digits; lia).
  rewrite !length_app. cbn [length].
  pose proof (Hl (ip / 2 ^ 24) ltac:(wrap_lia)). pose proof (Hl (ip / 2 ^ 16 mod 256) ltac:(wrap_lia)).
  pose proof (Hl (ip / 2 ^ 8 mod 256) ltac:(wrap_lia)). pose proof (Hl (ip mod 256) ltac:(wrap_lia)). lia.
Qed.

Lemma parse_ip4_str conv ip : ScanConv conv → u32_ok ip → pf_ip4_parse conv (pf_ip4_str ip) = Some ip.
Proof.
  intros Hc Hip. destruct (ip4_quad ip Hip) as (a & b & c & d & Ha & Hb & Hcc & Hd & -> & ->).
  by apply parse_quad.
Qed.

Lemma dec_digits_digits fuel n : 0 ≤ n → Forall (fun c => is_digit c = true) (dec_digits fuel n).
Proof.
  revert n. induction fuel as [|fuel IH]; intros n Hn; cbn [dec_digits]; [done|].
  destruct (Z.ltb_spec n 10); [apply Forall_singleton, is_digit_dec; lia|].
  apply Forall_app_2; [apply IH; wrap_lia|]. apply Forall_singleton, is_digit_dec. wrap_lia.
Qed.

(** The text of an address: digits and dots, with a digit at the end. *)
Lemma ip4_str_chars ip :
  u32_ok ip →
  Forall (fun c => is_digit c = true ∨ c = DOT) (pf_ip4_str ip) ∧
  ∃ s c, pf_ip4_str ip = s ++ [c] ∧ is_digit c = true.
Proof.
  intros Hip. destruct (ip4_quad ip Hip) as (a & b & c & d & Ha & Hb & Hc & Hd & _ & ->).
  assert (∀ n, 0 ≤ n → Forall (fun c => is_digit c = true ∨ c = DOT) (fmt_u n)) as Hf.
  { intros n Hn. eapply Forall_impl; [by apply dec_digits_digits|]. by left. }
  split.
  - repeat (apply Forall_app_2; [apply Hf; lia|]; apply Forall_app_2; [apply Forall_singleton; by right|]).
    apply Hf. lia.
  - destruct (dec_digits_head 20 d) as (x & s & E & _); [lia|lia|].
    pose proof (dec_digits_digits 20 d ltac:(lia)) as Hds. fold (fmt_u d) in *. rewrite E in *.
    destruct (@exists_last _ (x :: s) ltac:(discriminate)) as (s' & y & Es). rewrite Es in *.
    apply Forall_app in Hds as [_ Hy]. apply (proj1 (Forall_singleton _ _)) in Hy.
    exists (fmt_u a ++ [DOT] ++ fmt_u b ++ [DOT] ++ fmt_u c ++ [DOT] ++ s'), y. split; [|exact Hy].
    by rewrite <- !app_assoc.
Qed.

Lemma hexdigit_inj a b : 0 ≤ a < 16 → 0 ≤ b < 16 → hexdigit a = hexdigit b → a = b.
Proof. unfold hexdigit. intros Ha Hb. destruct (Z.ltb_spec a 10), (Z.ltb_spec b 10); lia. Qed.

Lemma fmt_02x_inj a b : byte_ok a → byte_ok b → fmt_02x a = fmt_02x b → a = b.
Proof.
  unfold fmt_02x. intros Ha Hb [= H1%hexdigit_inj H2%hexdigit_inj]; wrap_lia.
Qed.

(** The text of a hardware address determines it. *)
Lemma pf_mac_str_inj m m' :
  length m = 6%nat → length m' = 6%nat → bytes_ok m → bytes_ok m' → pf_mac_str m = pf_mac_str m' → m = m'.
Proof.
  intros Hm Hm' Hb Hb' H. do 7 (destruct m as [|? m]; try discriminate Hm).
  do 7 (destruct m' as [|? m']; try discriminate Hm').
  repeat match goal with H : Forall _ (_ :: _) |- _ => apply Forall_cons in H as [? H] end.
  injection H as A1 A2 B1 B2 C1 C2 D1 D2 E1 E2 F1 F2.
  repeat f_equal; apply fmt_02x_inj; try done; unfold fmt_02x; congruence.
Qed.

(** ** The hex dump *)

Lemma length_hex_cell p off i : length (hex_cell p off i) = (3 + if (i =? 7)%nat then 1 else 0)%nat.
Proof. unfold hex_cell. destruct (p !! _), (i =? 7)%nat; reflexivity. Qed.

Lemma length_hex_cells p off n :
  length (concat (hex_cell p off <$> seq 0 n)) = (3 * n + if (7 <? n)%nat then 1 else 0)%nat.
Proof.
  induction n as [|n IH]; [done|]. rewrite seq_S, fmap_app, concat_app, length_app, IH.
  cbn [Nat.add fmap list_fmap concat]. rewrite app_nil_r, length_hex_cell.
  destruct (Nat.eqb_spec n 7), (Nat.ltb_spec 7 n), (Nat.ltb_spec 7 (S n)); lia.
Qed.

Lemma length_fmt_04zx n : 0 ≤ n < 65536 → length (fmt_04zx n) = 4%nat.
Proof.
  intros Hn. unfold fmt_04zx. cbn [hex_digits].
  repeat (case_match; [rewrite ?length_app, ?length_replicate, ?length_app; cbn [length]; lia|]);
  repeat match goal with H : (_ <? _) = false |- _ => apply Z.ltb_ge in H end; wrap_lia.
Qed.

(** Row [off] of a dump shows byte [off + i] in its column. *)
Lemma hex_row_column p off i b :
  p !! (off + i)%nat = Some b → (i < 16)%nat → Z.of_nat off < 65536 →
  take 2 (drop (8 + 3 * i + if (7 <? i)%nat then 1 else 0) (hex_row p off)) = fmt_02x b.
Proof.
  intros Hb Hi Ho. assert (seq 0 16 = seq 0 i ++ i :: seq (S i) (15 - i)) as Hs.
  { replace 16%nat with (i + S (15 - i))%nat by lia. by rewrite seq_app. }
  unfold hex_row. rewrite Hs, fmap_app, concat_app. cbn [fmap list_fmap concat].
  rewrite <- !app_assoc.
  rewrite (app_assoc [32; 32] (fmt_04zx _)), (app_assoc _ [32; 32]), (app_assoc _ (concat (_ <$> seq 0 i))).
  rewrite drop_app_length'.
  - unfold hex_cell at 1. rewrite Hb. reflexivity.
  - rewrite length_app, length_hex_cells, !length_app, length_fmt_04zx by lia. cbn [length]. lia.
Qed.

(** ** Properties *)

(** Printing an address and parsing the text gives the address back. The
    text is the four bytes in decimal, separated by dots, and is never cut by
    the 16-byte buffer; whatever text is parsed, the result is a 32-bit
    address. This holds for every C library that reads fitting numerals as
    their value. *)
Theorem ip4_text_roundtrip conv ip :
  ScanConv conv → u32_ok ip →
  pf_ip4_parse conv (pf_ip4_str ip) = Some ip ∧
  (∃ a b c d, 0 ≤ a < 256 ∧ 0 ≤ b < 256 ∧ 0 ≤ c < 256 ∧ 0 ≤ d < 256 ∧ ip = a * 2 ^ 24 + b * 2 ^ 16 + c * 2 ^ 8 + d ∧
     pf_ip4_str ip = fmt_u a ++ [DOT] ++ fmt_u b ++ [DOT] ++ fmt_u c ++ [DOT] ++ fmt_u d) ∧
  ∀ s ip', pf_ip4_parse conv s = Some ip' → u32_ok ip'.
Proof.
  intros Hc Hip. split_and!.
  - by apply parse_ip4_str.
  - by apply ip4_quad.
  - intros s ip'. by apply parse_range.
Qed.

#[export] Instance glibc_scan : ScanConv glibc_conv.
Proof.
  split.
  - intros n Hn. unfold glibc_conv. rewrite (proj2 (Z.leb_gt _ _)) by lia. wrap_lia.
  - intros neg n. unfold glibc_conv. wrap_lia.
Qed.

Lemma ip4_text_roundtrip_witness :
  pf_ip4_parse glibc_conv (str "10.1.0.2") = Some 0x0a010002 ∧
  pf_ip4_parse glibc_conv (pf_ip4_str 0xc0a80101) = Some 0xc0a80101.
Proof.
  split; [by vm_compute|]. apply (ip4_text_roundtrip glibc_conv 0xc0a80101); [apply glibc_scan|lia].
Defined.

(** Blanks and signs inside an address are accepted, and with the target's C
    library so is a numeral that only fits modulo 2^32. *)
Lemma ip4_parse_lenient :
  pf_ip4_parse glibc_conv (str " 10. 1.+0.-4294967294") = Some 0x0a010002 ∧
  pf_ip4_parse glibc_conv (str "4294967306.1.0.2") = Some 0x0a010002.
Proof. by vm_compute. Qed.
