(* ===== verification/Cli.v ===== *)
(** * The command line

    Models [cli/cli.c]: the table of clients, the line assembly of
    [cli_client_input], the dispatcher and the commands. What a system call
    returns is an argument: the descriptor of [accept], the bytes of [read].
    The text written to a descriptor and the descriptors closed are recorded.
    A [char] array that holds a line is the list of its first [len]
    characters. *)

From S2P Require Import Prelude Pf Checksum Pkt Fib Headers Stats Stack Link Arp IpOut Icmp Reass Sock.
From S2P Require Import Udp Tcb TcpOut Tcp TcpInput TcpTimer Fwd Input Core Text.
Import Checksum Pkt Fib Stats.

(** ** State *)

Definition CLI_MAX_CLIENTS : nat := 4.
Definition CLI_LINE_MAX : Z := 256.
Definition CLI_PROMPT : bytes := str "pf> ".

(** [cc_line] is [line[0..len)]. *)
Record cli_client := mk_client { cc_fd : Z; cc_line : bytes }.
#[export] Instance eta_client : Eta cli_client := fun c => mk_client (cc_fd c) (cc_line c).

Record cli_server := mk_cli { cs_listen_fd : Z; cs_path : bytes; cs_clients : list cli_client }.
#[export] Instance eta_cli : Eta cli_server := fun c => mk_cli (cs_listen_fd c) (cs_path c) (cs_clients c).

(** The stack with [stack->cli], the text written and the descriptors closed. *)
Record cliw := mk_cliw {
  cw_world : world; cw_cli : option cli_server; cw_out : list (Z * bytes); cw_closed : list Z;
}.
#[export] Instance eta_cliw : Eta cliw := fun w =>
  mk_cliw (cw_world w) (cw_cli w) (cw_out w) (cw_closed w).

Abbreviation CL := (M cliw).

(** Running stack code. *)
Definition on_stack {A} (m : PF A) : CL A := fun w =>
  match m (cw_world w) with
  | Ok (a, w') => Ok (a, w <| cw_world := w' |>)
  | Err e => Err e
  end.

(** Dereferencing [stack->cli], and one of its clients. *)
Definition get_cli : CL cli_server := c ← gets cw_cli; lift (in_bounds c).
Definition set_cli (c : option cli_server) : CL () := modify (set_field cw_cli (fun _ => c)).
Definition get_client (slot : nat) : CL cli_client :=
  c ← get_cli; lift (in_bounds (cs_clients c !! slot)).
Definition upd_client (slot : nat) (f : cli_client → cli_client) : CL () :=
  _ ← get_client slot;
  c ← get_cli; set_cli (Some (c <| cs_clients ::= alter f slot |>)).

Definition os_write (fd : Z) (s : bytes) : CL () := modify (set_field cw_out (fun o => o ++ [(fd, s)])).
Definition os_close (fd : Z) : CL () := modify (set_field cw_closed (fun l => l ++ [fd])).

(** ** Output *)

Definition NL : Z := 10.

(** The bytes of [buf[0..min(n, 1024))] after [vsnprintf] of [s]. *)
Definition cli_text (s : bytes) : bytes := if zlen s <? 1024 then s else take 1023 s ++ [0].

Definition cli_printf (fd : Z) (s : bytes) : CL () :=
  if 0 <? zlen s then os_write fd (cli_text s) else mret ().

(** ** Opening and closing *)

(** [sock] is what [socket] returns, [ok] whether [bind] and [listen] succeed. *)
Definition cli_open (sock : Z) (ok : bool) (path : bytes) : CL Z :=
  if sock <? 0 then mret (-1)
  else if negb ok then os_close sock;; mret (-1)
  else
    set_cli (Some (mk_cli sock (snprintf 108 path) (replicate CLI_MAX_CLIENTS (mk_client (-1) []))));;
    mret 0.

Definition cli_close : CL () :=
  c ← gets cw_cli;
  match c with
  | None => mret ()
  | Some c =>
      for_each (cs_clients c) (fun cl => if 0 <=? cc_fd cl then os_close (cc_fd cl) else mret ());;
      os_close (cs_listen_fd c);;
      set_cli None
  end.

Definition cli_listen_fd (c : option cli_server) : Z :=
  match c with Some c => cs_listen_fd c | None => -1 end.

Definition cli_client_fd (c : option cli_server) (slot : nat) : result Z :=
  match c with
  | Some c => cl ← in_bounds (cs_clients c !! slot); Ok (cc_fd cl)
  | None => Ok (-1)
  end.

(** The first free slot takes the connection; [fd] is what [accept] returns. *)
Definition client_free (cl : cli_client) : Prop := cc_fd cl < 0.
#[global] Instance client_free_dec cl : Decision (client_free cl).
Proof. unfold client_free. apply _. Defined.

Definition cli_accept (fd : Z) : CL () :=
  c ← get_cli;
  if fd <? 0 then mret ()
  else
    match list_find client_free (cs_clients c) with
    | Some (i, _) =>
        upd_client i (fun _ => mk_client fd []);;
        cli_printf fd (str "PacketForge CLI — type 'help'" ++ [NL] ++ CLI_PROMPT)
    | None => os_close fd
    end.

(** ** Commands *)

Definition tcp_state_name (s : tcp_state) : bytes :=
  str match s with
      | TCP_CLOSED => "CLOSED" | TCP_LISTEN => "LISTEN" | TCP_SYN_SENT => "SYNSENT"
      | TCP_SYN_RCVD => "SYNRCVD" | TCP_ESTABLISHED => "ESTAB" | TCP_FIN_WAIT_1 => "FINWAIT1"
      | TCP_FIN_WAIT_2 => "FINWAIT2" | TCP_CLOSE_WAIT => "CLOSEWAIT" | TCP_CLOSING => "CLOSING"
      | TCP_LAST_ACK => "LASTACK" | TCP_TIME_WAIT => "TIMEWAIT"
      end.

Definition cmd_show_interfaces (fd : Z) : CL () :=
  w ← gets cw_world;
  for_each (devs w) (fun d =>
    cli_printf fd (str (nd_name d) ++ str " is up, line protocol is up" ++ [NL]);;
    cli_printf fd (str "  Hardware address " ++ pf_mac_str (nd_mac d) ++ str ", MTU " ++ fmt_u (nd_mtu d) ++ [NL]);;
    when (negb (nd_ip d =? 0))
      (cli_printf fd (str "  Internet address " ++ pf_ip4_str (nd_ip d) ++ str ", mask " ++
                      pf_ip4_str (nd_mask d) ++ [NL]));;
    cli_printf fd (str "  " ++ fmt_u (rx_pkts (nd_st d)) ++ str " packets input, " ++ fmt_u (rx_bytes (nd_st d)) ++
                   str " bytes, " ++ fmt_u (rx_drops (nd_st d)) ++ str " drops" ++ [NL]);;
    cli_printf fd (str "  " ++ fmt_u (tx_pkts (nd_st d)) ++ str " packets output, " ++ fmt_u (tx_bytes (nd_st d)) ++
                   str " bytes, " ++ fmt_u (tx_errs (nd_st d)) ++ str " errors" ++ [NL])).

(** [e->dev->name] is read through the pointer. *)
Definition print_route (fd : Z) (e : fib_entry) : CL () :=
  w ← gets cw_world;
  d ← lift (in_bounds (fe_dev e));
  nd ← lift (in_bounds (devs w !! d));
  cli_printf fd
    (if fe_connected e
     then str "C    " ++ pf_ip4_str (fe_prefix e) ++ str "/" ++ fmt_u (fe_plen e) ++
          str " is directly connected, " ++ str (nd_name nd) ++ [NL]
     else str "S    " ++ pf_ip4_str (fe_prefix e) ++ str "/" ++ fmt_u (fe_plen e) ++ str " via " ++
          pf_ip4_str (fe_next_hop e) ++ str ", " ++ str (nd_name nd) ++ [NL]).

Definition cmd_show_ip_route (fd : Z) : CL () :=
  cli_printf fd (str "Codes: C - connected, S - static" ++ [NL]);;
  w ← gets cw_world;
  for_each (fib_walk (ps_fib (w_stack w))) (print_route fd).

Definition cmd_show_ip_traffic (fd : Z) : CL () :=
  w ← gets cw_world;
  for_each (seq 0 (Z.to_nat pf_stats_count)) (fun i =>
    name ← lift (pf_stats_name i);
    v ← lift (pf_stats_get (ps_stats (w_stack w)) i);
    cli_printf fd (str "  " ++ fmt_pad 28 (str name) ++ str " " ++ fmt_u v ++ [NL])).

Definition cmd_show_tcp_brief (fd : Z) : CL () :=
  cli_printf fd (fmt_pad 22 (str "Local Address") ++ str " " ++ fmt_pad 22 (str "Foreign Address") ++ str " " ++
                 str "(state)" ++ [NL]);;
  w ← gets cw_world;
  for_each (tcbs w) (fun t =>
    if negb (tc_active t) then mret ()
    else
      cli_printf fd (fmt_pad 15 (pf_ip4_str (tc_local_ip t)) ++ str ":" ++ fmt_pad 6 (fmt_u (tc_local_port t)) ++
                     str " " ++ fmt_pad 15 (pf_ip4_str (tc_remote_ip t)) ++ str ":" ++
                     fmt_pad 6 (fmt_u (tc_remote_port t)) ++ str " " ++ tcp_state_name (tc_state t) ++ [NL])).

Definition cmd_show_arp (fd : Z) : CL () :=
  cli_printf fd (fmt_pad 16 (str "Address") ++ str " " ++ fmt_pad 18 (str "Hardware Addr") ++ str " " ++
                 fmt_pad 10 (str "State") ++ str " " ++ str "Interface" ++ [NL]);;
  w ← gets cw_world;
  for_each (arpc w) (fun e =>
    if decide (ae_state e = ARP_FREE) then mret ()
    else
      let resolved := bool_decide (ae_state e = ARP_RESOLVED) in
      name ← match ae_dev e with
             | Some d => nd ← lift (in_bounds (devs w !! d)); mret (str (nd_name nd))
             | None => mret (str "-")
             end;
      cli_printf fd (fmt_pad 16 (pf_ip4_str (ae_ip e)) ++ str " " ++
                     fmt_pad 18 (if resolved then pf_mac_str (ae_mac e) else str "incomplete") ++ str " " ++
                     fmt_pad 10 (str (if resolved then "resolved" else "pending")) ++ str " " ++ name ++ [NL])).

(** The loop [while (plen < 32 && (mask & 0x80000000u))]: [n] is [32 - plen]. *)
Fixpoint mask_loop (n : nat) (mask plen : Z) : Z * Z :=
  match n with
  | O => (mask, plen)
  | S n =>
      if Z.land mask 0x80000000 =? 0 then (mask, plen)
      else mask_loop n (u32 (Z.shiftl mask 1)) (plen + 1)
  end.

Definition mask_to_plen (mask : Z) : Z :=
  let '(mask, plen) := mask_loop 32 mask 0 in if mask =? 0 then plen else -1.

(** [strtok_r] with the delimiters blank and tab: the next token, and where
    the scan continues. *)
Definition is_blank (c : Z) : bool := (c =? 32) || (c =? 9).

Fixpoint skip_blanks (s : bytes) : bytes :=
  match s with
  | c :: s' => if is_blank c then skip_blanks s' else s
  | [] => []
  end.

Fixpoint token (s : bytes) : bytes * bytes :=
  match s with
  | c :: s' => if is_blank c then ([], s') else let '(t, r) := token s' in (c :: t, r)
  | [] => ([], [])
  end.

Definition strtok_r (s : bytes) : option bytes * bytes :=
  match skip_blanks s with
  | [] => (None, [])
  | s => let '(t, r) := token s in (Some t, r)
  end.

Section commands.
Context (conv : bool → Z → Z).

(** The arguments of a route command; [None] prints the usage. *)
Definition route_args (add : bool) (args : bytes) : option (Z * Z * Z) :=
  let '(p_s, save) := strtok_r args in
  let '(m_s, save) := strtok_r save in
  let '(n_s, _) := strtok_r save in
  prefix ← p_s ≫= pf_ip4_parse conv;
  mask ← m_s ≫= pf_ip4_parse conv;
  nh ← (if add then n_s ≫= pf_ip4_parse conv else Some 0);
  Some (prefix, mask, nh).

(** The third token as the user wrote it. *)
Definition route_nh_text (args : bytes) : bytes :=
  let '(_, save) := strtok_r args in
  let '(_, save) := strtok_r save in
  default [] (strtok_r save).1.

Definition set_fib (f : fib) : PF () := upd_stack (set_field ps_fib (fun _ => f)).

Definition cmd_ip_route (fd : Z) (args : bytes) (add : bool) : CL () :=
  match route_args add args with
  | None =>
      cli_printf fd (str "% usage: " ++ str (if add then "" else "no ") ++ str "ip route <prefix> <mask> " ++
                     str (if add then "<next-hop>" else "[next-hop]") ++ [NL])
  | Some (prefix, mask, nh) =>
      let plen := mask_to_plen mask in
      if plen <? 0 then cli_printf fd (str "% non-contiguous mask" ++ [NL])
      else
        f ← on_stack (get_stack ps_fib);
        if add then
          let '(f, rc) := fib_add_via f prefix (u8 plen) nh in
          on_stack (set_fib f);;
          when (rc <? 0) (cli_printf fd (str "% next hop " ++ route_nh_text args ++
                                         str " not reachable via a connected route" ++ [NL]))
        else
          let '(f, rc) := fib_del f prefix (u8 plen) in
          on_stack (set_fib f);;
          when (rc <? 0) (cli_printf fd (str "% no such route" ++ [NL]))
  end.

(** The line without leading blanks and without trailing line ends and
    spaces. *)
Fixpoint strip_end (s : bytes) : bytes :=
  match s with
  | [] => []
  | c :: s' =>
      match strip_end s' with
      | [] => if (c =? 13) || (c =? NL) || (c =? 32) then [] else [c]
      | s' => c :: s'
      end
  end.

Definition help_text : bytes :=
  str "  show interfaces | show ip route | show ip traffic" ++ [NL] ++
  str "  show tcp brief  | show arp" ++ [NL] ++
  str "  ip route <prefix> <mask> <next-hop>" ++ [NL] ++
  str "  no ip route <prefix> <mask>" ++ [NL] ++
  str "  exit" ++ [NL].

(** [strcmp(line, s) == 0] and [strncmp(line, s, strlen(s)) == 0]. *)
Definition is_cmd (line : bytes) (s : string) : bool := bool_decide (line = str s).
Definition has_prefix (line : bytes) (s : string) : bool := bool_decide (take (length (str s)) line = str s).

Definition cli_dispatch (fd : Z) (line : bytes) : CL () :=
  let line := strip_end (skip_blanks line) in
  if zlen line =? 0 then mret ()
  else if is_cmd line "show interfaces" || is_cmd line "show int" then cmd_show_interfaces fd
  else if is_cmd line "show ip route" then cmd_show_ip_route fd
  else if is_cmd line "show ip traffic" then cmd_show_ip_traffic fd
  else if is_cmd line "show tcp brief" then cmd_show_tcp_brief fd
  else if is_cmd line "show arp" then cmd_show_arp fd
  else if has_prefix line "ip route " then cmd_ip_route fd (drop 9 line) true
  else if has_prefix line "no ip route " then cmd_ip_route fd (drop 12 line) false
  else if is_cmd line "help" || is_cmd line "?" then cli_printf fd help_text
  else if is_cmd line "exit" || is_cmd line "quit" then cli_printf fd (str "bye" ++ [NL])
  else cli_printf fd (str "% unknown command: " ++ line ++ [NL]).

(** The C string in a line buffer ends at its first NUL. *)
Fixpoint cstr (s : bytes) : bytes :=
  match s with
  | c :: s' => if c =? 0 then [] else c :: cstr s'
  | [] => []
  end.

(** The loop over the characters read. [line[len]] is written for the
    terminating NUL as well, so an overlong line would leave the array. *)
Fixpoint client_chars (slot : nat) (fd : Z) (chars : bytes) : CL () :=
  match chars with
  | [] => mret ()
  | ch :: chars =>
      cl ← get_client slot;
      if ch =? NL then
        lift (if zlen (cc_line cl) <? CLI_LINE_MAX then Ok () else Err OutOfBounds);;
        let line := cstr (cc_line cl) in
        let is_exit := has_prefix line "exit" || has_prefix line "quit" in
        cli_dispatch fd line;;
        upd_client slot (set_field cc_line (fun _ => []));;
        if is_exit then os_close fd;; upd_client slot (set_field cc_fd (fun _ => -1))
        else cli_printf fd CLI_PROMPT;; client_chars slot fd chars
      else
        (if zlen (cc_line cl) <? CLI_LINE_MAX - 1
         then upd_client slot (set_field cc_line (fun l => l ++ [ch])) else mret ());;
        client_chars slot fd chars
  end.

(** [data] is what [read] put in the buffer, [None] when it returned 0 or
    failed. *)
Definition cli_client_input (slot : nat) (data : option bytes) : CL () :=
  cl ← get_client slot;
  let fd := cc_fd cl in
  match data with
  | None => os_close fd;; upd_client slot (set_field cc_fd (fun _ => -1))
  | Some chars => client_chars slot fd chars
  end.
End commands.

(** ** Netmasks *)

Lemma land_top_bit m : 0 ≤ m < 2 ^ 32 → (Z.land m 0x80000000 =? 0) = (m <? 2 ^ 31).
Proof.
  intros Hm. change 0x80000000 with (2 ^ 31). destruct (Z.ltb_spec m (2 ^ 31)) as [Hs|Hs].
  - apply Z.eqb_eq. apply Z.bits_inj'. intros n Hn. rewrite Z.land_spec, Z.bits_0, Z.pow2_bits_eqb by lia.
    destruct (Z.eqb_spec 31 n) as [<-|]; [|by rewrite andb_false_r].
    assert (Z.testbit m 31 = false) as ->; [|done]. apply Z.testbit_false; [lia|]. rewrite Z.div_small by lia. done.
  - apply Z.eqb_neq. intros E. assert (Z.testbit (Z.land m (2 ^ 31)) 31 = true) as Ht; [|by rewrite E in Ht].
    rewrite Z.land_spec, Z.pow2_bits_eqb by lia. rewrite Z.eqb_refl, andb_true_r.
    apply Z.testbit_true; [lia|]. replace (m / 2 ^ 31) with 1 by (Z.div_mod_to_equations; lia). done.
Qed.

Lemma plen_mask_eq p : 0 ≤ p ≤ 32 → plen_mask p = 2 ^ 32 - 2 ^ (32 - p).
Proof.
  intros Hp. assert (p ∈ Z.of_nat <$> seq 0 33) as Hin.
  { apply list_elem_of_fmap. exists (Z.to_nat p). split; [lia|]. apply list_elem_of_In, in_seq. lia. }
  revert p Hp Hin. assert (Forall (fun p => plen_mask p = 2 ^ 32 - 2 ^ (32 - p)) (Z.of_nat <$> seq 0 33)) as H.
  { repeat constructor. }
  intros p _ Hin. by eapply (proj1 (Forall_forall _ _) H).
Qed.

(** The loop shifts out leading ones. *)
Lemma mask_loop_spec n m p :
  0 ≤ m < 2 ^ 32 → (n ≤ 32)%nat →
  let '(m', p') := mask_loop n m p in
  p ≤ p' ≤ p + Z.of_nat n ∧ (m' = 0 → m = 2 ^ 32 - 2 ^ (32 - (p' - p))) ∧
  ∀ j, 0 ≤ j ≤ Z.of_nat n → m = 2 ^ 32 - 2 ^ (32 - j) → m' = 0 ∧ p' = p + j.
Proof.
  revert m p. induction n as [|n IH]; intros m p Hm Hn; cbn [mask_loop].
  - split_and!; [lia|lia|intros ->; by rewrite Z.sub_diag|]. intros j Hj ->. replace j with 0 by lia. split; [done|lia].
  - rewrite land_top_bit by done. destruct (Z.ltb_spec m (2 ^ 31)) as [Hs|Hs].
    + split_and!; [lia|lia|intros ->; by rewrite Z.sub_diag|]. intros j Hj ->.
      destruct (decide (j = 0)) as [->|]; [split; [done|lia]|]. exfalso.
      assert (2 ^ (32 - j) ≤ 2 ^ 31) by (apply Z.pow_le_mono_r; lia). lia.
    + assert (u32 (Z.shiftl m 1) = 2 * m - 2 ^ 32) as E by (rewrite shiftl_mul by lia; wrap_lia).
      specialize (IH (u32 (Z.shiftl m 1)) (p + 1) ltac:(wrap_lia) ltac:(lia)).
      destruct (mask_loop n _ _) as [m' p']. destruct IH as (H1 & H2 & H3). rewrite E in H2, H3.
      split_and!; [lia|lia| |].
      * intros H0. specialize (H2 H0). replace (32 - (p' - p)) with (32 - (p' - (p + 1)) - 1) by lia.
        assert (2 ^ (32 - (p' - (p + 1))) = 2 * 2 ^ (32 - (p' - (p + 1)) - 1)).
        { rewrite <- Z.pow_succ_r by lia. f_equal. lia. } lia.
      * intros j Hj Hjm. destruct (decide (j = 0)) as [->|Hj0]; [lia|].
        destruct (H3 (j - 1)) as [-> ->]; [lia| |lia].
        replace (32 - (j - 1)) with (Z.succ (32 - j)) by lia. rewrite Z.pow_succ_r by lia. lia.
Qed.

Lemma mask_to_plen_ok m :
  u32_ok m →
  (mask_to_plen m = -1 ∧ ∀ p, 0 ≤ p ≤ 32 → m ≠ plen_mask p) ∨
  (0 ≤ mask_to_plen m ≤ 32 ∧ m = plen_mask (mask_to_plen m)).
Proof.
  intros Hm. unfold mask_to_plen. pose proof (mask_loop_spec 32 m 0 Hm ltac:(lia)) as H.
  destruct (mask_loop 32 m 0) as [m' p']. destruct H as (H1 & H2 & H3).
  destruct (Z.eqb_spec m' 0) as [->|Hne].
  - right. split; [lia|]. rewrite plen_mask_eq by lia. rewrite Z.sub_0_r in H2. by apply H2.
  - left. split; [done|]. intros p Hp E. rewrite plen_mask_eq in E by done. by destruct (H3 p) as [? _]; [lia|done|].
Qed.

(** ** Printing *)

(** Only the text written and the descriptors closed differ. *)
Definition same (w w' : cliw) : Prop := cw_world w' = cw_world w ∧ cw_cli w' = cw_cli w.

Lemma same_refl w : same w w.
Proof. done. Qed.

Lemma same_trans w w1 w2 : same w w1 → same w1 w2 → same w w2.
Proof. intros [H1 H2] [H3 H4]. split; congruence. Qed.

Lemma wp_cli_printf fd s (Q : () → cliw → Prop) w : (∀ w', same w w' → Q () w') → wp (cli_printf fd s) Q w.
Proof. intros HQ. unfold cli_printf. destruct (0 <? zlen s); [apply wp_modify|apply wp_ret]; by apply HQ. Qed.

Lemma wp_os_close fd (Q : () → cliw → Prop) w : (∀ w', same w w' → Q () w') → wp (os_close fd) Q w.
Proof. intros HQ. apply wp_modify. by apply HQ. Qed.

(** A command that only prints, from a well-formed stack. *)
Definition prints (w0 : world) (m : CL ()) : Prop :=
  ∀ w, cw_world w = w0 → wp m (fun _ w' => same w w') w.

Lemma prints_printf w0 fd s : prints w0 (cli_printf fd s).
Proof. intros w _. by apply wp_cli_printf. Qed.

Lemma prints_ret w0 : prints w0 (mret ()).
Proof. intros w _. by apply wp_ret. Qed.

Lemma prints_then w0 m m' : prints w0 m → prints w0 m' → prints w0 (m;; m').
Proof.
  intros H H' w Hw. apply wp_bind. eapply wp_mono; [by apply H|]. intros [] w1 S1.
  eapply wp_mono; [apply H'; destruct S1; congruence|]. intros [] w2 S2. by eapply same_trans.
Qed.

Lemma prints_when w0 b m : prints w0 m → prints w0 (when b m).
Proof. intros H. destruct b; [done|apply prints_ret]. Qed.

Lemma prints_for_each {A} w0 (l : list A) body :
  (∀ x, x ∈ l → prints w0 (body x)) → prints w0 (for_each l body).
Proof.
  intros Hb. induction l as [|x l IH]; [apply prints_ret|]. cbn. apply prints_then; [apply Hb; left|].
  apply IH. intros y Hy. apply Hb. by right.
Qed.

Lemma prints_lift {A} w0 (r : result A) a m : r = Ok a → prints w0 (m a) → prints w0 (x ← lift r; m x).
Proof. intros -> H w Hw. apply wp_bind. eapply wp_lift; [done|]. by apply H. Qed.

Lemma prints_world w0 m : prints w0 (m w0) → prints w0 (w ← gets cw_world; m w).
Proof. intros H w Hw. apply wp_bind, wp_gets. rewrite Hw. by apply H. Qed.

Create HintDb prints.
#[local] Hint Resolve prints_printf prints_ret prints_then prints_when : prints.

Lemma prints_interfaces w0 fd : prints w0 (cmd_show_interfaces fd).
Proof. apply prints_world, prints_for_each. intros d _. auto 10 with prints. Qed.

Lemma prints_routes w0 fd : stack_wf w0 → prints w0 (cmd_show_ip_route fd).
Proof.
  intros Hw. apply prints_then; [auto with prints|]. apply prints_world, prints_for_each. intros e He.
  pose proof (nw_fib _ (iw_net _ Hw)) as Hf. apply elem_of_fib_walk in He as (i & Hi & Hu); [|apply Hf].
  destruct (fo_routes _ _ Hf i e Hi Hu) as (_ & d & Hd & Hlt).
  destruct (lookup_lt_is_Some_2 _ _ Hlt) as [nd Hnd].
  apply prints_world. eapply prints_lift; [by rewrite Hd|]. eapply prints_lift; [by rewrite Hnd|].
  auto with prints.
Qed.

Lemma prints_traffic w0 fd : prints w0 (cmd_show_ip_traffic fd).
Proof.
  unfold cmd_show_ip_traffic. remember pf_stats_count as n0 eqn:En.
  apply prints_world, prints_for_each. intros i [_ Hi]%list_elem_of_In%in_seq. rewrite En in Hi.
  destruct (pf_stats_name_ok i) as (n & Hn & _); [lia|].
  destruct (pf_stats_get_ok (ps_stats (w_stack w0)) i) as (v & Hv); [lia|].
  eapply prints_lift; [exact Hn|]. eapply prints_lift; [exact Hv|]. auto with prints.
Qed.

Lemma prints_tcp w0 fd : prints w0 (cmd_show_tcp_brief fd).
Proof.
  apply prints_then; [auto with prints|]. apply prints_world, prints_for_each. intros t _.
  destruct (negb _); auto with prints.
Qed.

Lemma prints_arp w0 fd : stack_wf w0 → prints w0 (cmd_show_arp fd).
Proof.
  intros Hw. apply prints_then; [auto with prints|]. apply prints_world, prints_for_each. intros e He.
  destruct (decide _) as [|Hs]; [auto with prints|]. pose proof (lw_arp _ (nw_link _ (iw_net _ Hw))) as Ha.
  destruct (aw_dev _ _ (proj1 (Forall_forall _ _) (aw_entries _ _ Ha) e He) Hs) as (d & -> & Hlt).
  destruct (lookup_lt_is_Some_2 _ _ Hlt) as [nd Hnd].
  intros w Hw0. apply wp_bind. apply wp_bind. eapply wp_lift; [by rewrite Hnd|]. apply wp_ret.
  by apply wp_cli_printf.
Qed.

(** ** Commands *)

(** The effect of a command: the stack stays well-formed, nothing of it but
    the route table changes, and neither do the clients. *)
Record cmd_step (w w' : cliw) : Prop := {
  cm_wf : stack_wf (cw_world w');
  cm_fib : ∃ f, cw_world w' = cw_world w <| w_stack ::= set_field ps_fib (fun _ => f) |>;
  cm_cli : cw_cli w' = cw_cli w;
}.

Lemma set_fib_same w : w <| w_stack ::= set_field ps_fib (fun _ => ps_fib (w_stack w)) |> = w.
Proof. by destruct w as [[] ? ?]. Qed.

Lemma cmd_step_same w w' : stack_wf (cw_world w) → same w w' → cmd_step w w'.
Proof.
  intros Hw [H1 H2]. split; [by rewrite H1| |done]. exists (ps_fib (w_stack (cw_world w))).
  by rewrite set_fib_same.
Qed.

Lemma cmd_step_then w w1 w2 : cmd_step w w1 → same w1 w2 → cmd_step w w2.
Proof. intros [H1 (f & H2) H3] [S1 S2]. split; [by rewrite S1|exists f; congruence|congruence]. Qed.

Lemma cmd_step_prints m w : stack_wf (cw_world w) → prints (cw_world w) m → wp m (fun _ w' => cmd_step w w') w.
Proof. intros Hw Hm. eapply wp_mono; [by apply Hm|]. intros [] w' ?. by apply cmd_step_same. Qed.

Lemma wp_on_stack {A} (m : PF A) (Q : A → cliw → Prop) w :
  wp m (fun a w' => Q a (w <| cw_world := w' |>)) (cw_world w) → wp (on_stack m) Q w.
Proof. unfold wp, on_stack. by destruct (m (cw_world w)) as [[]|]. Qed.

Lemma wp_on_stack_get {A} (f : pf_stack → A) (Q : A → cliw → Prop) w :
  Q (f (w_stack (cw_world w))) w → wp (on_stack (get_stack f)) Q w.
Proof. by destruct w. Qed.

Section safety.
Context (conv : bool → Z → Z) `{!ScanConv conv}.

Lemma route_args_ok add args p m nh : route_args conv add args = Some (p, m, nh) → u32_ok p ∧ u32_ok m ∧ u32_ok nh.
Proof.
  unfold route_args. intros H. destruct (strtok_r args) as [ps s1], (strtok_r s1) as [ms s2], (strtok_r s2) as [ns s3].
  destruct (ps ≫= _) as [p'|] eqn:Hp; [|done]. destruct (ms ≫= _) as [m'|] eqn:Hm; [|done].
  cbn [mbind option_bind] in H.
  assert (∀ o x, (o : option bytes) ≫= pf_ip4_parse conv = Some x → u32_ok x) as Hr.
  { intros [s|] x; [|done]. apply (parse_range conv). }
  destruct add.
  - destruct (ns ≫= _) as [n'|] eqn:Hn; [|done]. injection H as -> -> ->. split; [by eapply Hr|]. split; by eapply Hr.
  - injection H as -> -> <-. split; [by eapply Hr|]. split; [by eapply Hr|lia].
Qed.

(** Storing a new table, with whatever is printed next. *)
Lemma wp_store_fib f m w :
  stack_wf (cw_world w) → fib_ok (length (devs (cw_world w))) f → (∀ w0, prints w0 m) →
  wp (on_stack (set_fib f);; m) (fun _ w' => cmd_step w w') w.
Proof.
  intros Hw Hf Hm. apply wp_bind, wp_on_stack, wp_modify.
  set (w1 := w <| cw_world := _ |>). assert (cmd_step w w1) as H1.
  { split; [by apply stack_wf_set_fib|by exists f|done]. }
  eapply wp_mono; [by eapply Hm|]. intros [] w2 S2. by eapply cmd_step_then.
Qed.

Lemma wp_cmd_ip_route fd args add w :
  stack_wf (cw_world w) → wp (cmd_ip_route conv fd args add) (fun _ w' => cmd_step w w') w.
Proof.
  intros Hw. unfold cmd_ip_route. destruct (route_args _ _ _) as [[[p m] nh]|] eqn:Ha;
    [|apply cmd_step_prints; auto with prints].
  destruct (route_args_ok _ _ _ _ _ Ha) as (Hp & Hm & Hn).
  destruct (Z.ltb_spec (mask_to_plen m) 0); [apply cmd_step_prints; auto with prints|].
  assert (0 ≤ u8 (mask_to_plen m) ≤ 32) as Hl.
  { destruct (mask_to_plen_ok m Hm) as [[E _]|[? _]]; [lia|]. rewrite u8_small; lia. }
  apply wp_bind, wp_on_stack_get. pose proof (nw_fib _ (iw_net _ Hw)) as Hf. destruct add.
  - pose proof (fib_add_via_ok_devs _ _ p (u8 (mask_to_plen m)) nh Hf Hl Hn) as Hf'.
    destruct (fib_add_via _ _ _ _) as [f rc]. apply wp_store_fib; auto with prints.
  - pose proof (fib_del_ok_devs _ _ p (u8 (mask_to_plen m)) Hf Hl) as Hf'.
    destruct (fib_del _ _ _) as [f rc]. apply wp_store_fib; auto with prints.
Qed.

#[local] Hint Resolve prints_interfaces prints_routes prints_traffic prints_tcp prints_arp : prints.

Lemma wp_cli_dispatch fd line w :
  stack_wf (cw_world w) → wp (cli_dispatch conv fd line) (fun _ w' => cmd_step w w') w.
Proof.
  intros Hw. unfold cli_dispatch. cbv zeta. generalize (strip_end (skip_blanks line)) as l. intros l.
  repeat (match goal with |- wp (if ?b then _ else _) _ _ => destruct b end;
          [lazymatch goal with
           | |- wp (cmd_ip_route _ _ _ _) _ _ => by apply wp_cmd_ip_route
           | |- _ => apply cmd_step_prints; auto with prints
           end|]).
  apply cmd_step_prints; auto with prints.
Qed.

(** ** Clients *)

Record cli_wf (c : cli_server) : Prop := {
  cf_len : length (cs_clients c) = CLI_MAX_CLIENTS;
  cf_lines : Forall (fun cl => zlen (cc_line cl) < CLI_LINE_MAX) (cs_clients c);
}.

(** A running command line over a well-formed stack. *)
Record cliw_wf (w : cliw) : Prop := {
  lf_stack : stack_wf (cw_world w);
  lf_cli : ∃ c, cw_cli w = Some c ∧ cli_wf c;
}.

(** The stack may have changed its routes. *)
Definition cli_step (w w' : cliw) : Prop :=
  cliw_wf w' ∧ ∃ f, cw_world w' = cw_world w <| w_stack ::= set_field ps_fib (fun _ => f) |>.

Lemma cli_step_same w w' : cliw_wf w → same w w' → cli_step w w'.
Proof.
  intros [Hw Hc] [H1 H2]. split; [split; [by rewrite H1|by rewrite H2]|]. exists (ps_fib (w_stack (cw_world w))).
  by rewrite H1, set_fib_same.
Qed.

Lemma cli_step_trans w w1 w2 : cli_step w w1 → cli_step w1 w2 → cli_step w w2.
Proof. intros [_ (f & H1)] [H2 (f' & H3)]. split; [done|]. exists f'. by rewrite H3, H1. Qed.

Lemma cli_step_cmd w w' : cliw_wf w → cmd_step w w' → cli_step w w'.
Proof. intros [Hw Hc] [H1 H2 H3]. split; [split; [done|by rewrite H3]|done]. Qed.

Lemma wp_get_client slot (Q : cli_client → cliw → Prop) w :
  cliw_wf w → (slot < CLI_MAX_CLIENTS)%nat →
  (∀ c cl, cw_cli w = Some c → cs_clients c !! slot = Some cl → zlen (cc_line cl) < CLI_LINE_MAX → Q cl w) →
  wp (get_client slot) Q w.
Proof.
  intros [_ (c & Hc & [Hl Hf])] Hs HQ. unfold get_client, get_cli.
  destruct (lookup_lt_is_Some_2 (cs_clients c) slot) as [cl Hcl]; [lia|].
  apply wp_bind, wp_bind, wp_gets. eapply wp_lift; [by rewrite Hc|]. eapply wp_lift; [by rewrite Hcl|].
  eapply HQ; [done..|]. exact (Forall_lookup_1 _ _ _ _ Hf Hcl).
Qed.

Lemma wp_upd_client slot f (Q : () → cliw → Prop) w :
  cliw_wf w → (slot < CLI_MAX_CLIENTS)%nat →
  (∀ c cl, cw_cli w = Some c → cs_clients c !! slot = Some cl → zlen (cc_line cl) < CLI_LINE_MAX →
     zlen (cc_line (f cl)) < CLI_LINE_MAX) →
  (∀ w', cli_step w w' → Q () w') → wp (upd_client slot f) Q w.
Proof.
  intros Hw Hs Hf HQ. apply wp_bind. apply wp_get_client; [done|done|]. intros _ _ _ _ _.
  destruct Hw as [Hw (c & Hc & [Hl Hls])]. apply wp_bind, wp_bind, wp_gets. eapply wp_lift; [by rewrite Hc|].
  apply wp_modify. apply HQ. split.
  - split; [done|]. eexists. split; [done|]. split; cbn.
    + by rewrite length_alter.
    + apply Forall_alter; [done|]. intros cl Hcl ?. by eapply (Hf c).
  - exists (ps_fib (w_stack (cw_world w))). cbn. by rewrite set_fib_same.
Qed.

Lemma wp_client_chars slot fd chars w :
  cliw_wf w → (slot < CLI_MAX_CLIENTS)%nat →
  wp (client_chars conv slot fd chars) (fun _ w' => cli_step w w') w.
Proof.
  intros Hw Hs. revert w Hw. induction chars as [|ch chars IH]; intros w Hw; cbn [client_chars].
  { apply wp_ret. by apply cli_step_same. }
  apply wp_bind, wp_get_client; [done|done|]. intros c cl Hc Hcl Hlen. destruct (ch =? NL).
  - apply wp_bind. eapply wp_lift; [by rewrite (proj2 (Z.ltb_lt _ _) Hlen)|]. cbv zeta.
    apply wp_bind. eapply wp_mono; [apply wp_cli_dispatch, Hw|]. intros [] w1 S1%cli_step_cmd; [|done].
    apply wp_bind, wp_upd_client; [apply S1|done|done|]. intros w2 S2.
    pose proof (cli_step_trans _ _ _ S1 S2) as S12. destruct (_ || _).
    + apply wp_bind, wp_os_close. intros w3 S3. apply cli_step_same in S3; [|apply S12].
      apply wp_upd_client; [apply S3|done|done|]. intros w4 S4. eauto using cli_step_trans.
    + apply wp_bind, wp_cli_printf. intros w3 S3. apply cli_step_same in S3; [|apply S12].
      eapply wp_mono; [apply IH, S3|]. intros [] w4 S4. eauto using cli_step_trans.
  - apply wp_bind. destruct (Z.ltb_spec (zlen (cc_line cl)) (CLI_LINE_MAX - 1)).
    + apply wp_upd_client; [done|done| |].
      { intros c' cl' Hc' Hcl' _. cbn. rewrite length_app. cbn [length]. simplify_eq. lia. }
      intros w1 S1. eapply wp_mono; [apply IH, S1|]. intros [] w2 S2. eauto using cli_step_trans.
    + apply wp_ret. by apply IH.
Qed.

Lemma wp_cli_client_input slot data w :
  cliw_wf w → (slot < CLI_MAX_CLIENTS)%nat →
  wp (cli_client_input conv slot data) (fun _ w' => cli_step w w') w.
Proof.
  intros Hw Hs. unfold cli_client_input. apply wp_bind, wp_get_client; [done|done|]. intros _ cl _ _ _.
  destruct data as [chars|]; [by apply wp_client_chars|].
  apply wp_bind, wp_os_close. intros w1 S1. apply cli_step_same in S1; [|done].
  apply wp_upd_client; [apply S1|done|done|]. intros w2 S2. eauto using cli_step_trans.
Qed.
End safety.

Lemma wp_cli_accept fd w : cliw_wf w → wp (cli_accept fd) (fun _ w' => cli_step w w') w.
Proof.
  intros Hw. pose proof Hw as [_ (c & Hc & [Hl _])]. unfold cli_accept, get_cli.
  apply wp_bind, wp_bind, wp_gets. eapply wp_lift; [by rewrite Hc|].
  destruct (fd <? 0); [apply wp_ret; by apply cli_step_same|].
  destruct (list_find _ _) as [[i cl]|] eqn:Hf; [|apply wp_os_close; intros; by apply cli_step_same].
  apply list_find_Some in Hf as (Hi & _). apply lookup_lt_Some in Hi.
  apply wp_bind, wp_upd_client; [done|lia|done|]. intros w1 S1. apply wp_cli_printf. intros w2 S2.
  eapply cli_step_trans; [done|]. apply cli_step_same; [apply S1|done].
Qed.

(** ** The route commands as text *)

(** A word of a command line: not empty, no blanks. *)
Definition word (s : bytes) : Prop := s ≠ [] ∧ Forall (fun c => is_blank c = false) s.

Lemma word_ip4 ip : u32_ok ip → word (pf_ip4_str ip).
Proof.
  intros Hip. destruct (ip4_str_chars ip Hip) as (Hf & s & c & E & _). split; [rewrite E; by destruct s|].
  eapply Forall_impl; [exact Hf|]. intros x [Hx%is_digit_range| ->]; [|done].
  unfold is_blank. by rewrite (proj2 (Z.eqb_neq x 32)), (proj2 (Z.eqb_neq x 9)) by lia.
Qed.

Lemma token_word s r : Forall (fun c => is_blank c = false) s → token (s ++ 32 :: r) = (s, r) ∧ token s = (s, []).
Proof.
  induction 1 as [|c s Hc _ [IH1 IH2]]; [done|]. cbn. by rewrite Hc, IH1, IH2.
Qed.

Lemma strtok_word s r : word s → strtok_r (s ++ 32 :: r) = (Some s, r) ∧ strtok_r s = (Some s, []).
Proof.
  intros [Hne Hf]. destruct (token_word s r Hf) as [H1 H2]. destruct s as [|c s]; [done|].
  apply Forall_cons in Hf as [Hc _]. unfold strtok_r. cbn [app skip_blanks] in *. rewrite Hc. by rewrite H1, H2.
Qed.

(** Lines that neither start nor end with blanks are taken as they are. *)
Lemma strip_end_last s c : is_digit c = true → strip_end (s ++ [c]) = s ++ [c].
Proof.
  intros Hc%is_digit_range. induction s as [|x s IH]; cbn [app strip_end].
  - by rewrite (proj2 (Z.eqb_neq c 13)), (proj2 (Z.eqb_neq c NL)), (proj2 (Z.eqb_neq c 32)) by (unfold NL; lia).
  - rewrite IH. by destruct s.
Qed.

Lemma strip_end_ip4 s ip : u32_ok ip → strip_end (s ++ pf_ip4_str ip) = s ++ pf_ip4_str ip.
Proof.
  intros Hip. destruct (ip4_str_chars ip Hip) as (_ & t & c & -> & Hc). rewrite app_assoc. by apply strip_end_last.
Qed.

Lemma has_prefix_app s l : has_prefix (str s ++ l) s = true.
Proof. unfold has_prefix. rewrite take_app_length. by apply bool_decide_eq_true. Qed.

Lemma mask_to_plen_mask plen : 0 ≤ plen ≤ 32 → mask_to_plen (plen_mask plen) = plen.
Proof.
  intros Hp. unfold mask_to_plen. rewrite plen_mask_eq by done.
  assert (2 ^ 0 ≤ 2 ^ (32 - plen) ≤ 2 ^ 32) by (split; apply Z.pow_le_mono_r; lia).
  pose proof (mask_loop_spec 32 (2 ^ 32 - 2 ^ (32 - plen)) 0 ltac:(lia) ltac:(lia)) as H'.
  destruct (mask_loop _ _ _) as [m' p']. destruct H' as (_ & _ & H3). destruct (H3 plen) as [-> ->]; [lia|done|done].
Qed.

(** The lines a user types. *)
Definition add_line (p m nh : Z) : bytes :=
  str "ip route " ++ pf_ip4_str p ++ 32 :: pf_ip4_str m ++ 32 :: pf_ip4_str nh.
Definition del_line (p m : Z) : bytes := str "no ip route " ++ pf_ip4_str p ++ 32 :: pf_ip4_str m.

(** The table replaced, and perhaps one line printed. *)
Definition route_done (fd : Z) (f : fib) (msg : option bytes) (w w' : cliw) : Prop :=
  cw_world w' = cw_world w <| w_stack ::= set_field ps_fib (fun _ => f) |> ∧ cw_cli w' = cw_cli w ∧
  cw_out w' = cw_out w ++ match msg with Some s => [(fd, s ++ [NL])] | None => [] end.

Section text.
Context (conv : bool → Z → Z) `{!ScanConv conv}.

Lemma route_args_text add p m nh :
  u32_ok p → u32_ok m → u32_ok nh →
  route_args conv add (pf_ip4_str p ++ 32 :: pf_ip4_str m ++ (if add then 32 :: pf_ip4_str nh else [])) =
    Some (p, m, if add then nh else 0).
Proof.
  intros Hp Hm Hn. unfold route_args.
  rewrite (proj1 (strtok_word (pf_ip4_str p) _ (word_ip4 p Hp))). destruct add.
  - rewrite (proj1 (strtok_word (pf_ip4_str m) _ (word_ip4 m Hm))).
    rewrite (proj2 (strtok_word (pf_ip4_str nh) [] (word_ip4 nh Hn))). cbn [mbind option_bind].
    rewrite !parse_ip4_str by done. done.
  - rewrite app_nil_r, (proj2 (strtok_word (pf_ip4_str m) [] (word_ip4 m Hm))). cbn [mbind option_bind].
    by rewrite !parse_ip4_str by done.
Qed.

Lemma route_nh_words p m nh :
  u32_ok p → u32_ok m → u32_ok nh →
  route_nh_text (pf_ip4_str p ++ 32 :: pf_ip4_str m ++ 32 :: pf_ip4_str nh) = pf_ip4_str nh.
Proof.
  intros Hp Hm Hn. unfold route_nh_text.
  rewrite (proj1 (strtok_word (pf_ip4_str p) _ (word_ip4 p Hp))).
  rewrite (proj1 (strtok_word (pf_ip4_str m) _ (word_ip4 m Hm))).
  by rewrite (proj2 (strtok_word (pf_ip4_str nh) [] (word_ip4 nh Hn))).
Qed.

Lemma dispatch_add fd s ip :
  u32_ok ip →
  cli_dispatch conv fd (str "ip route " ++ s ++ pf_ip4_str ip) = cmd_ip_route conv fd (s ++ pf_ip4_str ip) true.
Proof.
  intros Hip. unfold cli_dispatch.
  assert (strip_end (skip_blanks (str "ip route " ++ s ++ pf_ip4_str ip)) = str "ip route " ++ s ++ pf_ip4_str ip) as ->.
  { change (skip_blanks (str "ip route " ++ s ++ pf_ip4_str ip)) with (str "ip route " ++ s ++ pf_ip4_str ip).
    rewrite app_assoc. by apply strip_end_ip4. }
  rewrite has_prefix_app. change (drop 9 (str "ip route " ++ s ++ pf_ip4_str ip)) with (s ++ pf_ip4_str ip).
  unfold is_cmd. by rewrite !bool_decide_eq_false_2 by discriminate.
Qed.

Lemma dispatch_del fd s ip :
  u32_ok ip →
  cli_dispatch conv fd (str "no ip route " ++ s ++ pf_ip4_str ip) = cmd_ip_route conv fd (s ++ pf_ip4_str ip) false.
Proof.
  intros Hip. unfold cli_dispatch.
  assert (strip_end (skip_blanks (str "no ip route " ++ s ++ pf_ip4_str ip)) = str "no ip route " ++ s ++ pf_ip4_str ip) as ->.
  { change (skip_blanks (str "no ip route " ++ s ++ pf_ip4_str ip)) with (str "no ip route " ++ s ++ pf_ip4_str ip).
    rewrite app_assoc. by apply strip_end_ip4. }
  rewrite has_prefix_app. change (drop 12 (str "no ip route " ++ s ++ pf_ip4_str ip)) with (s ++ pf_ip4_str ip).
  unfold is_cmd. rewrite !bool_decide_eq_false_2 by discriminate.
  unfold has_prefix at 1. by rewrite bool_decide_eq_false_2 by discriminate.
Qed.
End text.

Lemma cli_printf_short fd s w :
  0 < zlen s < 1024 → cli_printf fd s w = Ok ((), w <| cw_out ::= fun o => o ++ [(fd, s)] |>).
Proof.
  intros Hs. unfold cli_printf, cli_text. by rewrite (proj2 (Z.ltb_lt 0 _)), (proj2 (Z.ltb_lt _ 1024)) by lia.
Qed.

(** What the two commands say when they fail. *)
Definition route_failed (add : bool) (args : bytes) : bytes :=
  if add then str "% next hop " ++ route_nh_text args ++ str " not reachable via a connected route"
  else str "% no such route".

Lemma store_fib_run fd f rc msg w :
  zlen msg < 1000 →
  ∃ w', (on_stack (set_fib f);; when (rc <? 0) (cli_printf fd (msg ++ [NL]))) w = Ok ((), w') ∧
        route_done fd f (if rc <? 0 then Some msg else None) w w'.
Proof.
  intros Hm. destruct w as [wo cl out cls]. unfold when. destruct (rc <? 0).
  - eexists. split; [eapply run_bind; [done|apply cli_printf_short]|done].
    rewrite length_app. cbn [length]. lia.
  - eexists. split; [eapply run_bind; done|]. split_and!; [done..|]. cbn. by rewrite app_nil_r.
Qed.

Lemma cmd_ip_route_run conv fd args add p plen nh w :
  route_args conv add args = Some (p, plen_mask plen, nh) → 0 ≤ plen ≤ 32 →
  (add = true → zlen (route_nh_text args) < 900) →
  let f := ps_fib (w_stack (cw_world w)) in
  let r := if add then fib_add_via f p plen nh else fib_del f p plen in
  ∃ w', cmd_ip_route conv fd args add w = Ok ((), w') ∧
        route_done fd r.1 (if r.2 <? 0 then Some (route_failed add args) else None) w w'.
Proof.
  intros Ha Hp Hl f r. unfold cmd_ip_route. rewrite Ha, mask_to_plen_mask by done. cbv zeta.
  rewrite (proj2 (Z.ltb_ge plen 0)), u8_small by lia.
  assert (on_stack (get_stack ps_fib) w = Ok (f, w)) as Hg by (by destruct w as [[] ? ? ?]).
  assert (zlen (route_failed add args) < 1000) as Hm.
  { destruct add; [|done]. specialize (Hl eq_refl). cbn [route_failed]. rewrite !length_app.
    change (length (str "% next hop ")) with 11%nat.
    change (length (str " not reachable via a connected route")) with 36%nat. lia. }
  destruct add; unfold r; [destruct (fib_add_via f p plen nh) as [f' rc] eqn:E|destruct (fib_del f p plen) as [f' rc] eqn:E];
    destruct (store_fib_run fd f' rc _ w Hm) as (w' & Hw' & Hd); exists w'; split; try done;
    (eapply run_bind; [exact Hg|]); rewrite E; cbn [route_failed] in Hw'; rewrite <- ?app_assoc in Hw'; exact Hw'.
Qed.

(** A mask that is no prefix changes nothing. *)
Lemma cmd_ip_route_bad_mask conv fd args add p m nh w :
  route_args conv add args = Some (p, m, nh) → mask_to_plen m = -1 →
  ∃ w', cmd_ip_route conv fd args add w = Ok ((), w') ∧
        route_done fd (ps_fib (w_stack (cw_world w))) (Some (str "% non-contiguous mask")) w w'.
Proof.
  intros Ha Hm. exists (w <| cw_out ::= fun o => o ++ [(fd, str "% non-contiguous mask" ++ [NL])] |>). split.
  - unfold cmd_ip_route. rewrite Ha, Hm. by apply cli_printf_short.
  - split; [exact (eq_sym (set_fib_same (cw_world w)))|done].
Qed.

(** ** Properties *)

(** C20. The route commands do what their text says: [ip route P M N] and
    [no ip route P M], with addresses written as the stack prints them and a
    contiguous mask of length [plen] (the number 2^32 - 2^(32 - plen)), have
    exactly the effect of [fib_add_via] and [fib_del] on the route table, touch
    nothing else, and print one line exactly when that call fails; with any
    other mask either command changes nothing and prints one line. *)
Theorem cli_route_commands conv fd p m nh w :
  ScanConv conv → u32_ok p → u32_ok m → u32_ok nh →
  let f := ps_fib (w_stack (cw_world w)) in
  (∀ plen, 0 ≤ plen ≤ 32 → m = 2 ^ 32 - 2 ^ (32 - plen) →
     (let '(f', rc) := fib_add_via f p plen nh in
      ∃ w', cli_dispatch conv fd (add_line p m nh) w = Ok ((), w') ∧
            route_done fd f' (if rc <? 0 then Some (str "% next hop " ++ pf_ip4_str nh ++
              str " not reachable via a connected route") else None) w w') ∧
     (let '(f', rc) := fib_del f p plen in
      ∃ w', cli_dispatch conv fd (del_line p m) w = Ok ((), w') ∧
            route_done fd f' (if rc <? 0 then Some (str "% no such route") else None) w w')) ∧
  ((∀ plen, 0 ≤ plen ≤ 32 → m ≠ 2 ^ 32 - 2 ^ (32 - plen)) →
     (∃ w', cli_dispatch conv fd (add_line p m nh) w = Ok ((), w') ∧
            route_done fd f (Some (str "% non-contiguous mask")) w w') ∧
     (∃ w', cli_dispatch conv fd (del_line p m) w = Ok ((), w') ∧
            route_done fd f (Some (str "% non-contiguous mask")) w w')).
Proof.
  intros Hc Hp Hm Hn f. pose proof (route_args_text conv true p m nh Hp Hm Hn) as Ta.
  pose proof (route_args_text conv false p m nh Hp Hm Hn) as Td. rewrite app_nil_r in Td. cbv iota in Ta, Td.
  assert (cli_dispatch conv fd (add_line p m nh) =
          cmd_ip_route conv fd (pf_ip4_str p ++ 32 :: pf_ip4_str m ++ 32 :: pf_ip4_str nh) true) as Ea.
  { pose proof (dispatch_add conv fd (pf_ip4_str p ++ 32 :: pf_ip4_str m ++ [32]) nh Hn) as E.
    rewrite <- !app_assoc in E. cbn [app] in E. rewrite <- !app_assoc in E. exact E. }
  assert (cli_dispatch conv fd (del_line p m) = cmd_ip_route conv fd (pf_ip4_str p ++ 32 :: pf_ip4_str m) false) as Ed.
  { pose proof (dispatch_del conv fd (pf_ip4_str p ++ [32]) m Hm) as E. rewrite <- !app_assoc in E. exact E. }
  rewrite Ea, Ed. pose proof (route_nh_words p m nh Hp Hm Hn) as En.
  assert (length (pf_ip4_str nh) ≤ 15)%nat as Hl.
  { unfold pf_ip4_str, snprintf. rewrite length_take. lia. }
  split.
  - intros plen Hpl Em. rewrite <- plen_mask_eq in Em by done. subst m. split.
    + destruct (cmd_ip_route_run conv fd _ true p plen nh w Ta Hpl) as (w' & H1 & H2); [intros _; rewrite En; lia|].
      destruct (fib_add_via f p plen nh) eqn:E. unfold route_failed in H2. rewrite En in H2.
      unfold f in E. rewrite E in H2. eauto.
    + destruct (cmd_ip_route_run conv fd _ false p plen 0 w Td Hpl) as (w' & H1 & H2); [done|].
      destruct (fib_del f p plen) eqn:E. unfold f in E. rewrite E in H2. eauto.
  - intros Hne. assert (∀ add args nh', route_args conv add args = Some (p, m, nh') →
      ∃ w', cmd_ip_route conv fd args add w = Ok ((), w') ∧
            route_done fd f (Some (str "% non-contiguous mask")) w w') as Hbad; [|split; eauto].
    intros add args nh' Ha. eapply cmd_ip_route_bad_mask; [exact Ha|].
    destruct (mask_to_plen_ok m Hm) as [[-> _]|[? E]]; [done|]. rewrite plen_mask_eq in E by done. by destruct (Hne _ H).
Qed.

Definition demo_cliw : cliw :=
  mk_cliw (mk_world pf_stack_init 0 []) (Some (mk_cli 3 (str "/tmp/pf.sock") (replicate 4 (mk_client (-1) [])))) [] [].

Lemma cli_route_commands_witness :
  ∃ w', cli_dispatch glibc_conv 5 (str "ip route 10.0.0.0 255.0.0.0 10.1.0.1") demo_cliw = Ok ((), w') ∧
        cw_out w' = [(5, str "% next hop 10.1.0.1 not reachable via a connected route" ++ [NL])].
Proof.
  destruct (proj1 (cli_route_commands glibc_conv 5 0x0a000000 0xff000000 0x0a010001 demo_cliw glibc_scan
    ltac:(lia) ltac:(lia) ltac:(lia)) 8 ltac:(lia) eq_refl) as [(w' & H & _ & _ & Ho) _].
  exists w'. split; [exact H|exact Ho].
Defined.

(** Whatever a client sends, in whatever pieces, the command line
    survives it: no line overruns its buffer, no command faults or asserts,
    the stack stays well-formed, and nothing of it but the route table can
    change. The same holds for accepting and dropping clients. *)
Theorem cli_input_safe conv w slot data fd :
  ScanConv conv → cliw_wf w → (slot < CLI_MAX_CLIENTS)%nat →
  (∃ w', cli_client_input conv slot data w = Ok ((), w') ∧ cli_step w w') ∧
  (∃ w', cli_accept fd w = Ok ((), w') ∧ cli_step w w').
Proof.
  intros Hc Hw Hs. split.
  - destruct (wp_run _ _ _ (wp_cli_client_input conv slot data w Hw Hs)) as ([] & w' & ? & ?). eauto.
  - destruct (wp_run _ _ _ (wp_cli_accept fd w Hw)) as ([] & w' & ? & ?). eauto.
Qed.

Lemma demo_cliw_wf : cliw_wf demo_cliw.
Proof.
  split; [apply pf_stack_init_wf|]. eexists. split; [done|]. split; [done|]. by apply Forall_replicate.
Qed.

Lemma cli_input_safe_witness :
  (∃ w', cli_client_input glibc_conv 0 (Some (str "show arp" ++ [NL])) demo_cliw = Ok ((), w') ∧ cli_step demo_cliw w') ∧
  (∃ w', cli_accept 7 demo_cliw = Ok ((), w') ∧ cli_step demo_cliw w').
Proof.
  apply (cli_input_safe glibc_conv demo_cliw 0 (Some (str "show arp" ++ [NL])) 7 glibc_scan demo_cliw_wf).
  unfold CLI_MAX_CLIENTS. lia.
Defined.

(** The test for leaving compares the raw line by prefix only: a line that
    merely begins with the word closes the connection, and the word after a
    blank does not. *)
Lemma exit_by_prefix :
  ∃ w1 w2,
    (cli_accept 7;; cli_client_input glibc_conv 0 (Some (str "exitx" ++ [NL]))) demo_cliw = Ok ((), w1) ∧
    cw_closed w1 = [7] ∧ last (cw_out w1) = Some (7, str "% unknown command: exitx" ++ [NL]) ∧
    (cli_accept 7;; cli_client_input glibc_conv 0 (Some (str " exit" ++ [NL]))) demo_cliw = Ok ((), w2) ∧
    cw_closed w2 = [].
Proof. eexists _, _. split_and!; vm_compute; reflexivity. Qed.
