(* ===== verification/Loop.v ===== *)
(** * The event loop

    Models [netdev/loop_linux.c]: draining a device, one round of the loop,
    and the loop itself. What the operating system reports in a round (the
    result of [poll], the ready descriptors, what each [read] and [accept]
    returns, the time) is the record [poll_env]. *)

From S2P Require Import Prelude Pf Checksum Pkt Fib Headers Stats Stack Link Arp IpOut Icmp Reass Sock.
From S2P Require Import Udp Tcb TcpOut Tcp TcpInput TcpTimer Fwd Input Core Text Cli.
Import Checksum Pkt Fib Stats.

(** ** Operations *)

Definition RX_BATCH : nat := 64.

(** A [read] on a device: an error ([EAGAIN] included), or the bytes put in
    the buffer, none at end of file. *)
Inductive read_result := ReadErr | ReadData (data : bytes).

(** One round as the system reports it: the time after [poll] returned, its
    result and whether it was interrupted, per device the reads to come if
    it is readable, the new connection of the command line if there is one,
    and per client what [read] yields if it is readable ([None]: 0 or error). *)
Record poll_env := mk_env {
  pe_now : Z; pe_rc : Z; pe_eintr : bool; pe_devs : list (option (list read_result));
  pe_accept : option Z; pe_clients : list (option (option bytes));
}.

(** A fresh packet with the bytes read. *)
Definition rx_pkt (dev : nat) (now : Z) (data : bytes) : result pkt :=
  p ← buf_write pkt_alloc (p_data pkt_alloc) data;
  Ok (p <| p_len := u16 (zlen data) |> <| p_dev := Some dev |> <| p_ts_ms := now |>).

(** [n] reads at most; the number of frames handled. *)
Fixpoint rx_drain (n : nat) (dev : nat) (reads : list read_result) : PF Z :=
  match n, reads with
  | S n, ReadData (b :: data) :: reads =>
      now ← pf_now_ms;
      p ← lift (rx_pkt dev now (b :: data));
      upd_dev dev (set_field nd_st (fun s =>
        s <| rx_pkts ::= fun n => u64 (n + 1) |> <| rx_bytes ::= fun n => u64 (n + zlen (b :: data)) |>));;
      eth_input dev p;;
      handled ← rx_drain n dev reads;
      mret (handled + 1)
  | _, _ => mret 0
  end.

(** The devices from [i] on, [n] of them. *)
Fixpoint drain_devs (env : poll_env) (n i : nat) : PF Z :=
  match n with
  | O => mret 0
  | S n =>
      h ← match pe_devs env !! i with
          | Some (Some reads) => rx_drain RX_BATCH i reads
          | _ => mret 0
          end;
      hs ← drain_devs env n (S i);
      mret (h + hs)
  end.

Section loop.
Context (conv : bool → Z → Z).

(** The command line's part of a round; [c0] is its state before [poll]. *)
Definition loop_cli (env : poll_env) (c0 : option cli_server) : CL () :=
  if 0 <=? cli_listen_fd c0 then
    match pe_accept env with Some fd => cli_accept fd | None => mret () end;;
    for_each (seq 0 CLI_MAX_CLIENTS) (fun s =>
      fd ← lift (cli_client_fd c0 s);
      if 0 <=? fd then
        match pe_clients env !! s with
        | Some (Some data) => cli_client_input conv s data
        | _ => mret ()
        end
      else mret ())
  else mret ().

Definition pf_loop_once (env : poll_env) : CL Z :=
  c0 ← gets cw_cli;
  on_stack (set_now (pe_now env));;
  if (pe_rc env <? 0) && negb (pe_eintr env) then mret (-1)
  else
    handled ← (if 0 <? pe_rc env then
                 h ← on_stack (ds ← get_stack ps_devs; drain_devs env (length ds) 0);
                 loop_cli env c0;;
                 mret h
               else mret 0);
    on_stack (now ← pf_now_ms; pf_tick now);;
    mret handled.

(** [while (!*stop)]: the rounds until [stop] is seen set. *)
Fixpoint pf_loop_run (envs : list poll_env) : CL () :=
  match envs with
  | [] => mret ()
  | env :: envs => rc ← pf_loop_once env; if rc <? 0 then mret () else pf_loop_run envs
  end.
End loop.

(** ** One device *)

(** What [read] guarantees of a frame, and the bound on ICMP messages. *)
Definition read_ok (r : read_result) : Prop :=
  match r with
  | ReadErr => True
  | ReadData data =>
      bytes_ok data ∧ zlen data ≤ PKT_BUF_SIZE - PKT_RX_OFFSET ∧
      ∀ dev now p, rx_pkt dev now data = Ok p → frame_bounded p
  end.

Definition env_ok (env : poll_env) : Prop :=
  Forall (fun o => match o with Some reads => Forall read_ok reads | None => True end) (pe_devs env).

Lemma rx_pkt_ok dev now data :
  bytes_ok data → zlen data ≤ PKT_BUF_SIZE - PKT_RX_OFFSET →
  ∃ p, rx_pkt dev now data = Ok p ∧ pkt_wf p ∧ pkt_bytes p = data.
Proof.
  intros Hb Hl. destruct (pkt_append_ok pkt_alloc data) as (p & Hp & Hwf & Hbs & _);
    [apply pkt_alloc_wf|done|cbn; wrap_lia|].
  assert (buf_write pkt_alloc (p_data pkt_alloc) data = Ok (pkt_alloc <| p_buf := p_buf p |>) ∧
          p_len p = u16 (zlen data) ∧ p_data p = PKT_RX_OFFSET) as (Hw & Hlen & Hd).
  { unfold pkt_append, pkt_put, PF_ASSERT in Hp. destruct (_ <=? pkt_tailroom _); [|done].
    cbn [mbind result_bind] in Hp. unfold buf_write in *. cbn [p_data p_len] in Hp.
    change (p_data pkt_alloc + p_len pkt_alloc) with PKT_RX_OFFSET in Hp.
    change (p_data pkt_alloc) with PKT_RX_OFFSET. destruct (_ && _); [|done]. by injection Hp as <-. }
  eexists. split; [unfold rx_pkt; by rewrite Hw|]. split.
  - destruct Hwf as [H1 H2 H3 H4 H5]. split; cbn; rewrite <- ?Hlen, <- ?Hd; done.
  - change (pkt_bytes pkt_alloc) with (@nil Z) in Hbs. transitivity (pkt_bytes p); [|exact Hbs].
    unfold pkt_bytes. cbn. by rewrite <- Hlen, Hd.
Qed.

(** The receive counters of a device. *)
Lemma wp_rx_count dev f (Q : () → world → Prop) w :
  stack_wf w → (dev < length (devs w))%nat → (∀ w', in_step w w' → Q () w') →
  wp (upd_dev dev (set_field nd_st f)) Q w.
Proof.
  intros Hw Hd HQ. destruct (lookup_lt_is_Some_2 _ _ Hd) as [nd Hnd].
  eapply wp_upd_dev_st; [by apply dev_at_of_lookup|]. intros w' E _ _. apply HQ. by apply in_step_tx.
Qed.

Lemma in_step_trans w w1 w2 : in_step w w1 → in_step w1 w2 → in_step w w2.
Proof. intros [_ E1] [H2 E2]. split; [done|congruence]. Qed.

Lemma in_step_dev w w' dev : in_step w w' → (dev < length (devs w))%nat → (dev < length (devs w'))%nat.
Proof. intros [_ E] Hd. by rewrite <- (erase_in_length _ _ E). Qed.

Lemma wp_rx_drain n dev reads w :
  stack_wf w → (dev < length (devs w))%nat → Forall read_ok reads →
  wp (rx_drain n dev reads) (fun h w' => in_step w w' ∧ 0 ≤ h ≤ Z.of_nat n) w.
Proof.
  revert reads w. induction n as [|n IH]; intros reads w Hw Hd Hr; cbn [rx_drain]; [wp_step; split; [by split|lia]|].
  destruct reads as [|[|[|b data]] reads]; try (wp_step; split; [by split|lia]).
  apply Forall_cons in Hr as [(Hb & Hl & Hf) Hr]. wp_step. wp_step.
  destruct (rx_pkt_ok dev (w_now w) (b :: data) Hb Hl) as (p & Hp & Hwf & _).
  wp_step. eapply wp_lift; [exact Hp|]. wp_step. apply wp_rx_count; [done|done|]. intros w1 S1.
  pose proof (in_step_dev _ _ _ S1 Hd) as Hd1. destruct (lookup_lt_is_Some_2 _ _ Hd1) as [nd Hnd].
  wp_step. eapply wp_mono; [eapply wp_eth_input; [apply S1|by apply dev_at_of_lookup|done|by eapply Hf]|].
  intros [] w2 S2. pose proof (in_step_dev _ _ _ S2 Hd1) as Hd2. wp_step.
  eapply wp_mono; [apply IH; [apply S2|done|done]|]. intros h w3 [S3 Hh]. wp_step.
  split; [eauto using in_step_trans|lia].
Qed.

Lemma wp_drain_devs env n i w :
  stack_wf w → (i + n ≤ length (devs w))%nat → env_ok env →
  wp (drain_devs env n i) (fun h w' => in_step w w' ∧ 0 ≤ h ≤ Z.of_nat (RX_BATCH * n)) w.
Proof.
  revert i w. induction n as [|n IH]; intros i w Hw Hn He; cbn [drain_devs]; [wp_step; split; [by split|lia]|].
  wp_step.
  assert (wp (match pe_devs env !! i with Some (Some reads) => rx_drain RX_BATCH i reads | _ => mret 0 end)
    (fun h w' => in_step w w' ∧ 0 ≤ h ≤ Z.of_nat RX_BATCH) w) as Hi.
  { destruct (pe_devs env !! i) as [[reads|]|] eqn:E; try (wp_step; split; [by split|lia]).
    apply wp_rx_drain; [done|lia|]. exact (Forall_lookup_1 _ _ _ _ He E). }
  eapply wp_mono; [exact Hi|]. intros h w1 [S1 Hh]. wp_step.
  eapply wp_mono; [apply (IH (S i)); [apply S1| |done]|].
  { rewrite <- (erase_in_length _ _ (proj2 S1)). lia. }
  intros hs w2 [S2 Hs]. wp_step. split; [by eapply in_step_trans|]. lia.
Qed.

(** ** A round *)

Record loop_wf (w : cliw) : Prop := {
  lo_stack : stack_wf (cw_world w);
  lo_cli : ∀ c, cw_cli w = Some c → cli_wf c;
}.

(** What a round keeps: the invariant, the time it read, and the devices'
    configuration. *)
Record round (w w' : cliw) : Prop := {
  ro_wf : loop_wf w';
  ro_now : w_now (cw_world w') = w_now (cw_world w);
  ro_devs : clear_st <$> devs (cw_world w') = clear_st <$> devs (cw_world w);
}.

Lemma round_refl w : loop_wf w → round w w.
Proof. by split. Qed.

Lemma round_trans w w1 w2 : round w w1 → round w1 w2 → round w w2.
Proof. intros [_ N1 D1] [H2 N2 D2]. split; [done|congruence|congruence]. Qed.

Lemma round_length w w' : round w w' → length (devs (cw_world w')) = length (devs (cw_world w)).
Proof. intros [_ _ E]. by rewrite <- (length_fmap clear_st), E, length_fmap. Qed.

Lemma round_on_stack {A} (m : PF A) (P : A → Prop) (Q : A → cliw → Prop) w :
  loop_wf w → wp m (fun a w' => in_step (cw_world w) w' ∧ P a) (cw_world w) →
  (∀ a w', round w w' → cw_cli w' = cw_cli w → P a → Q a w') → wp (on_stack m) Q w.
Proof.
  intros [Hs Hc] Hm HQ. apply wp_on_stack. eapply wp_mono; [exact Hm|]. intros a w' [[Hw' E] Ha].
  destruct (erase_in_proj _ _ E) as (N & _ & _ & _ & D). by apply HQ.
Qed.

Lemma round_cli w w' : cli_step w w' → round w w'.
Proof.
  intros [[Hs (c & Hc & Hwf)] (f & Hf)]. split; [split; [done|]|by rewrite Hf|by rewrite Hf].
  intros c' Hc'. by simplify_eq.
Qed.

Section safety.
Context (conv : bool → Z → Z) `{!ScanConv conv}.

Lemma cli_client_fd_ok c s : cli_wf c → (s < CLI_MAX_CLIENTS)%nat → ∃ fd, cli_client_fd (Some c) s = Ok fd.
Proof.
  intros [Hl _] Hs. destruct (lookup_lt_is_Some_2 (cs_clients c) s) as [cl Hcl]; [lia|].
  exists (cc_fd cl). cbn. by rewrite Hcl.
Qed.

Lemma wp_loop_cli env w w0 :
  loop_wf w0 → round w0 w → cw_cli w = cw_cli w0 → wp (loop_cli conv env (cw_cli w0)) (fun _ w' => round w w') w.
Proof.
  intros H0 [[Hs Hc] _ _] Ec. unfold loop_cli. destruct (cw_cli w0) as [c|] eqn:E0; [|apply wp_ret; by apply round_refl].
  assert (cli_wf c) as Hcw by (by eapply lo_cli). destruct (0 <=? _); [|apply wp_ret; by apply round_refl].
  assert (cliw_wf w) as Hw by (split; [done|eauto]).
  assert (wp match pe_accept env with Some fd => cli_accept fd | None => mret () end (fun _ w' => cli_step w w') w) as Ha.
  { destruct (pe_accept env); [by apply wp_cli_accept|apply wp_ret; by apply cli_step_same]. }
  apply wp_bind. eapply wp_mono; [exact Ha|]. intros [] w1 S1.
  eapply wp_mono; [apply (wp_for_each (cli_step w)); [done|]|intros [] w2; apply round_cli].
  intros s w2 [_ Hlt]%list_elem_of_In%in_seq S2. destruct (cli_client_fd_ok c s Hcw) as [fd Hfd]; [lia|].
  apply wp_bind. eapply wp_lift; [exact Hfd|]. destruct (0 <=? fd); [|by apply wp_ret].
  destruct (pe_clients env !! s) as [[data|]|]; [|by apply wp_ret|by apply wp_ret].
  eapply wp_mono; [apply wp_cli_client_input; [done|apply S2|lia]|]. intros [] w3 S3. by eapply cli_step_trans.
Qed.

(** The ready descriptors. *)
Lemma wp_loop_ready env w :
  loop_wf w → env_ok env →
  wp (if 0 <? pe_rc env then
        h ← on_stack (ds ← get_stack ps_devs; drain_devs env (length ds) 0);
        loop_cli conv env (cw_cli w);;
        mret h
      else mret 0)
    (fun h w' => round w w' ∧ 0 ≤ h ≤ Z.of_nat (RX_BATCH * length (devs (cw_world w)))) w.
Proof.
  intros Hw He. destruct (0 <? pe_rc env); [|apply wp_ret; split; [by apply round_refl|lia]].
  apply wp_bind. eapply (round_on_stack _ (fun h => 0 ≤ h ≤ Z.of_nat (RX_BATCH * length (devs (cw_world w))))); [done| |].
  { wp_step. wp_step. apply wp_drain_devs; [apply Hw|lia|done]. }
  intros h w1 R1 E1 Hh. apply wp_bind. eapply wp_mono; [by apply (wp_loop_cli env w1 w)|]. intros [] w2 R2.
  apply wp_ret. split; [by eapply round_trans|done].
Qed.

Lemma wp_loop_tick w : loop_wf w → wp (on_stack (now ← pf_now_ms; pf_tick now)) (fun _ w' => round w w') w.
Proof.
  intros Hw. eapply (round_on_stack _ (fun _ => True)); [done| |by intros []].
  wp_step. wp_step. eapply wp_mono; [apply wp_pf_tick, Hw|]. by intros [] w' ?.
Qed.

Lemma wp_pf_loop_once env w :
  loop_wf w → env_ok env →
  wp (pf_loop_once conv env) (fun h w' =>
    loop_wf w' ∧ w_now (cw_world w') = pe_now env ∧
    clear_st <$> devs (cw_world w') = clear_st <$> devs (cw_world w) ∧
    if (pe_rc env <? 0) && negb (pe_eintr env) then h = -1
    else 0 ≤ h ≤ Z.of_nat (RX_BATCH * length (devs (cw_world w)))) w.
Proof.
  intros Hw He. unfold pf_loop_once. apply wp_bind, wp_gets. apply wp_bind, wp_on_stack, wp_modify.
  set (w0 := w <| cw_world := _ |>).
  assert (loop_wf w0) as Hw0 by (destruct Hw; split; [by apply stack_wf_now|done]).
  change (cw_cli w) with (cw_cli w0). destruct (_ && _); [by apply wp_ret|].
  apply wp_bind. eapply wp_mono; [by apply wp_loop_ready|]. intros h w1 [R1 Hh].
  apply wp_bind. eapply wp_mono; [apply wp_loop_tick, R1|]. intros [] w2 R2.
  destruct (round_trans _ _ _ R1 R2) as [H N D]. by apply wp_ret.
Qed.

Lemma wp_pf_loop_run envs w :
  loop_wf w → Forall env_ok envs → wp (pf_loop_run conv envs) (fun _ w' => loop_wf w') w.
Proof.
  intros Hw He. revert w Hw. induction He as [|env envs He _ IH]; intros w Hw; cbn [pf_loop_run]; [by apply wp_ret|].
  apply wp_bind. eapply wp_mono; [by apply wp_pf_loop_once|]. intros h w1 (Hw1 & _).
  destruct (h <? 0); [by apply wp_ret|by apply IH].
Qed.
End safety.

(** ** Properties *)

(** A round of the event loop always completes, whatever the system
    reports: any frames on any devices, any bytes from command-line clients,
    connections, errors and interruptions. Afterwards the invariants of the
    stack and of the command line hold, the devices' configuration is
    unchanged, and the result is the number of frames handled, at most 64 per
    device, or -1 exactly when [poll] failed. So every run of the loop, over
    any sequence of rounds, keeps the invariants. *)
Theorem pf_loop_once_safe conv env envs w :
  ScanConv conv → loop_wf w → env_ok env → Forall env_ok envs →
  (∃ h w', pf_loop_once conv env w = Ok (h, w') ∧ loop_wf w' ∧ w_now (cw_world w') = pe_now env ∧
     clear_st <$> devs (cw_world w') = clear_st <$> devs (cw_world w) ∧
     if (pe_rc env <? 0) && negb (pe_eintr env) then h = -1
     else 0 ≤ h ≤ Z.of_nat (RX_BATCH * length (devs (cw_world w)))) ∧
  ∃ w', pf_loop_run conv envs w = Ok ((), w') ∧ loop_wf w'.
Proof.
  intros Hc Hw He Hes. split.
  - destruct (wp_run _ _ _ (wp_pf_loop_once conv env w Hw He)) as (h & w' & ? & ?). eauto.
  - destruct (wp_run _ _ _ (wp_pf_loop_run conv envs w Hw Hes)) as ([] & w' & ? & ?). eauto.
Qed.

(** A round on which a client sends a command and a runt frame arrives. *)
Definition demo_env : poll_env :=
  mk_env 10 2 false [Some [ReadData [1; 2; 3]; ReadErr]] None [Some (Some (str "show arp" ++ [NL]))].

Definition demo_loop : cliw :=
  mk_cliw demo_tcp_world (Some (mk_cli 3 (str "/tmp/pf.sock") (mk_client 7 [] :: replicate 3 (mk_client (-1) [])))) [] [].

Lemma demo_loop_wf : loop_wf demo_loop.
Proof.
  split; [exact demo_tcp_stack_wf|]. intros c [= <-]. split; [done|]. cbn. by repeat constructor.
Qed.

Lemma demo_env_ok : env_ok demo_env.
Proof.
  apply Forall_singleton. constructor; [|by constructor].
  split; [repeat constructor; lia|]. split; [cbn; wrap_lia|]. intros dev now p Hp q Hq. exfalso.
  destruct (rx_pkt_ok dev now [1; 2; 3]) as (p' & Hp' & Hwf & Hb); [repeat constructor; lia|cbn; wrap_lia|].
  rewrite Hp in Hp'. injection Hp' as <-. pose proof (length_pkt_bytes p Hwf) as Hl. rewrite Hb in Hl.
  unfold pkt_pull, PF_ASSERT in Hq. rewrite <- Hl in Hq. discriminate Hq.
Qed.

Lemma pf_loop_once_safe_witness :
  ∃ h w', pf_loop_once glibc_conv demo_env demo_loop = Ok (h, w') ∧ loop_wf w' ∧ w_now (cw_world w') = 10 ∧ 0 ≤ h ≤ 128.
Proof.
  destruct (proj1 (pf_loop_once_safe glibc_conv demo_env [] demo_loop glibc_scan demo_loop_wf demo_env_ok
    (Forall_nil_2 _))) as (h & w' & H1 & H2 & H3 & _ & H4).
  exists h, w'. split; [exact H1|]. split; [exact H2|]. split; [exact H3|exact H4].
Defined.
