(* ===== verification/Stream.v ===== *)
(** * The stream API and the invariant

    Shows that the calls of [tcp/tcp_sock.c] and [pf_close] keep the invariant
    of the whole stack, from every well-formed state and with every handle,
    and that the calls that wait return when their deadline passes. *)

From S2P Require Import Prelude Pf Checksum Pkt Fib Headers Stats Stack Link Arp IpOut Icmp Reass Sock.
From S2P Require Import Udp Tcb TcpOut Tcp TcpInput TcpTimer TcpSock Fwd Input Core Text Cli Loop.
Import Checksum Pkt Fib Stats.

(** ** Control blocks *)

Lemma stack_wf_l4 w w' s g : stack_wf w → l4_step w w' s g → tcp_wf s g → stack_wf w'.
Proof.
  intros Hw H Ht. eapply in_step_l4; [exact Hw|apply H| |apply H]. unfold l4_wf.
  by rewrite (ls_socks _ _ _ _ H), (ls_tcp _ _ _ _ H).
Qed.

Lemma stack_wf_closing w w' : stack_wf w → closing_step w w' → stack_wf w'.
Proof. intros Hw [N F W _]. by eapply in_step_l4. Qed.

Lemma stack_wf_tcb_step i w w' t' : stack_wf w → tcb_step i w w' t' → slot_wf t' → stack_wf w'.
Proof. intros Hw H Ht. eapply stack_wf_l4; [exact Hw|exact H|]. apply tcp_wf_put; [apply Hw|done]. Qed.

Lemma wp_upd_tcb_wf c t f (Q : () → world → Prop) w :
  stack_wf w → tcbs w !! c = Some t → slot_wf (f t) →
  (∀ w', stack_wf w' → tcb_step c w w' (f t) → Q () w') → wp (upd_tcb c f) Q w.
Proof.
  intros Hw Hc Hf HQ. eapply wp_upd_tcb; [exact Hc|].
  assert (tcb_step c w (set_tcp w (put_tcb (w_tcp w) c (f t))) (f t)) as S by (apply tcb_step_set; apply Hw).
  apply HQ; [by eapply stack_wf_tcb_step|done].
Qed.

Lemma tcb_of w c : stack_wf w → (c < TCP_MAX_CONNS)%nat → ∃ t, tcbs w !! c = Some t ∧ slot_wf t.
Proof.
  intros Hw Hc. destruct (tcp_wf_lookup _ _ c (iw_twf _ Hw) Hc) as [t Ht]. exists t. split; [done|].
  by eapply tcp_wf_slot; [apply Hw|].
Qed.

Lemma slot_open t : slot_wf t → tc_state t ≠ TCP_CLOSED → tc_active t = true ∧ tcb_wf t.
Proof. unfold slot_wf. intros H Hs. destruct (tc_active t); [done|]. by destruct H as [[? _] _]. Qed.

Lemma slot_ips t : slot_wf t → u32_ok (tc_local_ip t) ∧ u32_ok (tc_remote_ip t).
Proof. unfold slot_wf. destruct (tc_active t); [apply tb_ips|tauto]. Qed.

(** Fields the invariant does not constrain beyond their type. *)
Lemma slot_nodelay b t : slot_wf t → slot_wf (t <| tc_nodelay := b |>).
Proof.
  unfold slot_wf. change (tc_active (t <| tc_nodelay := b |>)) with (tc_active t).
  destruct (tc_active t); [|done]. intros [? ? ? ? [] ? ? ? ? ? ? ? ? ? ? ?]. by split.
Qed.

Lemma slot_owner n t : -1 ≤ n < Z.of_nat PF_SOCK_MAX → slot_wf t → slot_wf (t <| tc_sock_idx := n |>).
Proof.
  intros Hn. unfold slot_wf. change (tc_active (t <| tc_sock_idx := n |>)) with (tc_active t).
  destruct (tc_active t); [|intros (? & _ & ?); done]. intros [? ? ? ? [] ? ? ? ? ? ? ? ? ? ? ?]. by split.
Qed.

Lemma slot_accepted n t :
  -1 ≤ n < Z.of_nat PF_SOCK_MAX → slot_wf t → slot_wf (t <| tc_sock_idx := n |> <| tc_listener := None |>).
Proof.
  intros Hn Ht%(slot_owner n); [|done]. revert Ht. generalize (t <| tc_sock_idx := n |>). clear t. intros t.
  unfold slot_wf. change (tc_active (t <| tc_listener := None |>)) with (tc_active t).
  destruct (tc_active t); [|done]. intros [? ? ? ? [] ? ? ? ? ? ? ? ? ? ? ?]. by split.
Qed.

Lemma slot_accept_tail t : slot_wf t → slot_wf (t <| tc_acceptq ::= tail |>).
Proof.
  unfold slot_wf. change (tc_active (t <| tc_acceptq ::= tail |>)) with (tc_active t). destruct (tc_active t).
  - intros [? ? ? ? [] ? ? ? ? ? ? ? Ha Hq ? ?]. split; try done; cbn.
    + destruct (tc_acceptq t); cbn in *; lia.
    + destruct (tc_acceptq t); [done|]. by apply Forall_cons in Hq as [_ ?].
  - intros [(Hs & Hb & Hl & Hq) Hr]. split; [|exact Hr]. split_and!; try done. cbn. by rewrite Hq.
Qed.

Lemma slot_seg_sent flags t : slot_wf t → slot_wf (tcp_seg_sent flags t).
Proof.
  intros H. unfold slot_wf in *.
  assert (tc_active (tcp_seg_sent flags t) = tc_active t) as -> by (unfold tcp_seg_sent; by destruct (has_flag _ _)).
  destruct (tc_active t); [by apply tcb_wf_seg_sent|]. unfold tcp_seg_sent. by destruct (has_flag _ _).
Qed.

(** ** Close and abort *)

(** Aborting any slot, also one that has been released meanwhile. *)
Lemma wp_tcp_app_abort_wf c w :
  stack_wf w → (c < TCP_MAX_CONNS)%nat → wp (tcp_app_abort c) (fun _ w' => stack_wf w') w.
Proof.
  intros Hw Hc. destruct (tcb_of w c Hw Hc) as (t & Ht & Hs). destruct (slot_ips t Hs).
  assert (∀ w1 t1, stack_wf w1 → tcbs w1 !! c = Some t1 → wp (tcb_free c) (fun _ w' => stack_wf w') w1) as Hfree.
  { intros w1 t1 Hw1 Ht1. eapply wp_mono; [eapply wp_tcb_free; [apply Hw1|apply Hw1|exact Ht1]|].
    intros [] w2 [C _]. by eapply stack_wf_closing. }
  unfold tcp_app_abort. wp_step. eapply wp_get_tcb; [done|]. wp_step. apply wp_when; [|intros _; by eapply Hfree].
  intros _. eapply wp_tcp_send_ctl_any; [apply Hw|done|done|done|by vm_compute|]. intros w1 S1 _.
  eapply Hfree; [|by eapply tcb_step_lookup]. eapply stack_wf_tcb_step; [done|exact S1|by apply slot_seg_sent].
Qed.

(** The connection after the application closed it. *)
Lemma tcb_wf_fin s t :
  tcb_wf t → tc_state t = TCP_ESTABLISHED ∧ s = TCP_FIN_WAIT_1 ∨ tc_state t = TCP_CLOSE_WAIT ∧ s = TCP_LAST_ACK →
  tcb_wf (t <| tc_state := s |> <| tc_fin_queued := true |>).
Proof.
  intros [? ? ? ? [] ? ? ? ? ? Hsnd ? ? ? Hl ?] Hs. split; try done.
  - cbn. by destruct Hs as [[_ ->]|[_ ->]].
  - destruct Hsnd as (Hu & Hn & Hlen & Hst). unfold snd_ok. cbn. split_and!; try done; try apply Hu; try apply Hn; try apply Hlen.
    destruct Hs as [[E ->]|[E ->]]; rewrite E in Hst; destruct Hst as (-> & _ & ?); done.
  - intros l El. destruct (Hl l El) as [? _]. split; [done|]. cbn. by destruct Hs as [[_ ->]|[_ ->]].
Qed.

Lemma wp_tcp_app_close_wf c t w :
  stack_wf w → tcbs w !! c = Some t → tc_state t ≠ TCP_SYN_RCVD →
  wp (tcp_app_close c) (fun _ w' => stack_wf w') w.
Proof.
  intros Hw Ht Hs. unfold tcp_app_close. wp_step. eapply wp_get_tcb; [done|]. cbv zeta.
  pose proof (tcp_wf_slot _ _ _ _ (iw_twf _ Hw) Ht) as Hslot.
  assert (wp (tcb_free c) (fun _ w' => stack_wf w') w) as Hfree.
  { eapply wp_mono; [eapply wp_tcb_free; [apply Hw|apply Hw|exact Ht]|].
    intros [] w2 [C _]. by eapply stack_wf_closing. }
  assert (∀ s, tc_state t = TCP_ESTABLISHED ∧ s = TCP_FIN_WAIT_1 ∨ tc_state t = TCP_CLOSE_WAIT ∧ s = TCP_LAST_ACK →
    wp (upd_tcb c (fun t => t <| tc_state := s |> <| tc_fin_queued := true |>);; tcp_output c)
      (fun _ w' => stack_wf w') w) as Hclose.
  { intros s Hcase. assert (tc_state t ≠ TCP_CLOSED) as Hne by (by destruct Hcase as [[-> _]|[-> _]]).
    destruct (slot_open t Hslot Hne) as [Ha Hwf]. pose proof (tcb_wf_fin s t Hwf Hcase) as Hwf'.
    wp_step. eapply wp_upd_tcb_wf; [done|done|by apply slot_wf_active|]. intros w1 Hw1 S1.
    eapply wp_tcp_output; [apply Hw1|exact (tcb_step_lookup _ _ _ _ _ Ht S1)|exact Hwf'|].
    intros w2 t2 S2 D2. eapply stack_wf_tcb_step; [exact Hw1|exact S2|]. apply slot_wf_active; [|apply D2].
    transitivity (tc_active t); [exact (f_equal tc_active (od_rest _ _ D2))|done]. }
  destruct (tc_state t) eqn:Es; try (by wp_step); try exact Hfree; try done; apply Hclose; auto.
Qed.

(** ** Opening *)

(** A listening block: fresh but for identity, owner and backlog. *)
Record listening (t : tcp_cb) : Prop := {
  li_bufs : zlen (tc_sndbuf t) = TCP_SNDBUF ∧ bytes_ok (tc_sndbuf t) ∧
            zlen (tc_rcvbuf t) = TCP_RCVBUF ∧ bytes_ok (tc_rcvbuf t);
  li_rings : tc_snd_head t = 0 ∧ tc_snd_len t = 0 ∧ tc_rcv_head t = 0 ∧ tc_rcv_len t = 0 ∧ tc_ooo t = [];
  li_cc : tc_cwnd t = 2144 ∧ tc_ssthresh t = 0xffffffff ∧ tc_srtt_ms t = -1 ∧ tc_rto_ms t = 1000;
  li_accept : tc_acceptq t = [] ∧ 0 ≤ tc_backlog t ≤ TCP_ACCEPT_QLEN;
  li_seq : u32_ok (tc_snd_una t) ∧ u32_ok (tc_snd_nxt t) ∧ u32_ok (tc_rcv_nxt t);
  li_ips : u32_ok (tc_local_ip t) ∧ u32_ok (tc_remote_ip t);
  li_peer : tc_mss t = TCP_DEFAULT_MSS ∧ tc_snd_wnd t = 0 ∧ tc_listener t = None;
  li_sock : -1 ≤ tc_sock_idx t < Z.of_nat PF_SOCK_MAX;
  li_state : tc_state t = TCP_LISTEN ∧ tc_active t = true;
}.

Lemma listening_wf t : listening t → slot_wf t.
Proof.
  intros [(B1 & B2 & B3 & B4) (R1 & R2 & R3 & R4 & R5) (C1 & C2 & C3 & C4) (A1 & A2) (Q1 & Q2 & Q3) Hip
    (P1 & P2 & P3) Hk (S1 & S2)].
  apply slot_wf_active; [done|]. split; rewrite ?S1, ?R1, ?R5, ?C1, ?C2, ?C4, ?A1, ?P1, ?P2; try done; try wrap_lia.
  - split; rewrite ?R3, ?R4, ?R5; try done; wrap_lia.
  - unfold snd_ok. rewrite S1, R2. split_and!; try done; try apply Q1; try apply Q2; wrap_lia.
  - split; [by left|wrap_lia].
  - intros l E. congruence.
Qed.

Lemma opened_listening t sock ip port b :
  fresh_tcb t → tc_mss t = TCP_DEFAULT_MSS ∧ tc_snd_wnd t = 0 ∧ tc_listener t = None →
  u32_ok (tc_snd_una t) ∧ u32_ok (tc_snd_nxt t) ∧ u32_ok (tc_rcv_nxt t) ∧ u32_ok (tc_remote_ip t) →
  0 ≤ sock < Z.of_nat PF_SOCK_MAX → u32_ok ip → 0 ≤ b →
  listening (t <| tc_state := TCP_LISTEN |> <| tc_sock_idx := sock |> <| tc_local_ip := ip |>
               <| tc_local_port := port |>
               <| tc_backlog := u16 (Z.min (if b =? 0 then 1 else b) TCP_ACCEPT_QLEN) |>).
Proof.
  intros [F1 F2 F3 [F4 _] _ F6] Hp (Q1 & Q2 & Q3 & Q4) Hk Hip Hb. split.
  - exact F1.
  - exact F2.
  - exact F3.
  - split; [exact F4|]. change (0 ≤ u16 (Z.min (if b =? 0 then 1 else b) TCP_ACCEPT_QLEN) ≤ TCP_ACCEPT_QLEN).
    destruct (Z.eqb_spec b 0); wrap_lia.
  - split; [exact Q1|]. split; [exact Q2|exact Q3].
  - split; [exact Hip|exact Q4].
  - exact Hp.
  - change (-1 ≤ sock < Z.of_nat PF_SOCK_MAX). lia.
  - split; [reflexivity|exact F6].
Qed.

Lemma wp_tcp_open_listen_wf sock ip port b (Q : option nat → world → Prop) w :
  stack_wf w → 0 ≤ sock < Z.of_nat PF_SOCK_MAX → u32_ok ip → 0 ≤ b →
  (∀ r w', stack_wf w' → w_socks w' = w_socks w → (∀ c, r = Some c → (c < TCP_MAX_CONNS)%nat) → Q r w') →
  wp (tcp_open_listen sock ip port b) Q w.
Proof.
  intros Hw Hk Hip Hb HQ. unfold tcp_open_listen. wp_step. apply wp_tcb_alloc; [apply Hw| |wp_step; by apply HQ].
  intros i t0 w1 Hi _ S1. pose proof (tcb_step_lookup _ _ _ _ _ Hi S1) as Hi1. wp_step.
  eapply wp_upd_tcb; [exact Hi1|]. set (w2 := set_tcp w1 _).
  pose proof (tcb_step_trans i w w1 w2 _ _ S1 (tcb_step_set _ _ _ (ls_net _ _ _ _ S1))) as S2. clearbody w2.
  wp_step. apply HQ; [|apply S2|intros c [= <-]; by eapply tcp_wf_index; [apply Hw|]].
  eapply stack_wf_tcb_step; [exact Hw|exact S2|]. apply listening_wf.
  apply opened_listening; [apply tcb_fresh_ok|split_and!; reflexivity|split_and!; vm_compute; congruence|done..].
Qed.

Lemma syn_sent_embryo t sock lip lport rip rport iss :
  fresh_tcb t → tc_mss t = TCP_DEFAULT_MSS ∧ tc_snd_wnd t = 0 ∧ tc_listener t = None → u32_ok (tc_rcv_nxt t) →
  0 ≤ sock < Z.of_nat PF_SOCK_MAX → u32_ok lip → u32_ok rip → u32_ok iss →
  embryo (tcp_syn_sent sock lip lport rip rport iss t).
Proof.
  intros [] (P1 & P2 & P3) Hr Hk Hl Hrip Hiss. split.
  - split; assumption.
  - left. reflexivity.
  - split; [exact Hiss|split; reflexivity].
  - exact Hr.
  - split; [exact Hl|exact Hrip].
  - change (1 ≤ tc_mss t ≤ TCP_OUR_MSS). rewrite P1. wrap_lia.
  - change (u16_ok (tc_snd_wnd t)). rewrite P2. done.
  - change (-1 ≤ sock < Z.of_nat PF_SOCK_MAX). lia.
  - intros l E. change (tc_listener t = Some l) in E. congruence.
Qed.

Lemma wp_tcp_open_active_wf sock lip lport rip rport (Q : option nat → world → Prop) w :
  stack_wf w → 0 ≤ sock < Z.of_nat PF_SOCK_MAX → u32_ok lip → u32_ok rip →
  (∀ r w', stack_wf w' → w_socks w' = w_socks w → w_now w' = w_now w →
     (∀ c, r = Some c → (c < TCP_MAX_CONNS)%nat) → Q r w') →
  wp (tcp_open_active sock lip lport rip rport) Q w.
Proof.
  intros Hw Hk Hlip Hrip HQ. unfold tcp_open_active. wp_step. apply wp_tcb_alloc; [apply Hw| |wp_step; by apply HQ].
  intros c t0 w1 Hc _ S1. wp_step. apply wp_tcp_gen_iss; [apply S1|]. intros w2 iss Hiss H2.
  rewrite (ls_socks _ _ _ _ S1), (ls_tcp _ _ _ _ S1) in H2. cbn [put_tcb tg_tcbs] in H2.
  pose proof (l4_step_trans _ _ _ _ _ _ _ S1 H2) as H2'.
  change (mk_tcpg _ iss) with (put_tcb (mk_tcpg (tcbs w) iss) c tcb_fresh) in H2'.
  set (g := mk_tcpg (tcbs w) iss) in *. assert (tg_tcbs g !! c = Some t0) as Hgc by exact Hc.
  wp_step. eapply wp_upd_tcb; [by eapply (l4_step_put_lookup w w2 _ g)|]. set (w3 := set_tcp w2 _).
  set (t3 := tcp_syn_sent _ _ _ _ _ _ tcb_fresh) in *.
  pose proof (l4_step_put _ _ w3 _ _ _ _ _ H2' (tcb_step_set _ _ _ (ls_net _ _ _ _ H2'))) as H3.
  assert (embryo t3) as He.
  { apply syn_sent_embryo; [apply tcb_fresh_ok|split_and!; reflexivity|vm_compute; split; congruence|done..]. }
  clearbody t3 w3. wp_step. apply wp_stat_inc. intros w4 E4 _ _.
  pose proof (l4_step_put _ _ w4 _ _ _ _ _ H3 ltac:(apply tcb_step_same;
    [by eapply (l4_step_put_lookup w w3 _ g)|eapply net_wf_tx; [apply H3|done]|done])) as H4.
  wp_step. eapply wp_tcp_send_ctl; [apply H4|by eapply (l4_step_put_lookup w w4 _ g)|by apply embryo_wf|by vm_compute|].
  intros w5 S5 _. pose proof (l4_step_put _ _ w5 _ _ _ _ _ H4 S5) as H5. wp_step. wp_step. wp_step.
  eapply wp_upd_tcb; [by eapply (l4_step_put_lookup w w5 _ g)|]. set (w6 := set_tcp w5 _).
  pose proof (l4_step_put _ _ w6 _ _ _ _ _ H5 (tcb_step_set _ _ _ (ls_net _ _ _ _ H5))) as H6. clearbody w6.
  wp_step. destruct (embryo_wf _ (arm_embryo (w_now w5) _ (seg_sent_embryo TCP_SYN t3 He))) as [Hwf Ha].
  apply HQ; [|apply H6| |intros i [= <-]; by eapply tcp_wf_index; [apply Hw|]].
  - eapply stack_wf_l4; [exact Hw|exact H6|]. apply tcp_wf_put; [|by apply slot_wf_active].
    destruct (iw_twf _ Hw). by split.
  - pose proof (ls_frame _ _ _ _ H6) as F. apply erase_l4_in, erase_in_proj in F as [-> _]. done.
Qed.

(** ** Waiting *)

(** [reaches poll n d w]: from [w] the clock gets to [d] within [n] rounds of
    the event loop, each of which completes and keeps the invariant; without
    an event loop the calls give up at once. *)
Fixpoint reaches (poll : option (PF ())) (n : nat) (d : Z) (w : world) : Prop :=
  d ≤ w_now w ∨
  match poll, n with
  | None, S _ => True
  | Some p, S n => ∃ w', p w = Ok ((), w') ∧ stack_wf w' ∧ reaches poll n d w'
  | _, O => False
  end.

(** The deadline of a call that starts at [now]. *)
Definition deadline_of (now timeout_ms : Z) : Z := if timeout_ms <? 0 then 2 ^ 64 - 1 else u64 (now + timeout_ms).

(** A call that starts at [now] is pumped past its deadline within [n] rounds,
    wherever it starts waiting. *)
Definition returns_in (poll : option (PF ())) (n : nat) (now timeout_ms : Z) : Prop :=
  ∀ w, stack_wf w → w_now w = now → reaches poll n (deadline_of now timeout_ms) w.

Lemma sock_of w i : stack_wf w → (i < PF_SOCK_MAX)%nat → ∃ k, socks w !! i = Some k.
Proof.
  intros Hw Hi. apply lookup_lt_is_Some_2. by rewrite (tw_len _ (tp_socktab _ _ (iw_twf _ Hw))).
Qed.

Lemma wp_tcp_sock_get_wf sock (Q : option nat → world → Prop) w :
  stack_wf w → Q None w →
  (0 ≤ sock < Z.of_nat PF_SOCK_MAX → ∀ k, socks w !! Z.to_nat sock = Some k → sk_type k = PF_SOCK_TCP →
     Q (Some (Z.to_nat sock)) w) →
  wp (tcp_sock_get sock) Q w.
Proof.
  intros Hw HN HS. unfold tcp_sock_get, pf_sock_get. destruct (_ || _) eqn:Hr; [by wp_steps|].
  apply orb_false_iff in Hr as [Hr1%Z.ltb_ge Hr2%Z.leb_gt].
  destruct (sock_of w (Z.to_nat sock) Hw) as [k Hk]; [lia|].
  wp_step. wp_step. eapply wp_get_sock; [done|]. wp_step. destruct (decide _); [by wp_step|].
  wp_step. eapply wp_get_sock; [done|]. wp_step. destruct (decide _); [|done]. by eapply HS.
Qed.

(** One turn of a waiting loop: [keep] continues it, [stop] gives up. *)
Lemma wp_wait_turn {A} poll n d (cont : nat → PF A) (stop : PF A) (Q : A → world → Prop) w :
  stack_wf w → reaches poll n d w →
  wp stop Q w → (∀ n' w', n = S n' → stack_wf w' → reaches poll n' d w' → wp (cont n') Q w') →
  wp (now ← pf_now_ms;
      if d <=? now then stop
      else match n with
           | O => lift (Err OutOfFuel)
           | S n' => ok ← pump poll; if ok : bool then cont n' else stop
           end) Q w.
Proof.
  intros Hw Hr Hstop Hcont. wp_step. wp_step. destruct (Z.leb_spec d (w_now w)); [done|].
  destruct n as [|n]; [destruct Hr as [?|Hr]; [lia|by destruct poll]|].
  destruct Hr as [?|Hr]; [lia|]. wp_step. destruct poll as [p|]; cbn [pump]; [|by wp_step].
  destruct Hr as (w' & Hp & Hw' & Hr). wp_step. unfold wp at 1. rewrite Hp. wp_step. by apply Hcont.
Qed.

Section calls.
Context (poll : option (PF ())).

Lemma wp_accept_wait fuel i l d w :
  stack_wf w → (i < PF_SOCK_MAX)%nat → (l < TCP_MAX_CONNS)%nat → reaches poll fuel d w →
  wp (accept_wait fuel poll i l d)
    (fun r w' => stack_wf w' ∧ (r = None → ∃ t, tcbs w' !! l = Some t ∧ tc_acceptq t ≠ [])) w.
Proof.
  intros Hw Hi Hl. revert w Hw. induction fuel as [|fuel IH]; intros w Hw Hr;
    destruct (tcb_of w l Hw Hl) as (t & Ht & _), (sock_of w i Hw Hi) as [k Hk];
    cbn [accept_wait]; wp_step; (eapply wp_get_tcb; [done|]);
    (destruct (tc_acceptq t) eqn:Eq; [|wp_step; split; [done|]; intros _; exists t; by rewrite Eq]);
    wp_step; (eapply wp_get_sock; [done|]); (destruct (sk_tcb k); [|wp_step; by split]).
  - apply (wp_wait_turn poll 0 d (fun _ => mret (Some (-2)))); [done|done|wp_step; by split|by intros].
  - apply (wp_wait_turn poll (S fuel) d (fun f => accept_wait f poll i l d)); [done|done|wp_step; by split|].
    intros n' w' [= <-] Hw' Hr'. by apply IH.
Qed.

Lemma wp_pf_socket_open type (Q : Z → world → Prop) w :
  stack_wf w →
  (∀ ns w', stack_wf w' → w_tcp w' = w_tcp w → ns < Z.of_nat PF_SOCK_MAX →
     (0 ≤ ns → ∃ k, socks w' !! Z.to_nat ns = Some k ∧ sk_type k = type) → Q ns w') →
  wp (pf_socket type) Q w.
Proof.
  intros Hw HQ. unfold pf_socket. destruct (decide _); [wp_step; by apply HQ|]. wp_step. wp_step.
  destruct (list_find _ _) as [[i k]|] eqn:Hf; [|wp_step; by apply HQ].
  apply list_find_Some in Hf as (Hk & _). wp_step. eapply wp_upd_sock; [done|]. wp_step.
  pose proof (lookup_lt_Some _ _ _ Hk) as Hi. rewrite (tw_len _ (tp_socktab _ _ (iw_twf _ Hw))) in Hi.
  apply HQ; [|done|lia|].
  - apply stack_wf_set_socks; [done|]. apply tcp_wf_put_sock; [apply Hw| |done]. split; cbn; try lia; done.
  - intros _. rewrite Nat2Z.id. eexists. split; [apply list_lookup_insert_eq; by eapply lookup_lt_Some|done].
Qed.

Lemma wp_accept_take l t w :
  stack_wf w → tcbs w !! l = Some t → tc_acceptq t ≠ [] → wp (accept_take l) (fun _ w' => stack_wf w') w.
Proof.
  intros Hw Ht Hq. pose proof (tcp_wf_slot _ _ _ _ (iw_twf _ Hw) Ht) as Hs. unfold accept_take.
  wp_step. eapply wp_get_tcb; [done|]. wp_step.
  assert (∃ child, head (tc_acceptq t) = Some child ∧ (child < TCP_MAX_CONNS)%nat) as (child & Hh & Hc).
  { unfold slot_wf in Hs. destruct (tc_active t); [|by destruct Hs as [(_ & _ & _ & E) _]].
    pose proof (tb_acceptq _ Hs) as Hf. destruct (tc_acceptq t) as [|x q]; [done|]. exists x. split; [done|].
    by apply Forall_cons in Hf as [? _]. }
  eapply wp_lift; [by rewrite Hh|]. wp_step. eapply wp_upd_tcb_wf; [done|done|by apply slot_accept_tail|].
  intros w1 Hw1 _. wp_step. apply wp_pf_socket_open; [done|]. intros ns w2 Hw2 _ Hns Hty.
  destruct (Z.ltb_spec ns 0).
  { wp_step. eapply wp_mono; [by apply wp_tcp_app_abort_wf|]. intros [] w3 Hw3. by wp_step. }
  destruct (tcb_of w2 child Hw2 Hc) as (c & Hcc & Hcs). destruct (slot_ips c Hcs) as [Hlip _].
  wp_step. eapply wp_get_tcb; [done|]. wp_step.
  destruct (Hty ltac:(lia)) as (k & Hk & Hkt). destruct (sock_at_wf _ _ _ Hw2 Hk) as [[] _].
  eapply wp_upd_sock; [exact Hk|]. set (w3 := set_socks w2 _).
  assert (stack_wf w3) as Hw3.
  { apply stack_wf_set_socks; [done|]. apply tcp_wf_put_sock; [apply Hw2|by split|]. by intros ? [= <-]. }
  assert (tcbs w3 !! child = Some c) as Hc3 by done. clearbody w3.
  wp_step. eapply wp_upd_tcb_wf; [exact Hw3|exact Hc3|apply slot_accepted; [lia|done]|]. intros w4 Hw4 _. by wp_step.
Qed.

Lemma wp_pf_accept_wf fuel sock timeout w :
  stack_wf w → reaches poll fuel (deadline_of (w_now w) timeout) w →
  wp (pf_accept fuel poll sock timeout) (fun _ w' => stack_wf w') w.
Proof.
  intros Hw Hr. unfold pf_accept. wp_step. apply wp_tcp_sock_get_wf; [done|by wp_step|]. intros Hs k Hk Hty.
  wp_step. eapply wp_get_sock; [done|]. destruct (sk_tcb k) as [l|] eqn:El; [|by wp_step].
  pose proof (proj2 (sock_at_wf _ _ _ Hw Hk) l El) as Hl. destruct (tcb_of w l Hw Hl) as (t & Ht & _).
  wp_step. eapply wp_get_tcb; [done|]. destruct (negb _); [by wp_step|]. unfold timeout_deadline. do 3 wp_step. wp_step.
  wp_step. eapply wp_mono; [apply wp_accept_wait; [done|lia|done|exact Hr]|]. intros [rc|] w1 [Hw1 Hq]; [by wp_step|].
  destruct (Hq eq_refl) as (t1 & Ht1 & Hne). by eapply wp_accept_take.
Qed.

Lemma wp_connect_bind i k dst (Q : option Z → world → Prop) w :
  stack_wf w → socks w !! i = Some k →
  (∀ r w' k', stack_wf w' → socks w' !! i = Some k' → w_now w' = w_now w → sk_type k' = sk_type k →
     (∀ ip, r = Some ip → u32_ok ip) → Q r w') →
  wp (connect_bind i dst) Q w.
Proof.
  intros Hw Hk HQ. unfold connect_bind. wp_step. eapply wp_get_sock; [done|]. wp_step.
  eapply (wp_mono _ (fun r w' => w' = w ∧ ∀ ip, r = Some ip → u32_ok ip)).
  { destruct (_ =? 0).
    - wp_step. apply wp_ip_route_lookup; [apply Hw|]. intros r _ Hr. destruct r as [[dev nh]|]; [|by wp_step].
      destruct (Hr _ _ eq_refl) as (nd & Hnd).
      wp_step. eapply wp_get_dev; [by apply dev_at_of_lookup|]. intros nd' (_ & E & _)%clear_st_proj. wp_step.
      split; [done|]. intros ip [= <-]. rewrite E.
      apply (Forall_lookup_1 _ _ _ _ (lw_devs _ (nw_link _ (iw_net _ Hw))) Hnd).
    - wp_step. split; [done|]. intros ip [= <-]. apply (sock_at_wf _ _ _ Hw Hk). }
  intros [lip|] ? [-> Hlip]; [|wp_step; by eapply HQ]. wp_step.
  eapply wp_sock_autobind_wf; [done|done|]. intros b w1 k1 Hw1 Hk1 Hn1 Ht1. destruct b; cbn [negb]; [|wp_step; by eapply HQ].
  wp_step. destruct (sock_at_wf _ _ _ Hw1 Hk1) as [[] Hc]. pose proof (Hlip _ eq_refl).
  eapply wp_upd_sock_wf; [done|exact Hk1|by split|exact Hc|]. intros w2 Hw2 Hk2 Hn2. wp_step.
  eapply HQ; [done|exact Hk2|congruence|done|done].
Qed.

Lemma wp_connect_wait fuel i d w :
  stack_wf w → (i < PF_SOCK_MAX)%nat → reaches poll fuel d w →
  wp (connect_wait fuel poll i d) (fun _ w' => stack_wf w') w.
Proof.
  intros Hw Hi. revert w Hw.
  assert (∀ w, stack_wf w → wp (s ← get_sock i;
    match sk_tcb s with
    | Some c => tcp_app_abort c;; upd_sock i (set_field sk_tcb (fun _ => None))
    | None => mret ()
    end;; mret (-2)) (fun _ w' => stack_wf w') w) as Hstop.
  { intros w Hw. destruct (sock_of w i Hw Hi) as [k Hk]. wp_step. eapply wp_get_sock; [done|].
    destruct (sk_tcb k) as [c|] eqn:Ec; [|by wp_steps].
    wp_step. wp_step. eapply wp_mono; [apply wp_tcp_app_abort_wf; [done|by eapply sock_at_wf]|]. intros [] w1 Hw1.
    destruct (sock_of w1 i Hw1 Hi) as [k1 Hk1]. destruct (sock_at_wf _ _ _ Hw1 Hk1) as [[] _].
    eapply wp_upd_sock_wf; [done|exact Hk1|by split|done|]. intros w2 Hw2 _ _. by wp_step. }
  induction fuel as [|fuel IH]; intros w Hw Hr;
    destruct (sock_of w i Hw Hi) as [k Hk];
    cbn [connect_wait]; wp_step; (eapply wp_get_sock; [done|]);
    (destruct (sk_tcb k) as [c|] eqn:Ec; [|by wp_step]);
    destruct (tcb_of w c Hw (proj2 (sock_at_wf _ _ _ Hw Hk) c Ec)) as (t & Ht & _);
    wp_step; (eapply wp_get_tcb; [done|]); (destruct (bool_decide _); [by wp_step|]); cbv zeta.
  - apply (wp_wait_turn poll 0 d (fun _ => mret (-2))); [done|done|by apply Hstop|by intros].
  - apply (wp_wait_turn poll (S fuel) d (fun f => connect_wait f poll i d)); [done|done|by apply Hstop|].
    intros n' w' [= <-] Hw' Hr'. by apply IH.
Qed.

Lemma wp_pf_connect_wf fuel sock ip port timeout w :
  stack_wf w → u32_ok ip →
  returns_in poll fuel (w_now w) timeout →
  wp (pf_connect fuel poll sock ip port timeout) (fun _ w' => stack_wf w') w.
Proof.
  intros Hw Hip Hr. unfold pf_connect. wp_step. apply wp_tcp_sock_get_wf; [done|by wp_step|]. intros Hs k Hk Hty.
  wp_step. eapply wp_get_sock; [done|]. destruct (_ || _); [by wp_step|]. wp_step.
  eapply wp_connect_bind; [done|done|]. intros r w1 k1 Hw1 Hk1 Hn1 Ht1 Hl. destruct r as [lip|]; [|by wp_step].
  wp_step. eapply wp_get_sock; [done|]. wp_step.
  apply wp_tcp_open_active_wf; [done|done|by apply Hl|done|]. intros r w2 Hw2 Es Hn2 Hrc.
  assert (socks w2 !! Z.to_nat sock = Some k1) as Hk2 by (by rewrite Es). wp_step.
  destruct (sock_at_wf _ _ _ Hw2 Hk2) as [[] _].
  eapply wp_upd_sock_wf; [done|exact Hk2|split; try done; by intros []; rewrite <- Hty|exact Hrc|]. intros w3 Hw3 _ Hn3.
  destruct r as [c|]; [|by wp_step]. unfold timeout_deadline. do 3 wp_step. wp_step.
  apply wp_connect_wait; [done|lia|]. replace (w_now w3) with (w_now w) by congruence. apply Hr; [done|congruence].
Qed.

(** What a read returns. *)
Definition stream_ok (r : stream_result) (cap : Z) : Prop :=
  match r with StreamData data => bytes_ok data ∧ zlen data ≤ cap | _ => True end.

Lemma wp_recv_take_data c t cap w :
  stack_wf w → tcbs w !! c = Some t → 0 < tc_rcv_len t → 0 ≤ cap < 2 ^ 32 →
  wp (recv_take c cap) (fun r w' => stack_wf w' ∧ stream_ok r cap) w.
Proof.
  intros Hw Ht Hl Hcap. pose proof (tcp_wf_slot _ _ _ _ (iw_twf _ Hw) Ht) as Hs. unfold slot_wf in Hs.
  destruct (tc_active t) eqn:Ha; [|destruct Hs as [(_ & _ & ? & _) _]; lia].
  eapply wp_recv_take; [apply Hw|done|done|done|]. intros w1 t1 S1 Hwf1 Ha1 _ _ _ _ _. split.
  - eapply stack_wf_tcb_step; [exact Hw|exact S1|]. apply slot_wf_active; [congruence|done].
  - split; [apply Forall_take, ring_data_ok, (tb_rcv _ Hs)|rewrite length_take; lia].
Qed.

Lemma wp_recv_loop fuel i cap d w :
  stack_wf w → (i < PF_SOCK_MAX)%nat → 0 ≤ cap < 2 ^ 32 → reaches poll fuel d w →
  wp (recv_loop fuel poll i cap d) (fun _ w' => stack_wf w') w.
Proof.
  intros Hw Hi Hcap. revert w Hw. induction fuel as [|fuel IH]; intros w Hw Hr;
    destruct (sock_of w i Hw Hi) as [k Hk];
    cbn [recv_loop]; wp_step; (eapply wp_get_sock; [done|]);
    (destruct (sk_tcb k) as [c|] eqn:Ec; [|by wp_step]);
    destruct (tcb_of w c Hw (proj2 (sock_at_wf _ _ _ Hw Hk) c Ec)) as (t & Ht & _);
    wp_step; (eapply wp_get_tcb; [done|]);
    (destruct (Z.ltb_spec 0 (tc_rcv_len t)); [eapply wp_mono; [by eapply wp_recv_take_data|]; by intros r w' [? _]|]);
    (destruct (tc_rcv_eof t); [by wp_step|]).
  - apply (wp_wait_turn poll 0 d (fun _ => mret StreamTimeout)); [done|done|by wp_step|by intros].
  - apply (wp_wait_turn poll (S fuel) d (fun f => recv_loop f poll i cap d)); [done|done|by wp_step|].
    intros n' w' [= <-] Hw' Hr'. by apply IH.
Qed.

Lemma wp_pf_recv_wf fuel sock cap timeout w :
  stack_wf w → 0 ≤ cap < 2 ^ 32 → reaches poll fuel (deadline_of (w_now w) timeout) w →
  wp (pf_recv fuel poll sock cap timeout) (fun _ w' => stack_wf w') w.
Proof.
  intros Hw Hcap Hr. unfold pf_recv. wp_step. apply wp_tcp_sock_get_wf; [done|by wp_step|]. intros Hs k Hk Hty.
  unfold timeout_deadline. do 3 wp_step. wp_step. apply wp_recv_loop; [done|lia|done|exact Hr].
Qed.

Lemma wp_recvfrom_loop fuel i cap d w :
  stack_wf w → (i < PF_SOCK_MAX)%nat → reaches poll fuel d w →
  wp (recvfrom_loop fuel poll i cap d) (fun _ w' => stack_wf w') w.
Proof.
  intros Hw Hi. revert w Hw. induction fuel as [|fuel IH]; intros w Hw Hr;
    destruct (sock_of w i Hw Hi) as [k Hk]; destruct (sock_at_wf _ _ _ Hw Hk) as [Hkw Hc];
    cbn [recvfrom_loop]; wp_step; (eapply wp_get_sock; [done|]);
    (destruct (sk_rxq k) as [|p q] eqn:Hq;
      [|wp_step; eapply wp_upd_sock_wf; [done|exact Hk|by eapply sock_wf_pop|exact Hc|by intros; wp_step]]);
    wp_step; wp_step; (destruct poll as [pl|]; [|by wp_step]);
    (destruct (Z.leb_spec d (w_now w)); [by wp_step|]); (destruct Hr as [?|Hr]; [lia|]); [done|].
  destruct Hr as (w' & Hp & Hw' & Hr). wp_step. unfold wp at 1. rewrite Hp. by apply IH.
Qed.

Lemma wp_pf_recvfrom_blocking fuel sock cap timeout w :
  stack_wf w → reaches poll fuel (deadline_of (w_now w) timeout) w →
  wp (pf_recvfrom fuel poll sock cap timeout) (fun _ w' => stack_wf w') w.
Proof.
  intros Hw Hr. unfold pf_recvfrom, pf_sock_get. destruct (_ || _) eqn:Hb; [by wp_steps|].
  apply orb_false_iff in Hb as [Hr1%Z.ltb_ge Hr2%Z.leb_gt].
  destruct (sock_of w (Z.to_nat sock) Hw) as [k Hk]; [lia|].
  wp_step. wp_step. eapply wp_get_sock; [done|]. wp_step. destruct (decide _); [by wp_step|].
  wp_step. eapply wp_get_sock; [done|]. destruct (negb _); [by wp_step|]. wp_step. wp_step.
  apply wp_recvfrom_loop; [done|lia|exact Hr].
Qed.
End calls.

(** ** The other calls *)

Lemma wp_pf_listen_wf sock backlog w : stack_wf w → wp (pf_listen sock backlog) (fun _ w' => stack_wf w') w.
Proof.
  intros Hw. unfold pf_listen. wp_step. apply wp_tcp_sock_get_wf; [done|by wp_step|]. intros Hs k Hk Hty.
  wp_step. eapply wp_get_sock; [done|]. destruct (_ || _); [by wp_step|]. wp_step.
  destruct (sock_at_wf _ _ _ Hw Hk) as [[Hip Hrx Hrl _] _].
  apply wp_tcp_open_listen_wf; [done|done|done|wrap_lia|]. intros r w1 Hw1 Es Hr. wp_step.
  eapply (wp_upd_sock_wf (Z.to_nat sock) k); [done|by rewrite Es|by split|exact Hr|].
  intros w2 Hw2 _ _. by wp_step.
Qed.

Lemma wp_pf_sock_set_nodelay_wf sock b w : stack_wf w → wp (pf_sock_set_nodelay sock b) (fun _ w' => stack_wf w') w.
Proof.
  intros Hw. unfold pf_sock_set_nodelay. wp_step. apply wp_tcp_sock_get_wf; [done|by wp_step|]. intros Hs k Hk Hty.
  wp_step. eapply wp_get_sock; [done|]. destruct (sk_tcb k) as [c|] eqn:Ec; [|by wp_step].
  destruct (tcb_of w c Hw (proj2 (sock_at_wf _ _ _ Hw Hk) c Ec)) as (t & Ht & Hslot).
  wp_step. eapply wp_upd_tcb_wf; [done|done|by apply slot_nodelay|]. intros w1 Hw1 _. by wp_step.
Qed.

(** Without an event loop a send ends in at most one round per byte. *)
Lemma wp_send_loop fuel i sent rest w :
  stack_wf w → (i < PF_SOCK_MAX)%nat → bytes_ok rest → zlen rest < 2 ^ 32 → zlen rest < Z.of_nat fuel →
  wp (send_loop fuel None i sent rest) (fun _ w' => stack_wf w') w.
Proof.
  revert sent rest w. induction fuel as [|fuel IH]; intros sent rest w Hw Hi Hb Hl Hf; [lia|].
  destruct (sock_of w i Hw Hi) as [k Hk].
  destruct (decide (zlen rest = 0)) as [E0|E0]; [cbn [send_loop]; rewrite (proj2 (Z.eqb_eq _ 0) E0); by wp_step|].
  destruct (sk_tcb k) as [c|] eqn:Ec.
  2: { cbn [send_loop]. rewrite (proj2 (Z.eqb_neq _ 0)) by done. wp_step. eapply wp_get_sock; [done|]. rewrite Ec. by wp_step. }
  destruct (tcb_of w c Hw (proj2 (sock_at_wf _ _ _ Hw Hk) c Ec)) as (t & Ht & Hs).
  destruct (app_open (tc_state t)) eqn:Ho.
  2: { cbn [send_loop]. rewrite (proj2 (Z.eqb_neq _ 0)) by done. wp_step. eapply wp_get_sock; [done|]. rewrite Ec.
       wp_step. eapply wp_get_tcb; [done|]. destruct (_ && _) eqn:Hx; [by wp_step|].
       exfalso. destruct (tc_state t); discriminate. }
  destruct (slot_open t Hs) as [Ha Hwf]; [by intros E; rewrite E in Ho|].
  pose proof (snd_len_range t Hwf) as Hsl.
  assert (0 ≤ tcp_snd_space t) as Hsp by (unfold tcp_snd_space; wrap_lia).
  destruct (decide (tcp_snd_space t = 0)) as [Es|Es].
  { cbn [send_loop]. rewrite (proj2 (Z.eqb_neq _ 0)) by done. wp_step. eapply wp_get_sock; [done|]. rewrite Ec.
    wp_step. eapply wp_get_tcb; [done|]. rewrite Es. destruct (_ && _); cbn [pump]; by wp_steps. }
  eapply wp_send_round; [apply Hw|done|done|done|done|done|done|lia|lia|].
  intros w1 t1 S1 Hwf1 Ha1 _ _ _ _. apply IH; [|done|by apply Forall_drop|rewrite length_drop; lia|rewrite length_drop; lia].
  eapply stack_wf_tcb_step; [exact Hw|exact S1|]. apply slot_wf_active; [congruence|done].
Qed.

Lemma wp_pf_send_wf sock buf w :
  stack_wf w → bytes_ok buf → zlen buf < 2 ^ 32 →
  wp (pf_send (S (length buf)) None sock buf) (fun _ w' => stack_wf w') w.
Proof.
  intros Hw Hb Hl. unfold pf_send. wp_step. apply wp_tcp_sock_get_wf; [done|by wp_step|]. intros Hs k Hk Hty.
  apply wp_send_loop; [done|lia|done|done|lia].
Qed.

(** The owner of a connection whose handshake as responder is not complete;
    closing it is excluded below. *)
Definition closing_early (w : world) (sock : Z) : Prop :=
  ∃ k c t, socks w !! Z.to_nat sock = Some k ∧ sk_tcb k = Some c ∧ tcbs w !! c = Some t ∧ tc_state t = TCP_SYN_RCVD.

Lemma wp_pf_close_wf sock w :
  stack_wf w → ¬ closing_early w sock → wp (pf_close sock) (fun _ w' => stack_wf w') w.
Proof.
  intros Hw Hne. unfold pf_close, pf_sock_get. destruct (_ || _) eqn:Hb; [by wp_steps|].
  apply orb_false_iff in Hb as [Hr1%Z.ltb_ge Hr2%Z.leb_gt].
  destruct (sock_of w (Z.to_nat sock) Hw) as [k Hk]; [lia|]. destruct (sock_at_wf _ _ _ Hw Hk) as [[Hip Hrx Hrl Hst] Hc].
  assert (∀ w1, stack_wf w1 → wp (upd_sock (Z.to_nat sock) (fun _ => zero_sock);; mret 0) (fun _ w' => stack_wf w') w1) as Hend.
  { intros w1 Hw1. destruct (sock_of w1 (Z.to_nat sock) Hw1) as [k1 Hk1]; [lia|]. wp_step.
    eapply wp_upd_sock_wf; [done|exact Hk1|apply zero_sock_wf|done|]. intros w2 Hw2 _ _. by wp_step. }
  wp_step. wp_step. eapply wp_get_sock; [done|]. wp_step. destruct (decide _); [by wp_step|].
  wp_step. eapply wp_get_sock; [done|]. wp_step. destruct (sk_tcb k) as [c|] eqn:Ec; [|wp_step; by apply Hend].
  destruct (tcb_of w c Hw (Hc c eq_refl)) as (t & Ht & Hs).
  wp_step. eapply wp_upd_sock; [exact Hk|]. set (w1 := set_socks w _).
  assert (stack_wf w1) as Hw1.
  { apply stack_wf_set_socks; [done|]. apply tcp_wf_put_sock; [apply Hw|by split|done]. }
  assert (tcbs w1 !! c = Some t) as Ht1 by done. clearbody w1.
  wp_step. eapply wp_upd_tcb_wf; [exact Hw1|exact Ht1|apply slot_owner; [lia|done]|]. intros w2 Hw2 S2.
  eapply wp_mono; [eapply wp_tcp_app_close_wf; [exact Hw2|exact (tcb_step_lookup _ _ _ _ _ Ht1 S2)|]|].
  { intros E. apply Hne. exists k, c, t. split_and!; [done|done|done|exact E]. }
  intros [] w3 Hw3. by apply Hend.
Qed.

(** ** Rounds that advance the clock *)

(** [advances p k]: every round completes, keeps the invariant and takes at
    least [k] milliseconds. *)
Definition advances (p : PF ()) (k : Z) : Prop :=
  ∀ w, stack_wf w → ∃ w', p w = Ok ((), w') ∧ stack_wf w' ∧ w_now w + k ≤ w_now w'.

Lemma advances_reaches p k n d w :
  0 < k → advances p k → stack_wf w → d - w_now w ≤ Z.of_nat n * k → reaches (Some p) n d w.
Proof.
  intros Hk Hp. revert w. induction n as [|n IH]; intros w Hw Hd; cbn [reaches]; [left; lia|].
  right. destruct (Hp w Hw) as (w' & Hrun & Hw' & Ht). exists w'. split; [done|]. split; [done|]. apply IH; [done|lia].
Qed.

(** A round of the event loop in which nothing becomes ready for [k]
    milliseconds. *)
Definition idle_round (k : Z) : PF () :=
  now ← pf_now_ms; set_now (now + k);; now ← pf_now_ms; pf_tick now.

Lemma idle_round_loop conv k eintr reads acc clients c :
  pf_loop_once conv (mk_env (w_now (cw_world c) + k) 0 eintr reads acc clients) c =
  (on_stack (idle_round k);; mret 0) c.
Proof. reflexivity. Qed.

Lemma idle_round_advances k : advances (idle_round k) k.
Proof.
  intros w Hw. enough (wp (idle_round k) (fun _ w' => stack_wf w' ∧ w_now w + k ≤ w_now w') w) as H.
  { destruct (wp_run _ _ _ H) as ([] & w' & ? & ?). eauto. }
  unfold idle_round. do 3 wp_step. apply wp_modify. do 2 wp_step.
  eapply wp_mono; [apply wp_pf_tick; by apply stack_wf_now|]. intros [] w' [Hw' F]. split; [done|].
  apply erase_in_proj in F as [E _]. rewrite <- E. cbn. lia.
Qed.

Lemma advances_returns p k n now timeout :
  0 < k → advances p k → 0 ≤ now → 0 ≤ timeout ≤ Z.of_nat n * k → returns_in (Some p) n now timeout.
Proof.
  intros Hk Hp Hn Ht w Hw <-. eapply advances_reaches; [exact Hk|exact Hp|exact Hw|]. unfold deadline_of.
  destruct (Z.ltb_spec timeout 0); [lia|]. pose proof (Z.mod_le (w_now w + timeout) (2 ^ 64)). unfold u64. lia.
Qed.

(** ** Properties *)

(** C19. The calls that wait always return. When every round of the event loop
    takes at least [k] milliseconds, completes and keeps the invariant, each
    of [pf_accept], [pf_connect], [pf_recv] and [pf_recvfrom] with a timeout
    that [n] such rounds cover ends after at most [n] rounds, from every
    well-formed state and with every handle, valid or not, and the invariant
    of the whole stack still holds. *)
Theorem blocking_calls_return p k n timeout sock w :
  stack_wf w → 0 < k → advances p k → 0 ≤ w_now w → 0 ≤ timeout ≤ Z.of_nat n * k →
  (∃ r w', pf_accept n (Some p) sock timeout w = Ok (r, w') ∧ stack_wf w') ∧
  (∀ ip port, u32_ok ip → ∃ r w', pf_connect n (Some p) sock ip port timeout w = Ok (r, w') ∧ stack_wf w') ∧
  (∀ cap, 0 ≤ cap < 2 ^ 32 → ∃ r w', pf_recv n (Some p) sock cap timeout w = Ok (r, w') ∧ stack_wf w') ∧
  (∀ cap, ∃ r w', pf_recvfrom n (Some p) sock cap timeout w = Ok (r, w') ∧ stack_wf w').
Proof.
  intros Hw Hk Hp Hn Ht. pose proof (advances_returns p k n _ timeout Hk Hp Hn Ht) as Hr.
  pose proof (Hr w Hw eq_refl) as Hr1. split_and!.
  - by apply (wp_run _ _ _ (wp_pf_accept_wf _ n sock timeout w Hw Hr1)).
  - intros ip port Hip. by apply (wp_run _ _ _ (wp_pf_connect_wf _ n sock ip port timeout w Hw Hip Hr)).
  - intros cap Hc. by apply (wp_run _ _ _ (wp_pf_recv_wf _ n sock cap timeout w Hw Hc Hr1)).
  - intros cap. by apply (wp_run _ _ _ (wp_pf_recvfrom_blocking _ n sock cap timeout w Hw Hr1)).
Qed.

Lemma blocking_calls_return_witness :
  ∃ r w', pf_accept 100 (Some (idle_round 10)) 0 1000 demo_tcp_world = Ok (r, w') ∧ stack_wf w'.
Proof.
  exact (proj1 (blocking_calls_return (idle_round 10) 10 100 1000 0 demo_tcp_world demo_tcp_stack_wf
    ltac:(lia) (idle_round_advances 10) ltac:(vm_compute; discriminate) ltac:(lia))).
Defined.
