(* ===== verification/Close.v ===== *)
(** * Orderly release

    Closing one end of a connection and what its peer sees: the rest of the
    queue, then the FIN, and after it end of file. *)

From S2P Require Import Prelude Pf Checksum Pkt Fib Headers Stats Stack Link Arp IpOut Icmp Reass Sock.
From S2P Require Import Udp Tcb TcpOut Tcp TcpInput TcpTimer Deliver Recover TcpSock Fwd Input Core Text Cli Loop Stream.
Import Checksum Pkt Fib Stats.

(** ** Receiving the FIN *)

Definition fin_flags (flags : Z) : Prop :=
  peer_flags flags ∧ has_flag flags TCP_RST = false ∧ has_flag flags TCP_FIN = true.

Lemma fin_acceptable t s :
  tcb_wf t → fin_flags (sg_flags s) → sg_payload s = [] → sg_seq s = tc_rcv_nxt t → 0 < tcp_rcv_window t →
  tcp_acceptable t s = true.
Proof.
  intros Hwf ((_ & _ & Hsyn) & _ & Hfin) Hp Hseq Hw. pose proof (tb_rcv _ Hwf) as Hr.
  pose proof (tcp_rcv_window_eq t Hr) as HW. pose proof (rv_len _ Hr). pose proof (rv_nxt _ Hr).
  unfold tcp_acceptable, sg_seqlen, sg_paylen. rewrite Hsyn, Hfin, Hp, Hseq. cbn [length].
  change (Z.of_nat 0 + 0 + 1 =? 0) with false. cbv beta iota zeta. unfold TCP_RCVBUF in *.
  rewrite (proj2 (Z.ltb_lt 0 _)) by lia. apply orb_true_iff. left.
  rewrite andb_true_iff, seq_ge_iff, seq_lt_iff. split; wrap_lia.
Qed.

(** What the FIN leaves behind. *)
Record fin_received (t t' : tcp_cb) : Prop := {
  fr_state : tc_state t' = TCP_CLOSE_WAIT;
  fr_eof : tc_rcv_eof t' = true;
  fr_data : rcv_data t' = rcv_data t;
  fr_nxt : tc_rcv_nxt t' = u32 (tc_rcv_nxt t + 1);
}.

(** The mark [tcp_input_fin] makes, the acknowledgement and the move to
    CLOSE-WAIT. *)
Definition fin_mark (n : Z) (t : tcp_cb) : tcp_cb :=
  (if bool_decide (tc_state t = TCP_TIME_WAIT) then t else t <| tc_rcv_nxt := u32 (n + 1) |>) <| tc_rcv_eof := true |>.

Lemma fin_mark_ok n t :
  tcb_wf t → tc_state t = TCP_ESTABLISHED →
  tcb_wf (fin_mark n t) ∧ tc_active (fin_mark n t) = tc_active t ∧ tc_state (fin_mark n t) = TCP_ESTABLISHED ∧
  tc_rcv_eof (fin_mark n t) = true ∧ rcv_data (fin_mark n t) = rcv_data t ∧ tc_rcv_nxt (fin_mark n t) = u32 (n + 1).
Proof.
  intros [? ? ? ? [] ? ? ? ? ? ? ? ? ? ? ?] Hst. unfold fin_mark. rewrite bool_decide_eq_false_2 by (by rewrite Hst).
  split_and!; try done. split; try done. split; try done. apply u32_range.
Qed.

Lemma wp_fin_step i w0 t s now w :
  live i w0 w t → tc_state t = TCP_ESTABLISHED → flag_set s TCP_FIN = true → sg_payload s = [] →
  sg_seq s = tc_rcv_nxt t → wp (tcp_input_fin i s now) (fun _ w' => ∃ t', live i w0 w' t' ∧ fin_received t t') w.
Proof.
  intros L Hst Hf Hp Hseq. pose proof (lv_tcb _ _ _ _ L) as Hwf. pose proof (rv_nxt _ (tb_rcv _ Hwf)) as Hn.
  unfold tcp_input_fin, sg_paylen. rewrite Hf, Hp, Hseq. wp_step. eapply wp_get_live; [exact L|]. cbv zeta.
  change (zlen []) with 0. rewrite Z.add_0_r, u32_small, Z.eqb_refl, Hst by done.
  rewrite bool_decide_eq_true_2 by (repeat constructor). cbn [andb].
  destruct (fin_mark_ok (tc_rcv_nxt t) t Hwf Hst) as (F1 & F2 & F3 & F4 & F5 & F6). wp_step.
  eapply (wp_upd_live i w0 (fin_mark (tc_rcv_nxt t)) t); [exact L|exact F1|rewrite F2; apply L|]. intros w1 L1.
  revert L1 F1 F3 F4 F5 F6. clear F2. generalize (fin_mark (tc_rcv_nxt t) t) as t1. intros t1 L1 F1 F3 F4 F5 F6. wp_step.
  eapply wp_ctl_live; [exact L1|by vm_compute|]. intros w2 L2.
  assert (tc_state (tcp_seg_sent TCP_ACK t1) = TCP_ESTABLISHED ∧ tc_rcv_eof (tcp_seg_sent TCP_ACK t1) = true ∧
    rcv_data (tcp_seg_sent TCP_ACK t1) = rcv_data t ∧ tc_rcv_nxt (tcp_seg_sent TCP_ACK t1) = u32 (tc_rcv_nxt t + 1))
    as (G1 & G2 & G3 & G4) by (split_and!; [exact F3|exact F4|exact F5|exact F6]).
  revert L2 G1 G2 G3 G4. generalize (tcp_seg_sent TCP_ACK t1) as t2. intros t2 L2 G1 G2 G3 G4.
  destruct (fin_next_ok now t2 (lv_tcb _ _ _ _ L2) (lv_active _ _ _ _ L2)) as (H1 & H2 & _).
  eapply (wp_upd_live i w0 (fin_next now) t2); [exact L2|exact H1|exact H2|]. intros w3 L3.
  exists (fin_next now t2). split; [exact L3|].
  assert (fin_next now t2 = t2 <| tc_state := TCP_CLOSE_WAIT |>) as -> by (unfold fin_next; by rewrite G1).
  split; [done|exact G2|exact G3|exact G4].
Qed.

Lemma wp_established_fin i w0 t s now w :
  live i w0 w t → tc_state t = TCP_ESTABLISHED → seg_ok s → fin_flags (sg_flags s) → sg_payload s = [] →
  sg_seq s = tc_rcv_nxt t → 0 < tcp_rcv_window t → seq_gt (sg_ack s) (tc_snd_nxt t) = false →
  wp (tcp_input_sync i s now) (fun _ w' => ∃ t', live i w0 w' t' ∧ fin_received t t') w.
Proof.
  intros L Hst Hs Hfl Hp Hseq Hw Hack. pose proof (lv_tcb _ _ _ _ L) as Hwf.
  unfold tcp_input_sync. wp_step. eapply wp_get_live; [done|].
  rewrite (fin_acceptable t s) by done. destruct Hfl as ((_ & Ha & Hsy) & Hrs & Hfi). rewrite Ha, Hsy, Hrs, Hst.
  cbn [negb]. wp_step. rewrite bool_decide_eq_false_2 by done. wp_step. cbn [negb]. wp_step.
  eapply wp_mono; [by apply (wp_tcp_input_ack i w0 t); [|rewrite Hst|]|]. intros go w1 Hpost.
  destruct go; cbn [negb stage_post] in *; [|destruct Hpost as [_ [?|?]]; congruence].
  destruct Hpost as (t1 & L1 & [He1 V1 _ _]). wp_step.
  eapply wp_tcp_input_wnd; [exact L1|done|]. intros w2 t2 L2 E2 V2 _.
  unfold tcp_input_text, sg_paylen. rewrite Hp. change (0 <? zlen []) with false. wp_steps. cbv beta.
  assert (tc_state t2 = TCP_ESTABLISHED) as S2 by (rewrite Hst in He1; inversion He1; congruence).
  rewrite V1 in V2. injection V2 as D2 N2 _ _ _ _ _ _ _.
  eapply wp_mono; [apply (wp_fin_step i w0 t2); [done|done|done|done|congruence]|].
  intros [] w3 (t3 & L3 & [F1 F2 F3 F4]). exists t3. split; [done|]. split; [done|done|congruence|congruence].
Qed.

(** The FIN segment of the peer, as a datagram. *)
Lemma wp_fin_input w q a i t :
  ready w i a t → tcb_wf a → carries a q (tcp_message a (Z.lor TCP_FIN TCP_ACK) (tc_rcv_nxt t) []) →
  0 < tcp_rcv_window t →
  wp (tcp_input q.1 q.2) (fun _ w' => ∃ t', live i w w' t' ∧ fin_received t t') w.
Proof.
  intros Hr Hwa Hq Hw. pose proof (ready_wf _ _ _ _ Hr) as Hwt. destruct Hr as [R1 R2 R3 R4 R5 R6 R7].
  destruct (ack_covered t (tc_rcv_nxt a) Hwt R5 (rv_nxt _ (tb_rcv _ Hwa)) R7) as [Hack _].
  assert (fin_flags (Z.lor TCP_FIN TCP_ACK)) as Hfl by by vm_compute. pose proof (rv_nxt _ (tb_rcv _ Hwt)).
  apply (wp_tcp_input_peer w q a (Z.lor TCP_FIN TCP_ACK) (tc_rcv_nxt t) [] i t); try done.
  intros w1 s now L1 _ Hs [_ D3 D4 D5 D6]. apply wp_established_fin; rewrite ?D4, ?D5; done.
Qed.

Lemma tcp_inputs_app qs1 qs2 (Q : () → world → Prop) w :
  wp (tcp_inputs qs1) (fun _ w' => wp (tcp_inputs qs2) Q w') w → wp (tcp_inputs (qs1 ++ qs2)) Q w.
Proof.
  unfold tcp_inputs. revert w. induction qs1 as [|q qs1 IH]; intros w; cbn [app for_each]; [done|].
  intros H. unfold wp, mbind, M_bind in *. destruct (tcp_input q.1 q.2 w) as [[[] w1]|]; [|done]. by apply IH.
Qed.

(** ** Closing *)

(** The block after the application closed. *)
Definition closed_app (t : tcp_cb) : tcp_cb := t <| tc_state := TCP_FIN_WAIT_1 |> <| tc_fin_queued := true |>.

(** Nothing of the queue is held back: all of it is in flight, or the windows
    cover it and Nagle's rule is off. *)
Definition flushes (a : tcp_cb) : Prop :=
  tc_snd_len a = snd_flight a ∨ tc_nodelay a = true ∧ tc_snd_len a ≤ Z.min (tc_snd_wnd a) (tc_cwnd a).

(** Then [tcp_output] sends the FIN. *)
Lemma flushes_fin w a cs a' w' :
  tcb_wf a → output_state (tc_state a) = true → tc_fin_queued a = true → tc_fin_sent a = false → flushes a →
  out_sent w a cs a' w' → out_done a a' → fin_new a a' = true.
Proof.
  intros Hwf Ho Hq Hf Hfl [_ S2 S3 _ S5 S6] Hd. unfold fin_new in *. rewrite Hf in *. cbn [negb] in *.
  destruct (tc_fin_sent a') eqn:Hf'; [done|]. cbn [andb] in S3. exfalso. enough (false = true) by done.
  apply S6; [done|done|]. pose proof (od_rest _ _ Hd) as E. pose proof (od_wf _ _ Hd) as Hwf'.
  assert (output_state (tc_state a') = true) as Ho' by (by rewrite (od_state _ _ Hd)).
  destruct (snd_ok_output a' (tb_snd _ Hwf') Ho' Hf') as (Hdf & Hb & Hl).
  destruct (snd_ok_output a (tb_snd _ Hwf) Ho Hf) as (_ & Hb0 & _).
  pose proof (out_field E tc_snd_len : tc_snd_len a' = tc_snd_len a) as El. pose proof (od_flight _ _ Hd) as Hge.
  destruct Hfl as [Hall|[Hnd Hw]]; [lia|]. specialize (S5 Ho). revert S5. unfold output_chunk.
  rewrite Hdf, El, Hf', (out_field E tc_nodelay : tc_nodelay a' = tc_nodelay a), Hnd. fold (snd_flight a').
  rewrite (out_field E tc_mss : tc_mss a' = tc_mss a). pose proof (tb_mss _ Hwf) as Hm. unfold TCP_SNDBUF, TCP_OUR_MSS in *.
  rewrite (u32_small (tc_snd_len a - snd_flight a')) by lia. cbv zeta. rewrite orb_false_r.
  destruct (Z.eqb_spec (tc_snd_len a - snd_flight a') 0); [lia|].
  destruct (Z.leb_spec (Z.min (tc_snd_wnd a) (tc_cwnd a)) (snd_flight a')); [lia|].
  cbn [negb andb]. rewrite u16_small by lia. lia.
Qed.

(** What [tcp_app_close] sends on an established connection. *)
Lemma wp_app_close k a w :
  net_wf w → tcbs w !! k = Some a → tcb_wf a → tc_state a = TCP_ESTABLISHED → flushes a →
  wp (tcp_app_close k) (fun _ w' => ∃ a' cs, tcbs w' !! k = Some a' ∧ tc_state a' = TCP_FIN_WAIT_1 ∧ tcb_wf a' ∧
    train_ok a cs ∧ snd_flight a + train_len cs = tc_snd_len a ∧
    hands (tc_local_ip a) (tc_remote_ip a) w
      (train a (snd_flight a) cs ++
       [tcp_message a (Z.lor TCP_FIN TCP_ACK) (u32 (tc_snd_una a + (snd_flight a + train_len cs))) []]) w') w.
Proof.
  intros Hn Hk Hwf Hst Hfl. destruct (tb_snd _ Hwf) as (_ & _ & _ & H). rewrite Hst in H. destruct H as (Hfs & _ & _).
  unfold tcp_app_close. wp_step. eapply wp_get_tcb; [done|]. rewrite Hst. cbv zeta. wp_step.
  eapply wp_upd_tcb; [exact Hk|]. fold (closed_app a).
  pose proof (tcb_wf_fin TCP_FIN_WAIT_1 a Hwf (or_introl (conj Hst eq_refl))) as Hwf1. fold (closed_app a) in Hwf1.
  pose proof (tcb_step_set k w (closed_app a) Hn) as S1. set (w1 := set_tcp w _) in *.
  assert (net_same w w1) as N1 by done. clearbody w1.
  assert (flushes (closed_app a)) as Hfl1 by exact Hfl.
  assert (tc_fin_sent (closed_app a) = false) as Hfs1 by exact Hfs.
  assert (∀ off cs, train (closed_app a) off cs = train a off cs) as Et.
  { intros off cs. revert off. induction cs as [|[flags n] cs IH]; intros off; [done|]. cbn [train]. by rewrite IH. }
  assert (train_ok (closed_app a) = train_ok a) as Eo by done.
  eapply wp_tcp_output_segs; [apply S1|exact (tcb_step_lookup _ _ _ _ _ Hk S1)|exact Hwf1|].
  intros w2 a' cs S2 Hd Hs. pose proof (flushes_fin _ _ _ _ _ Hwf1 eq_refl eq_refl Hfs1 Hfl1 Hs Hd) as Hfin.
  destruct Hs as [T1 T2 T3 T4 _ _]. rewrite Hfin, Et in T1. rewrite Eo in T2. exists a', cs. split_and!.
  - exact (tcb_step_lookup _ _ _ _ _ (tcb_step_lookup _ _ _ _ _ Hk S1) S2).
  - by rewrite (od_state _ _ Hd).
  - apply Hd.
  - exact T2.
  - exact (T4 Hfin).
  - eapply hands_from; [exact N1|]. exact T1.
Qed.

(** ** Properties *)

(** C7. Orderly release. An application closes an established connection whose
    queue nothing holds back. Then the connection moves to FIN-WAIT-1 and the
    segments handed to IP are the rest of the queue and a FIN; whenever
    datagrams carrying them arrive in order at a peer that expects [snd_nxt]
    and has window for them, the peer ends up in CLOSE-WAIT with every queued
    byte readable, in order, and end of file after the last. *)
Theorem tcp_close_delivered ws k a wr i t :
  net_wf ws → tcbs ws !! k = Some a → tcb_wf a → tc_state a = TCP_ESTABLISHED → flushes a →
  ready wr i a t → tc_rcv_nxt t = tc_snd_nxt a → tc_snd_len a - snd_flight a < tcp_rcv_window t →
  ∃ ws' a' segs, tcp_app_close k ws = Ok ((), ws') ∧ tcbs ws' !! k = Some a' ∧ tc_state a' = TCP_FIN_WAIT_1 ∧
    hands (tc_local_ip a) (tc_remote_ip a) ws segs ws' ∧
    ∀ qs, Forall2 (carries a) qs segs →
      ∃ wr' t', tcp_inputs qs wr = Ok ((), wr') ∧ tcbs wr' !! i = Some t' ∧ tcb_wf t' ∧
        tc_state t' = TCP_CLOSE_WAIT ∧ tc_rcv_eof t' = true ∧
        rcv_data t' = rcv_data t ++ drop (Z.to_nat (snd_flight a)) (snd_data a).
Proof.
  intros Hn Hk Hwa Hst Hfl Hr Hnx Hwin. destruct (tb_snd _ Hwa) as (Hu & Hn1 & Hl & Hs).
  rewrite Hst in Hs. destruct Hs as (_ & _ & Hs). fold (snd_flight a) in Hs.
  pose proof (u32_range (tc_snd_nxt a - tc_snd_una a)) as Hf0. fold (snd_flight a) in Hf0.
  destruct (wp_run _ _ _ (wp_app_close k a ws Hn Hk Hwa Hst Hfl)) as
    ([] & ws' & Hrun & a' & cs & Hk' & Hst' & _ & Hok & Hlen & Hh).
  exists ws', a'. eexists. split_and!; [done|done|done|exact Hh|]. intros qs Hq.
  apply Forall2_app_inv_r in Hq as (q1 & q2 & Hq1 & Hq2 & ->).
  apply Forall2_cons_inv_r in Hq2 as (q & q3 & Hq & Hq3 & ->). apply Forall2_nil_inv_r in Hq3 as ->.
  match goal with |- ∃ wr' t', _ = _ ∧ @?P wr' t' => cut (wp (tcp_inputs (q1 ++ [q])) (fun _ w' => ∃ t', P w' t') wr) end.
  { intros ([] & wr' & Hrr & t' & HP)%wp_run. by exists wr', t'. }
  apply tcp_inputs_app. eapply wp_mono; [apply (wp_transfer cs q1 a (snd_flight a) i t wr Hr Hwa Hok); try done; try lia|].
  { unfold snd_flight. wrap_lia. }
  intros [] w1 (t1 & Hr1 & D1 & N1). pose proof (ready_wf _ _ _ _ Hr) as Hwt. pose proof (ready_wf _ _ _ _ Hr1) as Hwt1.
  pose proof (length_snd_data a Hwa) as Hsl.
  assert (take (Z.to_nat (train_len cs)) (drop (Z.to_nat (snd_flight a)) (snd_data a)) =
    drop (Z.to_nat (snd_flight a)) (snd_data a)) as Et by (apply take_ge; rewrite length_drop; lia).
  rewrite Et in D1.
  assert (tcp_rcv_window t1 = tcp_rcv_window t - train_len cs) as Hw1.
  { rewrite !tcp_rcv_window_eq by (by apply tb_rcv). rewrite <- !length_rcv_data by (by apply tb_rcv).
    rewrite D1, length_app, length_drop. lia. }
  unfold tcp_inputs. cbn [for_each]. wp_step. eapply wp_mono; [apply (wp_fin_input w1 q a i t1 Hr1 Hwa)|].
  - replace (tc_rcv_nxt t1) with (u32 (tc_snd_una a + (snd_flight a + train_len cs))); [exact Hq|].
    rewrite N1, Hnx. unfold snd_flight. wrap_lia.
  - lia.
  - intros [] w2 (t2 & L2 & [F1 F2 F3 F4]). wp_step. exists t2.
    split_and!; [apply L2|apply (lv_tcb _ _ _ _ L2)|done|done|congruence].
Qed.

(** ** Witness *)

(** [demo_peer] with its queue sent out. *)
Definition demo_closer : tcp_cb := in_flight 3 0 demo_peer.

Lemma demo_closer_is :
  flushes demo_closer ∧ tc_rcv_nxt (got 3 demo_rcvr) = tc_snd_nxt demo_closer ∧
  tc_snd_len demo_closer - snd_flight demo_closer < tcp_rcv_window (got 3 demo_rcvr).
Proof. split; [left; by vm_compute|]. split; by vm_compute. Qed.

Lemma demo_closer_wf : tcb_wf demo_closer.
Proof. apply in_flight_wf; [exact demo_peer_wf|reflexivity|]. change (0 ≤ 3 ≤ 3). lia. Qed.

Lemma demo_closer_rcvr : ready (demo_with (got 3 demo_rcvr)) 0 demo_closer (got 3 demo_rcvr).
Proof.
  apply demo_with_ready; [apply got_wf, demo_rcvr_wf|reflexivity|apply got_peers, peers_flight, demo_peers|reflexivity|reflexivity|].
  by vm_compute.
Qed.

Lemma tcp_close_delivered_witness :
  ∃ ws' a' segs, tcp_app_close 0 (demo_with demo_closer) = Ok ((), ws') ∧ tcbs ws' !! 0%nat = Some a' ∧
    tc_state a' = TCP_FIN_WAIT_1 ∧
    hands (tc_local_ip demo_closer) (tc_remote_ip demo_closer) (demo_with demo_closer) segs ws'.
Proof.
  destruct demo_closer_is as (H1 & H2 & H3).
  destruct (tcp_close_delivered (demo_with demo_closer) 0 demo_closer (demo_with (got 3 demo_rcvr)) 0 (got 3 demo_rcvr)
    (net_wf_set_tcp _ _ demo_tcp_net) eq_refl demo_closer_wf eq_refl H1 demo_closer_rcvr H2 H3)
    as (ws' & a' & segs & G1 & G2 & G3 & G4 & _).
  exact (ex_intro _ ws' (ex_intro _ a' (ex_intro _ segs (conj G1 (conj G2 (conj G3 G4)))))).
Defined.
