(* ===== verification/Own.v ===== *)
(** * Who owns a connection

    A socket and its control block refer to each other ([pf_sock.tcb] and
    [tcp_cb.sock_idx]). This file follows the two references through every
    operation of the stack: most leave them alone ([linkless]); the others keep
    it true that a socket's block is live and names that socket
    ([keeps_owned]). *)

From S2P Require Import Prelude Pf Checksum Pkt Fib Headers Stats Stack Link Arp IpOut Icmp Reass Sock.
From S2P Require Import Udp Tcb TcpOut Tcp TcpInput TcpTimer TcpSock Fwd Input Core.
Import Checksum Pkt Fib Stats.

(** ** Operations that leave the references alone *)

(** What a block says of its owner. *)
Definition tlink (t : tcp_cb) : bool * Z := (tc_active t, tc_sock_idx t).
Definition links (w : world) : list (option nat) * list (bool * Z) := (sk_tcb <$> socks w, tlink <$> tcbs w).

Definition linkless {A} (m : PF A) : Prop := ∀ w a w', m w = Ok (a, w') → links w' = links w.

(** The operations already known to be: matched by name, never unfolded. *)
Create HintDb linkless discriminated.
#[global] Hint Constants Opaque : linkless.

Lemma bind_inv {A B} (m : PF A) (f : A → PF B) w b w' :
  (m ≫= f) w = Ok (b, w') → ∃ a w1, m w = Ok (a, w1) ∧ f a w1 = Ok (b, w').
Proof. unfold mbind, M_bind. destruct (m w) as [[a w1]|]; [eauto|done]. Qed.

Lemma ll_bind {A B} (m : PF A) (f : A → PF B) :
  linkless m → (∀ a, linkless (f a)) → linkless (m ≫= f).
Proof. intros Hm Hf w b w' (a & w1 & H1 & H2)%bind_inv. rewrite (Hf _ _ _ _ H2). by apply (Hm _ _ _ H1). Qed.

Lemma ll_ret {A} (a : A) : linkless (mret a).
Proof. by intros w b w' [= _ <-]. Qed.

Lemma ll_lift {A} (r : result A) : linkless (lift r).
Proof. intros w b w'. unfold lift. destruct r; [|done]. by intros [= _ <-]. Qed.

Lemma ll_gets {A} (f : world → A) : linkless (gets f).
Proof. by intros w b w' [= _ <-]. Qed.

Lemma ll_for_each {A} (l : list A) (body : A → PF ()) :
  (∀ x, linkless (body x)) → linkless (for_each l body).
Proof. intros Hb. induction l; cbn [for_each]; [apply ll_ret|by apply ll_bind]. Qed.

Lemma ll_modify (f : world → world) : (∀ w, links (f w) = links w) → linkless (modify f).
Proof. intros Hf w b w' [= _ <-]. apply Hf. Qed.

Lemma fmap_alter_same {A B} (g : A → B) (f : A → A) i (l : list A) :
  (∀ x, g (f x) = g x) → g <$> alter f i l = g <$> l.
Proof.
  intros Hf. apply list_eq. intros j. rewrite !list_lookup_fmap, list_lookup_alter.
  case_decide as E; [subst|done]. destruct (l !! j) as [x|]; [|done]. change (Some (g (f x)) = Some (g x)). by rewrite Hf.
Qed.

Lemma ll_upd_stack f :
  (∀ s, ps_socks (f s) = ps_socks s) → (∀ s, ps_tcp (f s) = ps_tcp s) → linkless (upd_stack f).
Proof. 
  intros H1 H2. apply ll_modify. intros [s now wire]. unfold links.
  change (socks (set_field w_stack f (mk_world s now wire))) with (st_socks (ps_socks (f s))).
  change (tcbs (set_field w_stack f (mk_world s now wire))) with (tg_tcbs (ps_tcp (f s))). by rewrite H1, H2.
 Qed.

(** One step down a body; the leaves are left to instance search. *)
Ltac ll_step :=
  lazymatch goal with
  | |- ∀ _, _ => intros ?
  | |- linkless (_ ≫= _) => apply ll_bind
  | |- linkless (mret _) => apply ll_ret
  | |- linkless (lift _) => apply ll_lift
  | |- linkless (gets _) => apply ll_gets
  | |- linkless (get_stack _) => apply ll_gets
  | |- linkless pf_now_ms => apply ll_gets
  | |- linkless (when ?b _) => unfold when
  | |- linkless (match ?x with _ => _ end) => destruct x
  | |- linkless (let _ := _ in _) => cbv zeta
  | |- linkless ((fun _ => _) _) => cbv beta
  | |- linkless (upd_stack _) => (apply ll_upd_stack; done) || (apply ll_modify; done)
  | |- linkless (modify _) => apply ll_modify; done
  | |- linkless (for_each _ _) => apply ll_for_each
  | |- linkless _ => solve [auto with linkless nocore]
  end.
Ltac ll_solve := repeat ll_step.

Lemma ll_stat_add s n : linkless (stat_add s n).
Proof. unfold stat_add. ll_solve. Qed.
#[export] Hint Resolve ll_stat_add : linkless.
Lemma ll_stat_inc s : linkless (stat_inc s).
Proof. unfold stat_inc. ll_solve. Qed.
#[export] Hint Resolve ll_stat_inc : linkless.
Lemma ll_get_dev d : linkless (get_dev d).
Proof. unfold get_dev. ll_solve. Qed.
#[export] Hint Resolve ll_get_dev : linkless.
Lemma ll_upd_dev d f : linkless (upd_dev d f).
Proof. unfold upd_dev. ll_solve. Qed.
#[export] Hint Resolve ll_upd_dev : linkless.
Lemma ll_get_sock i : linkless (get_sock i).
Proof. unfold get_sock. ll_solve. Qed.
#[export] Hint Resolve ll_get_sock : linkless.
Lemma ll_get_tcb i : linkless (get_tcb i).
Proof. unfold get_tcb. ll_solve. Qed.
#[export] Hint Resolve ll_get_tcb : linkless.

Lemma ll_upd_tcb i f : (∀ t, tlink (f t) = tlink t) → linkless (upd_tcb i f).
Proof.
  intros Hf. unfold upd_tcb. apply ll_bind; [auto with linkless nocore|]. ll_step. apply ll_modify. intros w.
  unfold links. f_equal. by apply (fmap_alter_same tlink).
Qed.

Lemma ll_upd_sock i f : (∀ k, sk_tcb (f k) = sk_tcb k) → linkless (upd_sock i f).
Proof.
  intros Hf. unfold upd_sock. apply ll_bind; [auto with linkless nocore|]. ll_step. apply ll_modify. intros w.
  unfold links. f_equal. by apply (fmap_alter_same sk_tcb).
Qed.

(** Updates of a block that keep its owner. *)
Create HintDb tlink discriminated.

Ltac ll_step ::=
  lazymatch goal with
  | |- ∀ _, _ => intros ?
  | |- linkless (_ ≫= _) => apply ll_bind
  | |- linkless (mret _) => apply ll_ret
  | |- linkless (lift _) => apply ll_lift
  | |- linkless (gets _) => apply ll_gets
  | |- linkless (get_stack _) => apply ll_gets
  | |- linkless pf_now_ms => apply ll_gets
  | |- linkless (when ?b _) => unfold when
  | |- linkless (match ?x with _ => _ end) => destruct x
  | |- linkless (let _ := _ in _) => cbv zeta
  | |- linkless ((fun _ => _) _) => cbv beta
  | |- linkless (upd_stack _) => (apply ll_upd_stack; done) || (apply ll_modify; done)
  | |- linkless (modify _) => apply ll_modify; done
  | |- linkless (upd_tcb _ _) => apply ll_upd_tcb; solve [done | auto with tlink | intros; cbv zeta; repeat case_match; done]
  | |- linkless (upd_sock _ _) => apply ll_upd_sock; done
  | |- linkless (for_each _ _) => apply ll_for_each
  | |- linkless _ => solve [auto with linkless nocore]
  end.

(** *** Below TCP *)

Lemma ll_netdev_tx d p : linkless (netdev_tx d p).
Proof. unfold netdev_tx. ll_solve. Qed.
#[export] Hint Resolve ll_netdev_tx : linkless.
Lemma ll_eth_output d dst ty p : linkless (eth_output d dst ty p).
Proof. unfold eth_output. ll_solve. Qed.
#[export] Hint Resolve ll_eth_output : linkless.
Lemma ll_get_arp i : linkless (get_arp i).
Proof. unfold get_arp. ll_solve. Qed.
#[export] Hint Resolve ll_get_arp : linkless.
Lemma ll_upd_arp i f : linkless (upd_arp i f).
Proof. unfold upd_arp. ll_solve. Qed.
#[export] Hint Resolve ll_upd_arp : linkless.
Lemma ll_arp_alloc_entry : linkless arp_alloc_entry.
Proof. unfold arp_alloc_entry. ll_solve. Qed.
#[export] Hint Resolve ll_arp_alloc_entry : linkless.
Lemma ll_arp_flush dev mac q : linkless (arp_flush dev mac q).
Proof. unfold arp_flush. ll_solve. Qed.
#[export] Hint Resolve ll_arp_flush : linkless.
Lemma ll_arp_entry_resolve i dev mac now : linkless (arp_entry_resolve i dev mac now).
Proof. unfold arp_entry_resolve. ll_solve. Qed.
#[export] Hint Resolve ll_arp_entry_resolve : linkless.
Lemma ll_arp_send_request dev ip : linkless (arp_send_request dev ip).
Proof. unfold arp_send_request. ll_solve. Qed.
#[export] Hint Resolve ll_arp_send_request : linkless.
Lemma ll_arp_send_reply dev req : linkless (arp_send_reply dev req).
Proof. unfold arp_send_reply. ll_solve. Qed.
#[export] Hint Resolve ll_arp_send_reply : linkless.
Lemma ll_arp_merge dev spa sha us now : linkless (arp_merge dev spa sha us now).
Proof. unfold arp_merge. ll_solve. Qed.
#[export] Hint Resolve ll_arp_merge : linkless.
Lemma ll_arp_input dev p : linkless (arp_input dev p).
Proof. unfold arp_input. ll_solve. Qed.
#[export] Hint Resolve ll_arp_input : linkless.
Lemma ll_arp_park i p : linkless (arp_park i p).
Proof. unfold arp_park. ll_solve. Qed.
#[export] Hint Resolve ll_arp_park : linkless.
Lemma ll_arp_start dev nh : linkless (arp_start dev nh).
Proof. unfold arp_start. ll_solve. Qed.
#[export] Hint Resolve ll_arp_start : linkless.
Lemma ll_arp_resolve dev nh p : linkless (arp_resolve dev nh p).
Proof. unfold arp_resolve. ll_solve. Qed.
#[export] Hint Resolve ll_arp_resolve : linkless.
Lemma ll_arp_tick now : linkless (arp_tick now).
Proof. unfold arp_tick, arp_tick_entry. ll_solve. Qed.
#[export] Hint Resolve ll_arp_tick : linkless.
Lemma ll_ip_route_lookup dst : linkless (ip_route_lookup dst).
Proof. unfold ip_route_lookup. ll_solve. Qed.
#[export] Hint Resolve ll_ip_route_lookup : linkless.
Lemma ll_ip_output_one dev nh src dst proto ttl id frag p :
  linkless (ip_output_one dev nh src dst proto ttl id frag p).
Proof. unfold ip_output_one. ll_solve. Qed.
#[export] Hint Resolve ll_ip_output_one : linkless.
Lemma ll_ip_frag_loop fuel dev nh src dst proto ttl id max p off rc :
  linkless (ip_frag_loop fuel dev nh src dst proto ttl id max p off rc).
Proof. revert off rc. induction fuel; intros; cbn [ip_frag_loop]; ll_solve. Qed.
#[export] Hint Resolve ll_ip_frag_loop : linkless.
Lemma ll_ip_output src dst proto ttl p : linkless (ip_output src dst proto ttl p).
Proof. unfold ip_output. ll_solve. Qed.
#[export] Hint Resolve ll_ip_output : linkless.
Lemma ll_icmp_echo_reply ih icmp ch : linkless (icmp_echo_reply ih icmp ch).
Proof. unfold icmp_echo_reply. ll_solve. Qed.
#[export] Hint Resolve ll_icmp_echo_reply : linkless.
Lemma ll_icmp_input p ih : linkless (icmp_input p ih).
Proof. unfold icmp_input. ll_solve. Qed.
#[export] Hint Resolve ll_icmp_input : linkless.
Lemma ll_icmp_send_error orig avail type code : linkless (icmp_send_error orig avail type code).
Proof. unfold icmp_send_error. ll_solve. Qed.
#[export] Hint Resolve ll_icmp_send_error : linkless.
Lemma ll_ip_forward dev p ih : linkless (ip_forward dev p ih).
Proof. unfold ip_forward. ll_solve. Qed.
#[export] Hint Resolve ll_ip_forward : linkless.

(** *** UDP and the socket table *)

Lemma ll_pf_sock_get sock : linkless (pf_sock_get sock).
Proof. unfold pf_sock_get. ll_solve. Qed.
#[export] Hint Resolve ll_pf_sock_get : linkless.
Lemma ll_pf_sock_port_in_use type ip port : linkless (pf_sock_port_in_use type ip port).
Proof. unfold pf_sock_port_in_use. ll_solve. Qed.
#[export] Hint Resolve ll_pf_sock_port_in_use : linkless.
Lemma ll_ephemeral_loop tries : linkless (ephemeral_loop tries).
Proof. induction tries; cbn [ephemeral_loop]; ll_solve. Qed.
#[export] Hint Resolve ll_ephemeral_loop : linkless.
Lemma ll_pf_sock_ephemeral_port : linkless (pf_sock_ephemeral_port).
Proof. unfold pf_sock_ephemeral_port. ll_solve. Qed.
#[export] Hint Resolve ll_pf_sock_ephemeral_port : linkless.
Lemma ll_pf_bind sock ip port : linkless (pf_bind sock ip port).
Proof. unfold pf_bind. ll_solve. Qed.
#[export] Hint Resolve ll_pf_bind : linkless.
Lemma ll_pf_sock_lookup_udp ip port : linkless (pf_sock_lookup_udp ip port).
Proof. unfold pf_sock_lookup_udp. ll_solve. Qed.
#[export] Hint Resolve ll_pf_sock_lookup_udp : linkless.
Lemma ll_udp_verify uh src dst ulen l4 : linkless (udp_verify uh src dst ulen l4).
Proof. unfold udp_verify. ll_solve. Qed.
#[export] Hint Resolve ll_udp_verify : linkless.
Lemma ll_udp_deliver i p ihl ulen src sport : linkless (udp_deliver i p ihl ulen src sport).
Proof. unfold udp_deliver. ll_solve. Qed.
#[export] Hint Resolve ll_udp_deliver : linkless.
Lemma ll_udp_input p ih : linkless (udp_input p ih).
Proof. unfold udp_input. ll_solve. Qed.
#[export] Hint Resolve ll_udp_input : linkless.
Lemma ll_udp_send src dst ulen p : linkless (udp_send src dst ulen p).
Proof. unfold udp_send. ll_solve. Qed.
#[export] Hint Resolve ll_udp_send : linkless.
Lemma ll_udp_output src sport dst dport p : linkless (udp_output src sport dst dport p).
Proof. unfold udp_output. ll_solve. Qed.
#[export] Hint Resolve ll_udp_output : linkless.
Lemma ll_sock_autobind i : linkless (sock_autobind i).
Proof. unfold sock_autobind. ll_solve. Qed.
#[export] Hint Resolve ll_sock_autobind : linkless.
Lemma ll_pf_sendto sock buf ip port : linkless (pf_sendto sock buf ip port).
Proof. unfold pf_sendto. ll_solve. Qed.
#[export] Hint Resolve ll_pf_sendto : linkless.

(** *** Segments *)

Lemma tlink_seg_sent flags t : tlink (tcp_seg_sent flags t) = tlink t.
Proof. unfold tcp_seg_sent. by destruct (has_flag flags TCP_ACK). Qed.
Lemma tlink_arm_rto now t : tlink (tcp_arm_rto now t) = tlink t.
Proof. unfold tcp_arm_rto. by destruct (tc_rto_deadline t =? 0). Qed.
Lemma tlink_output_sent now chunk t : tlink (output_sent now chunk t) = tlink t.
Proof. unfold output_sent. cbv zeta. rewrite tlink_arm_rto. by case_match. Qed.
Lemma tlink_fin_emit now t : tlink (fin_emit now t) = tlink t.
Proof. unfold fin_emit. by rewrite tlink_arm_rto. Qed.
#[export] Hint Resolve tlink_seg_sent tlink_arm_rto tlink_output_sent tlink_fin_emit : tlink.

Lemma ll_tcp_send_segment i flags seq off n : linkless (tcp_send_segment i flags seq off n).
Proof. unfold tcp_send_segment. ll_solve. Qed.
#[export] Hint Resolve ll_tcp_send_segment : linkless.
Lemma ll_tcp_send_probe i : linkless (tcp_send_probe i).
Proof. unfold tcp_send_probe. ll_solve. Qed.
#[export] Hint Resolve ll_tcp_send_probe : linkless.
Lemma ll_tcp_send_ctl i flags : linkless (tcp_send_ctl i flags).
Proof. unfold tcp_send_ctl. ll_solve. Qed.
#[export] Hint Resolve ll_tcp_send_ctl : linkless.
Lemma ll_tcp_send_reset_for ih th n : linkless (tcp_send_reset_for ih th n).
Proof. unfold tcp_send_reset_for. ll_solve. Qed.
#[export] Hint Resolve ll_tcp_send_reset_for : linkless.
Lemma ll_tcp_output_loop fuel i now wnd : linkless (tcp_output_loop fuel i now wnd).
Proof. induction fuel; cbn [tcp_output_loop]; ll_solve. Qed.
#[export] Hint Resolve ll_tcp_output_loop : linkless.
Lemma ll_tcp_output i : linkless (tcp_output i).
Proof. unfold tcp_output. ll_solve. Qed.
#[export] Hint Resolve ll_tcp_output : linkless.
Lemma ll_tcp_retransmit i : linkless (tcp_retransmit i).
Proof. unfold tcp_retransmit. ll_solve. Qed.
#[export] Hint Resolve ll_tcp_retransmit : linkless.
Lemma ll_tcp_parse_mss seg th : linkless (tcp_parse_mss seg th).
Proof. unfold tcp_parse_mss. ll_solve. Qed.
#[export] Hint Resolve ll_tcp_parse_mss : linkless.
Lemma ll_tcp_gen_iss : linkless (tcp_gen_iss).
Proof. unfold tcp_gen_iss. ll_solve. Qed.
#[export] Hint Resolve ll_tcp_gen_iss : linkless.

(** *** Received data

    A block read, changed and stored keeps its owner if the change does. *)

Definition linkless_at {A} (w : world) (m : PF A) : Prop := ∀ a w', m w = Ok (a, w') → links w' = links w.

Lemma ll_via_tcb {A B} i (g : tcp_cb → result B) (k : tcp_cb → B → PF A) :
  (∀ w t b, tcbs w !! i = Some t → g t = Ok b → linkless_at w (k t b)) →
  linkless (t ← get_tcb i; b ← lift (g t); k t b).
Proof.
  intros Hk w a w' (t & w1 & H1 & (b & w2 & H2 & H3)%bind_inv)%bind_inv.
  unfold get_tcb in H1. apply bind_inv in H1 as (l & w3 & [= <- <-] & H1). unfold lift, in_bounds in H1, H2.
  destruct (tg_tcbs (ps_tcp (w_stack w)) !! i) eqn:Hi; [|done]. injection H1 as -> ->.
  destruct (g t) eqn:Hg; [|done]. injection H2 as -> ->. by apply (Hk _ _ _ Hi Hg _ _ H3).
Qed.

Lemma ll_at_put {A} w i t t' (k : () → PF A) :
  tcbs w !! i = Some t → tlink t' = tlink t → (∀ u, linkless (k u)) →
  linkless_at w (upd_tcb i (fun _ => t') ≫= k).
Proof.
  intros Hi Ht Hk a w' (u & w1 & H1 & H2)%bind_inv. rewrite (Hk u _ _ _ H2). clear H2.
  unfold upd_tcb in H1. apply bind_inv in H1 as (t0 & w2 & H0 & H1).
  assert (w2 = w) as ->.
  { unfold get_tcb in H0. apply bind_inv in H0 as (l & w3 & [= <- <-] & H0). unfold lift, in_bounds in H0.
    destruct (_ !! i); [|done]. by injection H0. }
  injection H1 as <- <-. unfold links. f_equal. apply list_eq. intros j. rewrite !list_lookup_fmap.
  change (tlink <$> alter (fun _ => t') i (tcbs w) !! j = tlink <$> tcbs w !! j).
  rewrite list_lookup_alter. case_decide as E; [subst|done]. rewrite Hi. cbn. by rewrite Ht.
Qed.

Lemma tlink_rcv_ring_put t data t' n : rcv_ring_put t data = Ok (t', n) → tlink t' = tlink t.
Proof.
  unfold rcv_ring_put. cbv zeta. destruct (ring_put _ _ _ _) as [buf|]; [|done]. by intros [= <- _].
Qed.

Lemma tlink_ooo_drain q t t' n : ooo_drain q t = Ok (t', n) → tlink t' = tlink t.
Proof.
  revert t t' n. induction q as [|p q IH]; intros t t' n; cbn [ooo_drain]; [by intros [= <- _]|].
  destruct (seq_gt _ _); [by intros [= <- _]|]. cbv zeta. destruct (_ || _); [by intros ->%IH|].
  destruct (pkt_read _ _ _) as [data|]; [|done]. cbn [mbind result_bind].
  destruct (rcv_ring_put _ data) as [[t1 taken]|] eqn:Hr; [|done]. cbn [mbind result_bind].
  apply tlink_rcv_ring_put in Hr. destruct (taken <? _); [by intros [= <- _]|].
  destruct (ooo_drain q _) as [[t2 n2]|] eqn:Hd; [|done]. apply IH in Hd. intros [= <- _].
  rewrite Hd. exact Hr.
Qed.

Lemma ll_tcp_ooo_drain i : linkless (tcp_ooo_drain i).
Proof. 
  unfold tcp_ooo_drain. apply (ll_via_tcb i (fun t => ooo_drain (tc_ooo t) t)). intros w t [t' n] Hi Hd. apply (ll_at_put _ _ t); [done| |ll_solve].
  by apply tlink_ooo_drain in Hd.
 Qed.
#[export] Hint Resolve ll_tcp_ooo_drain : linkless.
Lemma ll_tcp_ooo_insert i seq data : linkless (tcp_ooo_insert i seq data).
Proof. unfold tcp_ooo_insert. ll_solve. Qed.
#[export] Hint Resolve ll_tcp_ooo_insert : linkless.
Lemma ll_rx_in_order i data : linkless (rx_in_order i data).
Proof. 
  unfold rx_in_order. apply (ll_via_tcb i (fun t => rcv_ring_put t data)). intros w t [t' n] Hi Hd.
  apply (ll_at_put _ _ t); [done| |ll_solve]. by apply tlink_rcv_ring_put in Hd.
 Qed.
#[export] Hint Resolve ll_rx_in_order : linkless.
Lemma ll_rx_delack i now : linkless (rx_delack i now).
Proof. unfold rx_delack. ll_solve. Qed.
#[export] Hint Resolve ll_rx_delack : linkless.
Lemma ll_tcp_rx_payload i seq data now : linkless (tcp_rx_payload i seq data now).
Proof. unfold tcp_rx_payload. ll_solve. Qed.
#[export] Hint Resolve ll_tcp_rx_payload : linkless.

(** *** Segments received *)

Lemma tlink_established s t : tlink (tcp_established s t) = tlink t.
Proof. done. Qed.
Lemma tlink_child l lip lport rip iss s t : tlink (tcp_child l lip lport rip iss s t) = tlink t.
Proof. done. Qed.
Lemma tlink_apply_mss mss t : tlink (tcp_apply_mss mss t) = tlink t.
Proof. done. Qed.
Lemma tlink_enter_timewait now t : tlink (tcp_enter_timewait now t) = tlink t.
Proof. done. Qed.
Lemma tlink_fin_next now t : tlink (fin_next now t) = tlink t.
Proof. unfold fin_next. by destruct (tc_state t). Qed.
Lemma tlink_rtt_sample r t : tlink (tcp_rtt_sample r t) = tlink t.
Proof. unfold tcp_rtt_sample. by destruct (rtt_smooth _ _ r). Qed.
Lemma tlink_acked now s dbytes cwnd t : tlink (tcp_acked now s dbytes cwnd t) = tlink t.
Proof.
  unfold tcp_acked. set (t0 := t <| tc_snd_head := _ |> <| tc_snd_len := _ |> <| tc_snd_una := _ |>).
  assert (tlink t0 = tlink t) as <- by done. clearbody t0. destruct (_ && _); [|done].
  rewrite <- (tlink_rtt_sample (u32 (now - tc_rtt_start_ms t0)) t0). generalize (tcp_rtt_sample (u32 (now - tc_rtt_start_ms t0)) t0).
  done.
Qed.
#[export] Hint Resolve tlink_established tlink_child tlink_apply_mss tlink_enter_timewait tlink_fin_next
  tlink_acked : tlink.

Lemma ll_tcb_lookup lip lport rip rport : linkless (tcb_lookup lip lport rip rport).
Proof. unfold tcb_lookup. ll_solve. Qed.
#[export] Hint Resolve ll_tcb_lookup : linkless.
Lemma ll_tcp_input_syn_open i s : linkless (tcp_input_syn_open i s).
Proof. unfold tcp_input_syn_open. ll_solve. Qed.
#[export] Hint Resolve ll_tcp_input_syn_open : linkless.
Lemma ll_tcp_accept_push l i : linkless (tcp_accept_push l i).
Proof. unfold tcp_accept_push. ll_solve. Qed.
#[export] Hint Resolve ll_tcp_accept_push : linkless.
Lemma ll_tcp_dupack i : linkless (tcp_dupack i).
Proof. unfold tcp_dupack. ll_solve. Qed.
#[export] Hint Resolve ll_tcp_dupack : linkless.
Lemma ll_tcp_input_wnd i s : linkless (tcp_input_wnd i s).
Proof. unfold tcp_input_wnd. ll_solve. Qed.
#[export] Hint Resolve ll_tcp_input_wnd : linkless.
Lemma ll_tcp_input_text i s now : linkless (tcp_input_text i s now).
Proof. unfold tcp_input_text. ll_solve. Qed.
#[export] Hint Resolve ll_tcp_input_text : linkless.
Lemma ll_tcp_input_fin i s now : linkless (tcp_input_fin i s now).
Proof. unfold tcp_input_fin. ll_solve. Qed.
#[export] Hint Resolve ll_tcp_input_fin : linkless.
Lemma ll_tcp_probe_tick i now : linkless (tcp_probe_tick i now).
Proof. unfold tcp_probe_tick. ll_solve. Qed.
#[export] Hint Resolve ll_tcp_probe_tick : linkless.
Lemma ll_tcp_delack_tick i now : linkless (tcp_delack_tick i now).
Proof. unfold tcp_delack_tick. ll_solve. Qed.
#[export] Hint Resolve ll_tcp_delack_tick : linkless.

Lemma tlink_rto_backoff t : tlink (rto_backoff t) = tlink t.
Proof. unfold rto_backoff. cbv zeta. by destruct (0 <? u32 (tc_snd_nxt t - tc_snd_una t)). Qed.
#[export] Hint Resolve tlink_rto_backoff : tlink.

(** ** Ownership *)

(** Block [c] is in use and names socket [i] as its owner. *)
Definition owns (w : world) (i c : nat) : Prop :=
  ∃ t, tcbs w !! c = Some t ∧ tc_active t = true ∧ tc_sock_idx t = Z.of_nat i.

(** The connection of every socket is a live block that names that socket. *)
Definition owned (w : world) : Prop :=
  ∀ i k c, socks w !! i = Some k → sk_tcb k = Some c → owns w i c.

(** No socket refers to block [c]. *)
Definition unowned (c : nat) (w : world) : Prop := ∀ i k, socks w !! i = Some k → sk_tcb k ≠ Some c.

Lemma links_socks w w' i k : links w' = links w → socks w' !! i = Some k →
  ∃ k', socks w !! i = Some k' ∧ sk_tcb k' = sk_tcb k.
Proof.
  intros [= E _] H. apply (f_equal (fun l => l !! i)) in E. rewrite !list_lookup_fmap, H in E.
  destruct (socks w !! i) as [k'|]; [|done]. injection E as E. by exists k'.
Qed.

Lemma links_tcbs w w' c t : links w' = links w → tcbs w !! c = Some t →
  ∃ t', tcbs w' !! c = Some t' ∧ tlink t' = tlink t.
Proof.
  intros [= _ E] H. apply (f_equal (fun l => l !! c)) in E. rewrite !list_lookup_fmap, H in E.
  destruct (tcbs w' !! c) as [t'|]; [|done]. injection E as E1 E2. exists t'. split; [done|].
  unfold tlink. by rewrite E1, E2.
Qed.

Lemma links_owns w w' i c : links w' = links w → owns w i c → owns w' i c.
Proof.
  intros E (t & Ht & Ha & Hi). destruct (links_tcbs _ _ _ _ E Ht) as (t' & Ht' & [= E1 E2]).
  exists t'. split_and!; [done|congruence|congruence].
Qed.

Lemma links_owned w w' : links w' = links w → owned w → owned w'.
Proof.
  intros E Ho i k c Hk Hc. destruct (links_socks _ _ _ _ E Hk) as (k' & Hk' & Ek).
  eapply links_owns; [exact E|]. apply (Ho i k' c Hk'). congruence.
Qed.

Lemma links_unowned c w w' : links w' = links w → unowned c w → unowned c w'.
Proof.
  intros E Hu i k Hk. destruct (links_socks _ _ _ _ E Hk) as (k' & Hk' & Ek). rewrite <- Ek. by apply (Hu i).
Qed.

(** A partial-correctness triple. *)
Definition triple {A} (P : world → Prop) (m : PF A) (Q : A → world → Prop) : Prop :=
  ∀ w a w', P w → m w = Ok (a, w') → Q a w'.

Definition keeps_owned {A} (m : PF A) : Prop := triple owned m (fun _ => owned).

Create HintDb keeps_owned discriminated.
#[global] Hint Constants Opaque : keeps_owned.

Lemma triple_bind {A B} P (R : A → world → Prop) (Q : B → world → Prop) (m : PF A) (f : A → PF B) :
  triple P m R → (∀ a, triple (R a) (f a) Q) → triple P (m ≫= f) Q.
Proof. intros Hm Hf w b w' HP (a & w1 & H1 & H2)%bind_inv. eapply Hf; [|exact H2]. by eapply Hm. Qed.

Lemma triple_weaken {A} (P P' : world → Prop) (Q Q' : A → world → Prop) (m : PF A) :
  triple P m Q → (∀ w, P' w → P w) → (∀ a w, Q a w → Q' a w) → triple P' m Q'.
Proof. intros H HP HQ w a w' Hw Hr. by eapply HQ, H; [apply HP|]. Qed.

Lemma triple_ret {A} (a : A) (P : world → Prop) (Q : A → world → Prop) : (∀ w, P w → Q a w) → triple P (mret a) Q.
Proof. intros H w b w' HP [= <- <-]. by apply H. Qed.

(** What depends on the references only survives an operation that leaves
    them alone. *)
Lemma triple_linkless {A} (P : world → Prop) (m : PF A) :
  linkless m → (∀ w w', links w' = links w → P w → P w') → triple P m (fun _ => P).
Proof. intros Hm HP w a w' Hw Hr. eapply HP; [|exact Hw]. by eapply Hm. Qed.

Lemma ko_linkless {A} (m : PF A) : linkless m → keeps_owned m.
Proof. intros Hm. apply triple_linkless; [done|]. intros w w'. apply links_owned. Qed.

Lemma ko_bind {A B} (m : PF A) (f : A → PF B) : keeps_owned m → (∀ a, keeps_owned (f a)) → keeps_owned (m ≫= f).
Proof. intros Hm Hf. by eapply triple_bind. Qed.

Lemma ko_for_each {A} (l : list A) (body : A → PF ()) :
  (∀ x, keeps_owned (body x)) → keeps_owned (for_each l body).
Proof.
  intros Hb. induction l; cbn [for_each]; [by apply triple_ret|by apply ko_bind].
Qed.

Ltac keep_step :=
  lazymatch goal with
  | |- ∀ _, _ => intros ?
  | |- keeps_owned (_ ≫= _) => apply ko_bind
  | |- keeps_owned (for_each _ _) => apply ko_for_each
  | |- keeps_owned (when ?b _) => unfold when
  | |- keeps_owned (match ?x with _ => _ end) => destruct x
  | |- keeps_owned (let _ := _ in _) => cbv zeta
  | |- keeps_owned _ => solve [auto with keeps_owned nocore | apply ko_linkless; ll_solve]
  end.
Ltac keep_solve := repeat keep_step.

(** *** Releasing a connection *)

(** Clearing a socket's reference keeps the rest. *)
Lemma owned_sock w w' i (f : pf_sock → pf_sock) :
  socks w' = alter f i (socks w) → tcbs w' = tcbs w → (∀ k, sk_tcb (f k) = None) → owned w → owned w'.
Proof.
  intros Es Et Hf Ho j k c Hk Hc. rewrite Es, list_lookup_alter in Hk.
  assert (owns w j c → owns w' j c) as Hkeep by (unfold owns; by rewrite Et). apply Hkeep.
  case_decide; [|by eapply Ho]. subst. destruct (socks w !! j) as [k0|]; [|done]. injection Hk as <-.
  by rewrite Hf in Hc.
Qed.

Lemma upd_sock_inv i f w w' : upd_sock i f w = Ok ((), w') → socks w' = alter f i (socks w) ∧ tcbs w' = tcbs w.
Proof.
  unfold upd_sock. intros (k & w1 & H1 & H2)%bind_inv. unfold get_sock in H1.
  apply bind_inv in H1 as (l & w2 & [= <- <-] & H1). unfold lift, in_bounds in H1. destruct (_ !! i); [|done].
  injection H1 as _ <-. injection H2 as <-. done.
Qed.

Lemma upd_tcb_inv i f w w' : upd_tcb i f w = Ok ((), w') → socks w' = socks w ∧ tcbs w' = alter f i (tcbs w).
Proof.
  unfold upd_tcb. intros (k & w1 & H1 & H2)%bind_inv. unfold get_tcb in H1.
  apply bind_inv in H1 as (l & w2 & [= <- <-] & H1). unfold lift, in_bounds in H1. destruct (_ !! i); [|done].
  injection H1 as _ <-. injection H2 as <-. done.
Qed.

Lemma get_tcb_inv i w t w' : get_tcb i w = Ok (t, w') → w' = w ∧ tcbs w !! i = Some t.
Proof.
  unfold get_tcb. intros (l & w2 & [= <- <-] & H1)%bind_inv. unfold lift, in_bounds in H1.
  destruct (tg_tcbs _ !! i) eqn:E; [|done]. by injection H1 as -> ->.
Qed.

Lemma ko_drop_sock i f : (∀ k, sk_tcb (f k) = None) → keeps_owned (upd_sock i f).
Proof. intros Hf w [] w' Ho [Es Et]%upd_sock_inv. by eapply owned_sock. Qed.

(** A block nothing refers to may be changed at will. *)
Lemma triple_upd_unowned c f : triple (fun w => owned w ∧ unowned c w) (upd_tcb c f) (fun _ w => owned w ∧ unowned c w).
Proof.
  intros w [] w' [Ho Hu] [Es Et]%upd_tcb_inv. split.
  - intros i k c' Hk Hc. rewrite Es in Hk. destruct (Ho i k c' Hk Hc) as (t & Ht & ?).
    exists t. rewrite Et, list_lookup_alter_ne by (intros ->; by apply (Hu i k)). done.
  - intros i k Hk. rewrite Es in Hk. by apply (Hu i).
Qed.

(** Detaching the owner leaves nothing that refers to the block. *)
Lemma triple_detach c err : triple owned (tcb_detach_sock c err) (fun _ w => owned w ∧ unowned c w).
Proof.
  intros w [] w' Ho (t & w1 & [-> Ht]%get_tcb_inv & H)%bind_inv.
  destruct (Z.leb_spec 0 (tc_sock_idx t)) as [Hs|Hs].
  - apply bind_inv in H as ([] & w2 & [Es Et]%upd_sock_inv & H). eapply triple_upd_unowned; [|exact H].
    split; [by eapply owned_sock|]. intros i k Hk Hc. rewrite Es, list_lookup_alter in Hk. case_decide as E.
    + subst i. destruct (socks w !! _); [|done]. injection Hk as <-. done.
    + destruct (Ho i k c Hk Hc) as (t' & Ht' & _ & Hi). assert (t' = t) as -> by congruence. lia.
  - injection H as <-. split; [done|]. intros i k Hk Hc.
    destruct (Ho i k c Hk Hc) as (t' & Ht' & _ & Hi). assert (t' = t) as -> by congruence. lia.
Qed.

Lemma ko_tcb_detach_sock c err : keeps_owned (tcb_detach_sock c err).
Proof. intros w a w' Ho H. by apply (triple_detach c err w a w'). Qed.
#[export] Hint Resolve ko_tcb_detach_sock : keeps_owned.
Lemma ko_tcb_free_rec d c : keeps_owned (tcb_free_rec d c).
Proof. 
  revert c. induction d as [|d IH]; intros c; cbn [tcb_free_rec]; [keep_solve|].
  keep_step; [keep_solve|]. intros t. keep_step; [keep_solve|]. intros _.
  eapply triple_bind; [apply triple_detach|]. intros [].
  eapply triple_weaken; [apply triple_upd_unowned|done|by intros ? ? []].
 Qed.
#[export] Hint Resolve ko_tcb_free_rec : keeps_owned.
Lemma ko_tcb_free c : keeps_owned (tcb_free c).
Proof. unfold tcb_free. keep_solve. Qed.
#[export] Hint Resolve ko_tcb_free : keeps_owned.
Lemma ko_tcp_conn_error c err : keeps_owned (tcp_conn_error c err).
Proof. unfold tcp_conn_error. keep_solve. Qed.
#[export] Hint Resolve ko_tcp_conn_error : keeps_owned.
Lemma ko_tcp_app_abort c : keeps_owned (tcp_app_abort c).
Proof. unfold tcp_app_abort. keep_solve. Qed.
#[export] Hint Resolve ko_tcp_app_abort : keeps_owned.
Lemma ko_tcp_app_close c : keeps_owned (tcp_app_close c).
Proof. unfold tcp_app_close. keep_solve. Qed.
#[export] Hint Resolve ko_tcp_app_close : keeps_owned.

(** *** Creating a connection *)

(** Block [c] is in use and names [j] as its owner, -1 for none. *)
Definition held (c : nat) (j : Z) (w : world) : Prop := ∃ t, tcbs w !! c = Some t ∧ tlink t = (true, j).

Lemma links_held c j w w' : links w' = links w → held c j w → held c j w'.
Proof.
  intros E (t & Ht & El). destruct (links_tcbs _ _ _ _ E Ht) as (t' & Ht' & El'). exists t'.
  split; [done|congruence].
Qed.

Lemma unused_unowned c t w : owned w → tcbs w !! c = Some t → tc_active t = false → unowned c w.
Proof. intros Ho Ht Ha i k Hk Hc. destruct (Ho i k c Hk Hc) as (t' & Ht' & Ha' & _). congruence. Qed.

Lemma triple_alloc :
  triple owned tcb_alloc (fun r w => owned w ∧ ∀ c, r = Some c → held c (-1) w ∧ unowned c w).
Proof.
  intros w r w' Ho (g & w1 & [= <- <-] & Hr)%bind_inv.
  destruct (list_find _ _) as [[c t]|] eqn:Hf; [|by injection Hr as <- <-].
  apply list_find_Some in Hf as (Ht & Hu & _). apply bind_inv in Hr as ([] & w2 & H & Hret).
  injection Hret as <- <-.
  pose proof (triple_upd_unowned c _ w () w2 (conj Ho (unused_unowned c t w Ho Ht Hu)) H) as [Ho' Hu'].
  split; [done|]. intros c' [= <-]. split; [|done]. exists tcb_fresh. split; [|done].
  apply upd_tcb_inv in H as [_ Et]. rewrite Et, list_lookup_alter. rewrite decide_True by done. by rewrite Ht.
Qed.

Lemma ko_tcb_alloc : keeps_owned tcb_alloc.
Proof. eapply triple_weaken; [apply triple_alloc|done|by intros ? ? []]. Qed.
#[export] Hint Resolve ko_tcb_alloc : keeps_owned.

(** Naming an owner for a block nothing refers to. *)
Lemma triple_name c j f :
  (∀ t, tc_active t = true → tlink (f t) = (true, j)) →
  triple (fun w => owned w ∧ held c (-1) w ∧ unowned c w) (upd_tcb c f) (fun _ w => owned w ∧ held c j w).
Proof.
  intros Hf w [] w' (Ho & (t & Ht & Hl) & Hu) Hrun. injection Hl as Ha _.
  destruct (triple_upd_unowned c f w () w' (conj Ho Hu) Hrun) as [Ho' _]. split; [done|].
  exists (f t). split; [|by apply Hf]. apply upd_tcb_inv in Hrun as [_ Et].
  rewrite Et, list_lookup_alter, decide_True by done. by rewrite Ht.
Qed.

(** An opened connection is held by the socket it was opened for. *)
Definition opened (j : Z) (r : option nat) (w : world) : Prop := owned w ∧ ∀ c, r = Some c → held c j w.

Lemma links_opened j r w w' : links w' = links w → opened j r w → opened j r w'.
Proof. intros E [Ho Hh]. split; [by eapply links_owned|]. intros c Hc. eapply links_held; [exact E|auto]. Qed.

Lemma triple_open_listen j ip port backlog : triple owned (tcp_open_listen j ip port backlog) (opened j).
Proof.
  unfold tcp_open_listen. eapply triple_bind; [apply triple_alloc|]. intros [c|].
  - eapply triple_bind.
    + eapply triple_weaken; [apply (triple_name c j)| |intros a w H; exact H].
      * intros t Ha. unfold tlink. cbn. by rewrite <- Ha.
      * intros w (Ho & H). split; [done|]. by apply H.
    + intros []. apply triple_ret. intros w [Ho Hh]. split; [done|]. by intros c' [= <-].
  - apply triple_ret. by intros w [Ho _].
Qed.

Lemma triple_open_active j lip lport rip rport : triple owned (tcp_open_active j lip lport rip rport) (opened j).
Proof.
  unfold tcp_open_active. eapply triple_bind; [apply triple_alloc|]. intros [c|].
  2: { apply triple_ret. by intros w [Ho _]. }
  apply (triple_bind _ (fun _ w => owned w ∧ held c (-1) w ∧ unowned c w)).
  { eapply triple_weaken; [apply (triple_linkless (fun w => owned w ∧ held c (-1) w ∧ unowned c w)); [ll_solve|]| |].
    - intros w w' E (Ho & Hh & Hu). split_and!; [by eapply links_owned|by eapply links_held|by eapply links_unowned].
    - intros w [Ho H]. destruct (H c eq_refl). done.
    - done. }
  intros iss. apply (triple_bind _ (fun _ => opened j (Some c))).
  { eapply triple_weaken; [apply (triple_name c j)|done|].
    - intros t Ha. unfold tlink. cbn. by rewrite <- Ha.
    - intros a w [Ho Hh]. split; [done|]. by intros c' [= <-]. }
  intros []. do 4 (eapply triple_bind; [apply triple_linkless; [ll_solve|apply links_opened]|intros ?]).
  apply triple_ret. done.
Qed.

(** The reference the other way. *)
Lemma triple_claim i r f :
  (∀ k, sk_tcb (f k) = r) → triple (opened (Z.of_nat i) r) (upd_sock i f) (fun _ => owned).
Proof.
  intros Hf w [] w' [Ho Hr] [Es Et]%upd_sock_inv j k c Hk Hc. rewrite Es, list_lookup_alter in Hk.
  unfold owns. rewrite Et. case_decide; [|by eapply Ho]. subst. destruct (socks w !! j) as [k0|]; [|done].
  injection Hk as <-. rewrite Hf in Hc. destruct (Hr c Hc) as (t & Ht & Hl). injection Hl as Ha Hj. by exists t.
Qed.

(** *** Receiving *)

Lemma ko_tcp_input_listen l s : keeps_owned (tcp_input_listen l s).
Proof. unfold tcp_input_listen. keep_solve. Qed.
#[export] Hint Resolve ko_tcp_input_listen : keeps_owned.
Lemma ko_tcp_input_syn_sent i s : keeps_owned (tcp_input_syn_sent i s).
Proof. unfold tcp_input_syn_sent. keep_solve. Qed.
#[export] Hint Resolve ko_tcp_input_syn_sent : keeps_owned.
Lemma ko_tcp_input_rst i s : keeps_owned (tcp_input_rst i s).
Proof. unfold tcp_input_rst. keep_solve. Qed.
#[export] Hint Resolve ko_tcp_input_rst : keeps_owned.
Lemma ko_tcp_input_syn_rcvd i s : keeps_owned (tcp_input_syn_rcvd i s).
Proof. unfold tcp_input_syn_rcvd. keep_solve. Qed.
#[export] Hint Resolve ko_tcp_input_syn_rcvd : keeps_owned.
Lemma ko_tcp_after_ack i fin now : keeps_owned (tcp_after_ack i fin now).
Proof. unfold tcp_after_ack. keep_solve. Qed.
#[export] Hint Resolve ko_tcp_after_ack : keeps_owned.
Lemma ko_tcp_new_ack i s now : keeps_owned (tcp_new_ack i s now).
Proof. unfold tcp_new_ack. keep_solve. Qed.
#[export] Hint Resolve ko_tcp_new_ack : keeps_owned.
Lemma ko_tcp_input_ack i s now : keeps_owned (tcp_input_ack i s now).
Proof. unfold tcp_input_ack. keep_solve. Qed.
#[export] Hint Resolve ko_tcp_input_ack : keeps_owned.
Lemma ko_tcp_input_sync i s now : keeps_owned (tcp_input_sync i s now).
Proof. unfold tcp_input_sync. keep_solve. Qed.
#[export] Hint Resolve ko_tcp_input_sync : keeps_owned.
Lemma ko_tcp_segment_arrives s : keeps_owned (tcp_segment_arrives s).
Proof. unfold tcp_segment_arrives. keep_solve. Qed.
#[export] Hint Resolve ko_tcp_segment_arrives : keeps_owned.
Lemma ko_tcp_input p ih : keeps_owned (tcp_input p ih).
Proof. unfold tcp_input. keep_solve. Qed.
#[export] Hint Resolve ko_tcp_input : keeps_owned.
Lemma ko_ip_local_deliver dev p ih : keeps_owned (ip_local_deliver dev p ih).
Proof. unfold ip_local_deliver. keep_solve. Qed.
#[export] Hint Resolve ko_ip_local_deliver : keeps_owned.
Lemma ko_ip_reass_input dev p ih : keeps_owned (ip_reass_input ip_local_deliver dev p ih).
Proof. unfold ip_reass_input, deliver_complete, ctx_open, ctx_alloc, ctx_release, upd_ctx, get_ctx. keep_solve. Qed.
#[export] Hint Resolve ko_ip_reass_input : keeps_owned.
Lemma ko_ip_input dev p : keeps_owned (ip_input dev p).
Proof. unfold ip_input, ip_drop, dev_rx_drop. keep_solve. Qed.
#[export] Hint Resolve ko_ip_input : keeps_owned.
Lemma ko_eth_input dev p : keeps_owned (eth_input dev p).
Proof. unfold eth_input, dev_rx_drop. keep_solve. Qed.
#[export] Hint Resolve ko_eth_input : keeps_owned.

(** *** Ticking *)

Lemma ko_tcp_rto_fire i now : keeps_owned (tcp_rto_fire i now).
Proof. unfold tcp_rto_fire. keep_solve. Qed.
#[export] Hint Resolve ko_tcp_rto_fire : keeps_owned.
Lemma ko_tcp_tick now : keeps_owned (tcp_tick now).
Proof. unfold tcp_tick, tcp_tick_conn. keep_solve. Qed.
#[export] Hint Resolve ko_tcp_tick : keeps_owned.
Lemma ko_ip_reass_tick now : keeps_owned (ip_reass_tick now).
Proof. unfold ip_reass_tick, ip_reass_tick_ctx, ctx_release, upd_ctx, get_ctx. keep_solve. Qed.
#[export] Hint Resolve ko_ip_reass_tick : keeps_owned.
Lemma ko_pf_tick now : keeps_owned (pf_tick now).
Proof. unfold pf_tick. keep_solve. Qed.
#[export] Hint Resolve ko_pf_tick : keeps_owned.

(** *** The calls of the socket API *)

Lemma ko_pf_socket type : keeps_owned (pf_socket type).
Proof. 
  unfold pf_socket. case_decide; [keep_solve|]. keep_step; [keep_solve|]. intros t.
  destruct (list_find _ _) as [[i ?]|]; [|keep_solve]. keep_step; [by apply ko_drop_sock|keep_solve].
 Qed.
#[export] Hint Resolve ko_pf_socket : keeps_owned.
Lemma ll_tcp_sock_get sock : linkless (tcp_sock_get sock).
Proof. unfold tcp_sock_get. ll_solve. Qed.
#[export] Hint Resolve ll_tcp_sock_get : linkless.
Lemma ll_timeout_deadline timeout : linkless (timeout_deadline timeout).
Proof. unfold timeout_deadline. ll_solve. Qed.
#[export] Hint Resolve ll_timeout_deadline : linkless.

(** A handle that is accepted is the index of its socket. *)
Lemma tcp_sock_get_inv sock w i w' : tcp_sock_get sock w = Ok (Some i, w') → w' = w ∧ Z.of_nat i = sock.
Proof.
  unfold tcp_sock_get, pf_sock_get. intros (h & w1 & H1 & H2)%bind_inv.
  assert (w1 = w ∧ ∀ j, h = Some j → Z.of_nat j = sock) as [-> Hh].
  { destruct (_ || _) eqn:Hr; [by injection H1 as <- <-|]. apply bind_inv in H1 as (k & w2 & H0 & H1).
    unfold get_sock in H0. apply bind_inv in H0 as (l & w3 & [= <- <-] & H0). unfold lift, in_bounds in H0.
    destruct (_ !! _); [|done]. injection H0 as _ <-. apply orb_false_iff in Hr as [Hr%Z.ltb_ge _].
    injection H1 as <- <-. split; [done|]. intros j. case_decide; [done|]. intros [= <-]. lia. }
  destruct h as [j|]; [|by injection H2 as ? ?]. apply bind_inv in H2 as (k & w2 & H0 & H2).
  unfold get_sock in H0. apply bind_inv in H0 as (l & w3 & [= <- <-] & H0). unfold lift, in_bounds in H0.
  destruct (_ !! _); [|done]. injection H0 as _ <-. injection H2 as H2 <-. split; [done|]. apply Hh.
  by case_decide; [injection H2 as ->|].
Qed.

(** The calls on one accepted handle. *)
Lemma ko_on_handle {A} sock (f : option nat → PF A) :
  keeps_owned (f None) → (∀ i, Z.of_nat i = sock → keeps_owned (f (Some i))) → keeps_owned (h ← tcp_sock_get sock; f h).
Proof.
  intros HN HS w a w' Ho (h & w1 & H1 & H2)%bind_inv.
  assert (owned w1) as Ho1 by (eapply ko_linkless; [apply ll_tcp_sock_get|exact Ho|exact H1]).
  destruct h as [i|]; [|by eapply HN]. apply tcp_sock_get_inv in H1 as [-> Hi]. by eapply (HS i).
Qed.

Lemma ko_pf_listen sock backlog : keeps_owned (pf_listen sock backlog).
Proof. 
  apply ko_on_handle; [keep_solve|]. intros i Hi. keep_step; [keep_solve|]. intros s.
  destruct (_ || _); [keep_solve|]. eapply triple_bind; [apply triple_open_listen|]. intros r. rewrite <- Hi.
  eapply triple_bind; [by apply triple_claim|]. intros u. by apply triple_ret.
 Qed.
#[export] Hint Resolve ko_pf_listen : keeps_owned.

Lemma ll_connect_bind i ip : linkless (connect_bind i ip).
Proof. unfold connect_bind. ll_solve. Qed.
#[export] Hint Resolve ll_connect_bind : linkless.

Lemma ll_send_put c data : linkless (send_put c data).
Proof. 
  unfold send_put. apply (ll_via_tcb c (snd_ring_put data)). intros w t t' Hi Hd.
  apply (ll_at_put _ _ t); [done| |ll_solve]. revert Hd. unfold snd_ring_put.
  destruct (ring_put _ _ _ _) as [buf|]; [|done]. by intros [= <-].
 Qed.
#[export] Hint Resolve ll_send_put : linkless.
Lemma ll_recv_take c cap : linkless (recv_take c cap).
Proof. 
  unfold recv_take. apply (ll_via_tcb c (rcv_ring_take cap)). intros w t [d t'] Hi Hd.
  apply (ll_at_put _ _ t); [done| |ll_solve]. revert Hd. unfold rcv_ring_take.
  destruct (ring_get _ _ _ _) as [data|]; [|done]. by intros [= _ <-].
 Qed.
#[export] Hint Resolve ll_recv_take : linkless.
Lemma ll_pf_sock_set_nodelay sock on : linkless (pf_sock_set_nodelay sock on).
Proof. unfold pf_sock_set_nodelay. ll_solve. Qed.
#[export] Hint Resolve ll_pf_sock_set_nodelay : linkless.
Lemma ko_pf_close sock : keeps_owned (pf_close sock).
Proof. 
  unfold pf_close. keep_step; [keep_solve|]. intros [i|]; [|keep_solve]. intros w a w' Ho Hr.
  apply bind_inv in Hr as (s & w1 & H1 & Hr). assert (w1 = w ∧ socks w !! i = Some s) as [-> Hs].
  { unfold get_sock in H1. apply bind_inv in H1 as (l & w2 & [= <- <-] & H1). unfold lift, in_bounds in H1.
    destruct (st_socks _ !! i) eqn:E; [|done]. by injection H1 as -> ->. }
  apply bind_inv in Hr as (u & w2 & H2 & Hr). assert (owned w2) as Ho2; [clear Hr|].
  - destruct (sk_tcb s) as [c|] eqn:Hc; [|by injection H2 as _ <-].
    apply bind_inv in H2 as ([] & w3 & [Es Et]%upd_sock_inv & H2).
    apply bind_inv in H2 as ([] & w4 & H3 & H2).
    assert (owned w3 ∧ unowned c w3) as Hu.
    { split; [by eapply owned_sock|]. intros j k Hk Hc'. rewrite Es, list_lookup_alter in Hk. case_decide as E.
      - subst j. destruct (socks w !! i); [|done]. injection Hk as <-. done.
      - destruct (Ho i s c Hs Hc) as (t & Ht & _ & Hi), (Ho j k c Hk Hc') as (t' & Ht' & _ & Hj).
        rewrite Ht in Ht'. injection Ht' as <-. lia. }
    destruct (triple_upd_unowned c _ _ _ _ Hu H3) as [Ho4 _]. by eapply ko_tcp_app_close.
  - revert Hr. apply (ko_bind (upd_sock i (fun _ => zero_sock))); [by apply ko_drop_sock|keep_solve|done].
 Qed.
#[export] Hint Resolve ko_pf_close : keeps_owned.

Lemma pf_socket_tcbs type w ns w' : pf_socket type w = Ok (ns, w') → tcbs w' = tcbs w.
Proof.
  unfold pf_socket. case_decide; [by intros [= _ <-]|]. intros (t & w1 & [= <- <-] & H1)%bind_inv.
  destruct (list_find _ _) as [[i ?]|]; [|by injection H1 as _ <-].
  apply bind_inv in H1 as ([] & w2 & [_ Et]%upd_sock_inv & H2). by injection H2 as _ <-.
Qed.

(** Taking a queued child over, if it is a live block without an owner. *)
Lemma accept_take_owned l w r w' :
  owned w → (∀ t c, tcbs w !! l = Some t → head (tc_acceptq t) = Some c → held c (-1) w) →
  accept_take l w = Ok (r, w') → owned w'.
Proof.
  intros Ho Hq (t & w1 & [-> Ht]%get_tcb_inv & Hr)%bind_inv.
  apply bind_inv in Hr as (c & w1 & H1 & Hr). unfold lift, in_bounds in H1.
  destruct (head (tc_acceptq t)) as [c'|] eqn:Hc; [|done]. injection H1 as -> ->.
  pose proof (Hq t c Ht Hc) as Hh. apply bind_inv in Hr as ([] & w2 & H2 & Hr).
  assert (links w2 = links w1) as E2 by (by eapply (ll_upd_tcb l (set_field tc_acceptq tail))).
  pose proof (links_owned _ _ E2 Ho) as Ho2. pose proof (links_held _ _ _ _ E2 Hh) as Hh2.
  apply bind_inv in Hr as (ns & w3 & H3 & Hr). pose proof (ko_pf_socket _ _ _ _ Ho2 H3) as Ho3.
  destruct (Z.ltb_spec ns 0) as [Hn|Hn].
  { revert Hr. eapply (ko_bind (tcp_app_abort c)); [apply ko_tcp_app_abort|keep_solve|done]. }
  assert (held c (-1) w3) as Hh3.
  { destruct Hh2 as (tc & Htc & El). exists tc. split; [|done]. rewrite <- Htc. f_equal.
    by eapply pf_socket_tcbs. }
  apply bind_inv in Hr as (tc & w4 & [-> Htc]%get_tcb_inv & Hr).
  destruct Hh3 as (tc' & Htc' & El). rewrite Htc in Htc'. injection Htc' as <-. injection El as Ea Ei.
  apply bind_inv in Hr as ([] & w4 & [Es4 Et4]%upd_sock_inv & Hr).
  apply bind_inv in Hr as ([] & w5 & [Es5 Et5]%upd_tcb_inv & Hr). injection Hr as _ <-.
  intros i k d Hk Hd. rewrite Es5, Es4, list_lookup_alter in Hk. unfold owns. rewrite Et5, Et4. case_decide as E.
  - subst i. destruct (socks w3 !! _) as [k0|]; [|done]. injection Hk as <-. injection Hd as <-.
    rewrite list_lookup_alter, decide_True, Htc by done. eexists. split; [done|]. split; [done|].
    change (ns = Z.of_nat (Z.to_nat ns)). lia.
  - destruct (Ho3 i k d Hk Hd) as (td & Htd & Had & Hid). rewrite list_lookup_alter_ne by (intros ->; rewrite Htc in Htd; injection Htd as <-; lia).
    by exists td.
Qed.

Section waits.
(** The event loop a waiting call pumps keeps the ownership. *)
Context (poll : option (PF ())) (Hpoll : ∀ p, poll = Some p → keeps_owned p).

Ltac wait_solve := destruct poll as [p|]; [pose proof (Hpoll p eq_refl)|]; keep_solve.

Lemma ko_pump : keeps_owned (pump poll).
Proof. unfold pump. wait_solve. Qed.
#[local] Hint Resolve ko_pump : keeps_owned.

Lemma ko_recvfrom_loop fuel i cap deadline : keeps_owned (recvfrom_loop fuel poll i cap deadline).
Proof. induction fuel; cbn [recvfrom_loop]; wait_solve. Qed.
#[local] Hint Resolve ko_recvfrom_loop : keeps_owned.

Lemma ko_pf_recvfrom fuel sock cap timeout : keeps_owned (pf_recvfrom fuel poll sock cap timeout).
Proof. unfold pf_recvfrom. keep_solve. Qed.

Lemma ko_recv_loop fuel i cap deadline : keeps_owned (recv_loop fuel poll i cap deadline).
Proof. induction fuel; cbn [recv_loop]; keep_solve. Qed.
#[local] Hint Resolve ko_recv_loop : keeps_owned.

Lemma ko_pf_recv fuel sock cap timeout : keeps_owned (pf_recv fuel poll sock cap timeout).
Proof. unfold pf_recv. keep_solve. Qed.

Lemma ko_send_loop fuel i sent rest : keeps_owned (send_loop fuel poll i sent rest).
Proof. revert sent rest. induction fuel; intros; cbn [send_loop]; keep_solve. Qed.
#[local] Hint Resolve ko_send_loop : keeps_owned.

Lemma ko_pf_send fuel sock buf : keeps_owned (pf_send fuel poll sock buf).
Proof. unfold pf_send. keep_solve. Qed.

Lemma ko_connect_wait fuel i deadline : keeps_owned (connect_wait fuel poll i deadline).
Proof.
  assert (∀ f, (∀ k, sk_tcb (f k) = None) → keeps_owned (upd_sock i f)) by (intros; by apply ko_drop_sock).
  induction fuel; cbn [connect_wait]; cbv zeta; repeat (apply H; done) || keep_step.
Qed.
#[local] Hint Resolve ko_connect_wait : keeps_owned.

Lemma ko_pf_connect fuel sock ip port timeout : keeps_owned (pf_connect fuel poll sock ip port timeout).
Proof.
  apply ko_on_handle; [keep_solve|]. intros i Hi. keep_step; [keep_solve|]. intros s.
  destruct (_ || _); [keep_solve|]. keep_step; [keep_solve|]. intros [lip|]; [|keep_solve].
  keep_step; [keep_solve|]. intros s'. eapply triple_bind; [apply triple_open_active|]. intros r. rewrite <- Hi.
  eapply triple_bind; [by apply triple_claim|]. intros u.
  match goal with |- triple _ ?m _ => change (keeps_owned m) end. keep_solve.
Qed.

End waits.

Lemma get_sock_inv i w k w' : get_sock i w = Ok (k, w') → w' = w ∧ socks w !! i = Some k.
Proof.
  unfold get_sock. intros (l & w2 & [= <- <-] & H1)%bind_inv. unfold lift, in_bounds in H1.
  destruct (st_socks _ !! i) eqn:E; [|done]. by injection H1 as -> ->.
Qed.

(** Without an event loop, or with a child queued, [pf_accept] takes from the
    queue it finds. *)
Lemma accept_wait_inv fuel poll i l deadline t r w w' :
  tcbs w !! l = Some t → tc_acceptq t ≠ [] ∨ poll = None →
  accept_wait fuel poll i l deadline w = Ok (r, w') → w' = w.
Proof.
  intros Ht Hq. destruct fuel; cbn [accept_wait]; intros (t' & w1 & [-> Ht']%get_tcb_inv & H1)%bind_inv;
    assert (t' = t) as -> by congruence; (destruct (tc_acceptq t); [|by injection H1 as _ <-]);
    destruct Hq as [Hq| ->]; try done;
    apply bind_inv in H1 as (s & w1 & [-> Hs]%get_sock_inv & H1);
    (destruct (sk_tcb s); [|by injection H1 as _ <-]);
    apply bind_inv in H1 as (now & w1 & [= <- <-] & H1);
    (destruct (_ <=? _); [by injection H1 as _ <-|]); [done|].
  apply bind_inv in H1 as (ok & w1 & [= <- <-] & H1). by injection H1 as _ <-.
Qed.

(** The child an accept takes over is live and nobody's; this can fail for a
    child that was reset while it was queued. *)
Definition accept_fresh (w : world) (sock : Z) (poll : option (PF ())) : Prop :=
  ∀ k l t, socks w !! Z.to_nat sock = Some k → sk_tcb k = Some l → tcbs w !! l = Some t →
    match tc_acceptq t with [] => poll = None | c :: _ => held c (-1) w end.

Lemma pf_accept_owned fuel poll sock timeout w r w' :
  owned w → accept_fresh w sock poll → pf_accept fuel poll sock timeout w = Ok (r, w') → owned w'.
Proof.
  intros Ho Hf (h & w1 & H1 & Hr)%bind_inv. destruct h as [i|].
  2: { injection Hr as _ <-. eapply ko_linkless; [apply ll_tcp_sock_get|exact Ho|exact H1]. }
  apply tcp_sock_get_inv in H1 as [-> <-]. unfold accept_fresh in Hf. rewrite Nat2Z.id in Hf.
  apply bind_inv in Hr as (s & w1 & [-> Hs]%get_sock_inv & Hr).
  destruct (sk_tcb s) as [l|] eqn:Hl; [|by injection Hr as _ <-].
  apply bind_inv in Hr as (t & w1 & [-> Ht]%get_tcb_inv & Hr). pose proof (Hf s l t Hs Hl Ht) as Hq.
  destruct (negb _); [by injection Hr as _ <-|].
  apply bind_inv in Hr as (deadline & w1 & [= <- <-] & Hr). apply bind_inv in Hr as (o & w1 & H1 & Hr).
  assert (w1 = w) as ->.
  { eapply accept_wait_inv; [exact Ht| |exact H1]. destruct (tc_acceptq t); [by right|by left]. }
  destruct o as [rc|]; [by injection Hr as _ <-|]. eapply accept_take_owned; [exact Ho| |exact Hr].
  intros t' c Ht' Hc. assert (t' = t) as -> by congruence. destruct (tc_acceptq t) as [|c' q]; [done|].
  injection Hc as ->. exact Hq.
Qed.
