(* ===== verification/Run.v ===== *)
(** * Runs of the stack

    Composes the components: what the event loop and the application do with
    a stack, in any order, as a transition system from [pf_stack_init]. *)

From S2P Require Import Prelude Pf Checksum Pkt Fib Headers Stats Stack Link Arp IpOut Icmp Reass Sock.
From S2P Require Import Udp Tcb TcpOut Tcp TcpInput TcpTimer TcpSock Fwd Input Core Text Cli Loop Stream Own.
Import Checksum Pkt Fib Stats.

(** ** Events *)

(** The event loop a blocking call pumps, and how many rounds of it the call
    waits for at most. *)
Record waiting := mk_waiting { wt_fuel : nat; wt_poll : option (PF ()); wt_timeout : Z }.

Inductive event :=
  | EvAddDev (nd : netdev)
  | EvSetAddr (dev : nat) (ip mask : Z)
  | EvRouteAdd (prefix plen nh : Z)
  | EvRouteDel (prefix plen : Z)
  | EvFrame (now : Z) (dev : nat) (p : pkt)
  | EvTick (now : Z)
  | EvSocket (type : pf_sock_type)
  | EvBind (sock ip port : Z)
  | EvSendto (sock : Z) (buf : bytes) (ip port : Z)
  | EvRecvfrom (sock cap : Z) (wt : waiting)
  | EvListen (sock backlog : Z)
  | EvAccept (sock : Z) (wt : waiting)
  | EvConnect (sock ip port : Z) (wt : waiting)
  | EvSend (sock : Z) (buf : bytes)
  | EvRecv (sock cap : Z) (wt : waiting)
  | EvNodelay (sock : Z) (on : bool)
  | EvClose (sock : Z).

(** The result of a call is the application's business. *)
Definition ignore {A} (m : PF A) : PF () := _ ← m; mret ().

Definition handle (e : event) : PF () :=
  match e with
  | EvAddDev nd => ignore (pf_stack_add_dev nd)
  | EvSetAddr dev ip mask => pf_if_set_addr dev ip mask
  | EvRouteAdd prefix plen nh => f ← get_stack ps_fib; set_fib (fib_add_via f prefix plen nh).1
  | EvRouteDel prefix plen => f ← get_stack ps_fib; set_fib (fib_del f prefix plen).1
  | EvFrame now dev p => set_now now;; eth_input dev p
  | EvTick now => set_now now;; pf_tick now
  | EvSocket type => ignore (pf_socket type)
  | EvBind sock ip port => ignore (pf_bind sock ip port)
  | EvSendto sock buf ip port => ignore (pf_sendto sock buf ip port)
  | EvRecvfrom sock cap wt => ignore (pf_recvfrom (wt_fuel wt) (wt_poll wt) sock cap (wt_timeout wt))
  | EvListen sock backlog => ignore (pf_listen sock backlog)
  | EvAccept sock wt => ignore (pf_accept (wt_fuel wt) (wt_poll wt) sock (wt_timeout wt))
  | EvConnect sock ip port wt => ignore (pf_connect (wt_fuel wt) (wt_poll wt) sock ip port (wt_timeout wt))
  | EvSend sock buf => ignore (pf_send (S (length buf)) None sock buf)
  | EvRecv sock cap wt => ignore (pf_recv (wt_fuel wt) (wt_poll wt) sock cap (wt_timeout wt))
  | EvNodelay sock on => ignore (pf_sock_set_nodelay sock on)
  | EvClose sock => ignore (pf_close sock)
  end.

(** What the types of the arguments and the caller's contract give. *)
Definition event_ok (w : world) (e : event) : Prop :=
  match e with
  | EvAddDev nd => dev_wf nd
  | EvSetAddr dev ip mask => (dev < length (devs w))%nat ∧ u32_ok ip ∧ u32_ok mask
  | EvRouteAdd _ plen nh => 0 ≤ plen ≤ 32 ∧ u32_ok nh
  | EvRouteDel _ plen => 0 ≤ plen ≤ 32
  | EvFrame _ dev p => (dev < length (devs w))%nat ∧ pkt_wf p ∧ frame_bounded p
  | EvTick _ | EvSocket _ | EvListen _ _ | EvNodelay _ _ => True
  | EvBind _ ip port => u32_ok ip ∧ u16_ok port
  | EvSendto _ buf ip _ => bytes_ok buf ∧ u32_ok ip
  | EvRecvfrom _ _ wt | EvAccept _ wt => returns_in (wt_poll wt) (wt_fuel wt) (w_now w) (wt_timeout wt)
  | EvConnect _ ip _ wt => u32_ok ip ∧ returns_in (wt_poll wt) (wt_fuel wt) (w_now w) (wt_timeout wt)
  | EvSend _ buf => bytes_ok buf ∧ zlen buf < 2 ^ 32
  | EvRecv _ cap wt => 0 ≤ cap < 2 ^ 32 ∧ returns_in (wt_poll wt) (wt_fuel wt) (w_now w) (wt_timeout wt)
  | EvClose sock => ¬ closing_early w sock
  end.

Inductive reachable : world → Prop :=
  | reach_init now : reachable (mk_world pf_stack_init now [])
  | reach_step w e w' : reachable w → event_ok w e → handle e w = Ok ((), w') → reachable w'.

(** ** Every event keeps the invariant *)

Lemma wp_ignore {A} (m : PF A) w : wp m (fun _ w' => stack_wf w') w → wp (ignore m) (fun _ w' => stack_wf w') w.
Proof. intros H. unfold ignore. wp_step. eapply wp_mono; [exact H|]. intros r w' ?. by wp_step. Qed.

Lemma wp_update_fib f w :
  stack_wf w → (∀ fb, fib_ok (length (devs w)) fb → fib_ok (length (devs w)) (f fb)) →
  wp (fb ← get_stack ps_fib; set_fib (f fb)) (fun _ w' => stack_wf w') w.
Proof.
  intros Hw Hf. wp_step. wp_step. apply wp_modify, stack_wf_set_fib; [done|]. apply Hf, Hw.
Qed.

#[local] Hint Resolve wp_pf_socket_wf wp_pf_bind_wf wp_pf_sendto_wf wp_pf_listen_wf wp_pf_send_wf
  wp_pf_sock_set_nodelay_wf wp_pf_close_wf : core.

Lemma wp_handle e w : stack_wf w → event_ok w e → wp (handle e) (fun _ w' => stack_wf w') w.
Proof.
  intros Hw He. destruct e; cbn [handle event_ok] in *; try (apply wp_ignore; by destruct_and? He; eauto).
  - apply wp_ignore. eapply wp_mono; [by apply wp_pf_stack_add_dev|]. by intros r w' [? _].
  - destruct He as (? & ? & ?). eapply wp_mono; [by apply wp_pf_if_set_addr|]. by intros [] w' [? _].
  - destruct He. apply (wp_update_fib (fun f => _)); [done|]. intros fb Hf. by apply fib_add_via_ok_devs.
  - apply (wp_update_fib (fun f => _)); [done|]. intros fb Hf. by apply fib_del_ok_devs.
  - destruct He as (Hd & ? & ?). destruct (lookup_lt_is_Some_2 _ _ Hd) as [nd Hnd]. wp_step. apply wp_modify.
    eapply wp_mono; [eapply wp_eth_input; [by apply stack_wf_now|by apply dev_at_of_lookup|done|done]|].
    by intros [] w' [? _].
  - wp_step. apply wp_modify. eapply wp_mono; [by apply wp_pf_tick, stack_wf_now|]. by intros [] w' [? _].
  - apply wp_ignore, wp_pf_recvfrom_blocking; [done|by apply He].
  - apply wp_ignore, wp_pf_accept_wf; [done|by apply He].
  - destruct He as [? He]. apply wp_ignore, wp_pf_connect_wf; [done|done|exact He].
  - destruct He as [? He]. apply wp_ignore, wp_pf_recv_wf; [done|done|by apply He].
Qed.

Lemma reachable_wf w : reachable w → stack_wf w.
Proof.
  induction 1 as [now|w e w' _ IH He Hrun]; [apply pf_stack_init_wf|].
  destruct (wp_run _ _ _ (wp_handle e w IH He)) as ([] & w1 & Hrun' & Hw1). congruence.
Qed.

(** ** Properties *)

(** C1. Runs of the whole stack are safe. In every state a run can reach from
    [pf_stack_init] by attaching and configuring devices, changing routes,
    receiving frames, ticking and making socket calls on any handles, in any
    order and at any times, the invariant of the whole stack holds, and every
    further such event is handled to the end without a fault. The events are
    those of [event_ok]: devices, addresses, prefix lengths and buffers are
    well formed; no received frame carries an ICMP message, or a fragment of
    one, that ends beyond byte 3968 (an echo request of that kind aborts the
    stack, see [Icmp.icmp_echo_overflow]); a call that waits has no event loop
    or one that keeps the invariant and reaches the deadline of the call;
    [pf_send] is called without an event loop; and no socket is closed whose
    connection is in SYN-RECEIVED. *)
Theorem run_safe w e :
  reachable w → event_ok w e → stack_wf w ∧ ∃ w', handle e w = Ok ((), w') ∧ reachable w'.
Proof.
  intros Hr He. pose proof (reachable_wf w Hr) as Hw. split; [done|].
  destruct (wp_run _ _ _ (wp_handle e w Hw He)) as ([] & w' & Hrun & _). exists w'. split; [done|].
  by eapply reach_step.
Qed.

Lemma run_safe_witness : ∃ w', handle (EvAddDev demo_dev0) (mk_world pf_stack_init 5 []) = Ok ((), w') ∧ reachable w'.
Proof.
  exact (proj2 (run_safe (mk_world pf_stack_init 5 []) (EvAddDev demo_dev0) (reach_init 5) demo_dev0_wf)).
Defined.

(** Every device, socket or connection the state refers to by index is an
    entry of its table, and only TCP sockets refer to connections. *)
Record refs_live (w : world) : Prop := {
  rl_routes i e : fib_pool (ps_fib (w_stack w)) !! i = Some e → fe_in_use e = true →
    ∃ d nd, fe_dev e = Some d ∧ devs w !! d = Some nd;
  rl_arp i e : arpc w !! i = Some e → ae_state e ≠ ARP_FREE → ∃ d nd, ae_dev e = Some d ∧ devs w !! d = Some nd;
  rl_reass i c : reass w !! i = Some c → rc_in_use c = true → ∃ d nd, rc_dev c = Some d ∧ devs w !! d = Some nd;
  rl_tcb i k c : socks w !! i = Some k → sk_tcb k = Some c → sk_type k = PF_SOCK_TCP ∧ ∃ t, tcbs w !! c = Some t;
  rl_owner c t : tcbs w !! c = Some t → tc_sock_idx t = -1 ∨ ∃ k, socks w !! Z.to_nat (tc_sock_idx t) = Some k;
  rl_listener c t l : tcbs w !! c = Some t → tc_active t = true → tc_listener t = Some l → ∃ t', tcbs w !! l = Some t';
  rl_acceptq c t x : tcbs w !! c = Some t → x ∈ tc_acceptq t → ∃ t', tcbs w !! x = Some t';
}.

Lemma dev_exists w (o : option nat) :
  (∃ d, o = Some d ∧ (d < length (devs w))%nat) → ∃ d nd, o = Some d ∧ devs w !! d = Some nd.
Proof. intros (d & -> & Hd). destruct (lookup_lt_is_Some_2 _ _ Hd) as [nd Hnd]. eauto. Qed.

Lemma tcb_exists w c : stack_wf w → (c < TCP_MAX_CONNS)%nat → ∃ t, tcbs w !! c = Some t.
Proof. intros Hw Hc. destruct (tcb_of w c Hw Hc) as (t & Ht & _). eauto. Qed.

(** In every reachable state the references are in range: each route, address
    resolution entry and reassembly context in use names an attached device,
    and what sockets and control blocks refer to are entries of the tables. *)
Lemma refs_in_range w : reachable w → refs_live w.
Proof.
  intros Hw%reachable_wf. pose proof (iw_net _ Hw) as Hn. split.
  - intros i e Hi Hu. apply dev_exists. by destruct (fo_routes _ _ (nw_fib _ Hn) i e Hi Hu) as (_ & ?).
  - intros i e Hi Hs. apply dev_exists.
    exact (aw_dev _ _ (Forall_lookup_1 _ _ _ _ (aw_entries _ _ (lw_arp _ (nw_link _ Hn))) Hi) Hs).
  - intros i c Hi Hu. apply dev_exists. pose proof (Forall_lookup_1 _ _ _ _ (rw_ctxs _ _ (iw_reass _ Hw)) Hi) as Hc.
    unfold ctx_wf in Hc. rewrite Hu in Hc. apply Hc.
  - intros i k c Hi Hc. destruct (sock_at_wf _ _ _ Hw Hi) as [Hk Hr]. split; [|by apply tcb_exists, (Hr c)].
    destruct (decide (sk_type k = PF_SOCK_TCP)) as [|Ht]; [done|]. by rewrite (sw_type _ Hk Ht) in Hc.
  - intros c t Ht. pose proof (tcp_wf_slot _ _ _ _ (iw_twf _ Hw) Ht) as Hs.
    assert (-1 ≤ tc_sock_idx t < Z.of_nat PF_SOCK_MAX) as Hr.
    { unfold slot_wf in Hs. destruct (tc_active t); [apply Hs|tauto]. }
    destruct (decide (tc_sock_idx t = -1)); [by left|right]. apply sock_of; [done|lia].
  - intros c t l Ht Ha Hl. pose proof (tcp_wf_active _ _ _ _ (iw_twf _ Hw) Ht Ha) as Hs.
    apply tcb_exists; [done|]. by apply (tb_listener _ Hs l).
  - intros c t x Ht Hx. pose proof (tcp_wf_slot _ _ _ _ (iw_twf _ Hw) Ht) as Hs. apply tcb_exists; [done|].
    unfold slot_wf in Hs. destruct (tc_active t); [|destruct Hs as [(_ & _ & _ & E) _]; rewrite E in Hx; by apply not_elem_of_nil in Hx].
    pose proof (tb_acceptq _ Hs) as Hf. rewrite Forall_forall in Hf. by apply Hf.
Qed.

(** ** Ownership *)

(** What an event asks of the caller so that sockets keep to their own
    connections: an accepted child is live and nobody's, and the event loop a
    call pumps keeps the ownership itself. *)
Definition owner_event (w : world) (e : event) : Prop :=
  match e with
  | EvAccept sock wt => accept_fresh w sock (wt_poll wt)
  | EvRecvfrom _ _ wt | EvConnect _ _ _ wt | EvRecv _ _ wt => ∀ p, wt_poll wt = Some p → keeps_owned p
  | _ => True
  end.

(** Runs in which every event meets it. *)
Inductive orderly : world → Prop :=
  | orderly_init now : orderly (mk_world pf_stack_init now [])
  | orderly_step w e w' :
      orderly w → event_ok w e → owner_event w e → handle e w = Ok ((), w') → orderly w'.

Lemma orderly_reachable w : orderly w → reachable w.
Proof. induction 1; [constructor|by eapply reach_step]. Qed.

Lemma ko_ignore {A} (m : PF A) : keeps_owned m → keeps_owned (ignore m).
Proof. intros H. apply ko_bind; [done|keep_solve]. Qed.

Lemma ko_update_fib f : keeps_owned (fb ← get_stack ps_fib; set_fib (f fb)).
Proof. unfold set_fib. keep_solve. Qed.

#[local] Hint Resolve ko_pf_recvfrom ko_pf_recv ko_pf_connect ko_pf_send : keeps_owned.

Lemma handle_owned w e w' : owned w → owner_event w e → handle e w = Ok ((), w') → owned w'.
Proof.
  intros Ho He. assert (∀ m : PF (), keeps_owned m → m w = Ok ((), w') → owned w') as Hk.
  { intros m Hm Hr. by eapply Hm. }
  destruct e; cbn [handle owner_event] in *.
  12: { intros (r & w1 & H1 & H2)%bind_inv. injection H2 as <-. by eapply pf_accept_owned. }
  all: apply Hk; try apply ko_ignore; try (by auto with keeps_owned).
  - unfold pf_stack_add_dev. keep_solve.
  - unfold pf_if_set_addr. keep_solve.
  - apply (ko_update_fib (fun f => _)).
  - apply (ko_update_fib (fun f => _)).
  - unfold set_now. keep_solve.
  - unfold set_now. keep_solve.
  - keep_solve.
  - keep_solve.
  - apply ko_pf_send. done.
  - keep_solve.
Qed.

(** C15. Sockets own their connections. In every run of the stack (frames,
    ticks, configuration and socket calls in any order), the control block a
    socket refers to is in use and names that socket as its owner; so a socket
    is never left with a block that was released, whatever released it (a
    reset, a timeout, an abort, a close), or that was allotted to another
    connection, and no two sockets share one. The events are those
    [event_ok] admits; the event loop a call waits with keeps the ownership itself, as
    frames and ticks do; and [pf_accept] either finds at the head of its queue
    a child that is in use and nobody's, or finds the queue empty and has no
    event loop (a child reset while queued breaks this, see
    [Findings.accept_queue_stale]). *)
Theorem sockets_own_connections w :
  orderly w →
  (∀ i k c, socks w !! i = Some k → sk_tcb k = Some c →
     ∃ t, tcbs w !! c = Some t ∧ tc_active t = true ∧ tc_sock_idx t = Z.of_nat i) ∧
  (∀ i j k k' c, socks w !! i = Some k → socks w !! j = Some k' →
     sk_tcb k = Some c → sk_tcb k' = Some c → i = j).
Proof.
  intros Hr. assert (owned w) as Ho.
  { induction Hr as [now|w e w' _ IH _ He Hrun]; [|by eapply handle_owned].
    intros i k c [-> _]%lookup_replicate. done. }
  split; [exact Ho|]. intros i j k k' c Hk Hk' Hc Hc'.
  destruct (Ho i k c Hk Hc) as (t & Ht & _ & Hi), (Ho j k' c Hk' Hc') as (t' & Ht' & _ & Hj).
  rewrite Ht in Ht'. injection Ht' as <-. lia.
Qed.

(** A listening socket. *)
Definition demo_listen : PF () :=
  handle (EvSocket PF_SOCK_TCP);; handle (EvBind 0 0 80);; handle (EvListen 0 2).

Lemma demo_listen_run :
  ∃ w, demo_listen (mk_world pf_stack_init 5 []) = Ok ((), w) ∧ (sk_tcb <$> socks w !! 0%nat) = Some (Some 0%nat).
Proof.
  assert (match demo_listen (mk_world pf_stack_init 5 []) with
          | Ok (_, w) => (sk_tcb <$> socks w !! 0%nat) = Some (Some 0%nat) | Err _ => False end) as H
    by by vm_compute.
  destruct (demo_listen _) as [[[] w]|]; [|done]. by exists w.
Qed.

Lemma demo_listen_orderly w : demo_listen (mk_world pf_stack_init 5 []) = Ok ((), w) → orderly w.
Proof.
  intros ([] & w1 & H1 & ([] & w2 & H2 & H3)%bind_inv)%bind_inv.
  assert (orderly w1) as O1 by (eapply orderly_step; [apply (orderly_init 5)| | |exact H1]; done).
  assert (orderly w2) as O2 by (eapply orderly_step; [exact O1| | |exact H2]; [split; lia|done]).
  eapply orderly_step; [exact O2| | |exact H3]; done.
Qed.

Lemma sockets_own_connections_witness :
  ∃ w k c, orderly w ∧ socks w !! 0%nat = Some k ∧ sk_tcb k = Some c ∧
    ∃ t, tcbs w !! c = Some t ∧ tc_active t = true ∧ tc_sock_idx t = 0.
Proof.
  destruct demo_listen_run as (w & Hrun & Hk). pose proof (demo_listen_orderly w Hrun) as Ho.
  destruct (socks w !! 0%nat) as [k|] eqn:Es; [|discriminate Hk]. injection Hk as Hc.
  exists w, k, 0%nat. split; [exact Ho|]. split; [exact Es|]. split; [exact Hc|].
  exact (proj1 (sockets_own_connections w Ho) 0%nat k 0%nat Es Hc).
Defined.
