(* ===== verification/Apps.v ===== *)
(** * The drivers and the router daemon

    Models [netdev/tap_linux.c], [netdev/clock_linux.c], the shared plumbing of
    [apps/app_common.h] and the whole of [apps/pfstack.c]. What system calls
    report, and what [getopt_long] makes of the command line, are arguments;
    standard output and standard error are descriptors 1 and 2 of the trace. *)

From S2P Require Import Prelude Pf Checksum Pkt Fib Headers Stats Stack Link Arp IpOut Icmp Reass Sock.
From S2P Require Import Udp Tcb TcpOut Tcp TcpInput TcpTimer TcpSock Fwd Input Core Text Cli Loop.
Import Checksum Pkt Fib Stats.

(** ** The clock *)

(** [ts] is what [clock_gettime] stores: seconds and nanoseconds. *)
Definition clock_now_ms (ts : Z * Z) : Z := u64 (u64 (ts.1 * 1000) + ts.2 / 1000000).

(** ** Tap devices *)

(** What opening one meets: the descriptor from [open], the name TUNSETIFF
    settles on for the one asked for, whether both [fcntl] calls succeed, and
    what [write] returns for a frame. *)
Record tap_env := mk_tap {
  tp_fd : Z; tp_setiff : bytes → option string; tp_nonblock : bool; tp_write : bytes → Z;
}.

Definition tap_tx (write : bytes → Z) (frame : bytes) : Z := if write frame <? 0 then -1 else 0.

(** Locally administered: 02:50:46:00:00 and a tail from the index. *)
Definition tap_mac (ifindex : Z) : bytes := [0x02; 0x50; 0x46; 0x00; 0x00; u8 (0x02 + ifindex)].

(** The fresh device, as it joins the stack. *)
Definition tap_dev (e : tap_env) (name : string) : netdev :=
  mk_netdev (String.substring 0 15 name) 0 (replicate 6 0) 0 0 1500 true (tap_tx (tp_write e)) (mk_ndst 0 0 0 0 0 0).

(** The index of the device, [None] for NULL. *)
Definition pf_tap_open (e : tap_env) (ifname : bytes) : CL (option nat) :=
  if tp_fd e <? 0 then mret None
  else
    match tp_setiff e (take 15 ifname) with
    | None => os_close (tp_fd e);; mret None
    | Some name =>
        if negb (tp_nonblock e) then os_close (tp_fd e);; mret None
        else
          rc ← on_stack (pf_stack_add_dev (tap_dev e name));
          if rc <? 0 then os_close (tp_fd e);; mret None
          else
            on_stack (upd_dev (Z.to_nat rc) (set_field nd_mac (fun _ => tap_mac rc)));;
            mret (Some (Z.to_nat rc))
    end.

Definition pf_tap_close (fd : Z) : CL () := os_close fd.

(** ** Shared plumbing *)

Definition printf (s : bytes) : CL () := os_write 1 s.
Definition eprintf (s : bytes) : CL () := os_write 2 s.

(** [%d]. *)
Definition fmt_d (n : Z) : bytes := if n <? 0 then 45 :: fmt_u (- n) else fmt_u n.

(** [strchr], with the character cut out: what is before and after it. *)
Fixpoint strchr (c : Z) (s : bytes) : option (bytes * bytes) :=
  match s with
  | [] => None
  | c' :: s => if c' =? c then Some ([], s) else '(a, b) ← strchr c s; Some (c' :: a, b)
  end.

Definition COMMA : Z := 44.
Definition SLASH : Z := 47.

(** What the source relies on of [atoi]: a numeral that fits an [int] is read
    as its value, and an [int] is returned. *)
Class AtoiConv (iconv : bool → Z → Z) : Prop := {
  iconv_fits n : 0 ≤ n < 2 ^ 31 → iconv false n = n;
  iconv_range neg n : - 2 ^ 31 ≤ iconv neg n < 2 ^ 31;
}.

Definition app_dump_stats : CL () :=
  w ← gets cw_world;
  printf (str "--- stats ---" ++ [NL]);;
  for_each (seq 0 (Z.to_nat pf_stats_count)) (fun i =>
    name ← lift (pf_stats_name i);
    v ← lift (pf_stats_get (ps_stats (w_stack w)) i);
    printf (str "stat " ++ str name ++ str " " ++ fmt_u v ++ [NL]));;
  for_each (devs w) (fun d =>
    printf (str "ifstat " ++ str (nd_name d) ++
            str " rx_pkts " ++ fmt_u (rx_pkts (nd_st d)) ++ str " rx_bytes " ++ fmt_u (rx_bytes (nd_st d)) ++
            str " rx_drops " ++ fmt_u (rx_drops (nd_st d)) ++ str " tx_pkts " ++ fmt_u (tx_pkts (nd_st d)) ++
            str " tx_bytes " ++ fmt_u (tx_bytes (nd_st d)) ++ str " tx_errs " ++ fmt_u (tx_errs (nd_st d)) ++ [NL]));;
  printf (str "--- end stats ---" ++ [NL]).

(** *** Signals *)

Record app_flags := mk_flags { g_stop : bool; g_dump : bool }.
#[export] Instance eta_app_flags : Eta app_flags := fun f => mk_flags (g_stop f) (g_dump f).

Definition SIGINT : Z := 2.
Definition SIGUSR1 : Z := 10.
Definition SIGTERM : Z := 15.

Definition app_on_signal (sig : Z) (f : app_flags) : app_flags :=
  if sig =? SIGUSR1 then f <| g_dump := true |> else f <| g_stop := true |>.

(** The table of handlers of the process, as [signal] changes it. *)
Abbreviation handlers := (gmap Z (Z → app_flags → app_flags)).

Definition app_install_signals (h : handlers) : handlers :=
  <[SIGUSR1:=app_on_signal]> (<[SIGTERM:=app_on_signal]> (<[SIGINT:=app_on_signal]> h)).

(** The flags after the handled signals of a list arrived. *)
Definition deliver (h : handlers) (sigs : list Z) (f : app_flags) : app_flags :=
  foldl (fun f sig => match h !! sig with Some act => act sig f | None => f end) f sigs.

(** [dump] is [g_dump], as the signal handler left it. *)
Definition app_poll_signals (dump : bool) : CL () := when dump app_dump_stats.

Section apps.
Context (conv iconv : bool → Z → Z).

Definition atoi (s : bytes) : Z :=
  let '(neg, s) := scan_sign (skip_space s) in iconv neg (scan_digits 0 s).1.

Definition bad_address (addr slash : bytes) : CL Z :=
  eprintf (str "bad address " ++ addr ++ [SLASH] ++ slash ++ [NL]);; mret (-1).

(** The address part of an interface specification. *)
Definition app_set_address (d : nat) (addr : bytes) : CL Z :=
  match strchr SLASH addr with
  | None => eprintf (str "bad address " ++ addr ++ str " (want A.B.C.D/PLEN)" ++ [NL]);; mret (-1)
  | Some (addr, slash) =>
      let plen := atoi slash in
      match pf_ip4_parse conv addr with
      | None => bad_address addr slash
      | Some ip =>
          if (plen <? 0) || (32 <? plen) then bad_address addr slash
          else
            let mask := if plen =? 0 then 0 else u32 (Z.shiftl 0xffffffff (32 - plen)) in
            on_stack (pf_if_set_addr d ip mask);; mret 0
      end
  end.

Definition app_add_iface (e : tap_env) (spec : bytes) : CL Z :=
  let '(name, addr) := match strchr COMMA spec with
                       | Some (name, addr) => (name, Some addr)
                       | None => (spec, None)
                       end in
  dev ← pf_tap_open e name;
  match dev, addr with
  | None, _ => mret (-1)
  | Some _, None => mret 0
  | Some d, Some addr => app_set_address d addr
  end.

(** [gw] is [app_pending_gw]; the result is its new value, or -1. *)
Definition app_set_gw (arg : bytes) : CL (option Z) :=
  match pf_ip4_parse conv arg with
  | Some gw => mret (Some gw)
  | None => eprintf (str "bad gateway " ++ arg ++ [NL]);; mret None
  end.

(** [fib_add_via] on the stack's table. *)
Definition stack_add_via (prefix plen nh : Z) : CL Z :=
  f ← on_stack (get_stack ps_fib);
  let '(f, rc) := fib_add_via f prefix plen nh in
  on_stack (set_fib f);; mret rc.

Definition app_apply_gw (gw : Z) : CL Z :=
  if gw =? 0 then mret 0
  else
    rc ← stack_add_via 0 0 gw;
    if rc <? 0 then eprintf (str "gateway not reachable via a connected route" ++ [NL]);; mret (-1)
    else mret 0.

(** [fds] are the descriptors of the attached devices. *)
Definition app_shutdown (fds : list Z) : CL () :=
  on_stack (upd_stack pf_stack_fini);;
  for_each fds pf_tap_close.

(** ** The router daemon *)

Definition MAX_PENDING_ROUTES : Z := 16.

(** The options [getopt_long] returns, with the value of [optarg]. *)
Inductive opt :=
  | OptIf (e : tap_env) (spec : bytes)
  | OptForward
  | OptCli (path : bytes)
  | OptRoute (spec : bytes)
  | OptGw (arg : bytes)
  | OptHexdump
  | OptVerbose
  | OptHelp
  | OptBad.

(** The local variables of [main], with the descriptors of the devices. *)
Record settings := mk_settings {
  st_n_if : Z; st_gw : Z; st_cli_path : option bytes; st_routes : list bytes; st_fds : list Z;
}.
#[local] Instance eta_settings : Eta settings := fun s =>
  mk_settings (st_n_if s) (st_gw s) (st_cli_path s) (st_routes s) (st_fds s).

Definition no_settings : settings := mk_settings 0 0 None [] [].

Definition usage : bytes :=
  str "usage: pfstack --if NAME[,A.B.C.D/PLEN] [--if ...] [--forward]" ++ [NL] ++
  str "               [--cli PATH] [--route P/L,NH]... [--gw IP] [--hexdump]" ++ [NL].

(** One option: an exit code, or the settings to go on with. *)
Definition pfstack_opt (o : opt) (s : settings) : CL (Z + settings) :=
  match o with
  | OptIf e spec =>
      rc ← app_add_iface e spec;
      if rc <? 0 then mret (inl 1)
      else mret (inr (s <| st_n_if ::= fun n => n + 1 |> <| st_fds ::= fun l => l ++ [tp_fd e] |>))
  | OptForward => on_stack (upd_stack (set_field ps_forwarding (fun _ => true)));; mret (inr s)
  | OptCli path => mret (inr (s <| st_cli_path := Some path |>))
  | OptRoute spec =>
      mret (inr (if zlen (st_routes s) <? MAX_PENDING_ROUTES then s <| st_routes ::= fun l => l ++ [spec] |> else s))
  | OptGw arg =>
      gw ← app_set_gw arg;
      match gw with
      | None => mret (inl 1)
      | Some gw => mret (inr (s <| st_gw := gw |>))
      end
  | OptHexdump => on_stack (upd_stack (set_field ps_hexdump_rx (fun _ => true)));; mret (inr s)
  | OptVerbose => mret (inr s)
  | OptHelp => eprintf usage;; mret (inl 0)
  | OptBad => eprintf usage;; mret (inl 1)
  end.

Fixpoint pfstack_opts (os : list opt) (s : settings) : CL (Z + settings) :=
  match os with
  | [] => mret (inr s)
  | o :: os =>
      r ← pfstack_opt o s;
      match r with
      | inl code => mret (inl code)
      | inr s => pfstack_opts os s
      end
  end.

Definition cannot_install (spec : bytes) (plen : Z) : CL bool :=
  eprintf (str "cannot install route " ++ spec ++ [SLASH] ++ fmt_d plen ++ [NL]);; mret false.

(** A route "P/L,NH"; [false] makes [main] return. *)
Definition install_route (spec : bytes) : CL bool :=
  match '(p, rest) ← strchr SLASH spec; '(l, nh) ← strchr COMMA rest; Some (p, l, nh) with
  | None => eprintf (str "bad route " ++ spec ++ str " (want P/L,NH)" ++ [NL]);; mret false
  | Some (p, l, nh) =>
      let plen := atoi l in
      match pf_ip4_parse conv p, pf_ip4_parse conv nh with
      | Some prefix, Some nh =>
          if (plen <? 0) || (32 <? plen) then cannot_install p plen
          else
            rc ← stack_add_via prefix (u8 plen) nh;
            if rc <? 0 then cannot_install p plen else mret true
      | _, _ => cannot_install p plen
      end
  end.

Fixpoint install_routes (specs : list bytes) : CL bool :=
  match specs with
  | [] => mret true
  | spec :: specs => ok ← install_route spec; if ok : bool then install_routes specs else mret false
  end.

(** Everything before the main loop: an exit code, or the settings with which
    it starts. [sock] and [ok] are for [cli_open]. *)
Definition pfstack_setup (sock : Z) (ok : bool) (os : list opt) : CL (Z + settings) :=
  r ← pfstack_opts os no_settings;
  match r with
  | inl code => mret (inl code)
  | inr s =>
      if st_n_if s =? 0 then eprintf usage;; mret (inl 1)
      else
        rc ← app_apply_gw (st_gw s);
        if rc <? 0 then mret (inl 1)
        else
          installed ← install_routes (st_routes s);
          if negb installed then mret (inl 1)
          else
            rc ← match st_cli_path s with None => mret 0 | Some path => cli_open sock ok path end;
            if rc <? 0 then mret (inl 1)
            else
              forwarding ← on_stack (get_stack ps_forwarding);
              printf (str "pfstack: ready (" ++ fmt_d (st_n_if s) ++ str " interface" ++
                      str (if st_n_if s =? 1 then "" else "s") ++
                      str (if forwarding : bool then ", forwarding" else "") ++ str ")" ++ [NL]);;
              mret (inr s)
  end.

(** [while (!g_stop)]: the rounds until [g_stop] is seen set, each with
    [g_dump] after it. *)
Fixpoint pfstack_loop (envs : list (poll_env * bool)) : CL () :=
  match envs with
  | [] => mret ()
  | (env, dump) :: envs =>
      rc ← pf_loop_once conv env;
      if rc <? 0 then mret () else app_poll_signals dump;; pfstack_loop envs
  end.

Definition pfstack_main (sock : Z) (ok : bool) (os : list opt) (envs : list (poll_env * bool)) : CL Z :=
  r ← pfstack_setup sock ok os;
  match r with
  | inl code => mret code
  | inr s => pfstack_loop envs;; cli_close;; app_shutdown (st_fds s);; mret 0
  end.
End apps.

(** ** Signals *)

(** With the handlers installed, and no others, whatever signals arrive in
    whatever order, the program is told to stop exactly by an interrupt or a
    request to terminate, and to print its counters exactly by SIGUSR1; no
    flag set before is lost. *)
Lemma app_signals_flags sigs f :
  deliver (app_install_signals ∅) sigs f =
    mk_flags (g_stop f || bool_decide (SIGINT ∈ sigs) || bool_decide (SIGTERM ∈ sigs))
             (g_dump f || bool_decide (SIGUSR1 ∈ sigs)).
Proof.
  revert f. induction sigs as [|sig sigs IH]; intros f.
  - cbn. rewrite !bool_decide_eq_false_2 by apply not_elem_of_nil. rewrite !orb_false_r. by destruct f.
  - etrans; [apply IH|].
    assert (∀ x, bool_decide (x ∈ sig :: sigs) = bool_decide (x = sig) || bool_decide (x ∈ sigs)) as Hc.
    { intros x. rewrite <- bool_decide_or. apply bool_decide_ext. apply elem_of_cons. }
    rewrite !Hc. unfold app_install_signals. destruct (decide (sig = SIGUSR1)) as [->|N1].
    { rewrite lookup_insert_eq. unfold app_on_signal. cbn. f_equal. by rewrite orb_true_r. }
    rewrite (bool_decide_eq_false_2 (SIGUSR1 = sig)), lookup_insert_ne by congruence.
    destruct (decide (sig = SIGTERM)) as [->|N2].
    { rewrite lookup_insert_eq. unfold app_on_signal. cbn. f_equal. by rewrite !orb_true_r. }
    rewrite (bool_decide_eq_false_2 (SIGTERM = sig)), lookup_insert_ne by congruence.
    destruct (decide (sig = SIGINT)) as [->|N3].
    { rewrite lookup_insert_eq. unfold app_on_signal. cbn. f_equal. by rewrite orb_true_r. }
    rewrite (bool_decide_eq_false_2 (SIGINT = sig)), lookup_insert_ne, lookup_empty by congruence. done.
Qed.

(** ** Attaching interfaces *)

(** Printing changes no state. *)
Lemma loop_wf_same w w' : loop_wf w → same w w' → loop_wf w'.
Proof. intros [H1 H2] [E1 E2]. split; [by rewrite E1|by rewrite E2]. Qed.

Lemma wp_os_write fd s (Q : () → cliw → Prop) w : (∀ w', same w w' → Q () w') → wp (os_write fd s) Q w.
Proof. intros HQ. apply wp_modify. by apply HQ. Qed.

(** The name the system settles on, when every call succeeds. *)
Definition tap_opens (e : tap_env) (ifname : bytes) : option string :=
  if tp_fd e <? 0 then None
  else name ← tp_setiff e (take 15 ifname); if tp_nonblock e then Some name else None.

Definition tap_at (e : tap_env) (name : string) (i : Z) : netdev :=
  tap_dev e name <| nd_ifindex := i |> <| nd_mac := tap_mac i |>.

Lemma tap_mac_ok i : mac_ok (tap_mac i).
Proof. split; [done|]. unfold tap_mac. repeat constructor; wrap_lia. Qed.

Lemma tap_dev_wf e name : dev_wf (tap_dev e name).
Proof. split; cbn; [|lia..]. split; [done|solve_bytes_ok]. Qed.

Lemma wp_pf_tap_open e ifname w :
  loop_wf w →
  wp (pf_tap_open e ifname) (fun r w' => loop_wf w' ∧
    match tap_opens e ifname with
    | Some name =>
        if PF_MAX_DEVS <=? zlen (devs (cw_world w)) then r = None ∧ same w w'
        else r = Some (length (devs (cw_world w))) ∧
             devs (cw_world w') = devs (cw_world w) ++ [tap_at e name (zlen (devs (cw_world w)))] ∧
             ps_fib (w_stack (cw_world w')) = ps_fib (w_stack (cw_world w))
    | None => r = None ∧ same w w'
    end) w.
Proof.
  intros Hw. unfold pf_tap_open, tap_opens.
  assert (∀ w1, loop_wf w1 → wp (os_close (tp_fd e);; mret (@None nat)) (fun r w' => loop_wf w' ∧ r = None ∧ same w1 w') w1)
    as Hclose.
  { intros w1 Hw1. apply wp_bind, wp_os_close. intros w' Hs. apply wp_ret. split; [by eapply loop_wf_same|done]. }
  destruct (tp_fd e <? 0); [by apply wp_ret|].
  destruct (tp_setiff e (take 15 ifname)) as [name|]; cbn [mbind option_bind]; [|by apply Hclose].
  destruct (tp_nonblock e); cbn [negb]; [|by apply Hclose].
  apply wp_bind, wp_on_stack. eapply wp_mono; [apply wp_pf_stack_add_dev; [apply Hw|apply tap_dev_wf]|].
  intros r w1 [Hw1 H1]. set (w2 := w <| cw_world := w1 |>).
  assert (loop_wf w2) as Hw2 by (split; [done|apply Hw]).
  destruct (PF_MAX_DEVS <=? zlen (devs (cw_world w))).
  { destruct H1 as [-> ->]. eapply wp_mono; [by apply (Hclose w2)|]. intros r' w' (? & ? & ? & ?).
    split; [done|]. split; [done|]. by split. }
  destruct H1 as (-> & Hd & Hf). rewrite (proj2 (Z.ltb_ge _ _)) by lia. apply wp_bind, wp_on_stack.
  eapply wp_upd_dev_wf; [exact Hw1|change (cw_world w2) with w1; rewrite Hd, length_app; cbn [length]; lia| |].
  { intros nd []. split; [apply tap_mac_ok|done..]. }
  intros w3 Hw3 ->. apply wp_ret. split; [split; [done|apply Hw]|]. rewrite Nat2Z.id. split; [done|].
  split; [|exact Hf]. etransitivity; [apply (f_equal (alter (set_field nd_mac (fun _ => tap_mac (zlen (devs (cw_world w)))))
    (length (devs (cw_world w)))) Hd)|]. rewrite alter_app_r_alt by lia. by rewrite Nat.sub_diag.
Qed.

(** Every device has the hardware address of its index, so no two share one. *)
Definition own_macs (ds : list netdev) : Prop := ∀ i nd, ds !! i = Some nd → nd_mac nd = tap_mac (Z.of_nat i).

Lemma tap_mac_inj i j : 0 ≤ i < 254 → 0 ≤ j < 254 → tap_mac i = tap_mac j → i = j.
Proof. intros Hi Hj E. assert (u8 (2 + i) = u8 (2 + j)) by exact (f_equal (fun l => nth 5 l 0) E). wrap_lia. Qed.

Lemma own_macs_nodup ds : zlen ds ≤ PF_MAX_DEVS → own_macs ds → NoDup (nd_mac <$> ds).
Proof.
  intros Hl Ho. apply NoDup_alt. intros i j m Hi Hj. apply list_lookup_fmap_Some in Hi as (a & -> & Hi), Hj as (b & E & Hj).
  pose proof (lookup_lt_Some _ _ _ Hi). pose proof (lookup_lt_Some _ _ _ Hj).
  rewrite (Ho _ _ Hi), (Ho _ _ Hj) in E. change PF_MAX_DEVS with 8 in Hl. apply tap_mac_inj in E; lia.
Qed.

Lemma own_macs_add ds e name : own_macs ds → own_macs (ds ++ [tap_at e name (zlen ds)]).
Proof.
  intros Ho i nd [Hi|(Hl & Hi)]%lookup_app_Some; [by eapply Ho|].
  apply list_lookup_singleton_Some in Hi as [Hi <-]. change (tap_mac (zlen ds) = tap_mac (Z.of_nat i)). f_equal. lia.
Qed.

Lemma own_macs_alter ds f i : (∀ nd, nd_mac (f nd) = nd_mac nd) → own_macs ds → own_macs (alter f i ds).
Proof.
  intros Hf Ho j nd Hj. rewrite list_lookup_alter in Hj. case_decide; [subst j|by eapply Ho].
  apply fmap_Some in Hj as (x & Hx & ->). rewrite Hf. by apply Ho.
Qed.

Lemma plen_mask_u32 plen : u32_ok (plen_mask plen).
Proof. unfold plen_mask. destruct (_ =? 0); [lia|apply u32_range]. Qed.

Lemma strchr_found c a b : c ∉ a → strchr c (a ++ c :: b) = Some (a, b).
Proof.
  induction a as [|x a IH]; intros Hc; cbn [app strchr]; [by rewrite Z.eqb_refl|].
  apply not_elem_of_cons in Hc as [Hx Ha]. rewrite (proj2 (Z.eqb_neq x c)), IH by done. done.
Qed.

Section safety.
Context (conv iconv : bool → Z → Z) `{!ScanConv conv} `{!AtoiConv iconv}.

Lemma atoi_fmt_u n : 0 ≤ n < 2 ^ 31 → atoi iconv (fmt_u n) = n.
Proof.
  intros Hn. destruct (fmt_u_start n []) as [E _]; [lia|]. pose proof (scan_fmt_u n [] ltac:(lia) ltac:(done)) as Hd.
  rewrite app_nil_r in *. unfold atoi. rewrite E, Hd. by apply iconv_fits.
Qed.

(** A step of the set-up: the invariant, and what becomes of the devices. *)
Lemma wp_eprintf_rc {A} s (r : A) (Q : A → cliw → Prop) w :
  (∀ w', same w w' → Q r w') → wp (eprintf s;; mret r) Q w.
Proof. intros HQ. apply wp_bind, wp_os_write. intros w' Hs. by apply wp_ret, HQ. Qed.

Lemma wp_app_set_address d addr w :
  loop_wf w → (d < length (devs (cw_world w)))%nat →
  wp (app_set_address conv iconv d addr) (fun rc w' => loop_wf w' ∧
    ∃ f, (∀ nd, nd_mac (f nd) = nd_mac nd) ∧ devs (cw_world w') = alter f d (devs (cw_world w))) w.
Proof.
  intros Hw Hd. unfold app_set_address, bad_address.
  assert (∀ w', same w w' → loop_wf w' ∧ ∃ f, (∀ nd, nd_mac (f nd) = nd_mac nd) ∧
    devs (cw_world w') = alter f d (devs (cw_world w))) as Hsame.
  { intros w' Hs. split; [by eapply loop_wf_same|]. exists id. split; [done|]. destruct Hs as [-> _]. by apply symmetry, list_alter_id. }
  destruct (strchr SLASH addr) as [[a l]|]; [|by apply wp_eprintf_rc].
  destruct (pf_ip4_parse conv a) as [ip|] eqn:Hip; [|by apply wp_eprintf_rc].
  destruct (_ || _) eqn:Hb; [by apply wp_eprintf_rc|]. apply orb_false_iff in Hb as [Hb1%Z.ltb_ge Hb2%Z.ltb_ge].
  apply parse_range in Hip; [|done]. apply wp_bind, wp_on_stack.
  eapply wp_mono; [apply wp_pf_if_set_addr; [apply Hw|done|done|apply plen_mask_u32]|].
  intros [] w1 (Hw1 & Hd1 & _). apply wp_ret. split; [split; [done|apply Hw]|]. eexists. split; [|exact Hd1]. done.
Qed.

(** The invariant of the set-up. *)
Record taps_wf (w : cliw) : Prop := {
  ta_wf : loop_wf w;
  ta_macs : own_macs (devs (cw_world w));
  ta_max : zlen (devs (cw_world w)) ≤ PF_MAX_DEVS;
}.

Lemma taps_wf_same w w' : taps_wf w → same w w' → taps_wf w'.
Proof. intros [H1 H2 H3] Hs. split; [by eapply loop_wf_same|by destruct Hs as [-> _]..]. Qed.

Lemma wp_app_add_iface e spec w :
  taps_wf w →
  wp (app_add_iface conv iconv e spec) (fun rc w' => taps_wf w' ∧
    (0 ≤ rc → length (devs (cw_world w')) = S (length (devs (cw_world w))))) w.
Proof.
  intros H0. pose proof H0 as [Hw Hm Hx]. unfold app_add_iface.
  destruct (match strchr COMMA spec with Some _ => _ | None => _ end) as [name addr].
  apply wp_bind. eapply wp_mono; [by apply wp_pf_tap_open|]. intros r w1 [Hw1 H1].
  assert (r = None ∧ same w w1 ∨ r = Some (length (devs (cw_world w))) ∧ taps_wf w1 ∧
          length (devs (cw_world w1)) = S (length (devs (cw_world w)))) as [[-> Hs]|(-> & Ht & Hl)].
  { destruct (tap_opens e name) as [dname|]; [|by left]. destruct (Z.leb_spec PF_MAX_DEVS (zlen (devs (cw_world w)))); [by left|].
    right. destruct H1 as (-> & Hd & _). split; [done|]. rewrite Hd, length_app. cbn [length]. split; [|lia].
    split; [done|rewrite Hd; by apply own_macs_add|rewrite Hd, length_app; cbn [length]; lia]. }
  { apply wp_ret. split; [by eapply taps_wf_same|lia]. }
  destruct addr as [addr|]; [|by apply wp_ret]. eapply wp_mono; [apply wp_app_set_address; [apply Ht|lia]|].
  intros rc w2 [Hw2 (f & Hf & Hd)]. split; [split|]; rewrite ?Hd, ?length_alter; [done| |apply Ht|done].
  apply own_macs_alter; [done|apply Ht].
Qed.

(** Operations that only touch routes or flags. *)
Lemma wp_stack_add_via prefix plen nh w :
  taps_wf w → 0 ≤ plen ≤ 32 → u32_ok nh →
  wp (stack_add_via prefix plen nh) (fun _ w' => taps_wf w' ∧ devs (cw_world w') = devs (cw_world w)) w.
Proof.
  intros [Hw Hm Hx] Hp Hn. unfold stack_add_via. apply wp_bind, wp_on_stack_get.
  pose proof (fib_add_via_ok_devs _ _ prefix plen nh (nw_fib _ (iw_net _ (lo_stack _ Hw))) Hp Hn) as Hf.
  destruct (fib_add_via _ _ _ _) as [f rc]. apply wp_bind, wp_on_stack, wp_modify, wp_ret. split; [|done].
  split; [split; [apply stack_wf_set_fib; [apply Hw|exact Hf]|apply Hw]|done|done].
Qed.

Lemma wp_app_apply_gw gw w :
  taps_wf w → u32_ok gw →
  wp (app_apply_gw gw) (fun _ w' => taps_wf w' ∧ devs (cw_world w') = devs (cw_world w)) w.
Proof.
  intros Hw Hg. unfold app_apply_gw. destruct (gw =? 0); [by apply wp_ret|]. apply wp_bind.
  eapply wp_mono; [apply wp_stack_add_via; [done|lia|done]|]. intros rc w1 [Hw1 Hd].
  destruct (rc <? 0); [|by apply wp_ret]. apply wp_eprintf_rc. intros w2 Hs.
  split; [by eapply taps_wf_same|by destruct Hs as [-> _]].
Qed.

Lemma wp_install_route spec w :
  taps_wf w → wp (install_route conv iconv spec) (fun _ w' => taps_wf w' ∧ devs (cw_world w') = devs (cw_world w)) w.
Proof.
  intros Hw. unfold install_route, cannot_install.
  assert (∀ w1, taps_wf w1 → devs (cw_world w1) = devs (cw_world w) → ∀ w', same w1 w' →
    taps_wf w' ∧ devs (cw_world w') = devs (cw_world w)) as Hsame.
  { intros w1 H1 H2 w' Hs. split; [by eapply taps_wf_same|by destruct Hs as [-> _]]. }
  destruct (_ ≫= _) as [[[p l] nh]|]; [|apply wp_eprintf_rc; exact (Hsame w Hw eq_refl)].
  destruct (pf_ip4_parse conv p) as [prefix|]; [|apply wp_eprintf_rc; exact (Hsame w Hw eq_refl)].
  destruct (pf_ip4_parse conv nh) as [ip|] eqn:Hnh; [|apply wp_eprintf_rc; exact (Hsame w Hw eq_refl)].
  apply parse_range in Hnh; [|done].
  destruct (_ || _) eqn:Hb; [apply wp_eprintf_rc; exact (Hsame w Hw eq_refl)|].
  apply orb_false_iff in Hb as [Hb1%Z.ltb_ge Hb2%Z.ltb_ge]. apply wp_bind.
  eapply wp_mono; [apply wp_stack_add_via; [done|rewrite u8_small by lia; lia|done]|]. intros rc w1 [Hw1 Hd].
  destruct (rc <? 0); [|by apply wp_ret]. apply wp_eprintf_rc. exact (Hsame w1 Hw1 Hd).
Qed.

Lemma wp_install_routes specs w :
  taps_wf w → wp (install_routes conv iconv specs) (fun _ w' => taps_wf w' ∧ devs (cw_world w') = devs (cw_world w)) w.
Proof.
  revert w. induction specs as [|spec specs IH]; intros w Hw; cbn [install_routes]; [by apply wp_ret|].
  apply wp_bind. eapply wp_mono; [by apply wp_install_route|]. intros ok w1 [Hw1 Hd].
  destruct ok; [|by apply wp_ret]. eapply wp_mono; [by apply IH|]. intros r w2 [Hw2 Hd2]. split; [done|congruence].
Qed.

(** The settings agree with the devices attached. *)
Record setup_wf (s : settings) (w : cliw) : Prop := {
  se_taps : taps_wf w;
  se_n_if : st_n_if s = zlen (devs (cw_world w));
  se_fds : length (st_fds s) = length (devs (cw_world w));
  se_gw : u32_ok (st_gw s);
}.

Definition setup_post (r : Z + settings) (w : cliw) : Prop :=
  match r with inl code => code = 0 ∨ code = 1 | inr s => setup_wf s w end.

Lemma setup_wf_devs s w w' : setup_wf s w → taps_wf w' → devs (cw_world w') = devs (cw_world w) → setup_wf s w'.
Proof. intros [] Ht Hd. split; [done|by rewrite Hd..|done]. Qed.

(** Setting a flag of the stack. *)
Lemma wp_set_flag f (s : settings) w :
  setup_wf s w → (∀ w1, stack_wf w1 → stack_wf (w1 <| w_stack ::= f |>)) → (∀ st, ps_devs (f st) = ps_devs st) →
  wp (on_stack (upd_stack f);; mret (@inr Z settings s)) setup_post w.
Proof.
  intros Hw Hf Hd. apply wp_bind, wp_on_stack, wp_modify, wp_ret. destruct (se_taps _ _ Hw) as [[Hs Hc] Hm Hx].
  pose proof (Hd (w_stack (cw_world w))) as E. eapply setup_wf_devs; [exact Hw| |exact E].
  split; [split; [by apply Hf|done]|by cbn; rewrite E..].
Qed.

Lemma wp_pfstack_opt o s w : setup_wf s w → wp (pfstack_opt conv iconv o s) setup_post w.
Proof.
  intros Hw. pose proof Hw as [Ht Hn Hl Hg]. destruct o as [e spec| |path|spec|arg| | | |]; cbn [pfstack_opt].
  - apply wp_bind. eapply wp_mono; [by apply wp_app_add_iface|]. intros rc w1 [Hw1 Hd].
    destruct (Z.ltb_spec rc 0); [apply wp_ret; by right|]. apply wp_ret. specialize (Hd ltac:(lia)).
    split; [done|cbn; lia|cbn; rewrite length_app; cbn; lia|done].
  - apply wp_set_flag; [done| |done]. intros w1 [[[] ? ?] ? ?]. by split.
  - by apply wp_ret.
  - apply wp_ret. by destruct (_ <? _).
  - apply wp_bind. unfold app_set_gw. destruct (pf_ip4_parse conv arg) as [gw|] eqn:Hgw.
    + apply wp_ret, wp_ret. apply parse_range in Hgw; [|done]. by split.
    + apply wp_eprintf_rc. intros w1 _. apply wp_ret. by right.
  - apply wp_set_flag; [done| |done]. intros w1 [[[] ? ?] ? ?]. by split.
  - by apply wp_ret.
  - apply wp_eprintf_rc. by left.
  - apply wp_eprintf_rc. by right.
Qed.

Lemma wp_pfstack_opts os s w : setup_wf s w → wp (pfstack_opts conv iconv os s) setup_post w.
Proof.
  revert s w. induction os as [|o os IH]; intros s w Hw; cbn [pfstack_opts]; [by apply wp_ret|].
  apply wp_bind. eapply wp_mono; [by apply wp_pfstack_opt|]. intros [code|s1] w1 H1; [by apply wp_ret|by apply IH].
Qed.

Lemma wp_cli_open_wf sock ok path w :
  taps_wf w → wp (cli_open sock ok path) (fun _ w' => taps_wf w' ∧ cw_world w' = cw_world w) w.
Proof.
  intros Hw. unfold cli_open. destruct (sock <? 0); [by apply wp_ret|]. destruct ok; cbn [negb].
  - apply wp_bind, wp_modify, wp_ret. destruct Hw as [[Hs Hc] Hm Hx]. split; [|done].
    split; [split; [done|]|done|done]. intros c [= <-]. split; [done|]. by repeat constructor.
  - apply wp_bind, wp_os_close. intros w1 Hs. apply wp_ret. split; [by eapply taps_wf_same|apply Hs].
Qed.

Lemma wp_pfstack_setup sock ok os w :
  setup_wf no_settings w →
  wp (pfstack_setup conv iconv sock ok os)
    (fun r w' => setup_post r w' ∧ ∀ s, r = inr s → 0 < zlen (devs (cw_world w'))) w.
Proof.
  intros Hw. unfold pfstack_setup. apply wp_bind. eapply wp_mono; [by apply wp_pfstack_opts|].
  intros [code|s] w1 H1; [by apply wp_ret|]. destruct (Z.eqb_spec (st_n_if s) 0).
  { apply wp_eprintf_rc. intros w2 _. split; [by right|done]. }
  apply wp_bind. eapply wp_mono; [apply wp_app_apply_gw; apply H1|]. intros rc w2 [T2 D2].
  destruct (rc <? 0); [apply wp_ret; split; [by right|done]|].
  apply wp_bind. eapply wp_mono; [by apply wp_install_routes|]. intros b w3 [T3 D3].
  destruct b; cbn [negb]; [|apply wp_ret; split; [by right|done]]. apply wp_bind.
  apply (wp_mono _ (fun _ w' => taps_wf w' ∧ cw_world w' = cw_world w3)).
  { destruct (st_cli_path s); [by apply wp_cli_open_wf|by apply wp_ret]. }
  intros rc2 w4 [T4 D4]. destruct (rc2 <? 0); [apply wp_ret; split; [by right|done]|].
  apply wp_bind, wp_on_stack_get. apply wp_bind, wp_os_write. intros w5 S5. apply wp_ret.
  assert (devs (cw_world w5) = devs (cw_world w1)) as E5 by (destruct S5 as [-> _]; rewrite D4; congruence).
  split; [eapply setup_wf_devs; [exact H1|by eapply taps_wf_same|exact E5]|].
  intros s' _. rewrite E5, <- (se_n_if _ _ H1). pose proof (se_n_if _ _ H1). lia.
Qed.

(** ** The main loop and the end *)

Lemma prints_printf1 w0 s : prints w0 (printf s).
Proof. intros w _. by apply wp_os_write. Qed.

Lemma prints_dump w0 : prints w0 app_dump_stats.
Proof.
  unfold app_dump_stats. remember pf_stats_count as n0 eqn:En. apply prints_world.
  apply prints_then; [apply prints_printf1|]. apply prints_then.
  - apply prints_for_each. intros i [_ Hi]%list_elem_of_In%in_seq. rewrite En in Hi.
    destruct (pf_stats_name_ok i) as (n & Hn & _); [lia|].
    destruct (pf_stats_get_ok (ps_stats (w_stack w0)) i) as (v & Hv); [lia|].
    eapply prints_lift; [exact Hn|]. eapply prints_lift; [exact Hv|]. apply prints_printf1.
  - apply prints_then; [apply prints_for_each; intros; apply prints_printf1|apply prints_printf1].
Qed.

Lemma wp_pfstack_loop envs w :
  loop_wf w → Forall (fun ed => env_ok ed.1) envs → wp (pfstack_loop conv envs) (fun _ w' => loop_wf w') w.
Proof.
  intros Hw He. revert w Hw. induction He as [|[env dump] envs He _ IH]; intros w Hw; cbn [pfstack_loop]; [by apply wp_ret|].
  apply wp_bind. eapply wp_mono; [by apply wp_pf_loop_once|]. intros h w1 (Hw1 & _).
  destruct (h <? 0); [by apply wp_ret|]. apply wp_bind. unfold app_poll_signals.
  eapply wp_mono; [by apply (prints_when (cw_world w1) dump _ (prints_dump _))|]. intros [] w2 Hs.
  apply IH. by eapply loop_wf_same.
Qed.

Lemma wp_cli_close w : wp cli_close (fun _ _ => True) w.
Proof.
  unfold cli_close. apply wp_bind, wp_gets. destruct (cw_cli w) as [c|]; [|by apply wp_ret]. apply wp_bind.
  eapply wp_mono; [apply (wp_for_each (fun _ => True)); [done|]|].
  - intros cl w1 _ _. destruct (0 <=? cc_fd cl); [by apply wp_os_close|by apply wp_ret].
  - intros [] w1 _. apply wp_bind, wp_os_close. intros w2 _. by apply wp_modify.
Qed.

Lemma wp_close_taps fds w : wp (for_each fds pf_tap_close) (fun _ w' => cw_closed w' = cw_closed w ++ fds) w.
Proof.
  revert w. induction fds as [|fd fds IH]; intros w; cbn [for_each]; [apply wp_ret; by rewrite app_nil_r|].
  apply wp_bind, wp_modify. eapply wp_mono; [apply IH|]. intros [] w' ->. cbn. by rewrite <- app_assoc.
Qed.

Lemma wp_pfstack_exit fds w :
  wp (cli_close;; app_shutdown fds;; mret 0) (fun rc w' => rc = 0 ∧ ∃ l, cw_closed w' = l ++ fds) w.
Proof.
  apply wp_bind. eapply wp_mono; [apply wp_cli_close|]. intros [] w1 _. apply wp_bind. unfold app_shutdown.
  apply wp_bind, wp_on_stack, wp_modify. eapply wp_mono; [apply wp_close_taps|]. intros [] w2 H2.
  apply wp_ret. eauto.
Qed.
End safety.

(** ** Properties *)

(** The state [main] starts from. *)
Definition fresh_app (now : Z) : cliw := mk_cliw (mk_world pf_stack_init now []) None [] [].

Lemma fresh_app_wf now : setup_wf no_settings (fresh_app now).
Proof. split; [split; [split; [apply pf_stack_init_wf|done]|done|done]|done..]. Qed.

(** C2. The router daemon does not crash, oversized ICMP aside. For every
    command line, whatever the system calls answer while it is set up, and
    every sequence of rounds of the event loop in which no frame read from a
    device carries an ICMP message, or a fragment of one, that ends beyond byte
    3968 (an echo request of that kind aborts the daemon, see
    [Icmp.icmp_echo_overflow]), [main] of [pfstack] ends with exit code 0 or 1.
    When the set-up succeeds, at least one device is attached, every device has
    a hardware address of its own, the invariants of the stack and the command
    line hold when the loop is entered, and at the end the exit code is 0 and
    the descriptor of every device has been closed. *)
Theorem pfstack_main_safe conv iconv sock ok os envs now :
  ScanConv conv → AtoiConv iconv → Forall (fun ed => env_ok ed.1) envs →
  ∃ rc w', pfstack_main conv iconv sock ok os envs (fresh_app now) = Ok (rc, w') ∧ (rc = 0 ∨ rc = 1) ∧
    ∀ s w1, pfstack_setup conv iconv sock ok os (fresh_app now) = Ok (inr s, w1) →
      loop_wf w1 ∧ 0 < zlen (devs (cw_world w1)) ∧ NoDup (nd_mac <$> devs (cw_world w1)) ∧
      rc = 0 ∧ length (st_fds s) = length (devs (cw_world w1)) ∧ ∃ l, cw_closed w' = l ++ st_fds s.
Proof.
  intros Hc Ha He.
  destruct (wp_run _ _ _ (wp_pfstack_setup conv iconv sock ok os _ (fresh_app_wf now))) as (r & w1 & Hs & Hp & Hn).
  unfold pfstack_main. unfold mbind at 1, M_bind at 1. rewrite Hs. destruct r as [code|s].
  { exists code, w1. split; [done|]. split; [done|]. intros s w2 [= ]. }
  destruct Hp as [[Hw Hm Hx] _ Hl _].
  assert (wp (pfstack_loop conv envs;; cli_close;; app_shutdown (st_fds s);; mret 0)
    (fun rc w' => rc = 0 ∧ ∃ l, cw_closed w' = l ++ st_fds s) w1) as Hrest.
  { apply wp_bind. eapply wp_mono; [by apply wp_pfstack_loop|]. intros [] w2 _. apply wp_pfstack_exit. }
  destruct (wp_run _ _ _ Hrest) as (rc & w' & Hrun & -> & Hl'). exists 0, w'. split; [exact Hrun|]. split; [by left|].
  intros s' w2 [= <- <-]. split_and!; [done|by eapply Hn|by apply own_macs_nodup|done|done|done].
Qed.

(** The C library of the target: [strtol] saturates at 64 bits, the low 32
    bits are kept. *)
Definition glibc_iconv (neg : bool) (n : Z) : Z :=
  let v := Z.max (- 2 ^ 63) (Z.min (2 ^ 63 - 1) (if neg then - n else n)) in (v + 2 ^ 31) mod 2 ^ 32 - 2 ^ 31.

#[export] Instance glibc_atoi : AtoiConv glibc_iconv.
Proof.
  split.
  - intros n Hn. unfold glibc_iconv. rewrite Z.min_r, Z.max_r by lia. rewrite Z.mod_small; lia.
  - intros neg n. unfold glibc_iconv. pose proof (Z.mod_pos_bound (Z.max (- 2 ^ 63) (Z.min (2 ^ 63 - 1) (if neg then - n else n)) + 2 ^ 31) (2 ^ 32)). lia.
Qed.

(** A tap device that opens under the name asked for. *)
Definition demo_tap (fd : Z) : tap_env := mk_tap fd (fun _ => Some "pf0"%string) true (fun _ => 0).

Lemma pfstack_main_safe_witness :
  ∃ rc w', pfstack_main glibc_conv glibc_iconv 9 true
      [OptIf (demo_tap 5) (str "pf0,10.1.0.2/24"); OptForward; OptRoute (str "172.16.0.0/16,10.1.0.1")]
      [(demo_env, true)] (fresh_app 5) = Ok (rc, w') ∧ (rc = 0 ∨ rc = 1).
Proof.
  destruct (pfstack_main_safe glibc_conv glibc_iconv 9 true
      [OptIf (demo_tap 5) (str "pf0,10.1.0.2/24"); OptForward; OptRoute (str "172.16.0.0/16,10.1.0.1")]
      [(demo_env, true)] 5 glibc_scan glibc_atoi (Forall_cons_2 (fun ed : poll_env * bool => env_ok ed.1) (demo_env, true) [] demo_env_ok
        (Forall_nil_2 _))) as (rc & w' & H1 & H2 & _). exact (ex_intro _ rc (ex_intro _ w' (conj H1 H2))).
Defined.

Lemma popcount_plen_mask plen : 0 ≤ plen ≤ 32 → popcount (plen_mask plen) = plen.
Proof.
  intros Hp. assert (forallb (fun n => popcount (plen_mask (Z.of_nat n)) =? Z.of_nat n) (seq 0 33) = true) as H by by vm_compute.
  rewrite forallb_forall in H. specialize (H (Z.to_nat plen) ltac:(apply in_seq; lia)). apply Z.eqb_eq in H.
  by rewrite Z2Nat.id in H by lia.
Qed.

Lemma slash_not_in_ip ip : u32_ok ip → SLASH ∉ pf_ip4_str ip.
Proof.
  intros [H _]%ip4_str_chars Hin. rewrite Forall_forall in H. by destruct (H _ Hin).
Qed.

(** An interface specification NAME,A.B.C.D/PLEN means what it says. When
    the system opens the device and there is room for it, the device joins
    the stack under the next index, up, with the name the system settled on,
    MTU 1500, the hardware address of its index, the address and the mask of
    PLEN leading ones, and the connected route to its network is installed;
    nothing else of the device table or the route table changes. *)
Theorem app_add_iface_spec conv iconv e name dname ip plen w :
  ScanConv conv → AtoiConv iconv → loop_wf w → COMMA ∉ name → u32_ok ip → 0 ≤ plen ≤ 32 →
  tap_opens e name = Some dname → zlen (devs (cw_world w)) < PF_MAX_DEVS →
  let n := length (devs (cw_world w)) in
  ∃ w', app_add_iface conv iconv e (name ++ COMMA :: pf_ip4_str ip ++ SLASH :: fmt_u plen) w = Ok (0, w') ∧ loop_wf w' ∧
    devs (cw_world w') = devs (cw_world w) ++
      [mk_netdev (String.substring 0 15 dname) (Z.of_nat n) (tap_mac (Z.of_nat n)) ip (plen_mask plen) 1500 true
         (tap_tx (tp_write e)) (mk_ndst 0 0 0 0 0 0)] ∧
    ps_fib (w_stack (cw_world w')) =
      (fib_add (ps_fib (w_stack (cw_world w))) (Z.land ip (plen_mask plen)) plen 0 (Some n) true).1.
Proof.
  intros Hc Ha Hw Hname Hip Hp Ht Hmax n. set (nd := mk_netdev _ _ _ _ _ _ _ _ _). set (f := (fib_add _ _ _ _ _ _).1).
  enough (wp (app_add_iface conv iconv e (name ++ COMMA :: pf_ip4_str ip ++ SLASH :: fmt_u plen)) (fun rc w' =>
    rc = 0 ∧ loop_wf w' ∧ devs (cw_world w') = devs (cw_world w) ++ [nd] ∧ ps_fib (w_stack (cw_world w')) = f) w) as H.
  { destruct (wp_run _ _ _ H) as (rc & w' & Hrun & -> & ?). eauto. }
  unfold app_add_iface. rewrite strchr_found by done. apply wp_bind.
  eapply wp_mono; [by apply wp_pf_tap_open|]. intros r w1 [Hw1 H1]. rewrite Ht in H1.
  rewrite (proj2 (Z.leb_gt _ _) Hmax) in H1. destruct H1 as (-> & Hd1 & Hf1). fold n in Hd1 |- *.
  unfold app_set_address. rewrite strchr_found by (by apply slash_not_in_ip). rewrite parse_ip4_str, atoi_fmt_u by (done || lia).
  rewrite (proj2 (Z.ltb_ge plen 0)), (proj2 (Z.ltb_ge 32 plen)) by lia. cbn [orb]. fold (plen_mask plen).
  apply wp_bind, wp_on_stack. eapply wp_mono; [apply wp_pf_if_set_addr; [apply Hw1| |done|apply plen_mask_u32]|].
  { rewrite Hd1, length_app. cbn [length]. lia. }
  intros [] w2 (Hw2 & Hd2 & Hf2). apply wp_ret. split; [done|]. split; [split; [done|apply Hw1]|]. cbn [cw_world].
  split; [|etransitivity; [exact Hf2|]; by rewrite Hf1, popcount_plen_mask].
  change (devs (cw_world (w1 <| cw_world := w2 |>))) with (devs w2). rewrite Hd2, Hd1.
  rewrite alter_app_r_alt by lia. by rewrite Nat.sub_diag.
Qed.

Lemma app_add_iface_spec_witness :
  ∃ w', app_add_iface glibc_conv glibc_iconv (demo_tap 5) (str "pf0,10.1.0.2/24") (fresh_app 5) = Ok (0, w') ∧
    (nd_ip <$> devs (cw_world w')) = [0x0a010002] ∧ (nd_mask <$> devs (cw_world w')) = [0xffffff00].
Proof.
  destruct (app_add_iface_spec glibc_conv glibc_iconv (demo_tap 5) (str "pf0") "pf0" 0x0a010002 24 (fresh_app 5)
    glibc_scan glibc_atoi (ta_wf _ (se_taps _ _ (fresh_app_wf 5))) ltac:(apply (bool_decide_unpack _); vm_compute; exact I)
    ltac:(lia) ltac:(lia) eq_refl ltac:(reflexivity)) as (w' & H1 & _ & H2 & _).
  exists w'. split; [exact H1|]. rewrite H2. split; reflexivity.
Defined.
