(* ===== verification/Services.v ===== *)
(** * The services

    Models [apps/udp_echo.c], [apps/tcp_echo.c] and [apps/httpd.c]: their
    set-up, and the loops that serve datagrams and connections over the socket
    API. [poll] is the event loop the stack runs while a call waits
    ([stack.poll_fn]), [fuel] how many rounds of it one call waits for; a loop
    over [while (!g_stop)] is a list, one element for each time the flag is
    found clear, holding [g_dump]. *)

From S2P Require Import Prelude Pf Checksum Pkt Fib Headers Stats Stack Link Arp IpOut Icmp Reass Sock.
From S2P Require Import Udp Tcb TcpOut Tcp TcpInput TcpTimer TcpSock Fwd Input Core Text Cli Loop Stream Apps.
Import Checksum Pkt Fib Stats.

(** ** Set-up *)

Inductive sopt :=
  | SvIf (e : tap_env) (spec : bytes)
  | SvPort (arg : bytes)
  | SvGw (arg : bytes)
  | SvVerbose
  | SvBad.

Record svc := mk_svc { sv_n_if : Z; sv_port : Z; sv_gw : Z; sv_fds : list Z }.
#[local] Instance eta_svc : Eta svc := fun s => mk_svc (sv_n_if s) (sv_port s) (sv_gw s) (sv_fds s).

Section setup.
Context (conv iconv : bool → Z → Z) (use : bytes).

Definition service_opt (o : sopt) (s : svc) : CL (Z + svc) :=
  match o with
  | SvIf e spec =>
      rc ← app_add_iface conv iconv e spec;
      if rc <? 0 then mret (inl 1)
      else mret (inr (s <| sv_n_if ::= fun n => n + 1 |> <| sv_fds ::= fun l => l ++ [tp_fd e] |>))
  | SvPort arg => mret (inr (s <| sv_port := u16 (atoi iconv arg) |>))
  | SvGw arg =>
      gw ← app_set_gw conv arg;
      match gw with
      | None => mret (inl 1)
      | Some gw => mret (inr (s <| sv_gw := gw |>))
      end
  | SvVerbose => mret (inr s)
  | SvBad => eprintf use;; mret (inl 1)
  end.

Fixpoint service_opts (os : list sopt) (s : svc) : CL (Z + svc) :=
  match os with
  | [] => mret (inr s)
  | o :: os =>
      r ← service_opt o s;
      match r with
      | inl code => mret (inl code)
      | inr s => service_opts os s
      end
  end.

(** Options, interfaces and gateway, as far as they are the same in the three
    programs; [port] is the default. *)
Definition service_setup (port : Z) (os : list sopt) : CL (Z + svc) :=
  r ← service_opts os (mk_svc 0 port 0 []);
  match r with
  | inl code => mret (inl code)
  | inr s =>
      if sv_n_if s =? 0 then eprintf use;; mret (inl 1)
      else
        rc ← app_apply_gw (sv_gw s);
        if rc <? 0 then mret (inl 1) else mret (inr s)
  end.
End setup.

(** [pf_socket(PF_SOCK_TCP)], [pf_bind] and [pf_listen]; -1 when one fails. *)
Definition open_listener (port : Z) : PF Z :=
  lsock ← pf_socket PF_SOCK_TCP;
  if lsock <? 0 then mret (-1)
  else
    rc ← pf_bind lsock 0 port;
    if rc <? 0 then mret (-1)
    else
      rc ← pf_listen lsock 4;
      if rc <? 0 then mret (-1) else mret lsock.

Definition open_datagram (port : Z) : PF Z :=
  sock ← pf_socket PF_SOCK_UDP;
  if sock <? 0 then mret (-1)
  else
    rc ← pf_bind sock 0 port;
    if rc <? 0 then mret (-1) else mret sock.

Section services.
Context (fuel : nat) (poll : PF ()).

(** ** UDP echo *)

(** One turn of the loop, with [g_dump]. *)
Definition udp_echo_turn (sock : Z) (dump : bool) : CL () :=
  r ← on_stack (pf_recvfrom fuel (Some poll) sock PKT_BUF_SIZE 200);
  app_poll_signals dump;;
  match r with
  | RecvData data src_ip src_port =>
      if zlen data <=? 0 then mret ()
      else _ ← on_stack (pf_sendto sock data src_ip src_port); mret ()
  | _ => mret ()
  end.

Definition udp_echo_loop (sock : Z) (dumps : list bool) : CL () := for_each dumps (udp_echo_turn sock).

Definition udp_usage (argv0 : bytes) : bytes :=
  str "usage: " ++ argv0 ++ str " --if NAME,A.B.C.D/PLEN [--port N]" ++ [NL].

(** [main] up to the end of its loop: an exit code, or the settings and the
    socket. *)
Definition udp_echo_serve (conv iconv : bool → Z → Z) (argv0 : bytes) (os : list sopt) (dumps : list bool) :
    CL (Z + svc * Z) :=
  r ← service_setup conv iconv (udp_usage argv0) 7 os;
  match r with
  | inl code => mret (inl code)
  | inr s =>
      sock ← on_stack (open_datagram (sv_port s));
      if sock <? 0 then eprintf (str "bind " ++ fmt_u (sv_port s) ++ str " failed" ++ [NL]);; mret (inl 1)
      else
        printf (str "udp_echo: ready on port " ++ fmt_u (sv_port s) ++ [NL]);;
        udp_echo_loop sock dumps;;
        mret (inr (s, sock))
  end.

Definition udp_echo_main (conv iconv : bool → Z → Z) (argv0 : bytes) (os : list sopt) (dumps : list bool) : CL Z :=
  r ← udp_echo_serve conv iconv argv0 os dumps;
  match r with
  | inl code => mret code
  | inr (s, sock) =>
      _ ← on_stack (pf_close sock);
      app_shutdown (sv_fds s);;
      mret 0
  end.

(** ** TCP echo *)

(** [sizeof(buf)]. *)
Definition ECHO_BUF : Z := 16384.

(** One turn over an accepted connection; [false] leaves the loop. *)
Definition tcp_echo_turn (cs : Z) (dump : bool) : CL bool :=
  app_poll_signals dump;;
  r ← on_stack (pf_recv fuel (Some poll) cs ECHO_BUF 500);
  match r with
  | StreamTimeout => mret true
  | StreamData data =>
      if zlen data <=? 0 then mret false
      else
        rc ← on_stack (pf_send fuel (Some poll) cs data);
        mret (negb (rc <? 0))
  | _ => mret false
  end.

Fixpoint tcp_echo_session (cs : Z) (dumps : list bool) : CL () :=
  match dumps with
  | [] => mret ()
  | dump :: dumps => go ← tcp_echo_turn cs dump; if go : bool then tcp_echo_session cs dumps else mret ()
  end.

(** ** HTTP *)

Definition CR : Z := 13.
Definition crlf : bytes := [CR; NL].

Definition PAGE : bytes :=
  str "<!doctype html>" ++ [NL] ++
  str "<html><head><title>PacketForge</title></head>" ++ [NL] ++
  str "<body><h1>PacketForge</h1>" ++ [NL] ++
  str "<p>This page was served by a from-scratch TCP/IP stack in C:" ++ [NL] ++
  str "Ethernet, ARP, IPv4, ICMP, UDP and TCP over a Linux TAP device —" ++ [NL] ++
  str "no kernel sockets, no lwIP.</p>" ++ [NL] ++
  str "</body></html>" ++ [NL].

Definition BLOB_LEN : Z := 1024 * 1024.
Definition CHUNK : Z := 8192.

(** xorshift32: the next state, which is also the output. *)
Definition xs32 (s : Z) : Z :=
  let x := Z.lxor s (u32 (Z.shiftl s 13)) in
  let x := Z.lxor x (Z.shiftr x 17) in
  Z.lxor x (u32 (Z.shiftl x 5)).

(** [n] words of the generator in memory order, and its state after them. *)
Fixpoint blob_words (n : nat) (seed : Z) : bytes * Z :=
  match n with
  | O => ([], seed)
  | S n => let v := xs32 seed in let '(b, seed) := blob_words n v in (store32 v ++ b, seed)
  end.

(** The first [n] bytes of [chunk] after the inner loop. *)
Definition blob_chunk (n seed : Z) : bytes * Z :=
  let '(b, seed) := blob_words (Z.to_nat ((n + 3) / 4)) seed in (take (Z.to_nat n) b, seed).

(** What is sent while [left > 0], in at most [k] chunks. *)
Fixpoint blob_chunks (k : nat) (left seed : Z) : list bytes :=
  match k with
  | O => []
  | S k =>
      if 0 <? left then
        let n := Z.min left CHUNK in
        let '(b, seed) := blob_chunk n seed in b :: blob_chunks k (left - n) seed
      else []
  end.

Definition http_header (type : bytes) (len : Z) : bytes :=
  str "HTTP/1.0 200 OK" ++ crlf ++ str "Server: packetforge-httpd" ++ crlf ++
  str "Content-Type: " ++ type ++ crlf ++ str "Content-Length: " ++ fmt_u len ++ crlf ++
  str "Connection: close" ++ crlf ++ crlf.

(** [hdr[0..hl)] after [snprintf] into the 256 bytes of [hdr]. *)
Definition header_bytes (text : bytes) : result bytes := if zlen text <? 256 then Ok text else Err OutOfBounds.

(** The answer to a request, in the pieces in which it is sent. *)
Definition http_response (req : bytes) : result (list bytes) :=
  let want_blob := has_prefix req "GET /blob" in
  hdr ← header_bytes (http_header (str (if want_blob then "application/octet-stream" else "text/html"))
                                  (if want_blob then BLOB_LEN else zlen PAGE));
  Ok (hdr :: if want_blob then blob_chunks 128 BLOB_LEN 0x9e3779b9 else [PAGE]).

(** [strstr(s, needle)]. *)
Fixpoint strstr (needle s : bytes) : bool :=
  bool_decide (take (length needle) s = needle) || match s with [] => false | _ :: s => strstr needle s end.

Definition REQ_MAX : Z := 2047.

(** The request loop, [got] read so far, at most [k] more reads; [None] when
    the connection ends or stays silent. *)
Fixpoint read_request (k : nat) (cs : Z) (got : bytes) : PF (option bytes) :=
  if zlen got <? REQ_MAX then
    r ← pf_recv fuel (Some poll) cs (REQ_MAX - zlen got) 5000;
    match r with
    | StreamData data =>
        if zlen data <=? 0 then mret None
        else
          let got := got ++ data in
          if strstr (crlf ++ crlf) (cstr got) || strstr [NL; NL] (cstr got) then mret (Some got)
          else match k with O => lift (Err OutOfFuel) | S k => read_request k cs got end
    | _ => mret None
    end
  else mret (Some got).

(** Sending the pieces, stopping at the first failure. *)
Fixpoint send_pieces (cs : Z) (pieces : list bytes) : PF () :=
  match pieces with
  | [] => mret ()
  | piece :: pieces =>
      rc ← pf_send fuel (Some poll) cs piece;
      if rc <? 0 then mret () else send_pieces cs pieces
  end.

Definition serve_client (cs : Z) : PF () :=
  req ← read_request (Z.to_nat REQ_MAX) cs [];
  match req with
  | None => mret ()
  | Some req => pieces ← lift (http_response (cstr req)); send_pieces cs pieces
  end.

(** ** The two TCP servers *)

Definition tcp_usage (argv0 : bytes) : bytes :=
  str "usage: " ++ argv0 ++ str " --if NAME,A.B.C.D/PLEN [--port N] [--gw IP]" ++ [NL].

(** One turn of the accept loop. *)
Definition accept_turn {A} (lsock : Z) (serve : Z → CL A) (dump : bool) : CL () :=
  app_poll_signals dump;;
  r ← on_stack (pf_accept fuel (Some poll) lsock 200);
  match r with
  | AcceptErr _ => mret ()
  | Accepted cs _ _ => _ ← serve cs; _ ← on_stack (pf_close cs); mret ()
  end.

(** What the two programs share; [serve] is one connection, with what the
    signal flags do meanwhile. *)
Definition tcp_server_main {A B} (conv iconv : bool → Z → Z) (name : string) (port : Z) (serve : A → Z → CL B)
    (argv0 : bytes) (os : list sopt) (turns : list (bool * A)) : CL Z :=
  r ← service_setup conv iconv (tcp_usage argv0) port os;
  match r with
  | inl code => mret code
  | inr s =>
      lsock ← on_stack (open_listener (sv_port s));
      if lsock <? 0 then eprintf (str "listen on " ++ fmt_u (sv_port s) ++ str " failed" ++ [NL]);; mret 1
      else
        printf (str name ++ str ": ready on port " ++ fmt_u (sv_port s) ++ [NL]);;
        for_each turns (fun turn => accept_turn lsock (serve turn.2) turn.1);;
        _ ← on_stack (pf_close lsock);
        app_shutdown (sv_fds s);;
        mret 0
  end.

Definition tcp_echo_serve (dumps : list bool) (cs : Z) : CL () :=
  _ ← on_stack (pf_sock_set_nodelay cs true);
  tcp_echo_session cs dumps.

Definition tcp_echo_main (conv iconv : bool → Z → Z) : bytes → list sopt → list (bool * list bool) → CL Z :=
  tcp_server_main conv iconv "tcp_echo" 7 tcp_echo_serve.

Definition httpd_main (conv iconv : bool → Z → Z) : bytes → list sopt → list (bool * ()) → CL Z :=
  tcp_server_main conv iconv "httpd" 80 (fun _ cs => on_stack (serve_client cs)).
End services.

(** ** Calls that may still be waiting *)

(** Like [wp], but the run may also end for lack of fuel, that is, while a
    call waits for the network. *)
Definition waits {W A} (m : M W A) (Q : A → W → Prop) (w : W) : Prop :=
  match m w with Ok (a, w') => Q a w' | Err OutOfFuel => True | Err _ => False end.

Lemma waits_wp {W A} (m : M W A) Q w : wp m Q w → waits m Q w.
Proof. unfold wp, waits. destruct (m w) as [[]|]; [done|by intros []]. Qed.

Lemma waits_bind {W A B} (m : M W A) (f : A → M W B) Q w :
  waits m (fun a w' => waits (f a) Q w') w → waits (m ≫= f) Q w.
Proof. unfold waits, mbind, M_bind. by destruct (m w) as [[a w']|[]]. Qed.

Lemma waits_wp_bind {W A B} (m : M W A) (f : A → M W B) Q w :
  wp m (fun a w' => waits (f a) Q w') w → waits (m ≫= f) Q w.
Proof. intros H. by apply waits_bind, waits_wp. Qed.

Lemma waits_mono {W A} (m : M W A) (P Q : A → W → Prop) w : waits m P w → (∀ a w', P a w' → Q a w') → waits m Q w.
Proof. unfold waits. destruct (m w) as [[a w']|[]]; auto. Qed.

Lemma waits_on_stack {A} (m : PF A) (Q : A → cliw → Prop) w :
  waits m (fun a w' => Q a (w <| cw_world := w' |>)) (cw_world w) → waits (on_stack m) Q w.
Proof. unfold waits, on_stack. by destruct (m (cw_world w)) as [[]|[]]. Qed.

Section safety.
Context (fuel : nat) (poll : PF ()).
Hypothesis poll_ok : ∀ w, stack_wf w → wp poll (fun _ w' => stack_wf w') w.

Lemma waits_recv_loop n i cap d w :
  stack_wf w → (i < PF_SOCK_MAX)%nat → 0 ≤ cap < 2 ^ 32 →
  waits (recv_loop n (Some poll) i cap d) (fun r w' => stack_wf w' ∧ stream_ok r cap) w.
Proof.
  intros Hw Hi Hcap. revert w Hw. induction n as [|n IH]; intros w Hw;
    destruct (sock_of w i Hw Hi) as [k Hk]; cbn [recv_loop]; apply waits_wp_bind; (eapply wp_get_sock; [done|]);
    (destruct (sk_tcb k) as [c|] eqn:Ec; [|apply waits_wp, wp_ret; by destruct (_ =? 0)]);
    destruct (tcb_of w c Hw (proj2 (sock_at_wf _ _ _ Hw Hk) c Ec)) as (t & Ht & _);
    apply waits_wp_bind; (eapply wp_get_tcb; [done|]);
    (destruct (Z.ltb_spec 0 (tc_rcv_len t)); [by eapply waits_wp, wp_recv_take_data|]);
    (destruct (tc_rcv_eof t); [by apply waits_wp, wp_ret|]); apply waits_wp_bind; wp_step;
    (destruct (d <=? w_now w); [by apply waits_wp, wp_ret|]); [done|].
  apply waits_wp_bind. cbn [pump]. wp_step. eapply wp_mono; [by apply poll_ok|]. intros [] w' Hw'. wp_step. by apply IH.
Qed.

Lemma waits_pf_recv sock cap timeout w :
  stack_wf w → 0 ≤ cap < 2 ^ 32 →
  waits (pf_recv fuel (Some poll) sock cap timeout) (fun r w' => stack_wf w' ∧ stream_ok r cap) w.
Proof.
  intros Hw Hcap. unfold pf_recv. apply waits_wp_bind, wp_tcp_sock_get_wf; [done|by apply waits_wp, wp_ret|].
  intros Hs k Hk Hty. apply waits_wp_bind. unfold timeout_deadline. do 3 wp_step. apply waits_recv_loop; [done|lia|done].
Qed.

Lemma waits_send_loop n i sent rest w :
  stack_wf w → (i < PF_SOCK_MAX)%nat → bytes_ok rest → zlen rest < 2 ^ 32 →
  waits (send_loop n (Some poll) i sent rest) (fun _ w' => stack_wf w') w.
Proof.
  intros Hw Hi Hb Hl. revert sent rest Hb Hl w Hw. induction n as [|n IH]; intros sent rest Hb Hl w Hw;
    destruct (sock_of w i Hw Hi) as [k Hk]; cbn [send_loop];
    (destruct (Z.eqb_spec (zlen rest) 0); [by apply waits_wp, wp_ret|]);
    apply waits_wp_bind; (eapply wp_get_sock; [done|]);
    (destruct (sk_tcb k) as [c|] eqn:Ec; [|by apply waits_wp, wp_ret]);
    destruct (tcb_of w c Hw (proj2 (sock_at_wf _ _ _ Hw Hk) c Ec)) as (t & Ht & Hs);
    apply waits_wp_bind; (eapply wp_get_tcb; [done|]);
    (destruct (_ && _) eqn:Hx; [by apply waits_wp, wp_ret|]); [done|].
  assert (app_open (tc_state t) = true) as Ho by (by destruct (tc_state t)).
  destruct (slot_open t Hs) as [Ha Hwf]; [by intros E; rewrite E in Ho|]. pose proof (snd_len_range t Hwf) as Hsl.
  assert (0 ≤ tcp_snd_space t) as Hsp by (unfold tcp_snd_space; wrap_lia).
  destruct (Z.eqb_spec (tcp_snd_space t) 0) as [E0|E0].
  - apply waits_wp_bind. cbn [pump]. wp_step. eapply wp_mono; [by apply poll_ok|]. intros [] w' Hw'. wp_step. by apply IH.
  - rewrite (u32_small (zlen rest)) by lia. set (m := Z.to_nat _). apply waits_wp_bind.
    eapply wp_send_put; [apply Hw|done|done|done|by apply Forall_take|rewrite length_take; lia|].
    intros w1 t1 S1 Hwf1 Ha1 _ _ _ _. apply IH; [by apply Forall_drop|rewrite length_drop; lia|].
    eapply stack_wf_tcb_step; [exact Hw|exact S1|]. apply slot_wf_active; [congruence|done].
Qed.

Lemma waits_pf_send sock buf w :
  stack_wf w → bytes_ok buf → zlen buf < 2 ^ 32 → waits (pf_send fuel (Some poll) sock buf) (fun _ w' => stack_wf w') w.
Proof.
  intros Hw Hb Hl. unfold pf_send. apply waits_wp_bind, wp_tcp_sock_get_wf; [done|by apply waits_wp, wp_ret|].
  intros Hs k Hk Hty. apply waits_send_loop; [done|lia|done|done].
Qed.

(** ** Connections *)

Lemma wp_poll_signals dump (Q : () → cliw → Prop) w :
  (∀ w', same w w' → Q () w') → wp (app_poll_signals dump) Q w.
Proof.
  intros HQ. eapply wp_mono; [by apply (prints_when (cw_world w) dump _ (prints_dump _))|]. by intros [] w'; apply HQ.
Qed.

Lemma loop_wf_world w s : loop_wf w → stack_wf s → loop_wf (w <| cw_world := s |>).
Proof. intros [_ Hc] Hs. by split. Qed.

Lemma waits_tcp_echo_turn cs dump w : loop_wf w → waits (tcp_echo_turn fuel poll cs dump) (fun _ w' => loop_wf w') w.
Proof.
  intros Hw. unfold tcp_echo_turn. apply waits_wp_bind, wp_poll_signals. intros w1 Hs.
  assert (loop_wf w1) as Hw1 by (by eapply loop_wf_same). apply waits_bind, waits_on_stack.
  eapply waits_mono; [apply waits_pf_recv; [apply Hw1|unfold ECHO_BUF; lia]|]. intros r w2 [Hw2 Hr].
  assert (loop_wf (w1 <| cw_world := w2 |>)) as Hl2 by (by apply loop_wf_world).
  destruct r as [data| | |]; try by apply waits_wp, wp_ret.
  destruct (_ <=? _); [by apply waits_wp, wp_ret|]. destruct Hr as [Hb Hl]. apply waits_bind, waits_on_stack.
  eapply waits_mono; [apply waits_pf_send; [done|done|unfold ECHO_BUF in Hl; lia]|]. intros rc w3 Hw3. apply waits_wp, wp_ret.
  by apply loop_wf_world.
Qed.

Lemma waits_tcp_echo_session cs dumps w :
  loop_wf w → waits (tcp_echo_session fuel poll cs dumps) (fun _ w' => loop_wf w') w.
Proof.
  revert w. induction dumps as [|dump dumps IH]; intros w Hw; cbn [tcp_echo_session]; [by apply waits_wp, wp_ret|].
  apply waits_bind. eapply waits_mono; [by apply waits_tcp_echo_turn|]. intros go w1 Hw1.
  destruct go; [by apply IH|by apply waits_wp, wp_ret].
Qed.

(** *** Datagrams *)

Definition recv_ok (r : recv_result) : Prop :=
  match r with RecvData data src_ip _ => bytes_ok data ∧ u32_ok src_ip | _ => True end.

Lemma waits_recvfrom_loop n i cap d w :
  stack_wf w → (i < PF_SOCK_MAX)%nat →
  waits (recvfrom_loop n (Some poll) i cap d) (fun r w' => stack_wf w' ∧ recv_ok r) w.
Proof.
  intros Hw Hi. revert w Hw. induction n as [|n IH]; intros w Hw;
    destruct (sock_of w i Hw Hi) as [k Hk]; destruct (sock_at_wf _ _ _ Hw Hk) as [Hkw Hc];
    cbn [recvfrom_loop]; apply waits_wp_bind; (eapply wp_get_sock; [done|]);
    (destruct (sk_rxq k) as [|p q] eqn:Hq;
      [|destruct (sock_wf_pop k p q Hkw Hq) as [[Hp Hip] Hk']; apply waits_wp_bind;
        eapply wp_upd_sock_wf; [done|exact Hk|exact Hk'|exact Hc|];
        intros w' Hw' _ _; apply waits_wp, wp_ret; split; [done|]; split; [by apply Forall_take, pkt_bytes_ok|done]]);
    apply waits_wp_bind; wp_step; (destruct (d <=? w_now w); [by apply waits_wp, wp_ret|]); [done|].
  apply waits_wp_bind. eapply wp_mono; [by apply poll_ok|]. intros [] w' Hw'. by apply IH.
Qed.

Lemma waits_pf_recvfrom sock cap timeout w :
  stack_wf w → waits (pf_recvfrom fuel (Some poll) sock cap timeout) (fun r w' => stack_wf w' ∧ recv_ok r) w.
Proof.
  intros Hw. unfold pf_recvfrom. apply waits_wp_bind, wp_sock_get_wf; [done|by apply waits_wp, wp_ret|].
  intros k Hk. apply waits_wp_bind. eapply wp_get_sock; [done|]. destruct (negb _); [by apply waits_wp, wp_ret|].
  apply waits_wp_bind. wp_step. apply waits_recvfrom_loop; [done|].
  apply lookup_lt_Some in Hk. by rewrite (tw_len _ (tp_socktab _ _ (iw_twf _ Hw))) in Hk.
Qed.

Lemma waits_udp_echo_turn sock dump w : loop_wf w → waits (udp_echo_turn fuel poll sock dump) (fun _ w' => loop_wf w') w.
Proof.
  intros Hw. unfold udp_echo_turn. apply waits_bind, waits_on_stack. eapply waits_mono; [apply waits_pf_recvfrom, Hw|].
  intros r w1 [Hw1 Hr]. apply waits_wp_bind, wp_poll_signals. intros w2 Hs. apply waits_wp.
  assert (loop_wf w2) as Hw2 by (eapply loop_wf_same; [by apply loop_wf_world|exact Hs]).
  destruct r as [| |data ip port]; try by apply wp_ret. destruct (_ <=? _); [by apply wp_ret|]. destruct Hr as [Hb Hip].
  apply wp_bind, wp_on_stack. eapply wp_mono; [apply wp_pf_sendto_wf; [apply Hw2|done|done]|]. intros rc w3 Hw3.
  apply wp_ret. by apply loop_wf_world.
Qed.

Lemma waits_udp_echo_loop sock dumps w :
  loop_wf w → waits (udp_echo_loop fuel poll sock dumps) (fun _ w' => loop_wf w') w.
Proof.
  revert w. induction dumps as [|dump dumps IH]; intros w Hw; [by apply waits_wp, wp_ret|].
  apply waits_bind. eapply waits_mono; [by apply waits_udp_echo_turn|]. intros [] w1 Hw1. by apply IH.
Qed.

(** *** Streams *)

(** Every read brings a byte at least, so the request is complete after at
    most [REQ_MAX] of them. *)
Lemma waits_read_request k cs got w :
  stack_wf w → REQ_MAX ≤ zlen got + Z.of_nat k →
  waits (read_request fuel poll k cs got) (fun _ w' => stack_wf w') w.
Proof.
  revert got w. induction k as [|k IH]; intros got w Hw Hk; cbn [read_request].
  - rewrite (proj2 (Z.ltb_ge _ _)) by lia. by apply waits_wp, wp_ret.
  - destruct (Z.ltb_spec (zlen got) REQ_MAX); [|by apply waits_wp, wp_ret]. apply waits_bind.
    unfold REQ_MAX in *. eapply waits_mono; [apply waits_pf_recv; [done|lia]|]. intros r w1 [Hw1 Hr].
    destruct r as [data| | |]; try by apply waits_wp, wp_ret.
    destruct (Z.leb_spec (zlen data) 0); [by apply waits_wp, wp_ret|]. destruct (_ || _); [by apply waits_wp, wp_ret|].
    apply IH; [done|rewrite length_app; lia].
Qed.

Lemma waits_send_pieces cs pieces w :
  stack_wf w → Forall (fun b => bytes_ok b ∧ zlen b < 2 ^ 32) pieces →
  waits (send_pieces fuel poll cs pieces) (fun _ w' => stack_wf w') w.
Proof.
  intros Hw Hp. revert w Hw. induction Hp as [|b pieces [Hb Hl] _ IH]; intros w Hw; cbn [send_pieces];
    [by apply waits_wp, wp_ret|].
  apply waits_bind. eapply waits_mono; [by apply waits_pf_send|]. intros rc w1 Hw1.
  destruct (rc <? 0); [by apply waits_wp, wp_ret|by apply IH].
Qed.
End safety.

(** ** The answer of the HTTP server *)

Lemma blob_words_ok n seed :
  length (blob_words n seed).1 = (4 * n)%nat ∧ bytes_ok (blob_words n seed).1.
Proof.
  revert seed. induction n as [|n IH]; intros seed; [done|]. cbn [blob_words]. specialize (IH (xs32 seed)).
  destruct (blob_words n (xs32 seed)) as [b s]. cbn [fst] in *. destruct IH as [Hl Hb].
  split; [rewrite length_app, Hl; cbn; lia|]. apply Forall_app_2; [apply store32_ok|done].
Qed.

Lemma blob_chunk_ok n seed : 0 ≤ n → zlen (blob_chunk n seed).1 = n ∧ bytes_ok (blob_chunk n seed).1.
Proof.
  intros Hn. unfold blob_chunk. pose proof (blob_words_ok (Z.to_nat ((n + 3) / 4)) seed) as [Hl Hb].
  destruct (blob_words _ seed) as [b s]. cbn [fst] in *. split; [rewrite length_take; wrap_lia|by apply Forall_take].
Qed.

Lemma blob_chunks_ok k left seed :
  0 ≤ left ≤ Z.of_nat k * CHUNK →
  zlen (concat (blob_chunks k left seed)) = left ∧
  Forall (fun b => bytes_ok b ∧ 0 < zlen b ≤ CHUNK) (blob_chunks k left seed).
Proof.
  unfold CHUNK. revert left seed. induction k as [|k IH]; intros left seed Hk; cbn [blob_chunks];
    [split; [cbn; lia|done]|].
  destruct (Z.ltb_spec 0 left); [|split; [cbn; lia|done]]. unfold CHUNK. set (n := Z.min left 8192).
  destruct (blob_chunk_ok n seed) as [Hl Hb]; [lia|]. destruct (blob_chunk n seed) as [b s]. cbn [fst] in *.
  destruct (IH (left - n) s) as [Hl' Hf]; [lia|]. cbn [concat]. rewrite length_app.
  split; [lia|]. apply Forall_cons_2; [split; [done|lia]|done].
Qed.

(** What follows the header. *)
Definition http_body (blob : bool) : list bytes := if blob then blob_chunks 128 BLOB_LEN 0x9e3779b9 else [PAGE].

Lemma http_body_ok blob :
  Forall (fun b => bytes_ok b ∧ 0 < zlen b ≤ CHUNK) (http_body blob) ∧
  zlen (concat (http_body blob)) = if blob then BLOB_LEN else zlen PAGE.
Proof.
  destruct blob; cbn [http_body].
  - destruct (blob_chunks_ok 128 BLOB_LEN 0x9e3779b9) as [Hl Hf]; [by vm_compute|]. split; [exact Hf|exact Hl].
  - cbn [concat]. rewrite app_nil_r. split; [|done]. apply Forall_singleton. split; [|by vm_compute].
    apply (bool_decide_unpack _). by vm_compute.
Qed.

Lemma http_header_fits (blob : bool) :
  header_bytes (http_header (str (if blob then "application/octet-stream" else "text/html"))
                            (if blob then BLOB_LEN else zlen PAGE)) =
  Ok (http_header (str (if blob then "application/octet-stream" else "text/html"))
                  (if blob then BLOB_LEN else zlen PAGE)).
Proof. destruct blob; by vm_compute. Qed.

Lemma http_header_ok (blob : bool) :
  let h := http_header (str (if blob then "application/octet-stream" else "text/html"))
                       (if blob then BLOB_LEN else zlen PAGE) in
  bytes_ok h ∧ zlen h < 256.
Proof. destruct blob; (split; [apply (bool_decide_unpack _)|]); vm_compute; done. Qed.

Lemma http_pieces_ok req :
  ∃ pieces, http_response req = Ok pieces ∧ Forall (fun b => bytes_ok b ∧ zlen b < 2 ^ 32) pieces.
Proof.
  unfold http_response. rewrite http_header_fits. cbn [mbind result_bind].
  fold (http_body (has_prefix req "GET /blob")). destruct (http_body_ok (has_prefix req "GET /blob")) as [Hf _].
  eexists. split; [done|]. apply Forall_cons_2.
  - destruct (http_header_ok (has_prefix req "GET /blob")) as [? ?]. split; [done|lia].
  - eapply Forall_impl; [exact Hf|]. intros b [Hb Hl]. unfold CHUNK in Hl. split; [done|lia].
Qed.

(** ** Set-up of the services *)

Definition svc_post (r : Z + svc) (w : cliw) : Prop :=
  match r with inl code => code = 1 | inr s => taps_wf w ∧ u16_ok (sv_port s) ∧ u32_ok (sv_gw s) end.

Section starting.
Context (conv iconv : bool → Z → Z) (use : bytes) `{!ScanConv conv} `{!AtoiConv iconv}.

Lemma wp_service_opt o s w : svc_post (inr s) w → wp (service_opt conv iconv use o s) svc_post w.
Proof.
  intros (Ht & Hp & Hg). destruct o as [e spec|arg|arg| |]; cbn [service_opt].
  - apply wp_bind. eapply wp_mono; [by apply wp_app_add_iface|]. intros rc w1 [Hw1 _].
    destruct (rc <? 0); by apply wp_ret.
  - apply wp_ret. split; [done|]. split; [apply u16_range|done].
  - apply wp_bind. unfold app_set_gw. destruct (pf_ip4_parse conv arg) as [gw|] eqn:Hgw.
    + apply wp_ret, wp_ret. apply parse_range in Hgw; [|done]. done.
    + apply wp_eprintf_rc. intros w1 _. by apply wp_ret.
  - by apply wp_ret.
  - by apply wp_eprintf_rc.
Qed.

Lemma wp_service_opts os s w : svc_post (inr s) w → wp (service_opts conv iconv use os s) svc_post w.
Proof.
  revert s w. induction os as [|o os IH]; intros s w Hw; cbn [service_opts]; [by apply wp_ret|].
  apply wp_bind. eapply wp_mono; [by apply wp_service_opt|]. intros [code|s1] w1 H1; [by apply wp_ret|by apply IH].
Qed.

Lemma wp_service_setup port os w :
  taps_wf w → u16_ok port → wp (service_setup conv iconv use port os) svc_post w.
Proof.
  intros Hw Hp. unfold service_setup. apply wp_bind. eapply wp_mono; [by apply wp_service_opts|].
  intros [code|s] w1 H1; [by apply wp_ret|]. destruct (_ =? 0); [by apply wp_eprintf_rc|]. destruct H1 as (Ht & Hsp & Hg).
  apply wp_bind. eapply wp_mono; [by apply wp_app_apply_gw|]. intros rc w2 [T2 _]. destruct (rc <? 0); by apply wp_ret.
Qed.
End starting.

Lemma wp_open_datagram port w : stack_wf w → u16_ok port → wp (open_datagram port) (fun _ w' => stack_wf w') w.
Proof.
  intros Hw Hp. unfold open_datagram. wp_step. eapply wp_mono; [by apply wp_pf_socket_wf|]. intros sock w1 Hw1.
  destruct (sock <? 0); [by wp_step|]. wp_step. eapply wp_mono; [apply wp_pf_bind_wf; [done|lia|done]|]. intros rc w2 Hw2.
  destruct (rc <? 0); by wp_step.
Qed.

Lemma wp_open_listener port w : stack_wf w → u16_ok port → wp (open_listener port) (fun _ w' => stack_wf w') w.
Proof.
  intros Hw Hp. unfold open_listener. wp_step. eapply wp_mono; [by apply wp_pf_socket_wf|]. intros sock w1 Hw1.
  destruct (sock <? 0); [by wp_step|]. wp_step. eapply wp_mono; [apply wp_pf_bind_wf; [done|lia|done]|]. intros rc w2 Hw2.
  destruct (rc <? 0); [by wp_step|]. wp_step. eapply wp_mono; [by apply wp_pf_listen_wf|]. intros rc2 w3 Hw3.
  destruct (rc2 <? 0); by wp_step.
Qed.

(** ** Properties *)

(** The HTTP server frames its answers correctly. Whatever the request,
    the header fits its buffer, and the Content-Length it announces is exactly
    the number of bytes that follow in the pieces sent after it: the landing
    page, or the blob of 2^20 bytes in chunks that fit theirs. *)
Theorem http_response_framing req :
  ∃ type body,
    http_response req = Ok (http_header type (zlen (concat body)) :: body) ∧
    zlen (http_header type (zlen (concat body))) < 256 ∧
    Forall (fun b => bytes_ok b ∧ 0 < zlen b ≤ CHUNK) body ∧
    (if has_prefix req "GET /blob" then zlen (concat body) = 2 ^ 20 else body = [PAGE]).
Proof.
  unfold http_response. destruct (http_body_ok (has_prefix req "GET /blob")) as [Hf Hl].
  rewrite http_header_fits. cbn [mbind result_bind]. fold (http_body (has_prefix req "GET /blob")).
  destruct (http_header_ok (has_prefix req "GET /blob")) as [_ Hh].
  eexists _, (http_body (has_prefix req "GET /blob")). rewrite Hl. split; [reflexivity|]. split; [exact Hh|].
  split; [exact Hf|]. clear Hl Hf Hh. destruct (has_prefix req "GET /blob"); reflexivity.
Qed.

(** The services never fault. Over an event loop whose rounds complete and
    keep the invariant of the stack: the UDP echo program, for every command
    line and whatever the system calls answer, either stops with exit code 1
    or serves turn after turn with the invariants intact; an HTTP exchange and
    a TCP echo session on any handle, valid or not, end with the invariants
    intact. In each case the run may instead still be waiting for the peer
    when the rounds run out. *)
Theorem services_safe conv iconv fuel poll argv0 os cs dumps now w :
  ScanConv conv → AtoiConv iconv → (∀ w, stack_wf w → wp poll (fun _ w' => stack_wf w') w) → loop_wf w →
  waits (udp_echo_serve fuel poll conv iconv argv0 os dumps)
    (fun r w' => match r with inl code => code = 1 | inr _ => loop_wf w' end) (fresh_app now) ∧
  waits (tcp_echo_session fuel poll cs dumps) (fun _ w' => loop_wf w') w ∧
  waits (on_stack (serve_client fuel poll cs)) (fun _ w' => loop_wf w') w.
Proof.
  intros Hc Ha Hp Hw. split; [|split; [by apply waits_tcp_echo_session|]].
  - unfold udp_echo_serve. apply waits_wp_bind.
    eapply wp_mono; [apply wp_service_setup; [done..|apply (se_taps _ _ (fresh_app_wf now))|lia]|].
    intros [code|s] w1 H1; [by apply waits_wp, wp_ret|]. destruct H1 as (Ht & Hsp & _).
    apply waits_wp_bind, wp_on_stack. eapply wp_mono; [apply wp_open_datagram; [apply Ht|done]|]. intros sock w2 Hw2.
    assert (loop_wf (w1 <| cw_world := w2 |>)) as Hl2 by (apply loop_wf_world; [apply Ht|done]).
    destruct (sock <? 0); [by apply waits_wp, wp_eprintf_rc|]. apply waits_wp_bind, wp_os_write. intros w3 Hs3.
    apply waits_bind. eapply waits_mono; [apply waits_udp_echo_loop; [done|by eapply loop_wf_same]|].
    intros [] w4 Hw4. by apply waits_wp, wp_ret.
  - apply waits_on_stack. unfold serve_client. apply waits_bind.
    eapply waits_mono; [apply waits_read_request; [done|apply Hw|by vm_compute]|]. intros [req|] w1 Hw1.
    2: { by apply waits_wp, wp_ret, loop_wf_world. }
    apply waits_wp_bind. destruct (http_pieces_ok (cstr req)) as (pieces & Hok & Hf).
    eapply wp_lift; [exact Hok|]. eapply waits_mono; [by apply waits_send_pieces|]. intros [] w2. by apply loop_wf_world.
Qed.

Lemma advances_wp p k w : advances p k → stack_wf w → wp p (fun _ w' => stack_wf w') w.
Proof. intros Hp Hw. destruct (Hp w Hw) as (w' & Hrun & Hw' & _). unfold wp. by rewrite Hrun. Qed.

Lemma services_safe_witness :
  waits (udp_echo_serve 3 (idle_round 10) glibc_conv glibc_iconv (str "udp_echo")
           [SvIf (demo_tap 5) (str "pf0,10.1.0.2/24"); SvPort (str "7")] [true; false])
    (fun r w' => match r with inl code => code = 1 | inr _ => loop_wf w' end) (fresh_app 5) ∧
  waits (on_stack (serve_client 3 (idle_round 10) 0)) (fun _ w' => loop_wf w') demo_loop.
Proof.
  destruct (services_safe glibc_conv glibc_iconv 3 (idle_round 10) (str "udp_echo")
    [SvIf (demo_tap 5) (str "pf0,10.1.0.2/24"); SvPort (str "7")] 0 [true; false] 5 demo_loop glibc_scan glibc_atoi
    (fun w Hw => advances_wp _ _ w (idle_round_advances 10) Hw) demo_loop_wf) as (H1 & _ & H3).
  exact (conj H1 H3).
Defined.

(** Reading when there are bytes, and sending what fits, in terms of the two
    ends of the stream. *)
Lemma wp_pf_recv_ready fuel poll sock cap timeout k c t (Q : stream_result → world → Prop) w :
  net_wf w → tcb_wf t → tcp_owner w sock k c t → 0 < tc_rcv_len t → 0 ≤ cap < 2 ^ 32 →
  (∀ w' t', tcb_step c w w' t' → tcb_wf t' → tc_active t' = tc_active t → tc_state t' = tc_state t →
     rcv_data t' = drop (Z.to_nat cap) (rcv_data t) → snd_data t' = snd_data t → tc_snd_len t' = tc_snd_len t →
     Q (StreamData (take (Z.to_nat cap) (rcv_data t))) w') →
  wp (pf_recv fuel poll sock cap timeout) Q w.
Proof.
  intros Hn Hwf [Hh Hkc Hc Ha] Hl Hcap HQ. unfold pf_recv. wp_step. eapply wp_tcp_sock_get; [done|].
  unfold timeout_deadline. do 3 wp_step. wp_step.
  destruct fuel; cbn [recv_loop]; wp_step; (eapply wp_get_sock; [apply Hh|]); rewrite Hkc; wp_step;
    (eapply wp_get_tcb; [done|]); rewrite (proj2 (Z.ltb_lt _ _) Hl); (eapply wp_recv_take; [done..|]);
    intros w' t' S Hw' Ha' Hs' _ Hr Hd Hsl; by eapply HQ.
Qed.

Lemma wp_pf_send_fits fuel poll sock buf k c t (Q : Z → world → Prop) w :
  net_wf w → tcb_wf t → tcp_owner w sock k c t → app_open (tc_state t) = true → bytes_ok buf →
  0 < zlen buf < 2 ^ 32 → zlen buf ≤ tcp_snd_space t →
  (∀ w' t', tcb_step c w w' t' → tcb_wf t' → snd_data t' = snd_data t ++ buf → rcv_data t' = rcv_data t → Q (zlen buf) w') →
  wp (pf_send (S (S fuel)) poll sock buf) Q w.
Proof.
  intros Hn Hwf [Hh Hkc Hc Ha] Ho Hb Hl Hsp HQ. unfold pf_send. wp_step. eapply wp_tcp_sock_get; [done|].
  eapply wp_send_round; [done|done|done|done|apply Hh|done|done|done|lia|]. rewrite Z.min_l by lia.
  intros w' t' S Hw' _ _ _ Hd Hr. rewrite take_ge in Hd by lia. rewrite drop_ge by lia.
  change (wp (mret (0 + zlen buf)) Q w'). wp_step. by eapply HQ.
Qed.

(** C29. The TCP echo server echoes. When received bytes are waiting on an
    open connection and the send ring has room for what one read takes, one
    turn of the session moves exactly those bytes, in order, from the receive
    end of the stream to the send end, behind what was queued before, and goes
    on with the session. *)
Theorem tcp_echo_turn_spec fuel poll cs dump k c t w :
  net_wf (cw_world w) → tcp_wf (w_socks (cw_world w)) (w_tcp (cw_world w)) → tcp_owner (cw_world w) cs k c t →
  app_open (tc_state t) = true → 0 < tc_rcv_len t → Z.min ECHO_BUF (tc_rcv_len t) ≤ tcp_snd_space t →
  ∃ w' t', tcp_echo_turn (S (S fuel)) poll cs dump w = Ok (true, w') ∧
    tcbs (cw_world w') = <[c:=t']> (tcbs (cw_world w)) ∧ tcb_wf t' ∧
    rcv_data t' = drop (Z.to_nat ECHO_BUF) (rcv_data t) ∧ snd_data t' = snd_data t ++ take (Z.to_nat ECHO_BUF) (rcv_data t).
Proof.
  intros Hn Hw Hown Ho Hl Hsp. pose proof Hown as [Hh Hkc Hc Ha]. pose proof (tcp_wf_active _ _ _ _ Hw Hc Ha) as Hwf.
  match goal with |- ∃ w' t', _ = Ok (?r, _) ∧ @?P w' t' =>
    cut (wp (tcp_echo_turn (S (S fuel)) poll cs dump) (fun x w' => x = r ∧ ∃ t', P w' t') w) end.
  { intros (x & w' & Hrun & -> & t' & HP)%wp_run. exists w', t'. by split. }
  unfold tcp_echo_turn. apply wp_bind, wp_poll_signals. intros w0 [E0 _]. apply wp_bind, wp_on_stack. rewrite E0.
  eapply wp_pf_recv_ready; [done|done|done|done|unfold ECHO_BUF; lia|]. intros w1 t1 S1 Hwf1 Ha1 Hs1 Hr1 Hd1 Hl1.
  pose proof (tb_rcv _ Hwf) as Hrw. pose proof (length_rcv_data _ Hrw) as Hrl.
  assert (zlen (take (Z.to_nat ECHO_BUF) (rcv_data t)) = Z.min ECHO_BUF (tc_rcv_len t)) as Htl
    by (rewrite length_take; unfold ECHO_BUF; lia).
  assert (0 < Z.min ECHO_BUF (tc_rcv_len t) < 2 ^ 32) as Hmin by (unfold ECHO_BUF; lia).
  rewrite (proj2 (Z.leb_gt _ _)) by lia. apply wp_bind, wp_on_stack.
  assert (tcp_owner w1 cs k c t1) as Hown1.
  { split; [|done|exact (tcb_step_lookup c _ w1 t t1 Hc S1)|congruence]. destruct Hh. split; [done| |done].
    by rewrite (tcp_step_socks c _ _ _ _ S1). }
  eapply wp_pf_send_fits; [apply S1|done|exact Hown1|by rewrite Hs1|apply Forall_take, ring_data_ok, Hrw|lia| |].
  { unfold tcp_snd_space in *. rewrite Hl1. lia. }
  intros w2 t2 S2 Hwf2 Hd2 Hr2. apply wp_ret. rewrite (proj2 (Z.ltb_ge _ 0)) by lia. split; [done|]. exists t2.
  split; [|split_and!; [done|congruence|congruence]].
  change (tcbs w2 = <[c:=t2]> (tcbs (cw_world w))). rewrite (ls_tcp _ _ _ _ (tcb_step_trans _ _ _ _ _ _ S1 S2)). done.
Qed.

(** A connection with [n] bytes in its receive ring. *)
Definition with_received (n : Z) (t : tcp_cb) : tcp_cb := t <| tc_rcv_head := 0 |> <| tc_rcv_len := n |>.

Lemma with_received_ready w sock k c t n :
  net_wf w → tcp_wf (w_socks w) (w_tcp w) → tcp_owner w sock k c t → 0 ≤ n ≤ TCP_RCVBUF →
  let t' := with_received n t in
  let w' := set_tcp w (put_tcb (w_tcp w) c t') in
  net_wf w' ∧ tcp_wf (w_socks w') (w_tcp w') ∧ tcp_owner w' sock k c t'.
Proof.
  intros Hn Hw [Hh Hk Hc Ha] Hr t' w'. assert (tcb_step c w w' t') as S by (by apply tcb_step_set).
  assert (tc_active t' = true) as Ha' by exact Ha.
  assert (slot_wf t') as Hs.
  { apply slot_wf_active; [exact Ha'|]. apply tcb_wf_take; [exact (tcp_wf_active _ _ _ _ Hw Hc Ha)|done|done]. }
  split; [apply S|]. split; [by apply tcp_wf_put|].
  split; [by destruct Hh|exact Hk|exact (tcb_step_lookup c w w' t t' Hc S)|exact Ha'].
Qed.

Definition demo_echo_state : cliw :=
  mk_cliw (set_tcp demo_tcp_world (put_tcb (w_tcp demo_tcp_world) 0 (with_received 5 demo_conn))) None [] [].

Lemma tcp_echo_turn_spec_witness :
  ∃ w', tcp_echo_turn 2 (idle_round 10) 0 true demo_echo_state = Ok (true, w').
Proof.
  destruct (with_received_ready demo_tcp_world 0 demo_sock 0 demo_conn 5 demo_tcp_net demo_tcp_wf demo_owner ltac:(vm_compute; split; discriminate))
    as (Hn & Hw & Ho).
  destruct (tcp_echo_turn_spec 0 (idle_round 10) 0 true demo_sock 0 (with_received 5 demo_conn) demo_echo_state
    Hn Hw Ho ltac:(vm_compute; reflexivity) ltac:(vm_compute; reflexivity)
    ltac:(vm_compute; discriminate)) as (w' & t' & H1 & _). exact (ex_intro _ w' H1).
Defined.

(** Sending from a bound socket. *)
Lemma wp_pf_sendto_bound sock k buf ip port w :
  stack_wf w → 0 ≤ sock < Z.of_nat PF_SOCK_MAX → socks w !! Z.to_nat sock = Some k → sk_type k = PF_SOCK_UDP →
  sk_local_port k ≠ 0 → port ≠ 0 → u32_ok ip → bytes_ok buf → 0 < zlen buf ≤ PKT_BUF_SIZE - PKT_TX_HEADROOM →
  wp (pf_sendto sock buf ip port) (fun _ w' => stack_wf w' ∧ erase_ip w = erase_ip w' ∧
    udp_output_post w (sk_local_ip k) (sk_local_port k) ip port buf w') w.
Proof.
  intros Hw Hr Hk Ht Hlp Hport Hip Hb Hl. unfold pf_sendto. wp_step.
  eapply wp_pf_sock_get; [done|done|by rewrite Ht|]. wp_step. eapply wp_get_sock; [done|].
  rewrite bool_decide_eq_true_2, (proj2 (Z.eqb_neq port 0)), (proj2 (Z.ltb_ge _ (zlen buf))) by (done || lia).
  cbn [negb orb]. wp_step. unfold sock_autobind. wp_step. eapply wp_get_sock; [done|].
  rewrite (proj2 (Z.eqb_neq (sk_local_port k) 0)) by done. wp_step. cbn [negb]. wp_step.
  eapply wp_lift; [apply pkt_reserve_tx|]. wp_step. rewrite (proj2 (Z.eqb_neq (zlen buf) 0)) by lia.
  destruct (tx_append_ok buf Hb) as (p & Hp & Hwf & Hpb & Hd & Hpl); [lia|]. eapply wp_lift; [exact Hp|].
  wp_step. eapply wp_get_sock; [done|]. destruct (sock_at_wf _ _ _ Hw Hk) as [[Hsip _ _ _] _].
  eapply wp_mono; [apply wp_udp_output; [apply Hw|done|done|done|rewrite Hd; done|lia]|].
  intros rc w' (E & Hn & Hpost). rewrite Hpb in Hpost. split; [|done]. eapply ip_wf_icmp; [exact Hw|frame|done].
Qed.

(** The UDP echo server echoes. When a datagram is queued on its socket,
    one turn takes it from the queue and sends IP exactly one datagram, from
    the socket's port to the datagram's sender, with the same data; the rest
    of the queue and every other socket stay as they are. *)
Theorem udp_echo_turn_spec fuel poll sock dump k p q w :
  loop_wf w → 0 ≤ sock < Z.of_nat PF_SOCK_MAX → socks (cw_world w) !! Z.to_nat sock = Some k →
  sk_type k = PF_SOCK_UDP → sk_local_port k ≠ 0 → sk_rxq k = p :: q →
  p_meta_port p ≠ 0 → 0 < p_len p ≤ PKT_BUF_SIZE - PKT_TX_HEADROOM →
  ∃ w', udp_echo_turn fuel poll sock dump w = Ok ((), w') ∧ loop_wf w' ∧
    socks (cw_world w') = <[Z.to_nat sock := k <| sk_rxq := q |>]> (socks (cw_world w)) ∧
    udp_output_post (set_socks (cw_world w) (put_sock (w_socks (cw_world w)) (Z.to_nat sock) (k <| sk_rxq := q |>)))
      (sk_local_ip k) (sk_local_port k) (p_meta_ip p) (p_meta_port p) (pkt_bytes p) (cw_world w').
Proof.
  intros Hw Hr Hk Ht Hlp Hq Hport Hl. set (k' := k <| sk_rxq := q |>). set (w1 := set_socks _ _).
  destruct (sock_at_wf _ _ _ (lo_stack _ Hw) Hk) as [Hkw Hc].
  destruct (sock_wf_pop k p q Hkw Hq) as [[Hpwf Hip] Hk'].
  assert (stack_wf w1) as Hw1.
  { apply stack_wf_set_socks; [apply Hw|]. apply tcp_wf_put_sock; [apply Hw|done|done]. }
  assert (socks w1 !! Z.to_nat sock = Some k') as Hk1.
  { apply list_lookup_insert_eq. by eapply lookup_lt_Some. }
  pose proof (length_pkt_bytes p Hpwf) as Hlb.
  enough (wp (udp_echo_turn fuel poll sock dump) (fun _ w' => loop_wf w' ∧
    socks (cw_world w') = socks w1 ∧ udp_output_post w1 (sk_local_ip k) (sk_local_port k)
      (p_meta_ip p) (p_meta_port p) (pkt_bytes p) (cw_world w')) w) as H.
  { destruct (wp_run _ _ _ H) as ([] & w' & Hrun & ?). eauto. }
  pose proof (pf_recvfrom_fifo fuel (Some poll) sock PKT_BUF_SIZE 200 (cw_world w) k Hr Hk Ht) as Hrecv.
  rewrite Hq in Hrecv. fold k' w1 in Hrecv.
  unfold udp_echo_turn. apply wp_bind, wp_on_stack. unfold wp at 1. rewrite Hrecv.
  apply wp_bind, wp_poll_signals. intros w2 [E2 Ec2].
  assert (take (Z.to_nat (Z.min (p_len p) PKT_BUF_SIZE)) (pkt_bytes p) = pkt_bytes p) as ->.
  { apply take_ge. pose proof (wf_fits _ Hpwf). pose proof (wf_data _ Hpwf). wrap_lia. }
  rewrite (proj2 (Z.leb_gt _ _)) by lia. apply wp_bind, wp_on_stack. rewrite E2.
  eapply wp_mono; [eapply (wp_pf_sendto_bound sock k'); [done|done|exact Hk1|done|done|done|done|by apply pkt_bytes_ok|lia]|].
  intros rc w3 (Hw3 & E3 & Hpost). apply wp_ret.
  split; [split; [done|]; change (∀ c, cw_cli w2 = Some c → cli_wf c); rewrite Ec2; apply Hw|]. split; [|exact Hpost].
  pose proof (erase_icmp_proj _ _ (erase_ip_icmp _ _ E3)) as (_ & _ & _ & Es & _). change (socks w3 = socks w1). by rewrite <- Es.
Qed.

(** A bound socket with one datagram queued. *)
Definition demo_queued : pkt := mk_rx [104; 105] <| p_meta_ip := 0x0a000002 |> <| p_meta_port := 5000 |>.
Definition demo_udp_sock : pf_sock := mk_sock PF_SOCK_UDP 0 7 [demo_queued] None 0.

Definition demo_udp_state : cliw :=
  mk_cliw (set_socks demo_tcp_world (put_sock (w_socks demo_tcp_world) 1 demo_udp_sock)) None [] [].

Lemma demo_queued_wf : pkt_wf demo_queued.
Proof. destruct (mk_rx_wf [104; 105]) as [[] _]; [solve_bytes_ok|cbn [length]; lia|]. by split. Qed.

Lemma demo_udp_wf : loop_wf demo_udp_state.
Proof.
  split; [|done]. apply stack_wf_set_socks; [exact demo_tcp_stack_wf|].
  apply tcp_wf_put_sock; [exact demo_tcp_wf| |done]. split; [cbn; lia| |cbn; wrap_lia|done].
  apply Forall_singleton. split; [exact demo_queued_wf|cbn; lia].
Qed.

Lemma udp_echo_turn_spec_witness :
  ∃ w', udp_echo_turn 0 (idle_round 10) 1 true demo_udp_state = Ok ((), w') ∧ loop_wf w'.
Proof.
  destruct (udp_echo_turn_spec 0 (idle_round 10) 1 true demo_udp_sock demo_queued [] demo_udp_state demo_udp_wf
    ltac:(unfold PF_SOCK_MAX; lia) ltac:(vm_compute; reflexivity) eq_refl ltac:(discriminate) eq_refl
    ltac:(discriminate)
    ltac:(vm_compute; split; [reflexivity|discriminate])) as (w' & H1 & H2 & _).
  exact (ex_intro _ w' (conj H1 H2)).
Defined.
