(* ===== verification/Fuzz.v ===== *)
(** * The fuzz harness

    Models [fuzz/parse_harness.c]: the two-interface forwarding stack with its
    listeners, one frame fed to it, and the loop over the test cases. The
    harness has its own clock, which moves on with every query; its readings
    are arguments here, one while a frame is handled and one for the tick. *)

From stdpp Require Import pretty.
From S2P Require Import Prelude Pf Checksum Pkt Fib Headers Stats Stack Link Arp IpOut Icmp Reass Sock.
From S2P Require Import Udp Tcb TcpOut Tcp TcpInput TcpTimer TcpSock Fwd Input Core Text Cli Loop Stream Run.
Import Checksum Pkt Fib Stats.

(** ** Operations *)

Definition null_tx (frame : bytes) : Z := 0.

(** [devs[i]], as it joins the stack. *)
Definition fuzz_dev (i : Z) : netdev :=
  mk_netdev ("fz" +:+ pretty i) 0 [0x02; 0; 0; 0; 0; u8 (0x10 + i)] 0 0 1500 true null_tx (mk_ndst 0 0 0 0 0 0).

Definition fuzz_addr (i : Z) : Z := u32 (0x0a010002 + u32 (Z.shiftl i 16)).

Definition stack_setup : PF () :=
  upd_stack pf_stack_fini;;
  upd_stack (fun _ => pf_stack_init);;
  upd_stack (set_field ps_forwarding (fun _ => true));;
  for_each [0; 1] (fun i =>
    ignore (pf_stack_add_dev (fuzz_dev i));;
    pf_if_set_addr (Z.to_nat i) (fuzz_addr i) 0xffffff00);;
  upd_stack (set_field ps_fib (fun f => (fib_add_via f 0xac100000 16 0x0a020001).1));;
  us ← pf_socket PF_SOCK_UDP;
  ignore (pf_bind us 0 7);;
  ts ← pf_socket PF_SOCK_TCP;
  ignore (pf_bind ts 0 7);;
  ignore (pf_listen ts 4).

(** One test case: what [read] returns and puts in the buffer, and the clock. *)
Record testcase := mk_case { fc_len : Z; fc_buf : bytes; fc_now : Z; fc_tick : Z }.

Definition feed_pkt (now : Z) (data : bytes) : result pkt :=
  p ← pkt_append pkt_alloc data;
  Ok (p <| p_dev := Some 0%nat |> <| p_ts_ms := now |>).

Definition feed (c : testcase) (data : bytes) : PF () :=
  let len := zlen data in
  if (len =? 0) || (PKT_BUF_SIZE - PKT_RX_OFFSET <? len) then mret ()
  else
    set_now (fc_now c);;
    p ← lift (feed_pkt (fc_now c) data);
    eth_input 0 p;;
    set_now (fc_tick c);;
    pf_tick (fc_tick c).

(** [while (__AFL_LOOP(10000))]: one iteration per test case. *)
Fixpoint fuzz_loop (iter : Z) (cases : list testcase) : PF () :=
  match cases with
  | [] => mret ()
  | c :: cases =>
      when (0 <? fc_len c) (feed c (take (Z.to_nat (fc_len c)) (fc_buf c)));;
      let iter := iter + 1 in
      when (iter `mod` 256 =? 0) stack_setup;;
      fuzz_loop iter cases
  end.

Definition fuzz_main (cases : list testcase) : PF Z :=
  stack_setup;;
  fuzz_loop 0 cases;;
  upd_stack pf_stack_fini;;
  mret 0.

(** ** The harness's stack *)

(** What the loop keeps: the invariant of the stack, and the device frames
    arrive on. *)
Definition fuzz_wf (w : world) : Prop := stack_wf w ∧ (0 < length (devs w))%nat.

Lemma fuzz_wf_step w w' : fuzz_wf w → in_step w w' → fuzz_wf w'.
Proof. intros [_ Hd] S. split; [apply S|by eapply in_step_dev]. Qed.

Lemma fuzz_wf_now w now : fuzz_wf w → fuzz_wf (w <| w_now := now |>).
Proof. intros []. split; [by apply stack_wf_now|done]. Qed.

Lemma stack_wf_wire w l : stack_wf w → stack_wf (w <| w_wire := l |>).
Proof. intros [[[] ? ?] ? ?]. by split. Qed.

Lemma stack_wf_forwarding w b :
  stack_wf w → stack_wf (w <| w_stack ::= set_field ps_forwarding (fun _ => b) |>).
Proof. intros [[[] ? ?] ? ?]. by split. Qed.

Lemma fuzz_dev_wf i : dev_wf (fuzz_dev i).
Proof. split; cbn; try wrap_lia. split; [done|]. solve_bytes_ok. Qed.

(** Opening sockets leaves the devices alone. *)
Definition keeps_devs {A} (m : PF A) : Prop := ∀ w a w', m w = Ok (a, w') → devs w' = devs w.

Lemma keeps_ret {A} (a : A) : keeps_devs (mret a).
Proof. by intros w b w' [= _ ->]. Qed.

Lemma keeps_bind {A B} (m : PF A) (f : A → PF B) :
  keeps_devs m → (∀ a, keeps_devs (f a)) → keeps_devs (m ≫= f).
Proof.
  intros Hm Hf w b w' H. unfold mbind, M_bind in H. destruct (m w) as [[a w1]|] eqn:E; [|done].
  rewrite (Hf _ _ _ _ H). by eapply Hm.
Qed.

Lemma keeps_lift {A} (r : result A) : keeps_devs (lift r).
Proof. intros w a w' H. unfold lift in H. destruct r; [|done]. by injection H as _ ->. Qed.

Lemma keeps_get {A} (f : pf_stack → A) : keeps_devs (get_stack f).
Proof. by intros w a w' [= _ ->]. Qed.

Lemma keeps_upd f : (∀ s, ps_devs (f s) = ps_devs s) → keeps_devs (upd_stack f).
Proof. intros Hf w a w' [= _ <-]. apply Hf. Qed.

Create HintDb keeps.
#[local] Hint Resolve keeps_ret keeps_lift keeps_get : keeps.
#[local] Hint Extern 1 (keeps_devs (upd_stack _)) => by apply keeps_upd : keeps.
#[local] Hint Extern 2 (keeps_devs (_ ≫= _)) => apply keeps_bind; [|intros ?] : keeps.
#[local] Hint Extern 3 (keeps_devs (if ?b then _ else _)) => destruct b : keeps.
#[local] Hint Extern 3 (keeps_devs (match ?b with _ => _ end)) => destruct b : keeps.
#[local] Hint Extern 4 (keeps_devs _) => progress autounfold with keeps : keeps.
#[local] Hint Unfold get_sock upd_sock get_tcb upd_tcb pf_sock_get pf_sock_port_in_use tcp_sock_get tcb_alloc
  tcp_open_listen ignore : keeps.

Lemma keeps_socket type : keeps_devs (pf_socket type).
Proof. unfold pf_socket. auto 20 with keeps. Qed.

Lemma keeps_bind_sock sock ip port : keeps_devs (ignore (pf_bind sock ip port)).
Proof. unfold pf_bind. auto 20 with keeps. Qed.

Lemma keeps_listen sock backlog : keeps_devs (ignore (pf_listen sock backlog)).
Proof. unfold pf_listen. auto 30 with keeps. Qed.

(** An operation with a specification for the invariant, and that keeps the
    devices. *)
Lemma wp_fuzz_keeps {A} (m : PF A) (Q : A → world → Prop) w :
  fuzz_wf w → wp m (fun _ w' => stack_wf w') w → keeps_devs m → (∀ a w', fuzz_wf w' → Q a w') → wp m Q w.
Proof.
  intros [_ Hd] H K HQ. destruct (wp_run _ _ _ H) as (a & w' & E & Hw'). unfold wp. rewrite E. apply HQ.
  split; [done|]. by rewrite (K _ _ _ E).
Qed.

Lemma wp_fuzz_dev i w :
  stack_wf w → length (devs w) = Z.to_nat i → 0 ≤ i < PF_MAX_DEVS →
  wp (ignore (pf_stack_add_dev (fuzz_dev i));; pf_if_set_addr (Z.to_nat i) (fuzz_addr i) 0xffffff00)
    (fun _ w' => stack_wf w' ∧ length (devs w') = S (Z.to_nat i)) w.
Proof.
  intros Hw Hl Hi. wp_step. unfold ignore. wp_step.
  eapply wp_mono; [apply wp_pf_stack_add_dev; [done|apply fuzz_dev_wf]|]. intros r w1 [Hw1 H1].
  destruct (Z.leb_spec PF_MAX_DEVS (zlen (devs w))); [lia|]. destruct H1 as (_ & Hd1 & _). wp_step.
  assert (length (devs w1) = S (Z.to_nat i)) as Hl1 by (rewrite Hd1, length_app; cbn; lia).
  eapply wp_mono; [apply wp_pf_if_set_addr; [done|lia|apply u32_range|lia]|]. intros [] w2 (Hw2 & Hd2 & _).
  split; [done|]. by rewrite Hd2, length_alter.
Qed.

Lemma wp_stack_setup w : wp stack_setup (fun _ w' => fuzz_wf w') w.
Proof.
  unfold stack_setup. wp_step. apply wp_modify. wp_step. apply wp_modify. wp_step. apply wp_modify.
  set (w0 := _ <| w_stack ::= _ |>). assert (stack_wf w0) as Hw0.
  { apply stack_wf_forwarding. exact (stack_wf_wire _ (w_wire w) (pf_stack_init_wf (w_now w))). }
  assert (length (devs w0) = 0%nat) as Hl0 by done. clearbody w0. wp_step. cbn [for_each].
  wp_step. eapply wp_mono; [by apply (wp_fuzz_dev 0)|]. intros [] w1 [Hw1 Hl1].
  wp_step. eapply wp_mono; [by apply (wp_fuzz_dev 1)|]. intros [] w2 [Hw2 Hl2]. wp_step.
  wp_step. apply wp_modify. assert (fuzz_wf (w2 <| w_stack ::= set_field ps_fib
    (fun f => (fib_add_via f 0xac100000 16 0x0a020001).1) |>)) as Hw3.
  { split; [|cbn; lia]. apply stack_wf_set_fib; [done|]. apply fib_add_via_ok_devs; [apply Hw2|lia|lia]. }
  revert Hw3. generalize (w2 <| w_stack ::= set_field ps_fib (fun f => (fib_add_via f 0xac100000 16 0x0a020001).1) |>).
  clear. intros w Hw.
  wp_step. apply wp_fuzz_keeps; [done|apply wp_pf_socket_wf, Hw|apply keeps_socket|]. intros us w1 Hw1.
  wp_step. apply wp_fuzz_keeps; [done|apply wp_ignore, wp_pf_bind_wf; [apply Hw1|lia|lia]|apply keeps_bind_sock|].
  intros [] w2 Hw2.
  wp_step. apply wp_fuzz_keeps; [done|apply wp_pf_socket_wf, Hw2|apply keeps_socket|]. intros ts w3 Hw3.
  wp_step. apply wp_fuzz_keeps; [done|apply wp_ignore, wp_pf_bind_wf; [apply Hw3|lia|lia]|apply keeps_bind_sock|].
  intros [] w4 Hw4.
  apply wp_fuzz_keeps; [done|apply wp_ignore, wp_pf_listen_wf, Hw4|apply keeps_listen|done].
Qed.

(** ** Test cases *)

Definition case_frame (c : testcase) : bytes := take (Z.to_nat (fc_len c)) (fc_buf c).

(** The buffer holds bytes, and the frame no oversized ICMP message. *)
Definition case_ok (c : testcase) : Prop :=
  bytes_ok (fc_buf c) ∧ ∀ p, feed_pkt (fc_now c) (case_frame c) = Ok p → frame_bounded p.

Lemma wp_feed c w : fuzz_wf w → case_ok c → wp (feed c (case_frame c)) (fun _ w' => fuzz_wf w') w.
Proof.
  intros Hw [Hb Hf]. assert (bytes_ok (case_frame c)) as Hb' by by apply Forall_take.
  unfold feed. revert Hf Hb'. generalize (case_frame c) as data. intros data Hf Hd.
  destruct ((zlen data =? 0) || (PKT_BUF_SIZE - PKT_RX_OFFSET <? zlen data)) eqn:Hr; [by wp_step|].
  apply orb_false_iff in Hr as [_ Hr%Z.ltb_ge].
  destruct (pkt_append_ok pkt_alloc data) as (p & Hp & Hwf & _); [apply pkt_alloc_wf|done|cbn; wrap_lia|].
  wp_step. apply wp_modify. apply fuzz_wf_now with (now := fc_now c) in Hw.
  assert (feed_pkt (fc_now c) data = Ok (p <| p_dev := Some 0%nat |> <| p_ts_ms := fc_now c |>)) as Hfp
    by (unfold feed_pkt; by rewrite Hp).
  wp_step. eapply wp_lift; [exact Hfp|]. destruct (lookup_lt_is_Some_2 _ _ (proj2 Hw)) as [nd Hnd].
  wp_step. eapply wp_mono; [eapply wp_eth_input; [apply Hw|by apply dev_at_of_lookup| |by apply Hf]|].
  { by destruct Hwf. }
  intros [] w1 S1. wp_step. apply wp_modify.
  assert (fuzz_wf (w1 <| w_now := fc_tick c |>)) as Hw1 by (apply fuzz_wf_now; by eapply fuzz_wf_step).
  eapply wp_mono; [apply wp_pf_tick, Hw1|]. intros [] w2 S2. exact (fuzz_wf_step _ _ Hw1 S2).
Qed.

Lemma wp_fuzz_loop iter cases w :
  fuzz_wf w → Forall case_ok cases → wp (fuzz_loop iter cases) (fun _ w' => fuzz_wf w') w.
Proof.
  revert iter w. induction cases as [|c cases IH]; intros iter w Hw Hc; cbn [fuzz_loop]; [by wp_step|].
  apply Forall_cons in Hc as [Hc Hcs]. fold (case_frame c).
  wp_step. eapply wp_mono; [apply (wp_when _ _ (fun _ w' => fuzz_wf w')); [by intros; apply wp_feed|done]|].
  intros [] w1 Hw1. wp_step.
  eapply wp_mono; [apply (wp_when _ _ (fun _ w' => fuzz_wf w')); [intros _; apply wp_stack_setup|done]|].
  intros [] w2 Hw2. by apply IH.
Qed.

(** ** Release *)

(** Nothing that was allocated is held any more. *)
Record all_released (s : pf_stack) : Prop := {
  rs_arp : Forall (fun e => ae_waitq e = []) (ps_arp s);
  rs_reass : Forall (fun c => rc_in_use c = false) (ps_reass s);
  rs_socks : Forall (fun k => sk_rxq k = []) (st_socks (ps_socks s));
  rs_tcbs : Forall (fun t => tc_active t = false) (tg_tcbs (ps_tcp s));
  rs_fib : ps_fib s = fib_init;
}.

Lemma pf_stack_fini_released s : all_released (pf_stack_fini s).
Proof.
  split.
  - apply Forall_fmap, Forall_true. done.
  - apply Forall_fmap, Forall_true. intros c. unfold compose. by destruct (rc_in_use c) eqn:E.
  - apply Forall_fmap, Forall_true. done.
  - apply Forall_fmap, Forall_true. intros t. unfold compose. by destruct (tc_active t) eqn:E.
  - done.
Qed.

(** ** Properties *)

(** C21. The fuzz harness never fails. From any memory, for every sequence of
    test cases and whatever its clock reads, [main] returns 0 with everything
    the stack had allocated released: no frame, alone or after the others,
    trips an assertion, reaches outside a buffer or loops. Frames that carry
    an ICMP message too long to be answered are left out. *)
Theorem fuzz_main_safe cases w :
  Forall case_ok cases → ∃ w', fuzz_main cases w = Ok (0, w') ∧ all_released (w_stack w').
Proof.
  intros Hc. enough (wp (fuzz_main cases) (fun r w' => r = 0 ∧ all_released (w_stack w')) w) as H.
  { destruct (wp_run _ _ _ H) as (r & w' & E & -> & Hr). by exists w'. }
  unfold fuzz_main. wp_step. eapply wp_mono; [apply wp_stack_setup|]. intros [] w1 Hw1.
  wp_step. eapply wp_mono; [by apply wp_fuzz_loop|]. intros [] w2 _. wp_step. apply wp_modify. wp_step.
  split; [done|]. apply pf_stack_fini_released.
Qed.

(** ** Witnesses *)

(** A frame from a host on the first network to the harness. *)
Definition fuzz_case (proto : Z) (payload : bytes) : testcase :=
  let frame := eth_frame (nd_mac (fuzz_dev 0)) [2; 0; 0; 0; 0; 0x99] ETH_TYPE_IP4
                 (ip_datagram 0x0a010001 (fuzz_addr 0) proto 64 1 0 payload) in
  mk_case (zlen frame) frame 3 9.

Definition fuzz_world : world := mk_world pf_stack_init 0 [].

Definition fuzz_udp : testcase := fuzz_case IP_PROTO_UDP (udp_message 0x0a010001 5000 (fuzz_addr 0) 7 [104; 105]).

Definition fuzz_ping (n : nat) : testcase :=
  fuzz_case IP_PROTO_ICMP (icmp_message (mk_icmp ICMP_TYPE_ECHO_REQUEST 0 0 7) (replicate n 0x61)).

Example fuzz_udp_queued :
  match (stack_setup;; fuzz_loop 0 [fuzz_udp]) fuzz_world with
  | Ok (_, w) => (fun k => pkt_bytes <$> sk_rxq k) <$> socks w !! 0%nat = Some [[104; 105]]
  | Err _ => False
  end.
Proof. vm_compute. reflexivity. Qed.

Example fuzz_ping_aborts : fuzz_main [fuzz_ping 3961] fuzz_world = Err AssertFailed.
Proof. vm_compute. reflexivity. Qed.

Lemma fuzz_udp_ok : case_ok fuzz_udp.
Proof.
  split; [vm_compute; solve_bytes_ok|]. intros p Hp q Hq p' ih Hc Hproto. exfalso. revert Hproto.
  assert ((feed_pkt 3 (case_frame fuzz_udp) ≫= (fun p => pkt_pull p ETH_HDR_LEN ≫= ip_check)) = Ok (inr (p', ih))) as H.
  { change 3 with (fc_now fuzz_udp). rewrite Hp. cbn [mbind result_bind]. by rewrite Hq. }
  assert (∃ x, (feed_pkt 3 (case_frame fuzz_udp) ≫= (fun p => pkt_pull p ETH_HDR_LEN ≫= ip_check)) = Ok (inr x) ∧
               ih_proto x.2 = IP_PROTO_UDP)
    as (x & Hx & Ex) by (eexists; split; [vm_compute; reflexivity|reflexivity]).
  rewrite Hx in H. injection H as ->. cbn [snd] in Ex. rewrite Ex. done.
Qed.

Lemma fuzz_main_safe_witness : ∃ w', fuzz_main [fuzz_udp; fuzz_udp] fuzz_world = Ok (0, w') ∧ all_released (w_stack w').
Proof.
  exact (fuzz_main_safe [fuzz_udp; fuzz_udp] fuzz_world
    (Forall_cons_2 _ _ _ fuzz_udp_ok (Forall_cons_2 _ _ _ fuzz_udp_ok (Forall_nil_2 _)))).
Defined.
