(* ===== verification/Findings.v ===== *)
(** * Divergences

    Places where the code does not do what it means to, each shown on the
    model of the code as it is: what the step does instead. Three more are
    beside the functions they are about: [Icmp.icmp_echo_overflow],
    [Text.ip4_parse_lenient] and [Cli.exit_by_prefix]. *)

From S2P Require Import Prelude Pf Checksum Pkt Fib Headers Stats Stack Link Arp IpOut Icmp Reass Sock.
From S2P Require Import Tcb TcpOut Tcp TcpInput TcpTimer TcpSock Cli.
Import Checksum Pkt Fib Stats.

(** ** Accept queue *)

(** Releasing a connection that waits in its listener's accept queue leaves
    it there ([tcp/tcp.c], [tcb_free]): the queue then names a released
    block, which [pf_accept] takes. *)
Theorem accept_queue_stale w i t l lt :
  net_wf w → tcp_wf (w_socks w) (w_tcp w) → tcbs w !! i = Some t → tc_state t ≠ TCP_LISTEN →
  l ≠ i → tcbs w !! l = Some lt → i ∈ tc_acceptq lt →
  ∃ w' lt', tcb_free i w = Ok ((), w') ∧ tcbs w' !! i = Some zero_tcb ∧ tcbs w' !! l = Some lt' ∧ i ∈ tc_acceptq lt'.
Proof.
  intros Hn Hw Hi Hs Hne Hl Hq. cut (wp (tcb_free i) (fun _ w' => tcbs w' = <[i:=zero_tcb]> (tcbs w)) w).
  { intros ([] & w' & Hrun & E)%wp_run. exists w', lt. rewrite E. pose proof (lookup_lt_Some _ _ _ Hi).
    split_and!; [done|by apply list_lookup_insert_eq|by rewrite list_lookup_insert_ne|done]. }
  eapply wp_tcb_free_conn; [done..|]. intros w' H. by rewrite (ls_tcp _ _ _ _ H).
Qed.

(** ** Closing before the handshake completes *)

(** A connection of a socket in SYN-RCVD, its SYN out, nothing queued. *)
Definition demo_opening : world :=
  set_tcp demo_tcp_world (put_tcb demo_tcp 0
    (demo_conn <| tc_state := TCP_SYN_RCVD |> <| tc_iss := 4999 |> <| tc_snd_una := 4999 |> <| tc_snd_len := 0 |>)).

(** The send state of connection 0 after a step. *)
Definition snd_after (r : result (() * world)) : option (tcp_state * Z * bool * Z) :=
  match r with
  | Ok (_, w) => (fun t => (tc_state t, tc_snd_len t, tc_fin_sent t, snd_flight t)) <$> tcbs w !! 0%nat
  | Err _ => None
  end.

(** [tcp_app_close] there makes [tcp_output] take the unacknowledged SYN for
    data: what is available wraps around, and bytes that were never queued
    fill the window of the peer. *)
Lemma close_syn_rcvd_wraps :
  snd_after (tcp_app_close 0 demo_opening) = Some (TCP_FIN_WAIT_1, 0, false, 1000).
Proof. vm_compute. reflexivity. Qed.

(** ** TIME-WAIT *)

(** The FIN of the peer, sent again, ends just before [rcv_nxt]. It is
    outside the window and only acknowledged; the deadline of TIME-WAIT is not
    moved ([tcp/tcp.c], segment arrival, eighth step). *)
Theorem timewait_fin_ignored w i t s now :
  net_wf w → tcbs w !! i = Some t → tcb_wf t → tc_state t = TCP_TIME_WAIT →
  flag_set s TCP_FIN = true → flag_set s TCP_SYN = false → flag_set s TCP_RST = false →
  sg_seq s = u32 (tc_rcv_nxt t - 1) → sg_payload s = [] →
  ∃ w', tcp_input_sync i s now w = Ok ((), w') ∧ tcbs w' = <[i:=tcp_seg_sent TCP_ACK t]> (tcbs w) ∧
    tc_timewait_deadline (tcp_seg_sent TCP_ACK t) = tc_timewait_deadline t.
Proof.
  intros Hn Hi Hwf Hst Hfin Hsyn Hrst Hseq Hp. pose proof (rv_nxt _ (tb_rcv _ Hwf)) as Hr.
  assert (tcp_acceptable t s = false) as Hacc.
  { unfold tcp_acceptable, sg_seqlen, sg_paylen. rewrite Hsyn, Hfin, Hp, Hseq. cbn [length].
    change (Z.of_nat 0 + 0 + 1 =? 0) with false. cbv beta iota zeta. apply andb_false_iff. right. apply orb_false_iff.
    split; apply andb_false_iff; left; apply not_true_iff_false; rewrite seq_ge_iff; wrap_lia. }
  cut (wp (tcp_input_sync i s now) (fun _ w' => tcbs w' = <[i:=tcp_seg_sent TCP_ACK t]> (tcbs w)) w).
  { intros ([] & w' & Hrun & E)%wp_run. by exists w'. }
  unfold tcp_input_sync. wp_step. eapply wp_get_tcb; [done|]. rewrite Hacc, Hrst. cbn [negb]. wp_step.
  apply wp_stat_inc. intros w1 E1 _ _.
  pose proof (tcb_step_same i w w1 t Hi ltac:(by eapply net_wf_tx) E1) as S1.
  eapply wp_tcp_send_ctl; [apply S1|exact (tcb_step_lookup i w w1 t t Hi S1)|done|by vm_compute|].
  intros w2 S2 _. by rewrite (ls_tcp _ _ _ _ (tcb_step_trans _ _ _ _ _ _ S1 S2)).
Qed.

(** ** Connecting *)

(** [pf_connect] accepts only ESTABLISHED. A connection that the peer has
    already half-closed, in CLOSE-WAIT, counts as not connected: at the
    deadline it is aborted and the call reports a time-out. *)
Theorem connect_close_wait_aborts w fuel poll i k c t deadline :
  net_wf w → tcp_wf (w_socks w) (w_tcp w) → socks w !! i = Some k → sk_tcb k = Some c →
  tcbs w !! c = Some t → tc_active t = true → tc_state t = TCP_CLOSE_WAIT → deadline ≤ w_now w →
  ∃ w', connect_wait fuel poll i deadline w = Ok (-2, w') ∧ states w' = <[c:=TCP_CLOSED]> (states w).
Proof.
  intros Hn Hw Hk Hc Ht Ha Hst Hd.
  cut (wp (connect_wait fuel poll i deadline) (fun rc w' => rc = -2 ∧ states w' = <[c:=TCP_CLOSED]> (states w)) w).
  { intros (rc & w' & Hrun & -> & E)%wp_run. by exists w'. }
  pose proof (live_refl _ _ _ Hn Hw Ht Ha) as L.
  destruct fuel; cbn [connect_wait]; wp_step; (eapply wp_get_sock; [done|]); rewrite Hc; wp_step;
    (eapply wp_get_live; [exact L|]); rewrite Hst, bool_decide_eq_false_2 by done; cbv zeta;
    wp_step; wp_step; rewrite (proj2 (Z.leb_le _ _) Hd); wp_step; (eapply wp_get_sock; [done|]); rewrite Hc;
    wp_step; wp_step; (eapply wp_abort_live; [exact L|by rewrite Hst|]); intros w1 [M1 M2 M3 M4];
    (destruct (socks w1 !! i) as [k1|] eqn:Hk1;
     [|apply lookup_ge_None in Hk1; rewrite (tw_len _ (tp_socktab _ _ M3)) in Hk1; apply lookup_lt_Some in Hk;
       rewrite (tw_len _ (tp_socktab _ _ Hw)) in Hk; lia]);
    (eapply wp_upd_sock; [exact Hk1|]); wp_step; done.
Qed.

(** ** Fragmentation *)

Lemma bind_Ok {W A B} (m : M W A) (f : A → M W B) w r :
  (m ≫= f) w = Ok r → ∃ a w', m w = Ok (a, w') ∧ f a w' = Ok r.
Proof. unfold mbind, M_bind. destruct (m w) as [[a w']|]; [eauto|done]. Qed.

(** On a device with an MTU of 20 to 27 no payload fits a fragment, and the
    loop of [ip_output] sends empty fragments for ever: no number of rounds
    ends it. *)
Theorem small_mtu_no_progress mtu :
  20 ≤ mtu < 28 →
  let max_chunk := u16 (Z.land (u32 (mtu - IPV4_HDR_MIN)) (u32 (Z.lnot 7))) in
  ∀ fuel dev next_hop src dst proto ttl id p off rc w r,
    0 ≤ off < p_len p → p_len p < 65536 →
    ip_frag_loop fuel dev next_hop src dst proto ttl id max_chunk p off rc w ≠ Ok r.
Proof.
  intros Hm. cbv zeta. assert (u16 (Z.land (u32 (mtu - IPV4_HDR_MIN)) (u32 (Z.lnot 7))) = 0) as ->.
  { assert (mtu = 20 ∨ mtu = 21 ∨ mtu = 22 ∨ mtu = 23 ∨ mtu = 24 ∨ mtu = 25 ∨ mtu = 26 ∨ mtu = 27) as Hc by lia.
    by destruct_or! Hc; subst. }
  induction fuel as [|fuel IH]; intros dev next_hop src dst proto ttl id p off rc w r Hoff Hp; cbn [ip_frag_loop]; [done|].
  rewrite (proj2 (Z.ltb_lt _ _)) by lia. cbv zeta.
  replace (Z.min 0 (u16 (p_len p - off))) with 0 by wrap_lia.
  replace (u16 (off + 0)) with off by wrap_lia. rewrite Z.add_0_r.
  intros Hr. repeat (apply bind_Ok in Hr as (? & ? & _ & Hr)). by eapply IH.
Qed.

(** ** Command-line output *)

(** Output of 1024 characters or more is cut to 1023 and a NUL. *)
Theorem cli_printf_nul fd s w :
  1024 ≤ zlen s → cli_printf fd s w = os_write fd (take 1023 s ++ [0]) w.
Proof.
  intros Hs. unfold cli_printf, cli_text. by rewrite (proj2 (Z.ltb_lt 0 _)), (proj2 (Z.ltb_ge _ _)) by lia.
Qed.
